(* ===== verification/_CoqProject ===== *)
-Q . S2P
Prelude.v
Near.v
HosCommon.v
Interfaces.v
Demo.v
ActiveSigner.v
RecoveryProof.v
MpcRecovery.v
HosExtension.v
TlaManager.v
TestFt.v
TestMpc.v
RecoveryWorld.v
RegistryTypes.v
RegistryState.v
RegistryMother.v
RegistryMarket.v
RegistryRental.v
RegistryReclaim.v
RegistryAdmin.v
RegistryViews.v
RegistryDemo.v
RegistryInvariant.v
RegistrySale.v
RegistryNames.v
RegistryWorld.v
RegistrySolvency.v
RegistryCounts.v
RegistryTitles.v
SystemWorld.v
SystemTitles.v
SystemKeys.v
RegistryErrors.v
RegistryRefusals.v
RegistryWidths.v
RegistryScenarios.v
System.v
GasBudgets.v
Deployment.v
DeploymentRuns.v
Sandbox.v
UnitTests.v
