(* ===== verification/Prelude.v ===== *)
(** * House of Stake TLA contracts: verification development

    The repository holds five NEAR contracts that rent, sell and reclaim named
    sub-accounts ("wallets") under top-level accounts (TLAs), and a crate of
    shared helpers. This development translates them into Rocq and proves what
    makes them correct, contract by contract and then across contracts.

    ** The program

    - [contracts/tla-registry] keeps the titles: TLAs, rented names, prices,
      listings, offers, refunds. It holds the money and decides who owns a name.
    - [contracts/tla-manager] mints a wallet: it derives the wallet's key from
      the MPC signer, creates the account and installs its signing entry.
    - [contracts/active-signer] is the signing authority of the wallets: it maps
      each wallet to the operating key allowed to drive it and has the MPC
      signer sign what that key authorised.
    - [contracts/hos-extension] acts for the registry on a wallet: it swaps the
      operating key on a sale, a reclaim or a re-rental, and sweeps tokens out.
    - [contracts/mpc-recovery] lets a wallet be frozen and given a new key by an
      attested, timelocked, watcher-confirmed recovery.
    - [crates/hos-common] builds NEAR transactions in borsh and checks keys.

    A purchase, for example, is [buy_sub_account] (registry) -> asset gate
    callback -> [force_transfer] (hos-extension) -> [swap_owner] (active-signer)
    -> [after_force_swap] (hos-extension, which also tells mpc-recovery) ->
    [on_sub_account_sold] (registry).

    ** How code becomes definitions

    A contract method is a value of the monad [Near.M]: it reads the
    environment of the receipt ([Near.Env]: accounts, deposit, block time,
    promise results), threads the contract's state record, may fail with a panic
    or with the contract's error type, and logs the events it emits and the
    promises it detaches; the promise it returns is its value. [Near.step_state]
    is the runtime's view: a failed method leaves the state as it was. Each
    contract has an enumeration [Call] of its methods run by [exec], so a
    history is a list of receipts ([Near.run]) and an invariant is a statement
    about all of them. Methods keep the source's names, statements and order.

    A collection of near-sdk is a [gmap] or a [gset]. Integers are [Z] with the
    width in the operation: [saturating_add], [checked_add] (a plain [+] panics:
    the release profile sets [overflow-checks = true]), [cast_u32] for [as].
    Promises are data: the [Msg] of file [Interfaces] names the remote method
    with its arguments, so that a theorem can state exactly what is sent. The
    development uses no fuel: every recursion is structural.

    ** The files

    - [Prelude]: machine integers, bytes, checked sums over maps, field updates
      through the class [Setter], and the shared tactics.
    - [Near]: keys, environment, promises, the monad with its guards, the
      predicates [keeps] and [preserves] that prove invariants method by method
      (hint databases [keeps], [near_unfold], [near_exec]), and the classes [Sdk] / [SdkLaws]: what the
      contracts call and do not define. [Demo] is a concrete instance.
    - [HosCommon]: [crates/hos-common/src]; the transaction builder against a
      decoder of the NEAR transaction format.
    - [Interfaces]: the cross-contract messages (the [ext_contract] traits).
    - [ActiveSigner]: [contracts/active-signer/src]; the class [DefuseWallet]
      stands for the nonce windows of the [defuse-wallet] crate.
    - [RecoveryProof]: [mpc-recovery/src/proof.rs] and [tx.rs]; [MpcRecovery]:
      its [lib.rs], [state.rs], [error.rs], [events.rs].
    - [HosExtension], [TlaManager]: the contracts of those names.
    - tla-registry, one file per part: [RegistryTypes] ([types.rs], [fees.rs],
      [error.rs], [events.rs]); [RegistryState] ([lib.rs]: the state, pause,
      refund ledger, access checks); [RegistryMother] ([mother.rs],
      [business.rs]); [RegistryMarket] ([asset_gate.rs], [marketplace.rs]);
      [RegistryRental] ([rental.rs], [callbacks.rs]); [RegistryReclaim]
      ([reclaim.rs]); [RegistryAdmin] ([admin.rs], and the dispatcher over every
      method); [RegistryViews] ([views.rs]).
    - tla-registry, the theorems about all of it: [RegistryDemo] (concrete
      states), [RegistryInvariant] (configuration and refund ledger),
      [RegistrySale] (the marketplace), [RegistryNames] (who may change a
      record, rentals, reclaims), [RegistryErrors] (quotes and refusals, pages),
      [RegistryRefusals] (what a listing, a purchase, a reclaim is refused with),
      [RegistryScenarios] (histories the guards leave possible).
    - tla-registry with its promises in flight: [RegistryWorld] (the registry,
      its balance and the continuations it waits for; locks and termination),
      [RegistrySolvency] (the balance covers what is held), [RegistryCounts]
      (the counters), [RegistryWidths] (the integers fit their Rust types).
    - [RecoveryWorld]: mpc-recovery and active-signer with the calls and
      callbacks in flight between them.
    - [RegistryTitles]: what each method and callback of tla-registry does to the
      standing of a name (owner, pending signer, parked) and what it orders of the
      other contracts. [SystemWorld]: the registry with its promises in flight
      against the classes [Wallets]/[WalletsLaws], what it needs of the other
      four contracts. [SystemTitles]: for whom each wallet holds its key, proved
      against the classes; [SystemKeys]: which key it is, from the call that named
      it to the wallet, and that title and key agree. [Deployment]: the instance, from hos-extension, tla-manager,
      active-signer and mpc-recovery. [DeploymentRuns]: what holds of the five
      contracts from their initialisers on.
    - [TestFt], [TestMpc]: the two stand-ins of [dev-contracts]; the class
      [Ed25519] stands for the keys and signatures of ed25519-dalek.
    - [GasBudgets]: the gas the five contracts reserve for each other.
    - [System]: promise chains that cross contracts, run to their end; [Sandbox]:
      those that end in one of the stand-ins.
    - [UnitTests]: the unit tests inside the implementation files, evaluated.

    ** The theorems

    - Refinement. Every call of active-signer, of mpc-recovery and of the
      registry, failing ones included, moves each wallet / account / name by a
      step of a small abstract relation ([wallet_step], [recovery_step],
      [NameStep]) that says who may cause the step and with what evidence.
    - Safety of signing. What reaches the MPC signer decodes to what the owner
      signed; a signature is used once; the three signing domains are disjoint;
      a frozen wallet signs nothing.
    - Recovery. A new key needs the attested request, the timelock and the
      watcher quorum; the signed messages are injective; an attestation is used
      once; every callback settles whatever the remote call returned.
    - Money. The refund total is the sum of what is owed; a claim pays it; a
      withdrawal leaves it covered; a settled sale, mint or re-rental splits the
      deposit without losing a yoctoNEAR.
    - Market. A transfer never starts while the wallet may hold an allow-listed
      token; a name being settled cannot be sold, listed or reclaimed until the
      settlement reports back.
    - In flight. A world is the registry, its balance and the callbacks it waits
      for; a history interleaves calls, replies and payments in any order
      ([RegistryWorld.wstep]). Along it the books, the refunds and the deposits
      in flight never exceed the balance; every lock has a callback in flight
      that opens it; the counters are exact together with what is in flight; no
      callback fails; answering what is in flight ends, after at most two
      replies per chain. The conditions each needs are stated at the theorem,
      and a counterexample follows where one is needed.
    - Recovery in flight. The same for mpc-recovery and active-signer
      ([RecoveryWorld.wstep]): an approved recovery holds its wallet frozen under
      the key its policy is bound to; a hand-over is never voided; no recovery is
      stuck, and an approved one can be ended in three receipts.
    - The five contracts. A net ([SystemWorld.Net]) is the registry's world, the
      wallets (the other four contracts) and, as ghost state, for whom each wallet
      was last given a key and which key that one had asked for. The ghost state is
      read off the callers and the arguments of their calls ([asks_for]), never off
      the promises: that an order carries the key asked for is proved
      ([RegistryTitles.launch_keyed], [gate_keyed]) and so is that the key comes
      from an accepted call of the history ([SystemWorld.asked]). From deployment
      on, a quiet name's wallet obeys the key which the owner on record named, a
      parked one's the registry's, a free name has no wallet; a settlement in
      flight puts in the key of the one it serves and nobody else's; an approved
      recovery is out of the registry's reach. A run of the net is a run of both
      smaller worlds.
      The first two hold of [orderly] histories. These exclude what the registry's
      guards do not stop: a purchase while a rental or a reclaim of the name is in
      flight, a reclaim while a rental is, an admin's clearing of a lock or a mark
      while the name is being settled, an admin's registration of a TLA that runs
      no tla-manager; a forced transfer of a re-rental or a reclaim answered
      [false], and a retried installation answered with success by an account that
      runs no tla-manager. [DeploymentRuns.re_rental_overwrites_a_buyers_key] and
      [retry_elsewhere_leaves_no_key] are histories in which a wallet goes astray
      for want of the first and the last.
    - Errors, types and gas. A rental, a listing, a purchase, a reclaim is
      refused with the error of its first check that fails and with no other;
      every stored integer keeps its declared width; every receipt is given the
      gas it reserves in turn ([GasBudgets]).
    - Across contracts. Title and operating key move together or not at all; a
      mint ends with the renter's key installed; a rental is paid exactly when
      the wallet was created; a finalised recovery moves key and policy together;
      what active-signer has test-mpc sign verifies under the wallet's key; a
      sweep through test-ft empties the wallet and clears the asset gate.

    Theorems with hypotheses are followed by a [..._witness] that applies them to
    a concrete state, evaluated on the instance of [Demo].

    ** Assumptions

    No axiom is declared. [Sdk] carries the functions of near-sdk, of the host
    and of the crates the contracts call (the text of a key, account-id syntax,
    SHA-256, ed25519 verification, JSON) and [SdkLaws] only their documented
    behaviour: a digest is 32 bytes, two keys have different texts, an account
    id is the string it was parsed from, a [U128] is in range. No
    theorem assumes that signatures are unforgeable or hashes collision-free:
    statements are about the bytes that are signed and hashed.
    [DefuseWallet]/[NoncesLaws] state what active-signer needs of a nonce window:
    a nonce that was committed is refused until its timeout has passed.

    ** Not modelled

    - What macros generate: JSON and borsh codecs of arguments and state, gas.
      A deserialisation failure reverts a receipt like any other failure.
    - The order in which near-sdk collections enumerate their keys: enumerations
      stand for sets, and queries and their results are paired in one order.
      [list_tlas] takes the order as an argument.
    - Storage staking and the cost of gas: the balance of [RegistryWorld] is what
      deposits, transfers and refunds make of it. The storage prefixes
      ([StorageKey]) that keep collections apart.
    - The contracts' [tests.rs] and the integration suite, which drive a mocked
      or local node, and the deployment scripts.

    - In [Deployment] an order of the registry (a forced transfer, a mint, a
      retried installation) takes effect at one point of the history: that of its
      one receipt at active-signer. Its other receipts read nothing that changes
      except the extension's pause flag and the answers of the MPC signer and of
      the account creation, and these are arbitrary there ([Weather]). The calls
      of a recovery interleave with everything, receipt by receipt. Every minter of
      active-signer is a tla-manager, and a sweep's promises are left out there
      ([Sandbox] runs them).
    - What a receipt burns while it runs: [GasBudgets] adds up reservations.

    ** Still to come

    Which errors the remaining methods refuse with. *)

From stdpp Require Export base gmap strings list fin_maps fin_sets sets option.
From Stdlib Require Export ZArith Lia.

(** ** Machine integers

    Every integer of the contracts is a [Z]; the width shows in the operation:
    [saturating_*] for the explicit saturating calls of the source, [cast_*]
    for an [as] conversion, and [checked_add] for a plain [+], which panics on
    overflow because the release profile sets [overflow-checks = true]. *)
Declare Scope near_scope.
Open Scope Z_scope.

Definition U8_MAX : Z := 2 ^ 8 - 1.
Definition U16_MAX : Z := 2 ^ 16 - 1.
Definition U32_MAX : Z := 2 ^ 32 - 1.
Definition U64_MAX : Z := 2 ^ 64 - 1.
Definition U128_MAX : Z := 2 ^ 128 - 1.

Definition is_u8 (x : Z) : Prop := 0 <= x <= U8_MAX.
Definition is_u32 (x : Z) : Prop := 0 <= x <= U32_MAX.
Definition is_u64 (x : Z) : Prop := 0 <= x <= U64_MAX.
Definition is_u128 (x : Z) : Prop := 0 <= x <= U128_MAX.

Definition saturating_add (MAX a b : Z) : Z := Z.min (a + b) MAX.
Definition saturating_sub (a b : Z) : Z := Z.max (a - b) 0.
Definition saturating_mul (MAX a b : Z) : Z := Z.min (a * b) MAX.
Definition checked_add (MAX a b : Z) : option Z :=
  if a + b <=? MAX then Some (a + b) else None.

Definition cast_u8 (x : Z) : Z := x mod 2 ^ 8.
Definition cast_u32 (x : Z) : Z := x mod 2 ^ 32.

Ltac unfold_max := unfold is_u8, is_u32, is_u64, is_u128,
  U8_MAX, U16_MAX, U32_MAX, U64_MAX, U128_MAX in *.

Ltac sat := unfold saturating_add, saturating_sub, saturating_mul in *; lia.

Lemma saturating_add_exact MAX a b : a + b <= MAX -> saturating_add MAX a b = a + b.
Proof. intros; sat. Qed.

Lemma saturating_sub_exact a b : b <= a -> saturating_sub a b = a - b.
Proof. intros; sat. Qed.

Lemma saturating_add_mono_r MAX a b c :
  b <= c -> saturating_add MAX a b <= saturating_add MAX a c.
Proof. intros; sat. Qed.

(** Decides a closed equation by evaluating both sides in the VM. *)
Ltac vm_eq := lazymatch goal with |- _ = ?y => vm_cast_no_check (eq_refl y) end.

(** ** Bytes and strings *)
Notation bytes := (list Z) (only parsing).

Definition byte_ok (b : Z) : Prop := 0 <= b < 256.

(** [x.to_le_bytes()] of an [n]-byte integer, and its inverse. *)
Fixpoint to_le_bytes (n : nat) (x : Z) : list Z :=
  match n with
  | O => []
  | S n' => x mod 256 :: to_le_bytes n' (x / 256)
  end.

Fixpoint from_le_bytes (l : list Z) : Z :=
  match l with
  | [] => 0
  | b :: l' => b + 256 * from_le_bytes l'
  end.

Lemma to_le_bytes_length n x : length (to_le_bytes n x) = n.
Proof. revert x; induction n; intros; simpl; auto. Qed.

Lemma from_to_le_bytes n x :
  0 <= x < 256 ^ Z.of_nat n -> from_le_bytes (to_le_bytes n x) = x.
Proof.
  revert x; induction n as [|n IH]; intros x Hx; simpl.
  - simpl in Hx; lia.
  - rewrite IH.
    + pose proof (Z.div_mod x 256); lia.
    + rewrite Nat2Z.inj_succ, Z.pow_succ_r in Hx by lia.
      split; [apply Z.div_pos; lia | apply Z.div_lt_upper_bound; lia].
Qed.

Lemma to_le_bytes_ok n x : Forall byte_ok (to_le_bytes n x).
Proof.
  revert x; induction n; intros; simpl; constructor; auto.
  apply Z.mod_pos_bound; lia.
Qed.

Lemma to_le_bytes_inj n x y :
  0 <= x < 256 ^ Z.of_nat n -> 0 <= y < 256 ^ Z.of_nat n ->
  to_le_bytes n x = to_le_bytes n y -> x = y.
Proof.
  intros Hx Hy H. rewrite <- (from_to_le_bytes n x), <- (from_to_le_bytes n y) by done.
  by rewrite H.
Qed.

Global Arguments to_le_bytes : simpl never.
Global Arguments from_le_bytes : simpl never.

(** [s.as_bytes()]: the model's strings are byte strings, as Rust's are. *)
Definition as_bytes_str (s : string) : list Z :=
  (fun a => Z.of_nat (Ascii.nat_of_ascii a)) <$> String.list_ascii_of_string s.

Definition str_of_bytes (l : list Z) : string :=
  String.string_of_list_ascii ((fun b => Ascii.ascii_of_nat (Z.to_nat b)) <$> l).

Definition str_len (s : string) : Z := Z.of_nat (String.length s).

Lemma as_bytes_str_length s : Z.of_nat (length (as_bytes_str s)) = str_len s.
Proof.
  unfold as_bytes_str, str_len. rewrite length_fmap. f_equal.
  induction s; simpl; auto.
Qed.

Lemma str_of_as_bytes s : str_of_bytes (as_bytes_str s) = s.
Proof.
  unfold str_of_bytes, as_bytes_str. rewrite <- list_fmap_compose.
  rewrite <- (String.string_of_list_ascii_of_string s) at 2. f_equal.
  rewrite <- (list_fmap_id (String.list_ascii_of_string s)) at 2.
  apply list_fmap_ext; intros i a _; simpl.
  by rewrite Nat2Z.id, Ascii.ascii_nat_embedding.
Qed.

Global Instance as_bytes_str_inj : Inj (=) (=) as_bytes_str.
Proof. intros s t H. by rewrite <- (str_of_as_bytes s), <- (str_of_as_bytes t), H. Qed.

Lemma as_bytes_str_ok s : Forall byte_ok (as_bytes_str s).
Proof.
  unfold as_bytes_str. apply Forall_fmap, Forall_forall. intros a _. simpl.
  unfold byte_ok. pose proof (Ascii.nat_ascii_bounded a). lia.
Qed.

(** [b'c']: the byte of a one-character literal. *)
Definition byte_lit (s : string) : Z := default 0 (head (as_bytes_str s)).

(** [s.strip_prefix(p)] *)
Fixpoint strip_prefix (p s : string) : option string :=
  match p, s with
  | EmptyString, _ => Some s
  | String a p', String b s' => if Ascii.eqb a b then strip_prefix p' s' else None
  | String _ _, EmptyString => None
  end.

Lemma strip_prefix_append p s : strip_prefix p (p +:+ s) = Some s.
Proof. induction p as [|a p IH]; simpl; auto. by rewrite Ascii.eqb_refl. Qed.

Global Arguments strip_prefix : simpl never.

(** [s.strip_suffix(suf)] *)
Fixpoint strip_suffix (suf s : string) : option string :=
  if bool_decide (s = suf) then Some EmptyString
  else match s with
       | EmptyString => None
       | String a s' => String a <$> strip_suffix suf s'
       end.

Lemma string_app_length (p s : string) :
  String.length (p +:+ s) = (String.length p + String.length s)%nat.
Proof. induction p; simpl; auto. Qed.

Lemma string_app_assoc (p q r : string) : (p +:+ q) +:+ r = p +:+ (q +:+ r).
Proof. induction p as [|a p IH]; [done|]. exact (f_equal (String a) IH). Qed.

Lemma string_app_nil_l_inv (p s : string) : p +:+ s = s -> p = EmptyString.
Proof.
  intros E. apply (f_equal String.length) in E. rewrite string_app_length in E.
  destruct p; simpl in *; [done|lia].
Qed.

Lemma strip_suffix_some suf s p : strip_suffix suf s = Some p <-> s = p +:+ suf.
Proof.
  revert p; induction s as [|a s IH]; intros p; simpl; case_bool_decide as E.
  - split; [intros [= <-]; done|]. intros H. subst suf. by destruct p.
  - split; [done|]. intros H. destruct p; simpl in H; [|done]. by destruct E.
  - split; [intros [= <-]; done|]. intros H. symmetry in H. rewrite E in H.
    apply string_app_nil_l_inv in H. by subst.
  - split.
    + intros (p' & H%IH & ->)%fmap_Some. simpl. by subst.
    + destruct p as [|b p]; simpl; intros H; [by destruct E|].
      injection H as -> H. apply IH in H. by rewrite H.
Qed.

(** [s.contains(c)] for a one-character pattern. *)
Definition str_contains (c s : string) : bool := bool_decide (byte_lit c ∈ as_bytes_str s).

Lemma as_bytes_str_app s t : as_bytes_str (s +:+ t) = as_bytes_str s ++ as_bytes_str t.
Proof.
  unfold as_bytes_str. rewrite <- fmap_app. f_equal.
  induction s as [|a s IH]; [done|]. simpl. by rewrite IH.
Qed.

(** ** Functional record update

    [r <| field := v |>] and [r <| field ::= f |>], with the setter of each
    field derived from the record's eta expansion. *)
Class Setter {R T : Type} (proj : R -> T) := set_field : (T -> T) -> R -> R.
Arguments set_field {R T} proj {_} f r : simpl nomatch.

Ltac mk_setter eta :=
  match goal with
  | |- @Setter ?R ?T ?p =>
      let r := fresh "r" in let f := fresh "f" in
      refine (fun f r => _);
      let e := eval cbv beta delta [eta] in (eta r) in
      let e' := eval pattern (p r) in e in
      match e' with
      | ?g _ => let b := eval cbv beta in (g (f (p r))) in exact b
      end
  end.

Notation "r <| p := v |>" := (set_field p (fun _ => v) r)
  (at level 12, left associativity, format "r  <| p  :=  v |>") : near_scope.
Notation "r <| p ::= f |>" := (set_field p f r)
  (at level 12, left associativity, format "r  <| p  ::=  f |>") : near_scope.
Open Scope near_scope.

(** ** Sums over finite maps *)
Definition map_sum {K} `{Countable K} (m : gmap K Z) : Z :=
  map_fold (fun _ v acc => v + acc) 0 m.

Section map_sum.
Context {K : Type} `{Countable K}.
Implicit Types m : gmap K Z.

Lemma map_sum_empty : map_sum (∅ : gmap K Z) = 0.
Proof. apply map_fold_empty. Qed.

Lemma map_sum_insert_fresh m k v : m !! k = None -> map_sum (<[k:=v]> m) = v + map_sum m.
Proof.
  intros Hk. unfold map_sum. rewrite map_fold_insert_L; auto. intros; lia.
Qed.

Lemma map_sum_delete m k : map_sum (delete k m) = map_sum m - default 0 (m !! k).
Proof.
  destruct (m !! k) as [v|] eqn:E; simpl.
  - rewrite <- (insert_delete_id m k v E) at 2.
    rewrite map_sum_insert_fresh by apply lookup_delete_eq. lia.
  - rewrite delete_id by done. lia.
Qed.

Lemma map_sum_insert m k v : map_sum (<[k:=v]> m) = map_sum m - default 0 (m !! k) + v.
Proof.
  rewrite <- insert_delete_eq, map_sum_insert_fresh by apply lookup_delete_eq.
  rewrite map_sum_delete. lia.
Qed.

Lemma map_sum_nonneg m : map_Forall (fun _ v => 0 <= v) m -> 0 <= map_sum m.
Proof.
  induction m as [|k v m Hk IH] using map_ind; intros Hm.
  - by rewrite map_sum_empty.
  - rewrite map_sum_insert_fresh by done.
    apply map_Forall_insert in Hm as [??]; [|done]. specialize (IH ltac:(done)). lia.
Qed.

Lemma map_sum_lookup_le m k v :
  map_Forall (fun _ v => 0 <= v) m -> m !! k = Some v -> v <= map_sum m.
Proof.
  intros Hm Hk. pose proof (map_sum_delete m k) as E. rewrite Hk in E. simpl in E.
  pose proof (map_sum_nonneg (delete k m) (map_Forall_delete _ _ _ Hm)). lia.
Qed.
End map_sum.

(** ** Sets *)
Lemma set_remove_nonempty {A} `{Countable A} (X : gset A) x :
  1 < Z.of_nat (size X) -> X ∖ {[x]} <> ∅.
Proof.
  intros Hs E. assert (HX : X ⊆ {[x]}) by (by apply empty_difference_subseteq_L).
  apply subseteq_size in HX. rewrite size_singleton in HX. lia.
Qed.
