(* ===== verification/Near.v ===== *)
(** * The NEAR runtime and near-sdk surface the contracts are written against

    Keys, the environment ([env::*]), promises, and the monad in which every
    contract method is written: it reads the environment, threads the contract
    state, may fail (a panic or a typed contract error, either of which reverts
    the receipt) and logs effects (events emitted, detached promises).

    What the contracts call but do not define (key display, account-id parsing,
    hashing, signature verification, JSON) is collected in the class [Sdk] with
    the laws the development uses in [SdkLaws]. *)
From stdpp Require Export pretty.
From S2P Require Export Prelude.

(** An [AccountId] is compared and displayed as its string. *)
Notation AccountId := string (only parsing).

(** ** Public keys: a curve tag and the raw key bytes *)
Inductive CurveType := CurveType_ED25519 | CurveType_SECP256K1.

Record PublicKey := mkPublicKey { curve_type : CurveType; key_data : list Z }.

Global Instance CurveType_eq_dec : EqDecision CurveType.
Proof. solve_decision. Defined.
Global Instance PublicKey_eq_dec : EqDecision PublicKey.
Proof. solve_decision. Defined.

Definition curve_byte (c : CurveType) : Z :=
  match c with CurveType_ED25519 => 0 | CurveType_SECP256K1 => 1 end.

Definition curve_key_len (c : CurveType) : nat :=
  match c with CurveType_ED25519 => 32 | CurveType_SECP256K1 => 64 end%nat.

(** [PublicKey::as_bytes]: the curve byte followed by the key. *)
Definition pk_as_bytes (k : PublicKey) : list Z := curve_byte (curve_type k) :: key_data k.

Definition pk_wf (k : PublicKey) : Prop :=
  length (key_data k) = curve_key_len (curve_type k) /\ Forall byte_ok (key_data k).

Lemma pk_as_bytes_inj k1 k2 : pk_as_bytes k1 = pk_as_bytes k2 -> k1 = k2.
Proof.
  destruct k1 as [c1 d1], k2 as [c2 d2]; unfold pk_as_bytes; simpl.
  intros H; injection H as Hc ->. destruct c1, c2; simpl in *; try lia; done.
Qed.

(** ** The environment of a receipt *)
Inductive PromiseError := PromiseError_Failed | PromiseError_TooLong (len : Z) | PromiseError_NotReady.

(** The raw result of a promise a callback was scheduled on. *)
Inductive PromiseResult := PromiseResult_Successful (data : list Z) | PromiseResult_Failed.

Record Env := mkEnv {
  predecessor_account_id : AccountId;
  current_account_id : AccountId;
  attached_deposit : Z;
  block_timestamp : Z;
  account_balance : Z;
  storage_byte_cost : Z;
  storage_usage : Z;
  promise_results : list PromiseResult
}.

(** ** Results and failures *)
Inductive Failure (Er : Type) :=
| Failed (e : Er)
| Panicked (msg : string).
Arguments Failed {Er} e.
Arguments Panicked {Er} msg.

Inductive Res (Er A : Type) :=
| Done (a : A)
| Fail (f : Failure Er).
Arguments Done {Er A} a.
Arguments Fail {Er A} f.

Definition is_done {Er A} (r : Res Er A) : bool :=
  match r with Done _ => true | Fail _ => false end.

Lemma is_done_inv {Er A} (r : Res Er A) : is_done r = true -> exists a, r = Done a.
Proof. destruct r; [eauto|done]. Qed.

(** [Result<T, PromiseError>], the argument of a [#[callback_result]] method. *)
Inductive CallResult (A : Type) :=
| Ok (a : A)
| Err (e : PromiseError).
Arguments Ok {A} a.
Arguments Err {A} e.

Definition is_ok {A} (r : CallResult A) : bool :=
  match r with Ok _ => true | Err _ => false end.

(** ** Promises

    A promise is a batch of actions on a receiver, a join ([and]) or a
    continuation ([then]); every continuation the contracts schedule is one of
    their own private methods, so it is a value of the contract's callback
    type. [Msg] is the type of cross-contract calls. *)
Section promises.
Context {Msg Cb : Type}.

Inductive PromiseAction :=
| PA_create_account
| PA_transfer (amount : Z)
| PA_add_full_access_key (key : PublicKey)
| PA_function_call (msg : Msg) (deposit gas : Z).

Inductive Promise :=
| PBatch (receiver : AccountId) (actions : list PromiseAction)
| PAnd (p q : Promise)
| PThen (p : Promise) (cb : Cb) (gas : Z).

Inductive PromiseOrValue (A : Type) :=
| POV_Promise (p : Promise)
| POV_Value (a : A).

(** [ext::(receiver).with_attached_deposit(d).with_static_gas(g).method(..)] *)
Definition ext_call (receiver : AccountId) (msg : Msg) (deposit gas : Z) : Promise :=
  PBatch receiver [PA_function_call msg deposit gas].
Definition transfer_to (receiver : AccountId) (amount : Z) : Promise :=
  PBatch receiver [PA_transfer amount].

(** The yoctoNEAR a promise sends away and the static gas it reserves. *)
Definition action_deposit (a : PromiseAction) : Z :=
  match a with
  | PA_transfer amount => amount
  | PA_function_call _ deposit _ => deposit
  | _ => 0
  end.
Definition action_gas (a : PromiseAction) : Z :=
  match a with PA_function_call _ _ gas => gas | _ => 0 end.
Definition sum_over (f : PromiseAction -> Z) (l : list PromiseAction) : Z :=
  foldr (fun a acc => f a + acc) 0 l.
Fixpoint promise_deposit (p : Promise) : Z :=
  match p with
  | PBatch _ l => sum_over action_deposit l
  | PAnd p q => promise_deposit p + promise_deposit q
  | PThen p _ _ => promise_deposit p
  end.
Fixpoint promise_gas (p : Promise) : Z :=
  match p with
  | PBatch _ l => sum_over action_gas l
  | PAnd p q => promise_gas p + promise_gas q
  | PThen p _ g => promise_gas p + g
  end.
End promises.
Arguments PromiseAction : clear implicits.
Arguments Promise : clear implicits.
Arguments PromiseOrValue : clear implicits.
Arguments POV_Promise {Msg Cb A} p.
Arguments POV_Value {Msg Cb A} a.

Inductive Effect (Ev P : Type) :=
| Emit (e : Ev)
| Send (p : P).
Arguments Emit {Ev P} e.
Arguments Send {Ev P} p.

(** ** The contract monad *)
Definition NearM (St Ev P Er A : Type) : Type :=
  Env -> St -> Res Er (A * St * list (Effect Ev P)).

Section monad.
Context {St Ev P Er : Type}.
Notation M := (NearM St Ev P Er).

Global Instance NearM_ret : MRet M := fun A a env s => Done (a, s, []).
Global Instance NearM_bind : MBind M := fun A B k m env s =>
  match m env s with
  | Done (a, s', l) =>
      match k a env s' with
      | Done (b, s'', l') => Done (b, s'', l ++ l')
      | Fail f => Fail f
      end
  | Fail f => Fail f
  end.

Definition fail {A} (f : Failure Er) : M A := fun env s => Fail f.
(** [env::panic_str(msg)] *)
Definition panic_str {A} (msg : string) : M A := fail (Panicked msg).
(** [return Err(e)] in a [#[handle_result]] method *)
Definition throw {A} (e : Er) : M A := fail (Failed e).
(** [require!(b, msg)] *)
Definition require (b : bool) (msg : string) : M unit :=
  fun env s => if b then Done (tt, s, []) else Fail (Panicked msg).
(** [if !b { return Err(e) }] *)
Definition ensure (b : bool) (e : Er) : M unit :=
  fun env s => if b then Done (tt, s, []) else Fail (Failed e).
(** [o.ok_or(e)?] *)
Definition ok_or {A} (o : option A) (e : Er) : M A :=
  fun env s => match o with Some a => Done (a, s, []) | None => Fail (Failed e) end.
(** [o.unwrap_or_else(|| env::panic_str(msg))] *)
Definition unwrap_or_panic {A} (o : option A) (msg : string) : M A :=
  fun env s => match o with Some a => Done (a, s, []) | None => Fail (Panicked msg) end.
Definition gets {A} (f : St -> A) : M A := fun env s => Done (f s, s, []).
Definition asks {A} (f : Env -> A) : M A := fun env s => Done (f env, s, []).
Definition modify (f : St -> St) : M unit := fun env s => Done (tt, f s, []).
Definition emit (e : Ev) : M unit := fun env s => Done (tt, s, [Emit e]).
(** A promise the method creates and drops ([let _ = ...]). *)
Definition send (p : P) : M unit := fun env s => Done (tt, s, [Send p]).

(** A read-only [&self] method that returns a [Result]. *)
Definition lift {A} (f : Env -> St -> Res Er A) : M A := fun env s =>
  match f env s with Done a => Done (a, s, []) | Fail x => Fail x end.
(** The [Result] of a read-only method, inspected rather than propagated. *)
Definition inspect {A} (f : Env -> St -> A) : M A := fun env s => Done (f env s, s, []).
(** The guards near-sdk generates: a [#[private]] method can only be called
    by the contract itself, and a method that is not [#[payable]] refuses a
    deposit. A private method is reached by the contract's own promises, which
    the sources never give a deposit, so its deposit check is left out. *)
Definition private_method (name : string) : M unit := fun env s =>
  require (bool_decide (predecessor_account_id env = current_account_id env))
          ("Method " +:+ name +:+ " is private") env s.
Definition not_payable (name : string) : M unit := fun env s =>
  require (attached_deposit env =? 0)
          ("Method " +:+ name +:+ " doesn't accept deposit") env s.

(** A plain [a + b] on [u64], with overflow checks on. *)
Definition add_u64 (a b : Z) : M Z :=
  unwrap_or_panic (checked_add U64_MAX a b) "attempt to add with overflow".
Definition mul_u64 (a b : Z) : M Z :=
  unwrap_or_panic (if a * b <=? U64_MAX then Some (a * b) else None)
    "attempt to multiply with overflow".

(** [near_sdk::is_promise_success()] *)
Definition is_promise_success : M bool := fun env s =>
  match promise_results env with
  | [PromiseResult_Successful _] => Done (true, s, [])
  | [PromiseResult_Failed] => Done (false, s, [])
  | _ => Fail (Panicked "Contract expected a result on the callback")
  end.
(** [env::promise_results_count()] *)
Definition promise_results_count (env : Env) : Z := Z.of_nat (length (promise_results env)).
(** [env::promise_result_checked(index, max_len)] *)
Definition promise_result_checked (env : Env) (index : nat) (max_len : Z)
    : CallResult (list Z) :=
  match promise_results env !! index with
  | Some (PromiseResult_Successful data) =>
      if Z.of_nat (length data) <=? max_len then Ok data
      else Err (PromiseError_TooLong (Z.of_nat (length data)))
  | Some PromiseResult_Failed => Err PromiseError_Failed
  | None => Err PromiseError_NotReady
  end.

(** *** Inversion of successful runs *)
Lemma bind_inv {A B} (m : M A) (k : A -> M B) env s b s' l :
  (m ≫= k) env s = Done (b, s', l) ->
  exists a s1 l1 l2, m env s = Done (a, s1, l1) /\ k a env s1 = Done (b, s', l2)
                     /\ l = l1 ++ l2.
Proof.
  unfold mbind, NearM_bind. destruct (m env s) as [[[a s1] l1]|]; [|done].
  destruct (k a env s1) as [[[b' s2] l2]|] eqn:E; [|done].
  intros H; injection H as <- <- <-. eauto 10.
Qed.

Lemma bind_done {A B} (m : M A) (k : A -> M B) env s a s1 l1 :
  m env s = Done (a, s1, l1) ->
  (m ≫= k) env s =
    match k a env s1 with
    | Done (b, s2, l2) => Done (b, s2, l1 ++ l2)
    | Fail f => Fail f
    end.
Proof. unfold mbind, NearM_bind. by intros ->. Qed.

Lemma ret_inv {A} (a : A) env s r : (mret a : M A) env s = Done r -> r = (a, s, []).
Proof. unfold mret, NearM_ret. by intros [= <-]. Qed.

Lemma require_inv b msg env s r :
  require b msg env s = Done r -> b = true /\ r = (tt, s, []).
Proof. unfold require. destruct b; [|done]. by intros [= <-]. Qed.

Lemma ensure_inv b e env s r : ensure b e env s = Done r -> b = true /\ r = (tt, s, []).
Proof. unfold ensure. destruct b; [|done]. by intros [= <-]. Qed.

Lemma ok_or_inv {A} (o : option A) e env s r :
  ok_or o e env s = Done r -> exists a, o = Some a /\ r = (a, s, []).
Proof. unfold ok_or. destruct o; [|done]. intros [= <-]. eauto. Qed.

Lemma unwrap_inv {A} (o : option A) msg env s r :
  unwrap_or_panic o msg env s = Done r -> exists a, o = Some a /\ r = (a, s, []).
Proof. unfold unwrap_or_panic. destruct o; [|done]. intros [= <-]. eauto. Qed.

Lemma gets_inv {A} (f : St -> A) env s r : gets f env s = Done r -> r = (f s, s, []).
Proof. by intros [= <-]. Qed.

Lemma asks_inv {A} (f : Env -> A) env s r : asks f env s = Done r -> r = (f env, s, []).
Proof. by intros [= <-]. Qed.

Lemma modify_inv f env s r : modify f env s = Done r -> r = (tt, f s, []).
Proof. by intros [= <-]. Qed.

Lemma emit_inv e env s r : emit e env s = Done r -> r = (tt, s, [Emit e]).
Proof. by intros [= <-]. Qed.

Lemma send_inv p env s r : send p env s = Done r -> r = (tt, s, [Send p]).
Proof. by intros [= <-]. Qed.

Lemma inspect_inv {A} (f : Env -> St -> A) env s r :
  inspect f env s = Done r -> r = (f env s, s, []).
Proof. by intros [= <-]. Qed.

Lemma lift_inv {A} (f : Env -> St -> Res Er A) env s r :
  lift f env s = Done r -> exists a, f env s = Done a /\ r = (a, s, []).
Proof. unfold lift. destruct (f env s); [|done]. intros [= <-]. eauto. Qed.

Lemma private_inv name env s r :
  private_method name env s = Done r ->
  predecessor_account_id env = current_account_id env /\ r = (tt, s, []).
Proof.
  unfold private_method. intros [H ->]%require_inv. by apply bool_decide_eq_true in H.
Qed.

Lemma not_payable_inv name env s r :
  not_payable name env s = Done r -> attached_deposit env = 0 /\ r = (tt, s, []).
Proof. unfold not_payable. intros [H ->]%require_inv. by apply Z.eqb_eq in H. Qed.

Lemma promise_success_inv env s r :
  is_promise_success env s = Done r ->
  (exists data, promise_results env = [PromiseResult_Successful data] /\ r = (true, s, []))
  \/ (promise_results env = [PromiseResult_Failed] /\ r = (false, s, [])).
Proof.
  unfold is_promise_success.
  destruct (promise_results env) as [|[data|] [|]]; try done; intros [= <-]; eauto.
Qed.

Lemma add_u64_inv a b env s r :
  add_u64 a b env s = Done r -> a + b <= U64_MAX /\ r = (a + b, s, []).
Proof.
  unfold add_u64, checked_add. intros (x & H & ->)%unwrap_inv.
  case_match eqn:E; [|done]. apply Z.leb_le in E. by injection H as <-.
Qed.

Lemma mul_u64_inv a b env s r :
  mul_u64 a b env s = Done r -> a * b <= U64_MAX /\ r = (a * b, s, []).
Proof.
  unfold mul_u64. intros (x & H & ->)%unwrap_inv.
  case_match eqn:E; [|done]. apply Z.leb_le in E. by injection H as <-.
Qed.

(** *** State predicates a method keeps

    Compositional, for the predicates that do not depend on the guards. *)
Definition keeps {A} (I : St -> Prop) (m : M A) : Prop :=
  forall env s a s' l, m env s = Done (a, s', l) -> I s -> I s'.

Lemma keeps_bind {A B} I (m : M A) (k : A -> M B) :
  keeps I m -> (forall a, keeps I (k a)) -> keeps I (m ≫= k).
Proof. intros Hm Hk env s b s' l (a & s1 & l1 & l2 & H1 & H2 & _)%bind_inv Hs. eapply Hk; eauto. Qed.

Lemma keeps_stateless {A} I (m : M A) :
  (forall env s a s' l, m env s = Done (a, s', l) -> s' = s) -> keeps I m.
Proof. intros Hm env s a s' l H. by rewrite (Hm _ _ _ _ _ H). Qed.

Lemma keeps_ret {A} I (a : A) : keeps I (mret a : M A).
Proof. apply keeps_stateless. intros * ?%ret_inv. by simplify_eq. Qed.
Lemma keeps_require I b msg : keeps I (require b msg).
Proof. apply keeps_stateless. intros * [_ ?]%require_inv. by simplify_eq. Qed.
Lemma keeps_ensure I b e : keeps I (ensure b e).
Proof. apply keeps_stateless. intros * [_ ?]%ensure_inv. by simplify_eq. Qed.
Lemma keeps_ok_or {A} I (o : option A) e : keeps I (ok_or o e).
Proof. apply keeps_stateless. intros * (x & _ & ?)%ok_or_inv. by simplify_eq. Qed.
Lemma keeps_unwrap {A} I (o : option A) msg : keeps I (unwrap_or_panic o msg).
Proof. apply keeps_stateless. intros * (x & _ & ?)%unwrap_inv. by simplify_eq. Qed.
Lemma keeps_gets {A} I (f : St -> A) : keeps I (gets f).
Proof. apply keeps_stateless. by intros * [= <- <- <-]. Qed.
Lemma keeps_asks {A} I (f : Env -> A) : keeps I (asks f).
Proof. apply keeps_stateless. by intros * [= <- <- <-]. Qed.
Lemma keeps_emit I e : keeps I (emit e).
Proof. apply keeps_stateless. by intros * [= <- <- <-]. Qed.
Lemma keeps_send I p : keeps I (send p).
Proof. apply keeps_stateless. by intros * [= <- <- <-]. Qed.
Lemma keeps_throw {A} I e : keeps I (throw e : M A).
Proof. by intros env s a s' l H. Qed.
Lemma keeps_panic {A} I msg : keeps I (panic_str msg : M A).
Proof. by intros env s a s' l H. Qed.
Lemma keeps_lift {A} I (f : Env -> St -> Res Er A) : keeps I (lift f).
Proof. apply keeps_stateless. intros * (x & _ & ?)%lift_inv. by simplify_eq. Qed.
Lemma keeps_inspect {A} I (f : Env -> St -> A) : keeps I (inspect f).
Proof. apply keeps_stateless. by intros * [= <- <- <-]. Qed.
Lemma keeps_private I name : keeps I (private_method name).
Proof. apply keeps_stateless. intros * [_ ?]%private_inv. by simplify_eq. Qed.
Lemma keeps_not_payable I name : keeps I (not_payable name).
Proof. apply keeps_stateless. intros * [_ ?]%not_payable_inv. by simplify_eq. Qed.
Lemma keeps_promise_success I : keeps I is_promise_success.
Proof.
  apply keeps_stateless. intros * [(x & _ & ?)|[_ ?]]%promise_success_inv; by simplify_eq.
Qed.
Lemma keeps_modify (I : St -> Prop) f : (forall s, I s -> I (f s)) -> keeps I (modify f).
Proof. intros Hf env s a s' l [= <- <- <-]. apply Hf. Qed.
End monad.

(** Decomposes [keeps I m] down to the updates of [m]. *)
Create HintDb keeps.
#[export] Hint Resolve keeps_ret keeps_require keeps_ensure keeps_ok_or keeps_unwrap keeps_gets
  keeps_asks keeps_emit keeps_send keeps_throw keeps_panic keeps_lift keeps_inspect keeps_private
  keeps_not_payable keeps_promise_success : keeps.

Ltac keeps_step :=
  lazymatch goal with
  | |- keeps _ (mbind _ _) => apply keeps_bind; [|intros ?]
  | |- keeps _ (modify _) => apply keeps_modify; intros ?
  | |- keeps _ (if ?b then _ else _) => destruct b eqn:?
  | |- keeps _ (match ?x with _ => _ end) => destruct x eqn:?
  | |- keeps _ (let _ := _ in _) => cbv zeta
  | |- keeps _ ((fun _ => _) _) => cbv beta
  | |- keeps _ _ =>
      first [ solve [auto with keeps nocore] | progress autounfold with near_unfold ]
  end.
Ltac keeps_tac := repeat keeps_step.

(** ** Runs of a contract

    [exec] is a contract's dispatcher. A call that fails reverts its receipt,
    so the state after it is the state before. *)
Section runs.
Context {St Ev P Er Call : Type}.
Implicit Types exec : Call -> NearM St Ev P Er unit.

Definition step_state exec (s : St) (x : Env * Call) : St :=
  match exec x.2 x.1 s with Done (_, s', _) => s' | Fail _ => s end.
Definition run exec (trace : list (Env * Call)) (s : St) : St :=
  foldl (step_state exec) s trace.

Definition preserves exec (I : St -> Prop) : Prop :=
  forall c env s s' l, exec c env s = Done (tt, s', l) -> I s -> I s'.

Lemma run_invariant exec (I : St -> Prop) trace s :
  preserves exec I -> I s -> I (run exec trace s).
Proof.
  intros HI. revert s. induction trace as [|[env c] trace IH]; intros s Hs; [done|].
  simpl. apply IH. unfold step_state. simpl.
  destruct (exec c env s) as [[[[] s'] l]|] eqn:E; eauto.
Qed.

Lemma run_app exec t1 t2 s : run exec (t1 ++ t2) s = run exec t2 (run exec t1 s).
Proof. apply foldl_app. Qed.

(** The state just before the first step that breaks [I]. *)
Lemma run_invariant_cond exec (ok : Env * Call -> Prop) (I : St -> Prop) trace s :
  (forall x s, ok x -> I s -> I (step_state exec s x)) ->
  Forall ok trace -> I s -> I (run exec trace s).
Proof.
  intros HI Hok. revert s. induction Hok as [|x trace Hx _ IH]; intros s Hs; [done|].
  simpl. eauto.
Qed.
End runs.

(** *** What a call leaves behind

    The promise a method returns, the result its receipt delivers to the
    continuation scheduled on it, and the state after it. *)
Section results.
Context {St Ev P Er : Type}.

Definition promise_of {Mg Cb A} (r : PromiseOrValue Mg Cb A) : option (Promise Mg Cb) :=
  match r with POV_Promise p => Some p | POV_Value _ => None end.

Definition returning {A B} (f : A -> B) (m : NearM St Ev P Er A) : NearM St Ev P Er B :=
  a ← m; mret (f a).

Lemma returning_inv {A B} (f : A -> B) (m : NearM St Ev P Er A) env s p s' l :
  returning f m env s = Done (p, s', l) -> exists a, m env s = Done (a, s', l) /\ p = f a.
Proof.
  intros (a & s1 & l1 & l2 & Hm & Hr & ->)%bind_inv.
  apply ret_inv in Hr as [= -> -> ->]. rewrite app_nil_r. eauto.
Qed.

Lemma returning_done {A B} (f : A -> B) (m : NearM St Ev P Er A) env s a s' l :
  m env s = Done (a, s', l) -> returning f m env s = Done (f a, s', l).
Proof. intros Hm. unfold returning, mbind, NearM_bind. rewrite Hm. cbn. by rewrite app_nil_r. Qed.

(** A method run for its effects is the method with its value dropped. *)
Lemma ignoring_value {A} (m : NearM St Ev P Er A) env s a s' l :
  m env s = Done (a, s', l) -> (m;; mret tt) env s = Done (tt, s', l).
Proof. apply (returning_done (fun _ => tt)). Qed.

Definition delivered {A} (r : Res Er (A * St * list (Effect Ev P))) : CallResult A :=
  match r with
  | Done (a, _, _) => Ok a
  | Fail _ => Err PromiseError_Failed
  end.

(** A failed receipt is reverted. *)
Definition state_after {A} (s : St) (r : Res Er (A * St * list (Effect Ev P))) : St :=
  match r with Done (_, s', _) => s' | Fail _ => s end.
End results.

(** Helper methods (access checks and the like) that the run tactics see
    through are registered in [near_unfold]. *)
Create HintDb near_unfold.

(** [nrun H] decomposes a successful run [H : m env s = Done r] into the
    guards that held, the values read and the final state. *)
Ltac nstep H :=
  lazymatch type of H with
  | mbind _ _ _ _ = Done (_, _, _) =>
      let H1 := fresh "Hr" in
      apply bind_inv in H as (? & ? & ? & ? & H1 & H & ->);
      nstep H1; nstep H
  | mret _ _ _ = Done _ => apply ret_inv in H; nsubst H
  | require _ _ _ _ = Done _ =>
      let G := fresh "G" in apply require_inv in H as [G H]; nsubst H
  | ensure _ _ _ _ = Done _ =>
      let G := fresh "G" in apply ensure_inv in H as [G H]; nsubst H
  | ok_or _ _ _ _ = Done _ =>
      let G := fresh "G" in apply ok_or_inv in H as (? & G & H); nsubst H
  | unwrap_or_panic _ _ _ _ = Done _ =>
      let G := fresh "G" in apply unwrap_inv in H as (? & G & H); nsubst H
  | gets _ _ _ = Done _ => apply gets_inv in H; nsubst H
  | asks _ _ _ = Done _ => apply asks_inv in H; nsubst H
  | inspect _ _ _ = Done _ => apply inspect_inv in H; nsubst H
  | modify _ _ _ = Done _ => apply modify_inv in H; nsubst H
  | emit _ _ _ = Done _ => apply emit_inv in H; nsubst H
  | send _ _ _ = Done _ => apply send_inv in H; nsubst H
  | panic_str _ _ _ = Done _ => discriminate H
  | throw _ _ _ = Done _ => discriminate H
  | fail _ _ _ = Done _ => discriminate H
  | lift _ _ _ = Done _ =>
      let G := fresh "G" in apply lift_inv in H as (? & G & H); nsubst H
  | private_method _ _ _ = Done _ =>
      let G := fresh "G" in apply private_inv in H as [G H]; nsubst H
  | not_payable _ _ _ = Done _ =>
      let G := fresh "G" in apply not_payable_inv in H as [G H]; nsubst H
  | is_promise_success _ _ = Done _ =>
      let G := fresh "G" in
      apply promise_success_inv in H as [(? & G & H)|[G H]]; nsubst H
  | add_u64 _ _ _ _ = Done _ =>
      let G := fresh "G" in apply add_u64_inv in H as [G H]; nsubst H
  | mul_u64 _ _ _ _ = Done _ =>
      let G := fresh "G" in apply mul_u64_inv in H as [G H]; nsubst H
  | (if ?b then _ else _) _ _ = Done _ =>
      let G := fresh "G" in destruct b eqn:G; nstep H
  | (match ?x with _ => _ end) _ _ = Done _ =>
      let G := fresh "G" in destruct x eqn:G; nstep H
  | Done _ = Done _ => nsubst H
  | Fail _ = Done _ => discriminate H
  | (let _ := _ in _) _ _ = Done _ => cbv zeta in H; nstep H
  | (fun _ => _) _ _ = Done _ => cbv beta in H; nstep H
  | _ => first [ progress (autounfold with near_unfold in H); cbv beta in H; nstep H | idtac ]
  end
with nsubst H :=
  first [ injection H; clear H; intros; subst | subst | clear H ].

Ltac nrun H := nstep H; simplify_eq/=.

(** Turns the boolean guards collected by [nrun] into propositions. *)
Ltac guards :=
  repeat match goal with
  | H : bool_decide _ = true |- _ => apply bool_decide_eq_true in H
  | H : bool_decide _ = false |- _ => apply bool_decide_eq_false in H
  | H : negb _ = true |- _ => apply negb_true_iff in H
  | H : negb _ = false |- _ => apply negb_false_iff in H
  | H : _ && _ = true |- _ => apply andb_true_iff in H as [? ?]
  | H : _ || _ = false |- _ => apply orb_false_iff in H as [? ?]
  | H : (_ =? _) = true |- _ => apply Z.eqb_eq in H
  | H : (_ =? _)%nat = true |- _ => apply Nat.eqb_eq in H
  | H : (_ =? _) = false |- _ => apply Z.eqb_neq in H
  | H : (_ <=? _) = true |- _ => apply Z.leb_le in H
  | H : (_ <=? _) = false |- _ => apply Z.leb_gt in H
  | H : (_ <? _) = true |- _ => apply Z.ltb_lt in H
  | H : (_ <? _) = false |- _ => apply Z.ltb_ge in H
  end.

(** [nexec] runs a method forward: it unfolds the combinators and computes,
    after the caller has rewritten the guards it knows. *)
Create HintDb near_exec.
#[export] Hint Unfold require ensure ok_or unwrap_or_panic gets asks modify emit send
  private_method not_payable panic_str throw fail is_promise_success lift inspect : near_exec.

Ltac nexec :=
  autounfold with near_unfold near_exec; unfold mbind, NearM_bind, mret, NearM_ret; cbn.

(** [x.to_string()] of an integer. *)
Definition dec_string (x : Z) : string := pretty x.

(** ** What near-sdk and the host provide *)
Class Sdk := {
  (** [str::parse::<AccountId>()] *)
  account_parse : string -> option AccountId;
  (** [PublicKey]'s [Display] *)
  pk_to_string : PublicKey -> string;
  (** [env::sha256] *)
  sha256 : list Z -> list Z;
  (** [env::ed25519_verify(signature, message, key)] *)
  ed25519_verify : list Z -> list Z -> list Z -> bool;
  (** [ed25519_dalek::VerifyingKey::from_bytes(key).map(|vk| vk.is_weak())],
      [None] when the bytes are no curve point *)
  ed25519_is_weak : list Z -> option bool;
  (** [serde_json::from_slice::<U128>] *)
  json_u128 : list Z -> option Z;
  (** the JSON text of [ft_transfer]'s arguments: receiver, amount, memo *)
  json_ft_transfer : AccountId -> Z -> string -> list Z
}.

Class SdkLaws `{!Sdk} := {
  account_parse_id : forall s a, account_parse s = Some a -> a = s;
  pk_to_string_ed25519 : forall k, curve_type k = CurveType_ED25519 ->
    exists raw, pk_to_string k = "ed25519:" +:+ raw;
  pk_to_string_inj : forall k1 k2, pk_wf k1 -> pk_wf k2 ->
    pk_to_string k1 = pk_to_string k2 -> k1 = k2;
  (** a SHA-256 digest is 32 bytes *)
  sha256_digest : forall m, length (sha256 m) = 32%nat /\ Forall byte_ok (sha256 m);
  (** a JSON [U128] is in range *)
  json_u128_range : forall data x, json_u128 data = Some x -> is_u128 x
}.
