(* ===== verification/HosCommon.v ===== *)
(** * hos-common: the helpers shared by the contracts

    [crates/hos-common/src/lib.rs] (ed25519 checks, the mint outcome) and
    [crates/hos-common/src/tx.rs] (the borsh NEAR transaction builder), with the
    reference decoder of the NEAR transaction format that the builder's
    correctness is stated against, and the hex decoder of
    [dev-contracts/test-mpc]. *)
From S2P Require Export Near.

Definition FT_STORAGE_DEPOSIT_YOCTO : Z := 1250000000000000000000.
Definition NOT_ED25519 : string := "owner key must be ed25519".

Definition is_ed25519 (key : PublicKey) : bool :=
  bool_decide (curve_type key = CurveType_ED25519).

Inductive MintOutcome :=
| MintOutcome_CreationFailed
| MintOutcome_Active
| MintOutcome_SignerPending.

Section keys.
Context `{HS : !Sdk} `{HL : !SdkLaws}.

Definition ed25519_base58 (key : PublicKey) : option string :=
  if negb (is_ed25519 key) then None
  else strip_prefix "ed25519:" (pk_to_string key).

Definition ed25519_base58_or_panic {St Ev P Er} (key : PublicKey) : NearM St Ev P Er string :=
  unwrap_or_panic (ed25519_base58 key) NOT_ED25519.

Lemma ed25519_base58_is_some key :
  is_ed25519 key = true -> is_Some (ed25519_base58 key).
Proof.
  intros H. unfold ed25519_base58. rewrite H. simpl.
  apply bool_decide_eq_true in H. destruct (pk_to_string_ed25519 key H) as [raw ->].
  rewrite strip_prefix_append. eauto.
Qed.

Lemma ed25519_base58_some key raw :
  ed25519_base58 key = Some raw -> is_ed25519 key = true.
Proof. unfold ed25519_base58. by destruct (is_ed25519 key). Qed.

Lemma ed25519_base58_display key raw :
  ed25519_base58 key = Some raw -> pk_to_string key = "ed25519:" +:+ raw.
Proof.
  intros H. pose proof (ed25519_base58_some _ _ H) as E.
  unfold ed25519_base58 in H. rewrite E in H. simpl in H.
  apply bool_decide_eq_true in E. destruct (pk_to_string_ed25519 key E) as [raw' Hr].
  rewrite Hr, strip_prefix_append in H. by injection H as ->.
Qed.

Lemma ed25519_base58_inj k1 k2 raw :
  pk_wf k1 -> pk_wf k2 ->
  ed25519_base58 k1 = Some raw -> ed25519_base58 k2 = Some raw -> k1 = k2.
Proof.
  intros W1 W2 H1%ed25519_base58_display H2%ed25519_base58_display.
  apply pk_to_string_inj; congruence.
Qed.
End keys.

(** ** tx.rs: the transaction builder *)
Definition ACTION_FUNCTION_CALL : Z := 2.
Definition ACTION_TRANSFER : Z := 3.
Definition HEX : string := "0123456789abcdef".

Inductive TxAction :=
| TxAction_FunctionCall (method_name : string) (args : list Z) (gas deposit : Z)
| TxAction_Transfer (deposit : Z).

Definition mpc_path (account : AccountId) : string := "hos-tla/" +:+ account.

(** The Rust functions append to a [Vec<u8>]; here each returns [b] extended. *)
Definition write_bytes (b bs : list Z) : list Z :=
  b ++ to_le_bytes 4 (cast_u32 (Z.of_nat (length bs))) ++ bs.

Definition write_str (b : list Z) (s : string) : list Z := write_bytes b (as_bytes_str s).

Definition write_header (b : list Z) (signer : AccountId) (public_key : PublicKey)
    (nonce : Z) (receiver : AccountId) (block_hash : list Z) (action_count : Z) : list Z :=
  let b := write_str b signer in
  let b := b ++ pk_as_bytes public_key in
  let b := b ++ to_le_bytes 8 nonce in
  let b := write_str b receiver in
  let b := b ++ block_hash in
  b ++ to_le_bytes 4 (cast_u32 action_count).

(** The body of the [for action in actions] loop. *)
Definition write_action (b : list Z) (action : TxAction) : list Z :=
  match action with
  | TxAction_FunctionCall method_name args gas deposit =>
      let b := b ++ [ACTION_FUNCTION_CALL] in
      let b := write_str b method_name in
      let b := write_bytes b args in
      let b := b ++ to_le_bytes 8 gas in
      b ++ to_le_bytes 16 deposit
  | TxAction_Transfer deposit =>
      let b := b ++ [ACTION_TRANSFER] in
      b ++ to_le_bytes 16 deposit
  end.

Definition build_transaction (signer : AccountId) (public_key : PublicKey) (nonce : Z)
    (receiver : AccountId) (block_hash : list Z) (actions : list TxAction) : list Z :=
  let b := write_header [] signer public_key nonce receiver block_hash
             (Z.of_nat (length actions)) in
  foldl write_action b actions.

(** [HEX[i] as char] *)
Definition hex_char (i : Z) : Ascii.ascii :=
  default Ascii.zero (String.get (Z.to_nat i) HEX).

Global Arguments build_transaction : simpl never.

Fixpoint to_hex (bs : list Z) : string :=
  match bs with
  | [] => EmptyString
  | byte :: bs' =>
      String (hex_char (Z.shiftr byte 4))
        (String (hex_char (Z.land byte 15)) (to_hex bs'))
  end.

(** ** dev-contracts/test-mpc: the hex decoder of the signer stand-in *)
Definition char_code (c : Ascii.ascii) : Z := Z.of_nat (Ascii.nat_of_ascii c).

Definition nibble (c : Ascii.ascii) : option Z :=
  let n := char_code c in
  if (byte_lit "0" <=? n) && (n <=? byte_lit "9") then Some (n - byte_lit "0")
  else if (byte_lit "a" <=? n) && (n <=? byte_lit "f") then Some (n - byte_lit "a" + 10)
  else if (byte_lit "A" <=? n) && (n <=? byte_lit "F") then Some (n - byte_lit "A" + 10)
  else None.

(** [None] stands for the panics ("odd hex length", "invalid hex"). *)
Fixpoint from_hex (s : string) : option (list Z) :=
  match s with
  | EmptyString => Some []
  | String _ EmptyString => None
  | String h (String l s') =>
      hi ← nibble h;
      lo ← nibble l;
      rest ← from_hex s';
      Some (Z.lor (Z.shiftl hi 4) lo :: rest)
  end.

(** ** The NEAR transaction format, as a decoder

    The reference the builder is checked against: the borsh layout of a NEAR
    [TransactionV0] (signer, key, nonce, receiver, block hash, actions) for the
    action kinds the contracts emit. [AddKey] with full-access permission is
    included because mpc-recovery builds it. *)
Definition Parser (A : Type) : Type := list Z -> option (A * list Z).

Inductive NearAction :=
| NA_FunctionCall (method_name : string) (args : list Z) (gas deposit : Z)
| NA_Transfer (deposit : Z)
| NA_AddFullAccessKey (key : PublicKey) (key_nonce : Z).

Record NearTransaction := mkNearTransaction {
  tx_signer : AccountId;
  tx_public_key : PublicKey;
  tx_nonce : Z;
  tx_receiver : AccountId;
  tx_block_hash : list Z;
  tx_actions : list NearAction
}.

Definition parse_raw (n : nat) : Parser (list Z) := fun l =>
  if (n <=? length l)%nat then Some (take n l, drop n l) else None.

Definition parse_int (n : nat) : Parser Z := fun l =>
  '(bs, l) ← parse_raw n l; Some (from_le_bytes bs, l).

Definition parse_bytes : Parser (list Z) := fun l =>
  '(n, l) ← parse_int 4 l; parse_raw (Z.to_nat n) l.

Definition parse_str : Parser string := fun l =>
  '(bs, l) ← parse_bytes l; Some (str_of_bytes bs, l).

Definition parse_key : Parser PublicKey := fun l =>
  match l with
  | 0 :: l => '(d, l) ← parse_raw 32 l; Some (mkPublicKey CurveType_ED25519 d, l)
  | 1 :: l => '(d, l) ← parse_raw 64 l; Some (mkPublicKey CurveType_SECP256K1 d, l)
  | _ => None
  end.

Definition parse_action : Parser NearAction := fun l =>
  match l with
  | 2 :: l =>
      '(m, l) ← parse_str l; '(a, l) ← parse_bytes l;
      '(g, l) ← parse_int 8 l; '(d, l) ← parse_int 16 l;
      Some (NA_FunctionCall m a g d, l)
  | 3 :: l => '(d, l) ← parse_int 16 l; Some (NA_Transfer d, l)
  | 5 :: l =>
      '(k, l) ← parse_key l; '(n, l) ← parse_int 8 l;
      match l with
      | 1 :: l => Some (NA_AddFullAccessKey k n, l)
      | _ => None
      end
  | _ => None
  end.

Fixpoint parse_many (n : nat) : Parser (list NearAction) := fun l =>
  match n with
  | O => Some ([], l)
  | S n => '(a, l) ← parse_action l; '(rest, l) ← parse_many n l; Some (a :: rest, l)
  end.

(** A whole transaction: nothing may follow the last action. *)
Definition decode_transaction (l : list Z) : option NearTransaction :=
  '(signer, l) ← parse_str l;
  '(key, l) ← parse_key l;
  '(nonce, l) ← parse_int 8 l;
  '(receiver, l) ← parse_str l;
  '(hash, l) ← parse_raw 32 l;
  '(count, l) ← parse_int 4 l;
  '(actions, l) ← parse_many (Z.to_nat count) l;
  match l with
  | [] => Some (mkNearTransaction signer key nonce receiver hash actions)
  | _ => None
  end.

(** The NEAR action a [TxAction] denotes, and the value ranges of its Rust
    fields (lengths fit borsh's [u32] prefix, which wasm's address space
    guarantees). *)
Definition near_action (a : TxAction) : NearAction :=
  match a with
  | TxAction_FunctionCall m args gas deposit => NA_FunctionCall m args gas deposit
  | TxAction_Transfer deposit => NA_Transfer deposit
  end.

Definition str_ok (s : string) : Prop := str_len s <= U32_MAX.

Definition TxAction_ok (a : TxAction) : Prop :=
  match a with
  | TxAction_FunctionCall m args gas deposit =>
      str_ok m /\ Z.of_nat (length args) <= U32_MAX /\ is_u64 gas /\ is_u128 deposit
  | TxAction_Transfer deposit => is_u128 deposit
  end.

Definition block_hash_ok (h : list Z) : Prop := length h = 32%nat.

(** *** Encodings, and parsing what was just written

    Each [write_*] appends a fixed encoding of its argument. *)
Definition enc_bytes (bs : list Z) : list Z :=
  to_le_bytes 4 (cast_u32 (Z.of_nat (length bs))) ++ bs.
Definition enc_str (s : string) : list Z := enc_bytes (as_bytes_str s).
Definition enc_action (a : TxAction) : list Z :=
  match a with
  | TxAction_FunctionCall m args gas deposit =>
      [2] ++ enc_str m ++ enc_bytes args ++ to_le_bytes 8 gas ++ to_le_bytes 16 deposit
  | TxAction_Transfer deposit => [3] ++ to_le_bytes 16 deposit
  end.

Global Arguments enc_bytes : simpl never.
Global Arguments enc_str : simpl never.
Global Arguments parse_raw : simpl never.
Global Arguments parse_int : simpl never.
Global Arguments parse_bytes : simpl never.
Global Arguments parse_str : simpl never.
Global Arguments parse_key : simpl never.

Lemma write_bytes_enc b bs : write_bytes b bs = b ++ enc_bytes bs.
Proof. reflexivity. Qed.

Lemma write_str_enc b s : write_str b s = b ++ enc_str s.
Proof. reflexivity. Qed.

Lemma write_action_enc b a : write_action b a = b ++ enc_action a.
Proof.
  destruct a; unfold write_action, enc_action, ACTION_FUNCTION_CALL, ACTION_TRANSFER;
    rewrite ?write_str_enc, ?write_bytes_enc; by rewrite <- !app_assoc.
Qed.

Lemma write_actions_enc b l : foldl write_action b l = b ++ mjoin (enc_action <$> l).
Proof.
  revert b; induction l as [|a l IH]; intros b.
  - unfold mjoin. simpl. by rewrite app_nil_r.
  - rewrite fmap_cons. change (mjoin (enc_action a :: (enc_action <$> l)))
      with (enc_action a ++ mjoin (enc_action <$> l)).
    change (foldl write_action b (a :: l)) with (foldl write_action (write_action b a) l).
    rewrite IH, write_action_enc. by rewrite <- app_assoc.
Qed.

Lemma build_transaction_enc signer pk nonce receiver bh actions :
  build_transaction signer pk nonce receiver bh actions =
    enc_str signer ++ pk_as_bytes pk ++ to_le_bytes 8 nonce ++ enc_str receiver ++ bh ++
    to_le_bytes 4 (cast_u32 (Z.of_nat (length actions))) ++ mjoin (enc_action <$> actions).
Proof.
  unfold build_transaction, write_header.
  rewrite write_actions_enc, !write_str_enc. rewrite <- !app_assoc. by rewrite app_nil_l.
Qed.

(** Runs a bind on a parse that succeeded. *)
Ltac obind := cbn [mbind option_bind].

Lemma parse_raw_app n bs rest : length bs = n -> parse_raw n (bs ++ rest) = Some (bs, rest).
Proof.
  intros <-. unfold parse_raw. rewrite length_app.
  destruct (Nat.leb_spec (length bs) (length bs + length rest)); [|lia].
  by rewrite take_app_length, drop_app_length.
Qed.

Lemma parse_int_app n x rest :
  0 <= x < 256 ^ Z.of_nat n -> parse_int n (to_le_bytes n x ++ rest) = Some (x, rest).
Proof.
  intros Hx. unfold parse_int.
  rewrite parse_raw_app by apply to_le_bytes_length. obind.
  by rewrite from_to_le_bytes.
Qed.

Lemma cast_u32_small x : 0 <= x <= U32_MAX -> cast_u32 x = x.
Proof. unfold_max. intros. apply Z.mod_small. lia. Qed.

Lemma parse_bytes_app bs rest :
  Z.of_nat (length bs) <= U32_MAX -> parse_bytes (enc_bytes bs ++ rest) = Some (bs, rest).
Proof.
  intros Hl. unfold parse_bytes, enc_bytes. rewrite <- app_assoc.
  rewrite cast_u32_small by lia.
  rewrite parse_int_app by (unfold_max; simpl; lia). obind.
  by rewrite Nat2Z.id, parse_raw_app.
Qed.

Lemma parse_str_app s rest : str_ok s -> parse_str (enc_str s ++ rest) = Some (s, rest).
Proof.
  intros Hs. unfold parse_str, enc_str.
  rewrite parse_bytes_app by (rewrite as_bytes_str_length; exact Hs). obind.
  by rewrite str_of_as_bytes.
Qed.

Lemma parse_key_app k rest : pk_wf k -> parse_key (pk_as_bytes k ++ rest) = Some (k, rest).
Proof.
  destruct k as [[] d]; intros [Hl _]; simpl in Hl; unfold pk_as_bytes, parse_key; simpl;
    by rewrite parse_raw_app.
Qed.

Lemma parse_action_app a rest :
  TxAction_ok a -> parse_action (enc_action a ++ rest) = Some (near_action a, rest).
Proof.
  destruct a as [m args gas dep|dep]; unfold enc_action, near_action, TxAction_ok.
  - intros (Hm & Ha & Hg & Hd). rewrite <- !app_assoc. cbn [app parse_action].
    rewrite parse_str_app by done. obind. rewrite parse_bytes_app by done. obind.
    rewrite parse_int_app by (unfold_max; simpl; lia). obind.
    by rewrite parse_int_app by (unfold_max; simpl; lia).
  - intros Hd. rewrite <- app_assoc. cbn [app parse_action].
    by rewrite parse_int_app by (unfold_max; simpl; lia).
Qed.

Lemma parse_many_app l rest :
  Forall TxAction_ok l ->
  parse_many (length l) (mjoin (enc_action <$> l) ++ rest) = Some (near_action <$> l, rest).
Proof.
  induction 1 as [|a l Ha _ IH]; [done|].
  rewrite fmap_cons. change (mjoin (enc_action a :: (enc_action <$> l)))
    with (enc_action a ++ mjoin (enc_action <$> l)).
  rewrite <- app_assoc. cbn [parse_many length].
  rewrite parse_action_app by done. obind. by rewrite IH.
Qed.

Lemma decode_build_transaction signer pk nonce receiver bh actions :
  str_ok signer -> pk_wf pk -> is_u64 nonce -> str_ok receiver -> block_hash_ok bh ->
  Forall TxAction_ok actions -> Z.of_nat (length actions) <= U32_MAX ->
  decode_transaction (build_transaction signer pk nonce receiver bh actions) =
    Some (mkNearTransaction signer pk nonce receiver bh (near_action <$> actions)).
Proof.
  intros Hs Hk Hn Hr Hb Ha Hl. rewrite build_transaction_enc. unfold decode_transaction.
  rewrite parse_str_app by done. obind. rewrite parse_key_app by done. obind.
  rewrite parse_int_app by (unfold_max; simpl; lia). obind.
  rewrite parse_str_app by done. obind. rewrite parse_raw_app by done. obind.
  rewrite cast_u32_small by lia.
  rewrite parse_int_app by (unfold_max; simpl; lia). obind. rewrite Nat2Z.id.
  rewrite <- (app_nil_r (mjoin _)). by rewrite parse_many_app.
Qed.

(** The ranges of the Rust types of [build_transaction]'s arguments. *)
Definition tx_args_ok (signer : string) (pk : PublicKey) (nonce : Z) (receiver : string)
    (bh : list Z) (actions : list TxAction) : Prop :=
  str_ok signer /\ pk_wf pk /\ is_u64 nonce /\ str_ok receiver /\ block_hash_ok bh /\
  Forall TxAction_ok actions /\ Z.of_nat (length actions) <= U32_MAX.

Lemma near_action_inj (l l' : list TxAction) : near_action <$> l = near_action <$> l' -> l = l'.
Proof.
  revert l'. induction l as [|a l IH]; intros [|a' l']; cbn; try done.
  intros [= E El]. f_equal; [|by apply IH]. destruct a, a'; cbn in E; by simplify_eq.
Qed.

(** C33: The bytes build_transaction writes decode, by an independent borsh decoder,
    to the transaction with exactly its arguments, so two different transactions
    never share their bytes. *)
Theorem build_transaction_decodes signer pk nonce receiver bh actions :
  tx_args_ok signer pk nonce receiver bh actions ->
  decode_transaction (build_transaction signer pk nonce receiver bh actions) =
    Some (mkNearTransaction signer pk nonce receiver bh (near_action <$> actions)) /\
  forall signer' pk' nonce' receiver' bh' actions',
    tx_args_ok signer' pk' nonce' receiver' bh' actions' ->
    build_transaction signer pk nonce receiver bh actions =
      build_transaction signer' pk' nonce' receiver' bh' actions' ->
    (signer, pk, nonce, receiver, bh, actions) = (signer', pk', nonce', receiver', bh', actions').
Proof.
  intros (?&?&?&?&?&?&?). split; [by apply decode_build_transaction|].
  intros * (?&?&?&?&?&?&?) E%(f_equal decode_transaction).
  rewrite !decode_build_transaction in E by done.
  injection E as -> -> -> -> -> E. by rewrite (near_action_inj _ _ E).
Qed.

(** *** The two tails of the golden vectors of tx.rs, and the hex round trip *)
Lemma byte_forall (P : Z -> bool) :
  forallb P (seqZ 0 256) = true -> forall b, byte_ok b -> P b = true.
Proof.
  intros HP b Hb. rewrite forallb_forall in HP. apply HP.
  apply list_elem_of_In, elem_of_seqZ. unfold byte_ok in Hb. lia.
Qed.

(** One byte through [to_hex] and back through [from_hex]. *)
Definition hex_byte_back (b : Z) : option Z :=
  hi ← nibble (hex_char (Z.shiftr b 4));
  lo ← nibble (hex_char (Z.land b 15));
  Some (Z.lor (Z.shiftl hi 4) lo).

Lemma hex_byte_back_id b : byte_ok b -> hex_byte_back b = Some b.
Proof.
  intros Hb. apply (bool_decide_eq_true (hex_byte_back b = Some b)).
  revert b Hb. apply byte_forall. vm_compute. reflexivity.
Qed.

(** Hexadecimal loses nothing. *)
Theorem from_hex_to_hex bs : Forall byte_ok bs -> from_hex (to_hex bs) = Some bs.
Proof.
  induction 1 as [|b bs Hb _ IH]; [done|]. cbn [to_hex from_hex].
  pose proof (hex_byte_back_id b Hb) as E. unfold hex_byte_back in E.
  destruct (nibble (hex_char (Z.shiftr b 4))) as [hi|]; [|done].
  destruct (nibble (hex_char (Z.land b 15))) as [lo|]; [|done].
  obind. rewrite IH. obind. by injection E as ->.
Qed.

Lemma to_hex_length bs : String.length (to_hex bs) = (2 * length bs)%nat.
Proof. induction bs as [|b bs IH]; [done|]. cbn [to_hex String.length length]. lia. Qed.

(** The golden vectors of the unit tests of tx.rs. *)
Definition golden_signer : AccountId := "alice.beta.hostla.testnet".
Definition golden_key : PublicKey := mkPublicKey CurveType_ED25519
  (default [] (from_hex "baa81b168f3b4d0c1af89664de30fa8d6754349847e0bba1020bf5ea43ff75fb")).
Definition TRANSFER_CANONICAL : string :=
  "19000000616c6963652e626574612e686f73746c612e746573746e657400baa81b168f3b4d0c1af89664de30fa8d6754349847e0bba1020bf5ea43ff75fb2a000000000000000b000000626f622e746573746e65740000000000000000000000000000000000000000000000000000000000000000010000000315cd5b07000000000000000000000000".
Definition FUNCTION_CALL_CANONICAL : string :=
  "19000000616c6963652e626574612e686f73746c612e746573746e657400baa81b168f3b4d0c1af89664de30fa8d6754349847e0bba1020bf5ea43ff75fb2a000000000000001700000072656769737472792e686f73746c612e746573746e657400000000000000000000000000000000000000000000000000000000000000000100000002100000006c6973745f7375625f6163636f756e74070000007b2278223a317d00c06e31d910010001000000000000000000000000000000".
Definition MULTI_CANONICAL : string :=
  "19000000616c6963652e626574612e686f73746c612e746573746e657400baa81b168f3b4d0c1af89664de30fa8d6754349847e0bba1020bf5ea43ff75fb2a000000000000000b000000626f622e746573746e65740000000000000000000000000000000000000000000000000000000000000000020000000301000000000000000000000000000000020400000070696e6700000000005039278c04000000000000000000000000000000000000".
Definition Tgas : Z := 1000000000000.

Lemma golden_vectors :
  to_hex (build_transaction golden_signer golden_key 42 "bob.testnet" (replicate 32 0)
            [TxAction_Transfer 123456789]) = TRANSFER_CANONICAL /\
  to_hex (build_transaction golden_signer golden_key 42 "registry.hostla.testnet" (replicate 32 0)
            [TxAction_FunctionCall "list_sub_account"
               [123; 34; 120; 34; 58; 49; 125] (300 * Tgas) 1]) = FUNCTION_CALL_CANONICAL /\
  to_hex (build_transaction golden_signer golden_key 42 "bob.testnet" (replicate 32 0)
            [TxAction_Transfer 1; TxAction_FunctionCall "ping" [] (5 * Tgas) 0]) = MULTI_CANONICAL.
Proof. vm_compute. repeat split. Qed.

Lemma build_transaction_decodes_witness :
  decode_transaction (build_transaction golden_signer golden_key 42 "bob.testnet" (replicate 32 0)
                        [TxAction_Transfer 123456789]) =
    Some (mkNearTransaction golden_signer golden_key 42 "bob.testnet" (replicate 32 0)
            [NA_Transfer 123456789]).
Proof.
  apply (build_transaction_decodes golden_signer golden_key 42 "bob.testnet" (replicate 32 0)
           [TxAction_Transfer 123456789]).
  assert (Hkey : bool_decide (Forall byte_ok (key_data golden_key)) = true) by (vm_compute; reflexivity).
  unfold tx_args_ok, str_ok, block_hash_ok, is_u64.
  split; [by apply Z.leb_le|]. split; [split; [reflexivity|by apply bool_decide_eq_true in Hkey]|].
  split; [by split; apply Z.leb_le|]. split; [by apply Z.leb_le|]. split; [reflexivity|].
  split; [|by apply Z.leb_le].
  constructor; [|constructor]. unfold TxAction_ok, is_u128. by split; apply Z.leb_le.
Defined.
