(* ===== verification/Interfaces.v ===== *)
(** * The cross-contract calls

    One constructor per remote method the contracts call, with the arguments of
    the [ext_contract] traits ([contracts/tla-registry/src/interfaces.rs], the
    traits at the head of hos-extension's and tla-manager's [lib.rs]) or of the
    JSON a contract writes by hand (mpc-recovery's calls to active-signer, the
    calls to the MPC signer). The JSON text itself is not modelled. *)
From S2P Require Export HosCommon.

(** [serde_json::Value], of which the contracts only ask whether it is null. *)
Inductive Value := Value_Null | Value_Json (text : string).
Definition is_null (v : Value) : bool :=
  match v with Value_Null => true | Value_Json _ => false end.

Inductive Msg :=
(* active-signer *)
| Msg_install_signer (wallet : AccountId) (public_key : string) (mpc_public_key : PublicKey)
| Msg_swap_owner (wallet : AccountId) (new_public_key : string) (expected_current : option string)
| Msg_authority_sign_tx (wallet receiver_id : AccountId) (actions : list TxAction)
    (tx_nonce : Z) (block_hash : list Z)
| Msg_signer_of (wallet : AccountId)
| Msg_freeze (wallet : AccountId) (expected_current : option string)
| Msg_unfreeze (wallet : AccountId)
(* v1.signer *)
| Msg_sign (path eddsa_payload : string) (domain_id : Z)
| Msg_derived_public_key (path : string) (predecessor : AccountId) (domain_id : Z)
(* fungible tokens *)
| Msg_ft_balance_of (account_id : AccountId)
| Msg_storage_deposit (account_id : option AccountId) (registration_only : option bool)
(* hos-extension *)
| Msg_force_transfer (wallet : AccountId) (new_public_key : PublicKey)
    (expected_current : option PublicKey)
| Msg_sweep_ft (wallet ft destination : AccountId) (tx_nonce : Z) (block_hash : list Z)
(* tla-manager *)
| Msg_create_sub_account (name : string) (owner_public_key : PublicKey)
| Msg_retry_install (account : AccountId) (owner_public_key : PublicKey)
(* mpc-recovery *)
| Msg_on_wallet_transferred (wallet : AccountId).

(** ed25519 is domain 1 of the MPC network, for every contract that calls it. *)
Definition ED25519_DOMAIN : Z := 1.
Definition ONE_YOCTO : Z := 1.
