(* ===== verification/Demo.v ===== *)
(** * A concrete SDK, for evaluating the contracts

    An instance of [Sdk] that satisfies [SdkLaws]: the witnesses of the
    theorems run the contracts on it. The display of a key is its raw bytes
    after the curve prefix, a "signature" is the key followed by a digest of
    key and message, and the digest is a 32-byte checksum. Nothing in the
    theorems depends on these choices. *)
From S2P Require Export Interfaces.

Lemma as_str_of_bytes l : Forall byte_ok l -> as_bytes_str (str_of_bytes l) = l.
Proof.
  unfold as_bytes_str, str_of_bytes. rewrite String.list_ascii_of_string_of_list_ascii.
  induction 1 as [|b l Hb _ IH]; [done|]. rewrite !fmap_cons, IH. f_equal.
  unfold byte_ok in Hb. rewrite Ascii.nat_ascii_embedding by lia. lia.
Qed.

Definition demo_curve_prefix (c : CurveType) : string :=
  match c with CurveType_ED25519 => "ed25519:" | CurveType_SECP256K1 => "secp256k1:" end.

Definition demo_sha256 (m : list Z) : list Z :=
  to_le_bytes 32 (foldl (fun acc b => acc * 257 + b + 1) 7 m mod 2 ^ 256).

Definition demo_signature (k : PublicKey) (m : list Z) : list Z :=
  key_data k ++ demo_sha256 (key_data k ++ m).

Definition demo_digits (l : list Z) : option Z :=
  foldl (fun acc b => x ← acc;
     if (48 <=? b) && (b <=? 57) then Some (x * 10 + (b - 48)) else None) (Some 0) l.

(** A quoted decimal number. *)
Definition demo_json_u128 (data : list Z) : option Z :=
  match data with
  | 34 :: rest =>
      match rev rest with
      | 34 :: (_ :: _) as digits =>
          x ← demo_digits (rev (tail digits));
          if (0 <=? x) && (x <=? U128_MAX) then Some x else None
      | _ => None
      end
  | _ => None
  end.

#[export] Instance demo_sdk : Sdk := {
  account_parse s :=
    if (2 <=? String.length s)%nat && (String.length s <=? 64)%nat then Some s else None;
  pk_to_string k := demo_curve_prefix (curve_type k) +:+ str_of_bytes (key_data k);
  sha256 := demo_sha256;
  ed25519_verify signature message key :=
    bool_decide (signature = key ++ demo_sha256 (key ++ message));
  ed25519_is_weak key := Some (bool_decide (key = 1 :: replicate 31 0));
  json_u128 := demo_json_u128;
  json_ft_transfer receiver amount memo :=
    as_bytes_str (receiver +:+ ":" +:+ dec_string amount +:+ ":" +:+ memo)
}.

Lemma demo_display_inj k1 k2 :
  pk_wf k1 -> pk_wf k2 ->
  demo_curve_prefix (curve_type k1) +:+ str_of_bytes (key_data k1) =
  demo_curve_prefix (curve_type k2) +:+ str_of_bytes (key_data k2) -> k1 = k2.
Proof.
  destruct k1 as [c1 d1], k2 as [c2 d2]; intros [_ H1] [_ H2]; cbn [curve_type key_data] in *.
  intros E. assert (c1 = c2) as <- by (by destruct c1, c2; try discriminate E).
  apply (f_equal (strip_prefix (demo_curve_prefix c1))) in E.
  rewrite !strip_prefix_append in E. injection E as E. f_equal.
  by rewrite <- (as_str_of_bytes d1), <- (as_str_of_bytes d2), E.
Qed.

#[export] Instance demo_sdk_laws : SdkLaws.
Proof.
  split.
  - intros s a. cbn. case_match; [|done]. by intros [= ->].
  - intros [[] d]; cbn; [eauto|done].
  - apply demo_display_inj.
  - intros m. split; [apply to_le_bytes_length|apply to_le_bytes_ok].
  - intros data x. cbn. unfold demo_json_u128.
    intros H. repeat (case_match; try done). apply bind_Some in H as (y & _ & H).
    destruct ((0 <=? y) && (y <=? U128_MAX)) eqn:E; [|done]. injection H as <-. guards.
    by split.
Qed.

(** Only evaluation looks inside the checksum. *)
Global Opaque demo_sha256.

(** Keys, accounts and environments the witnesses use. *)
Definition demo_key (b : Z) : PublicKey := mkPublicKey CurveType_ED25519 (replicate 32 b).
Definition demo_hash : list Z := replicate 32 9.

Definition demo_env (caller this : AccountId) (deposit now : Z) : Env :=
  mkEnv caller this deposit now (10 ^ 25) (10 ^ 19) 1000 [].

Lemma demo_key_wf b : byte_ok b -> pk_wf (demo_key b).
Proof. intros H. split; [done|]. by apply Forall_replicate. Qed.
