(* ===== verification/ActiveSigner.v ===== *)
(** * active-signer: the per-account signing authority

    Models [contracts/active-signer/src]: the operating keys and nonce windows
    of the wallets ([SignerEntry]), the renter-facing [submit_signed_tx] /
    [submit_signed_message] / [self_freeze], the marketplace's
    [authority_sign_tx], the owner swap with its compare-and-swap, the freeze
    state machine, and the NEP-413 payload. *)
From S2P Require Export Demo.

(** ** error.rs *)
Definition ONLY_ADMIN : string := "only admin".
Definition ONLY_MINTER : string := "only minter".
Definition ONLY_MARKETPLACE : string := "only marketplace authority".
Definition WALLET_NOT_UNDER_MINTER : string := "wallet is not a sub-account of the minter".
Definition LAST_ADMIN : string := "cannot remove last admin".
Definition ONLY_RECOVERY : string := "only recovery authority".
Definition NO_SIGNER : string := "no signer for wallet".
Definition ONE_YOCTO_REQUIRED : string := "exactly one yoctoNEAR required".
Definition SIGNER_MISMATCH : string := "signer_id does not match wallet".
Definition WRONG_CHAIN : string := "wrong chain id".
Definition FROZEN : string := "wallet frozen by recovery".
Definition NOT_FROZEN : string := "wallet not frozen".
Definition OWNER_CHANGED : string := "wallet owner changed since recovery was anchored".
Definition BAD_SIGNATURE : string := "invalid signature".
Definition NONCE_REJECTED : string := "nonce already used or expired".
Definition UNAUTHORIZED : string := "unauthorized".
Definition BAD_KEY : string := "invalid ed25519 public key".
Definition MPC_NOT_ED25519 : string := "mpc key must be ed25519".
Definition SIGNER_EXISTS : string := "signer already installed".
Definition NO_ACTIONS : string := "actions must not be empty".
Definition BAD_MESSAGE_NONCE : string := "message nonce must be 32 bytes".
Definition INVALID_TIMEOUT : string := "timeout_secs out of bounds".

(** ** nep413.rs *)
Definition TAG : Z := 2147484061.

Definition payload (message : string) (nonce : list Z) (recipient : string)
    (callback_url : option string) : list Z :=
  let b := to_le_bytes 4 TAG in
  let b := write_str b message in
  let b := b ++ nonce in
  let b := write_str b recipient in
  match callback_url with
  | Some url => let b := b ++ [1] in write_str b url
  | None => b ++ [0]
  end.

(** ** lib.rs: constants *)
Definition CHAIN_ID : string := "mainnet".
Definition MIN_TIMEOUT_SECS : Z := 60.
Definition MAX_TIMEOUT_SECS : Z := 2592000.
Definition SIGN_GAS : Z := 60 * Tgas.
Definition ON_SIGNED_GAS : Z := 10 * Tgas.
Definition BY_MARKETPLACE : string := "marketplace".
Definition BY_RECOVERY : string := "recovery".
Definition FREEZE_DOMAIN : list Z := as_bytes_str "NEAR_HOS_ACTIVE_SIGNER_FREEZE/V1".
Definition TX_DOMAIN : list Z := as_bytes_str "NEAR_HOS_ACTIVE_SIGNER_TX/V1".
Definition MESSAGE_DOMAIN : list Z := as_bytes_str "NEAR_HOS_ACTIVE_SIGNER_MSG/V1".

(** ** Signed envelopes *)
Record FreezeMessage := mkFreezeMessage {
  fm_chain_id : string; fm_signer_id : AccountId; fm_nonce : Z;
  fm_created_at_secs : Z; fm_timeout_secs : Z
}.

Record TxMessage := mkTxMessage {
  tm_chain_id : string; tm_signer_id : AccountId; tm_nonce : Z;
  tm_created_at_secs : Z; tm_timeout_secs : Z;
  tm_receiver_id : AccountId; tm_actions : list TxAction
}.

Record MessageRequest := mkMessageRequest {
  mr_chain_id : string; mr_signer_id : AccountId; mr_nonce : Z;
  mr_created_at_secs : Z; mr_timeout_secs : Z;
  mr_message : string; mr_recipient : string; mr_message_nonce : list Z;
  mr_callback_url : option string
}.

Record MpcSigned := mkMpcSigned {
  ms_payload_hash : string; ms_unsigned_tx_hex : option string; ms_mpc_signature : Value
}.

(** The defuse-wallet crate: operating keys, the nonce window, and the
    [Borsh<..Sha256<Ed25519>>] signing standard. *)
Class DefuseWallet := {
  Ed25519PublicKey : Type;
  Ed25519PublicKey_eq_dec :: EqDecision Ed25519PublicKey;
  ed_from_str : string -> option Ed25519PublicKey;
  ed_to_string : Ed25519PublicKey -> string;
  Nonces : Type;
  (** [Nonces::new(timeout)], the timeout in seconds *)
  nonces_new : Z -> Nonces;
  (** [nonces.commit(nonce, created_at, timeout)] at block time [now] (ns):
      the window after the commit, or [None] for its error *)
  nonces_commit : Nonces -> Z -> Z -> Z -> Z -> option Nonces;
  (** [Sha256<Ed25519>::verify(bytes, key, signature)] *)
  sha256_ed25519 : list Z -> Ed25519PublicKey -> string -> bool;
  (** borsh encodings of the three envelopes *)
  borsh_freeze : FreezeMessage -> list Z;
  borsh_tx : TxMessage -> list Z;
  borsh_message : MessageRequest -> list Z
}.

(** ** state.rs *)
Inductive FreezeState :=
| FreezeState_Unfrozen
| FreezeState_SelfFrozen
| FreezeState_RecoveryFrozen.

Global Instance FreezeState_eq_dec : EqDecision FreezeState.
Proof. solve_decision. Defined.

Record SignerEntry `{DefuseWallet} := mkSignerEntry {
  public_key : Ed25519PublicKey;
  mpc_public_key : PublicKey;
  nonces : Nonces;
  freeze_nonces : Nonces;
  last_signed_at : Z;
  frozen : FreezeState
}.

Record ActiveSigner `{DefuseWallet} := mkActiveSigner {
  admins : gset AccountId;
  minters : gset AccountId;
  marketplace_authority : AccountId;
  recovery_authority : AccountId;
  mpc_signer : AccountId;
  timeout_secs : Z;
  signers : gmap AccountId SignerEntry
}.

Global Arguments mkSignerEntry {_}.
Global Arguments mkActiveSigner {_}.

(** ** events.rs *)
Inductive Event :=
| Event_SignerInstalled (wallet : AccountId)
| Event_TxSigned (wallet : AccountId) (nonce : Z)
| Event_MessageSigned (wallet : AccountId) (nonce : Z)
| Event_AuthorityTxSigned (wallet : AccountId)
| Event_OwnerSwapped (wallet : AccountId) (by_ : string)
| Event_OwnerSwapVoided (wallet : AccountId)
| Event_Frozen (wallet : AccountId)
| Event_Unfrozen (wallet : AccountId)
| Event_UnfreezeRefused (wallet : AccountId)
| Event_SelfFrozen (wallet : AccountId)
| Event_MinterAdded (minter : AccountId)
| Event_MinterRemoved (minter : AccountId)
| Event_AdminAdded (admin : AccountId)
| Event_AdminRemoved (admin : AccountId).

(** The one continuation the contract schedules on itself. *)
Inductive Callback :=
| Cb_on_signed (payload_hash : string) (unsigned_tx_hex : option string).

Section ActiveSigner.
Context `{HS : !Sdk} `{HW : !DefuseWallet}.

Definition SignerEntry_eta (r : SignerEntry) : SignerEntry :=
  mkSignerEntry (public_key r) (mpc_public_key r) (nonces r) (freeze_nonces r)
    (last_signed_at r) (frozen r).
#[global] Instance set_public_key : Setter public_key := ltac:(mk_setter SignerEntry_eta).
#[global] Instance set_nonces : Setter nonces := ltac:(mk_setter SignerEntry_eta).
#[global] Instance set_freeze_nonces : Setter freeze_nonces := ltac:(mk_setter SignerEntry_eta).
#[global] Instance set_last_signed_at : Setter last_signed_at := ltac:(mk_setter SignerEntry_eta).
#[global] Instance set_frozen : Setter frozen := ltac:(mk_setter SignerEntry_eta).

Definition ActiveSigner_eta (r : ActiveSigner) : ActiveSigner :=
  mkActiveSigner (admins r) (minters r) (marketplace_authority r) (recovery_authority r)
    (mpc_signer r) (timeout_secs r) (signers r).
#[global] Instance set_admins : Setter admins := ltac:(mk_setter ActiveSigner_eta).
#[global] Instance set_minters : Setter minters := ltac:(mk_setter ActiveSigner_eta).
#[global] Instance set_signers : Setter signers := ltac:(mk_setter ActiveSigner_eta).

Notation SPromise := (Promise Msg Callback).
Notation M := (NearM ActiveSigner Event SPromise Empty_set).

(** ** Signing domains: [TaggedDomain::verify] prepends the domain tag *)
Definition tagged_verify (domain msg : list Z) (key : Ed25519PublicKey) (signature : string)
    : bool :=
  sha256_ed25519 (domain ++ msg) key signature.

Definition FreezePipeline_verify (msg : FreezeMessage) := tagged_verify FREEZE_DOMAIN (borsh_freeze msg).
Definition TxPipeline_verify (msg : TxMessage) := tagged_verify TX_DOMAIN (borsh_tx msg).
Definition MessagePipeline_verify (msg : MessageRequest) :=
  tagged_verify MESSAGE_DOMAIN (borsh_message msg).

(** ** Private helpers *)
Definition assert_admin : M unit :=
  caller ← asks predecessor_account_id;
  ads ← gets admins;
  require (bool_decide (caller ∈ ads)) ONLY_ADMIN.

Definition assert_minter : M unit :=
  caller ← asks predecessor_account_id;
  ms ← gets minters;
  require (bool_decide (caller ∈ ms)) ONLY_MINTER.

Definition parse_key (s : string) : M Ed25519PublicKey :=
  unwrap_or_panic (ed_from_str s) BAD_KEY.

Definition is_direct_subaccount (wallet parent : AccountId) : bool :=
  match strip_suffix parent wallet ≫= strip_suffix "." with
  | Some label => negb (bool_decide (label = EmptyString)) && negb (str_contains "." label)
  | None => false
  end.

(** [entry] written back to [self.signers] ([get_mut] and assignments). *)
Definition put_entry (wallet : AccountId) (entry : SignerEntry) : M unit :=
  modify (fun s => s <| signers ::= <[wallet := entry]> |>).

Definition get_entry (wallet : AccountId) : M SignerEntry :=
  ss ← gets signers;
  unwrap_or_panic (ss !! wallet) NO_SIGNER.

Definition authorize (wallet : AccountId) (nonce created_at_secs timeout_secs : Z)
    (verify : Ed25519PublicKey -> bool) : M PublicKey :=
  entry ← get_entry wallet;
  require (bool_decide (frozen entry = FreezeState_Unfrozen)) FROZEN;;
  require (verify (public_key entry)) BAD_SIGNATURE;;
  now ← asks block_timestamp;
  ns ← unwrap_or_panic (nonces_commit (nonces entry) now nonce created_at_secs timeout_secs)
         NONCE_REJECTED;
  put_entry wallet (entry <| nonces := ns |> <| last_signed_at := now |>);;
  mret (mpc_public_key entry).

Definition sign_payload (wallet : AccountId) (payload : list Z)
    (unsigned_tx_hex : option string) : M SPromise :=
  let payload_hash := to_hex payload in
  signer ← gets mpc_signer;
  mret (PThen (ext_call signer (Msg_sign (mpc_path wallet) payload_hash ED25519_DOMAIN)
                 ONE_YOCTO SIGN_GAS)
          (Cb_on_signed payload_hash unsigned_tx_hex) ON_SIGNED_GAS).

(** ** Methods *)
Definition new (admin marketplace_authority recovery_authority mpc_signer : AccountId)
    (timeout_secs : Z) : Res Empty_set ActiveSigner :=
  if (MIN_TIMEOUT_SECS <=? timeout_secs) && (timeout_secs <=? MAX_TIMEOUT_SECS) then
    Done (mkActiveSigner {[admin]} ∅ marketplace_authority recovery_authority mpc_signer
            timeout_secs ∅)
  else Fail (Panicked INVALID_TIMEOUT).

Definition add_minter (minter : AccountId) : M unit :=
  not_payable "add_minter";;
  assert_admin;;
  ms ← gets minters;
  if negb (bool_decide (minter ∈ ms)) then
    modify (fun s => s <| minters ::= union {[minter]} |>);;
    emit (Event_MinterAdded minter)
  else mret tt.

Definition remove_minter (minter : AccountId) : M unit :=
  not_payable "remove_minter";;
  assert_admin;;
  ms ← gets minters;
  if bool_decide (minter ∈ ms) then
    modify (fun s => s <| minters ::= fun x => x ∖ {[minter]} |>);;
    emit (Event_MinterRemoved minter)
  else mret tt.

Definition add_admin (admin : AccountId) : M unit :=
  not_payable "add_admin";;
  assert_admin;;
  ads ← gets admins;
  if negb (bool_decide (admin ∈ ads)) then
    modify (fun s => s <| admins ::= union {[admin]} |>);;
    emit (Event_AdminAdded admin)
  else mret tt.

Definition remove_admin (admin : AccountId) : M unit :=
  not_payable "remove_admin";;
  assert_admin;;
  ads ← gets admins;
  require (1 <? Z.of_nat (size ads)) LAST_ADMIN;;
  if bool_decide (admin ∈ ads) then
    modify (fun s => s <| admins ::= fun x => x ∖ {[admin]} |>);;
    emit (Event_AdminRemoved admin)
  else mret tt.

Definition install_signer (wallet : AccountId) (public_key : string)
    (mpc_public_key : PublicKey) : M unit :=
  not_payable "install_signer";;
  assert_minter;;
  caller ← asks predecessor_account_id;
  require (is_direct_subaccount wallet caller) WALLET_NOT_UNDER_MINTER;;
  ss ← gets signers;
  require (bool_decide (ss !! wallet = None)) SIGNER_EXISTS;;
  require (is_ed25519 mpc_public_key) MPC_NOT_ED25519;;
  public_key ← parse_key public_key;
  timeout ← gets timeout_secs;
  put_entry wallet (mkSignerEntry public_key mpc_public_key (nonces_new timeout)
                      (nonces_new timeout) 0 FreezeState_Unfrozen);;
  emit (Event_SignerInstalled wallet).

Definition is_empty {A} (l : list A) : bool := match l with [] => true | _ => false end.

Definition submit_signed_tx (wallet : AccountId) (msg : TxMessage) (proof : string)
    (tx_nonce : Z) (block_hash : list Z) : M SPromise :=
  deposit ← asks attached_deposit;
  require (deposit =? ONE_YOCTO) ONE_YOCTO_REQUIRED;;
  require (bool_decide (tm_chain_id msg = CHAIN_ID)) WRONG_CHAIN;;
  require (bool_decide (tm_signer_id msg = wallet)) SIGNER_MISMATCH;;
  require (negb (is_empty (tm_actions msg))) NO_ACTIONS;;
  mpc_public_key ← authorize wallet (tm_nonce msg) (tm_created_at_secs msg)
    (tm_timeout_secs msg) (fun key => TxPipeline_verify msg key proof);
  let unsigned := build_transaction wallet mpc_public_key tx_nonce (tm_receiver_id msg)
                    block_hash (tm_actions msg) in
  emit (Event_TxSigned wallet (tm_nonce msg));;
  sign_payload wallet (sha256 unsigned) (Some (to_hex unsigned)).

Definition submit_signed_message (wallet : AccountId) (msg : MessageRequest) (proof : string)
    : M SPromise :=
  deposit ← asks attached_deposit;
  require (deposit =? ONE_YOCTO) ONE_YOCTO_REQUIRED;;
  require (bool_decide (mr_chain_id msg = CHAIN_ID)) WRONG_CHAIN;;
  require (bool_decide (mr_signer_id msg = wallet)) SIGNER_MISMATCH;;
  require (length (mr_message_nonce msg) =? 32)%nat BAD_MESSAGE_NONCE;;
  let message_nonce := mr_message_nonce msg in
  authorize wallet (mr_nonce msg) (mr_created_at_secs msg)
    (mr_timeout_secs msg) (fun key => MessagePipeline_verify msg key proof);;
  let payload := payload (mr_message msg) message_nonce (mr_recipient msg)
                   (mr_callback_url msg) in
  emit (Event_MessageSigned wallet (mr_nonce msg));;
  sign_payload wallet (sha256 payload) None.

Definition authority_sign_tx (wallet receiver_id : AccountId) (actions : list TxAction)
    (tx_nonce : Z) (block_hash : list Z) : M SPromise :=
  deposit ← asks attached_deposit;
  require (deposit =? ONE_YOCTO) ONE_YOCTO_REQUIRED;;
  caller ← asks predecessor_account_id;
  marketplace ← gets marketplace_authority;
  require (bool_decide (caller = marketplace)) ONLY_MARKETPLACE;;
  require (negb (is_empty actions)) NO_ACTIONS;;
  entry ← get_entry wallet;
  require (bool_decide (frozen entry = FreezeState_Unfrozen)) FROZEN;;
  now ← asks block_timestamp;
  put_entry wallet (entry <| last_signed_at := now |>);;
  let mpc_public_key := mpc_public_key entry in
  let unsigned := build_transaction wallet mpc_public_key tx_nonce receiver_id block_hash
                    actions in
  emit (Event_AuthorityTxSigned wallet);;
  sign_payload wallet (sha256 unsigned) (Some (to_hex unsigned)).

Definition on_signed (payload_hash : string) (unsigned_tx_hex : option string)
    (mpc_signature : CallResult Value) : M (option MpcSigned) :=
  private_method "on_signed";;
  match mpc_signature with
  | Ok mpc_signature => mret (Some (mkMpcSigned payload_hash unsigned_tx_hex mpc_signature))
  | Err _ => mret None
  end.

Definition swap_owner (wallet : AccountId) (new_public_key : string)
    (expected_current : option string) : M bool :=
  not_payable "swap_owner";;
  new_public_key ← parse_key new_public_key;
  timeout ← gets timeout_secs;
  caller ← asks predecessor_account_id;
  ma ← gets marketplace_authority;
  ra ← gets recovery_authority;
  let marketplace := bool_decide (caller = ma) in
  let recovery := bool_decide (caller = ra) in
  require (marketplace || recovery) UNAUTHORIZED;;
  entry ← get_entry wallet;
  (if marketplace
   then require (bool_decide (frozen entry = FreezeState_Unfrozen)) FROZEN
   else require (negb (bool_decide (frozen entry = FreezeState_Unfrozen))) NOT_FROZEN);;
  voided ← match expected_current with
           | Some expected =>
               expected ← parse_key expected;
               mret (negb (bool_decide (public_key entry = expected)))
           | None => mret false
           end;
  if (voided : bool) then
    emit (Event_OwnerSwapVoided wallet);;
    mret false
  else
    put_entry wallet (entry <| frozen := FreezeState_Unfrozen |>
                            <| public_key := new_public_key |>
                            <| nonces := nonces_new timeout |>
                            <| freeze_nonces := nonces_new timeout |>);;
    emit (Event_OwnerSwapped wallet (if marketplace then BY_MARKETPLACE else BY_RECOVERY));;
    mret true.

Definition self_freeze (wallet : AccountId) (msg : FreezeMessage) (proof : string) : M unit :=
  not_payable "self_freeze";;
  require (bool_decide (fm_chain_id msg = CHAIN_ID)) WRONG_CHAIN;;
  require (bool_decide (fm_signer_id msg = wallet)) SIGNER_MISMATCH;;
  entry ← get_entry wallet;
  require (FreezePipeline_verify msg (public_key entry) proof) BAD_SIGNATURE;;
  now ← asks block_timestamp;
  ns ← unwrap_or_panic (nonces_commit (freeze_nonces entry) now (fm_nonce msg)
                          (fm_created_at_secs msg) (fm_timeout_secs msg)) NONCE_REJECTED;
  put_entry wallet (entry <| freeze_nonces := ns |> <| frozen := FreezeState_SelfFrozen |>);;
  emit (Event_SelfFrozen wallet).

Definition freeze (wallet : AccountId) (expected_current : option string) : M unit :=
  not_payable "freeze";;
  caller ← asks predecessor_account_id;
  ra ← gets recovery_authority;
  require (bool_decide (caller = ra)) ONLY_RECOVERY;;
  entry ← get_entry wallet;
  match expected_current with
  | Some expected =>
      expected ← parse_key expected;
      require (bool_decide (public_key entry = expected)) OWNER_CHANGED
  | None => mret tt
  end;;
  (if negb (bool_decide (frozen entry = FreezeState_SelfFrozen)) then
     put_entry wallet (entry <| frozen := FreezeState_RecoveryFrozen |>)
   else mret tt);;
  emit (Event_Frozen wallet).

Definition unfreeze (wallet : AccountId) : M unit :=
  not_payable "unfreeze";;
  caller ← asks predecessor_account_id;
  ra ← gets recovery_authority;
  require (bool_decide (caller = ra)) ONLY_RECOVERY;;
  entry ← get_entry wallet;
  if bool_decide (frozen entry = FreezeState_SelfFrozen) then
    emit (Event_UnfreezeRefused wallet)
  else
    put_entry wallet (entry <| frozen := FreezeState_Unfrozen |>);;
    emit (Event_Unfrozen wallet).

(** ** Views *)
Definition signer_of (s : ActiveSigner) (wallet : AccountId) : option string :=
  (fun e => ed_to_string (public_key e)) <$> signers s !! wallet.
Definition mpc_key_of (s : ActiveSigner) (wallet : AccountId) : option PublicKey :=
  mpc_public_key <$> signers s !! wallet.
Definition last_signed_at_of (s : ActiveSigner) (wallet : AccountId) : option Z :=
  last_signed_at <$> signers s !! wallet.
Definition is_frozen (s : ActiveSigner) (wallet : AccountId) : option bool :=
  (fun e => negb (bool_decide (frozen e = FreezeState_Unfrozen))) <$> signers s !! wallet.
Definition freeze_state (s : ActiveSigner) (wallet : AccountId) : option FreezeState :=
  frozen <$> signers s !! wallet.
Definition is_minter (s : ActiveSigner) (account : AccountId) : bool :=
  bool_decide (account ∈ minters s).
Definition is_admin (s : ActiveSigner) (account : AccountId) : bool :=
  bool_decide (account ∈ admins s).

(** ** The contract's interface: every method that can change its state *)
Inductive Call :=
| Call_add_minter (minter : AccountId)
| Call_remove_minter (minter : AccountId)
| Call_add_admin (admin : AccountId)
| Call_remove_admin (admin : AccountId)
| Call_install_signer (wallet : AccountId) (key : string) (mpc_key : PublicKey)
| Call_submit_signed_tx (wallet : AccountId) (msg : TxMessage) (proof : string)
    (tx_nonce : Z) (block_hash : list Z)
| Call_submit_signed_message (wallet : AccountId) (msg : MessageRequest) (proof : string)
| Call_authority_sign_tx (wallet receiver : AccountId) (actions : list TxAction)
    (tx_nonce : Z) (block_hash : list Z)
| Call_on_signed (payload_hash : string) (tx_hex : option string) (r : CallResult Value)
| Call_swap_owner (wallet : AccountId) (key : string) (expected : option string)
| Call_self_freeze (wallet : AccountId) (msg : FreezeMessage) (proof : string)
| Call_freeze (wallet : AccountId) (expected : option string)
| Call_unfreeze (wallet : AccountId).

Definition exec (c : Call) : M unit :=
  match c with
  | Call_add_minter m => add_minter m
  | Call_remove_minter m => remove_minter m
  | Call_add_admin a => add_admin a
  | Call_remove_admin a => remove_admin a
  | Call_install_signer w k mk => install_signer w k mk
  | Call_submit_signed_tx w m p n bh => submit_signed_tx w m p n bh;; mret tt
  | Call_submit_signed_message w m p => submit_signed_message w m p;; mret tt
  | Call_authority_sign_tx w r a n bh => authority_sign_tx w r a n bh;; mret tt
  | Call_on_signed h t r => on_signed h t r;; mret tt
  | Call_swap_owner w k e => swap_owner w k e;; mret tt
  | Call_self_freeze w m p => self_freeze w m p
  | Call_freeze w e => freeze w e
  | Call_unfreeze w => unfreeze w
  end.
End ActiveSigner.

#[export] Hint Unfold assert_admin assert_minter get_entry put_entry parse_key : near_unfold.

(** ** The nonce window's contract

    What the signing flows rely on from the defuse-wallet nonce windows, with
    time moving forward: a nonce that was committed is spent for its envelope,
    stays spent, and is rejected. [spent ns now nonce created timeout] says the
    envelope can no longer be accepted from time [now] on. *)
Class NoncesLaws `{!DefuseWallet} := {
  spent : Nonces -> Z -> Z -> Z -> Z -> Prop;
  commit_spends : forall ns now n c t ns',
    nonces_commit ns now n c t = Some ns' -> spent ns' now n c t;
  spent_stays : forall ns t0 n c t now n' c' t' ns', spent ns t0 n c t -> t0 <= now ->
    nonces_commit ns now n' c' t' = Some ns' -> spent ns' now n c t;
  spent_rejected : forall ns t0 n c t now, spent ns t0 n c t -> t0 <= now ->
    nonces_commit ns now n c t = None
}.

Section ActiveSignerProofs.
Context `{HS : !Sdk} `{HW : !DefuseWallet}.
Notation run := (run exec).
Notation step_state := (step_state exec).

(** ** The contract a wallet sees

    What a wallet's owner, the marketplace and the recovery authority rely
    on: the operating key and the freeze state of a wallet, and the only
    moves they make. *)
Definition wallet_view (s : ActiveSigner) (w : AccountId)
    : option (Ed25519PublicKey * FreezeState) :=
  (fun e => (public_key e, frozen e)) <$> signers s !! w.

(** [expected_current] names the operating key, when it names one. *)
Definition current_matches (expected : option string) (k : Ed25519PublicKey) : Prop :=
  match expected with Some x => ed_from_str x = Some k | None => True end.

Inductive wallet_step (s : ActiveSigner) (env : Env) (w : AccountId) : Call ->
    option (Ed25519PublicKey * FreezeState) ->
    option (Ed25519PublicKey * FreezeState) -> Prop :=
| ws_stay c v : wallet_step s env w c v v
| ws_install key mk k :
    predecessor_account_id env ∈ minters s ->
    is_direct_subaccount w (predecessor_account_id env) = true ->
    ed_from_str key = Some k -> is_ed25519 mk = true ->
    wallet_step s env w (Call_install_signer w key mk) None (Some (k, FreezeState_Unfrozen))
| ws_self_freeze msg proof k f :
    fm_signer_id msg = w -> fm_chain_id msg = CHAIN_ID -> FreezePipeline_verify msg k proof = true ->
    wallet_step s env w (Call_self_freeze w msg proof)
      (Some (k, f)) (Some (k, FreezeState_SelfFrozen))
| ws_freeze ex k f :
    predecessor_account_id env = recovery_authority s -> f <> FreezeState_SelfFrozen ->
    current_matches ex k ->
    wallet_step s env w (Call_freeze w ex) (Some (k, f)) (Some (k, FreezeState_RecoveryFrozen))
| ws_unfreeze k f :
    predecessor_account_id env = recovery_authority s -> f <> FreezeState_SelfFrozen ->
    wallet_step s env w (Call_unfreeze w) (Some (k, f)) (Some (k, FreezeState_Unfrozen))
| ws_sale key ex k k' :
    predecessor_account_id env = marketplace_authority s ->
    ed_from_str key = Some k' -> current_matches ex k ->
    wallet_step s env w (Call_swap_owner w key ex)
      (Some (k, FreezeState_Unfrozen)) (Some (k', FreezeState_Unfrozen))
| ws_recover key ex k k' f :
    predecessor_account_id env = recovery_authority s ->
    predecessor_account_id env <> marketplace_authority s ->
    f <> FreezeState_Unfrozen -> ed_from_str key = Some k' -> current_matches ex k ->
    wallet_step s env w (Call_swap_owner w key ex)
      (Some (k, f)) (Some (k', FreezeState_Unfrozen)).

Lemma wallet_view_put s w e w' :
  wallet_view (s <| signers ::= <[w := e]> |>) w' =
    if decide (w = w') then Some (public_key e, frozen e) else wallet_view s w'.
Proof. unfold wallet_view. simpl. rewrite lookup_insert. by case_decide. Qed.

Lemma authorize_inv w n c t v env s pk s' l :
  authorize w n c t v env s = Done (pk, s', l) ->
  exists e ns, signers s !! w = Some e /\ frozen e = FreezeState_Unfrozen
    /\ v (public_key e) = true
    /\ nonces_commit (nonces e) (block_timestamp env) n c t = Some ns
    /\ s' = s <| signers ::= <[w := e <| nonces := ns |>
                                      <| last_signed_at := block_timestamp env |>]> |>
    /\ pk = mpc_public_key e /\ l = [].
Proof. unfold authorize. intros H. nrun H. guards. eauto 10. Qed.

Lemma sign_payload_inv w p h env s r :
  sign_payload w p h env s = Done r ->
  r = (PThen (ext_call (mpc_signer s) (Msg_sign (mpc_path w) (to_hex p) ED25519_DOMAIN)
                ONE_YOCTO SIGN_GAS) (Cb_on_signed (to_hex p) h) ON_SIGNED_GAS, s, []).
Proof. destruct r as [[]]. unfold sign_payload. intros H. by nrun H. Qed.

Lemma wallet_step_put s env c w0 e w :
  wallet_step s env w0 c (wallet_view s w0) (Some (public_key e, frozen e)) ->
  wallet_step s env w c (wallet_view s w) (wallet_view (s <| signers ::= <[w0 := e]> |>) w).
Proof. intros H. rewrite wallet_view_put. case_decide; subst; [done|constructor]. Qed.

Lemma wallet_view_lookup s w e :
  signers s !! w = Some e -> wallet_view s w = Some (public_key e, frozen e).
Proof. unfold wallet_view. by intros ->. Qed.

(** Closes a case whose final state stored one entry over another. *)
Ltac put_case :=
  apply wallet_step_put;
  first [ erewrite wallet_view_lookup by eassumption
        | unfold wallet_view; match goal with H : _ !! _ = None |- _ => rewrite H end ];
  cbn; repeat match goal with H : frozen _ = _ |- _ => rewrite H end;
  econstructor; first [ done | congruence | cbn; congruence ].

Lemma swap_owner_wallet_step w0 k ex env s b s' l w :
  swap_owner w0 k ex env s = Done (b, s', l) ->
  wallet_step s env w (Call_swap_owner w0 k ex) (wallet_view s w) (wallet_view s' w).
Proof.
  unfold swap_owner. intros H. nrun H; guards; try apply ws_stay; put_case.
Qed.

Lemma exec_wallet_step c env s s' l w :
  exec c env s = Done (tt, s', l) ->
  wallet_step s env w c (wallet_view s w) (wallet_view s' w).
Proof.
  destruct c; cbn [exec]; intros H.
  - unfold add_minter in H. nrun H; apply ws_stay.
  - unfold remove_minter in H. nrun H; apply ws_stay.
  - unfold add_admin in H. nrun H; apply ws_stay.
  - unfold remove_admin in H. nrun H; apply ws_stay.
  - unfold install_signer in H. nrun H. guards. put_case.
  - unfold submit_signed_tx in H. nrun H.
    apply authorize_inv in Hr0 as (e & ns & He & Hf & _ & _ & -> & -> & ->).
    apply sign_payload_inv in Hr. simplify_eq. put_case.
  - unfold submit_signed_message in H. nrun H.
    apply authorize_inv in Hr0 as (e & ns & He & Hf & _ & _ & -> & -> & ->).
    apply sign_payload_inv in Hr. simplify_eq. put_case.
  - unfold authority_sign_tx in H. nrun H.
    apply sign_payload_inv in Hr. simplify_eq. guards. put_case.
  - unfold on_signed in H. nrun H; apply ws_stay.
  - nrun H. by eapply swap_owner_wallet_step.
  - unfold self_freeze in H. nrun H. guards. put_case.
  - unfold freeze in H. nrun H; guards; first [put_case | apply ws_stay].
  - unfold unfreeze in H. nrun H; guards; first [put_case | apply ws_stay].
Qed.

Lemma step_state_wallet_step s env c w :
  wallet_step s env w c (wallet_view s w) (wallet_view (step_state s (env, c)) w).
Proof.
  unfold Near.step_state. cbn [fst snd].
  destruct (exec c env s) as [[[[] s'] l]|] eqn:E; [|apply ws_stay].
  by eapply exec_wallet_step.
Qed.

(** C4: Along every history, every call of active-signer (failing ones included)
    moves the key and freeze state of each wallet by one step of the abstract wallet
    machine: only the named caller, with the named evidence, can change them. *)
Theorem exec_refines_wallet_step s tr env c w :
  wallet_step (run tr s) env w c (wallet_view (run tr s) w) (wallet_view (run (tr ++ [(env, c)]) s) w).
Proof. rewrite run_app. apply step_state_wallet_step. Qed.

(** The accounts the contract is wired to are fixed by [new]. *)
Definition wiring (s : ActiveSigner) :=
  (marketplace_authority s, recovery_authority s, mpc_signer s, timeout_secs s).

Ltac unfold_methods H :=
  unfold add_minter, remove_minter, add_admin, remove_admin, install_signer, submit_signed_tx,
    submit_signed_message, authority_sign_tx, on_signed, swap_owner, self_freeze, freeze,
    unfreeze, authorize, sign_payload in H.

Lemma exec_wiring c env s s' l : exec c env s = Done (tt, s', l) -> wiring s' = wiring s.
Proof. destruct c; cbn [exec]; intros H; unfold_methods H; nrun H; done. Qed.

Lemma step_state_wiring s x : wiring (step_state s x) = wiring s.
Proof.
  unfold Near.step_state. destruct (exec x.2 x.1 s) as [[[[] s'] l]|] eqn:E; [|done].
  by eapply exec_wiring.
Qed.

(** What [swap_owner] does for the recovery authority. *)
Lemma recovery_swap_runs w raw eraw env g k' b' :
  attached_deposit env = 0 -> predecessor_account_id env = recovery_authority g ->
  recovery_authority g <> marketplace_authority g ->
  ed_from_str raw = Some k' -> ed_from_str eraw = Some b' ->
  match signers g !! w with
  | Some e =>
      if bool_decide (frozen e = FreezeState_Unfrozen) then
        exists f, swap_owner w raw (Some eraw) env g = Fail f
      else if bool_decide (public_key e = b') then
        exists g' l, swap_owner w raw (Some eraw) env g = Done (true, g', l) /\
          signers g' = <[w := mkSignerEntry k' (mpc_public_key e) (nonces_new (timeout_secs g))
                                (nonces_new (timeout_secs g)) (last_signed_at e)
                                FreezeState_Unfrozen]> (signers g)
      else exists l, swap_owner w raw (Some eraw) env g = Done (false, g, l)
  | None => exists f, swap_owner w raw (Some eraw) env g = Fail f
  end.
Proof.
  intros Hd Hp Hne Hk Hb. unfold swap_owner. nexec. rewrite Hd, Hk. cbn.
  rewrite Hp, bool_decide_false, bool_decide_true by done. cbn.
  destruct (signers g !! w) as [e|]; cbn; [|eauto].
  destruct (bool_decide (frozen e = FreezeState_Unfrozen)); cbn; [eauto|]. rewrite Hb. cbn.
  case_bool_decide; cbn; eauto.
Qed.

Lemma unfreeze_runs w env g e :
  attached_deposit env = 0 -> predecessor_account_id env = recovery_authority g ->
  signers g !! w = Some e ->
  exists l, unfreeze w env g =
    Done (tt, if bool_decide (frozen e = FreezeState_SelfFrozen) then g
              else g <| signers ::= <[w := e <| frozen := FreezeState_Unfrozen |>]> |>, l).
Proof.
  intros Hd Hp He. unfold unfreeze. nexec. rewrite Hd. cbn. rewrite Hp, bool_decide_true by done. cbn.
  rewrite He. cbn. case_bool_decide; cbn; eauto.
Qed.

(** ** A self-freeze is one-way

    The only call that takes a wallet out of it is the recovery authority's
    owner swap. *)
Definition recovery_swap (s : ActiveSigner) (w : AccountId) (x : Env * Call) : Prop :=
  predecessor_account_id x.1 = recovery_authority s /\
  exists key ex, x.2 = Call_swap_owner w key ex.

(** C36: A wallet its owner froze keeps its key and stays frozen through every
    history in which the recovery authority does not swap its owner. *)
Theorem self_freeze_is_one_way s w k tr :
  wallet_view s w = Some (k, FreezeState_SelfFrozen) ->
  Forall (fun x => ~ recovery_swap s w x) tr ->
  wallet_view (run tr s) w = Some (k, FreezeState_SelfFrozen).
Proof.
  intros Hw Ht. remember (recovery_authority s) as ra eqn:Hra.
  assert (Hra' : recovery_authority s = ra) by done. clear Hra.
  assert (HF : Forall (fun x => ~ (predecessor_account_id x.1 = ra /\
                 exists key ex, x.2 = Call_swap_owner w key ex)) tr) by (by subst ra).
  clear Ht. revert s Hw Hra'. induction HF as [|[env c] tr Hx _ IH]; intros s Hw Hra; [done|].
  change (wallet_view (run tr (step_state s (env, c))) w = Some (k, FreezeState_SelfFrozen)).
  apply IH.
  - pose proof (step_state_wallet_step s env c w) as Hs. rewrite Hw in Hs.
    inversion Hs; subst; try done. exfalso. apply Hx. cbn. eauto.
  - pose proof (step_state_wiring s (env, c)) as E. unfold wiring in E. congruence.
Qed.

(** ** A frozen wallet signs nothing *)
(** A frozen wallet signs nothing: owner transactions, owner messages and the
    marketplace authority's transactions are all refused. *)
Theorem frozen_wallet_cannot_sign s w k f env :
  wallet_view s w = Some (k, f) -> f <> FreezeState_Unfrozen ->
  (forall msg proof n bh, is_done (submit_signed_tx w msg proof n bh env s) = false) /\
  (forall msg proof, is_done (submit_signed_message w msg proof env s) = false) /\
  (forall r acts n bh, is_done (authority_sign_tx w r acts n bh env s) = false).
Proof.
  intros Hw Hf. assert (Hfz : forall e, signers s !! w = Some e -> frozen e <> FreezeState_Unfrozen).
  { intros e He. rewrite (wallet_view_lookup _ _ _ He) in Hw. by simplify_eq. }
  split_and!; intros.
  - destruct (submit_signed_tx _ _ _ _ _ _ _) as [[[p s'] l]|] eqn:H; [|done].
    unfold submit_signed_tx in H. nrun H. apply authorize_inv in Hr as (e & ns & He & Hu & _).
    by destruct (Hfz e).
  - destruct (submit_signed_message _ _ _ _ _) as [[[p s'] l]|] eqn:H; [|done].
    unfold submit_signed_message in H. nrun H.
    apply authorize_inv in Hr as (e & ns & He & Hu & _). by destruct (Hfz e).
  - destruct (authority_sign_tx _ _ _ _ _ _ _) as [[[p s'] l]|] eqn:H; [|done].
    unfold authority_sign_tx in H. nrun H. guards. by edestruct Hfz.
Qed.

(** ** What a signed transaction is

    The one thing [submit_signed_tx] hands to the MPC signer: the hash of the
    transaction the owner signed for, built for the wallet's own MPC key. *)
Definition sign_request (s : ActiveSigner) (w : AccountId) (digest : list Z)
    (tx_hex : option string) : Promise Msg Callback :=
  PThen (ext_call (mpc_signer s) (Msg_sign ("hos-tla/" +:+ w) (to_hex digest) 1) 1 SIGN_GAS)
    (Cb_on_signed (to_hex digest) tx_hex) ON_SIGNED_GAS.

Definition tx_fields_ok (w : AccountId) (receiver : AccountId) (pk : PublicKey) (nonce : Z)
    (bh : list Z) (actions : list TxAction) : Prop :=
  str_ok w /\ str_ok receiver /\ pk_wf pk /\ is_u64 nonce /\ block_hash_ok bh /\
  Forall TxAction_ok actions /\ Z.of_nat (length actions) <= U32_MAX.

Lemma submit_signed_tx_inv w msg proof n bh env s p s' l e :
  submit_signed_tx w msg proof n bh env s = Done (p, s', l) ->
  signers s !! w = Some e ->
  tx_fields_ok w (tm_receiver_id msg) (mpc_public_key e) n bh (tm_actions msg) ->
  frozen e = FreezeState_Unfrozen /\
  sha256_ed25519 (TX_DOMAIN ++ borsh_tx msg) (public_key e) proof = true /\
  tm_signer_id msg = w /\ tm_chain_id msg = CHAIN_ID /\ tm_actions msg <> [] /\
  attached_deposit env = 1 /\
  exists unsigned ns,
    nonces_commit (nonces e) (block_timestamp env) (tm_nonce msg) (tm_created_at_secs msg)
      (tm_timeout_secs msg) = Some ns /\
    decode_transaction unsigned =
      Some (mkNearTransaction w (mpc_public_key e) n (tm_receiver_id msg) bh
              (near_action <$> tm_actions msg)) /\
    p = sign_request s w (sha256 unsigned) (Some (to_hex unsigned)) /\
    s' = s <| signers ::= <[w := e <| nonces := ns |>
                                   <| last_signed_at := block_timestamp env |>]> |> /\
    l = [Emit (Event_TxSigned w (tm_nonce msg))].
Proof.
  unfold submit_signed_tx. intros H He (?&?&?&?&?&?&?). nrun H. guards.
  apply authorize_inv in Hr as (e' & ns & He' & Hf & Hv & Hc & -> & -> & ->).
  apply sign_payload_inv in H. simplify_eq. split_and!; try done.
  - intros E. by rewrite E in *.
  - eexists _, ns. split_and!; [done|by apply decode_build_transaction|done..].
Qed.

(** C6: What submit_signed_tx sends to the MPC signer is the hash of a transaction
    that decodes to exactly the receiver and actions the unfrozen wallet's owner
    signed in the TX domain, from the wallet's own account and MPC key, with the
    nonce burnt and one yocto attached. *)
Theorem submit_signed_tx_sound w msg proof n bh env s p s' l e :
  submit_signed_tx w msg proof n bh env s = Done (p, s', l) ->
  signers s !! w = Some e ->
  tx_fields_ok w (tm_receiver_id msg) (mpc_public_key e) n bh (tm_actions msg) ->
  frozen e = FreezeState_Unfrozen /\
  sha256_ed25519 (TX_DOMAIN ++ borsh_tx msg) (public_key e) proof = true /\
  tm_signer_id msg = w /\ tm_chain_id msg = CHAIN_ID /\ tm_actions msg <> [] /\
  attached_deposit env = 1 /\
  exists unsigned ns,
    nonces_commit (nonces e) (block_timestamp env) (tm_nonce msg) (tm_created_at_secs msg)
      (tm_timeout_secs msg) = Some ns /\
    decode_transaction unsigned =
      Some (mkNearTransaction w (mpc_public_key e) n (tm_receiver_id msg) bh
              (near_action <$> tm_actions msg)) /\
    p = sign_request s w (sha256 unsigned) (Some (to_hex unsigned)) /\
    s' = s <| signers ::= <[w := e <| nonces := ns |>
                                   <| last_signed_at := block_timestamp env |>]> |> /\
    l = [Emit (Event_TxSigned w (tm_nonce msg))].
Proof. apply submit_signed_tx_inv. Qed.

(** ** The owner swap is a compare-and-swap *)
(** swap_owner with an expected owner, on every branch: refused for strangers, for
    the marketplace on a frozen wallet and for recovery on an unfrozen one; void
    when the current key is another; otherwise the new key with fresh nonce windows,
    unfrozen, the MPC key kept. *)
Theorem swap_owner_compare_and_swap s w e env key k' expected x :
  signers s !! w = Some e -> attached_deposit env = 0 ->
  ed_from_str key = Some k' -> ed_from_str expected = Some x ->
  let marketplace := bool_decide (predecessor_account_id env = marketplace_authority s) in
  let recovery := bool_decide (predecessor_account_id env = recovery_authority s) in
  let unfrozen := bool_decide (frozen e = FreezeState_Unfrozen) in
  swap_owner w key (Some expected) env s =
    if negb (marketplace || recovery) then Fail (Panicked UNAUTHORIZED)
    else if marketplace && negb unfrozen then Fail (Panicked FROZEN)
    else if negb marketplace && unfrozen then Fail (Panicked NOT_FROZEN)
    else if bool_decide (public_key e = x) then
      Done (true,
            s <| signers ::= <[w := mkSignerEntry k' (mpc_public_key e)
                                 (nonces_new (timeout_secs s)) (nonces_new (timeout_secs s))
                                 (last_signed_at e) FreezeState_Unfrozen]> |>,
            [Emit (Event_OwnerSwapped w (if marketplace then "marketplace" else "recovery"))])
    else Done (false, s, [Emit (Event_OwnerSwapVoided w)]).
Proof.
  intros He Hd Hk Hx marketplace recovery unfrozen.
  unfold swap_owner. nexec. rewrite Hd, Hk. cbn.
  fold marketplace recovery.
  destruct marketplace, recovery; cbn; try done; rewrite He; cbn; rewrite ?Hx; cbn;
    fold unfrozen; destruct unfrozen; cbn; rewrite ?Hx; cbn; try done; case_bool_decide; done.
Qed.

Lemma direct_subaccount_of label p :
  label <> EmptyString -> byte_lit "." ∉ as_bytes_str label ->
  is_direct_subaccount (label +:+ "." +:+ p) p = true.
Proof.
  intros Hn Hd. unfold is_direct_subaccount, str_contains.
  rewrite <- string_app_assoc. rewrite (proj2 (strip_suffix_some _ _ _) eq_refl). obind.
  rewrite (proj2 (strip_suffix_some _ _ _) eq_refl). cbn. by rewrite !bool_decide_false.
Qed.

(** is_direct_subaccount holds exactly when the wallet is one non-empty dotless
    label in front of the parent. *)
Theorem is_direct_subaccount_spec w p :
  is_direct_subaccount w p = true <->
    exists label, w = label +:+ "." +:+ p /\ label <> EmptyString /\ byte_lit "." ∉ as_bytes_str label.
Proof.
  unfold is_direct_subaccount, str_contains. split.
  - destruct (strip_suffix p w ≫= strip_suffix ".") as [label|] eqn:E; [|done].
    apply bind_Some in E as (q & H1%strip_suffix_some & H2%strip_suffix_some).
    intros H. guards. exists label. subst. by rewrite string_app_assoc.
  - intros (label & -> & Hn & Hd). by apply direct_subaccount_of.
Qed.

(** ** Replays *)
Section replays.
Context `{HN : !NoncesLaws}.

(** Block time does not go back along the history. *)
Fixpoint time_ordered (now : Z) (tr : list (Env * Call)) : Prop :=
  match tr with
  | [] => True
  | (env, _) :: tr => now <= block_timestamp env /\ time_ordered (block_timestamp env) tr
  end.

Definition last_time (now : Z) (tr : list (Env * Call)) : Z :=
  foldl (fun _ x => block_timestamp x.1) now tr.

Lemma last_time_cons now x tr : last_time now (x :: tr) = last_time (block_timestamp x.1) tr.
Proof. reflexivity. Qed.

Definition not_swap_of (w : AccountId) (c : Call) : Prop :=
  forall key ex, c <> Call_swap_owner w key ex.

(** Without an owner swap, the key stays and the window only takes commits. *)
Lemma exec_keeps_window c env s s' l w e :
  exec c env s = Done (tt, s', l) -> not_swap_of w c -> signers s !! w = Some e ->
  exists e', signers s' !! w = Some e' /\ public_key e' = public_key e /\
    (nonces e' = nonces e \/ exists n cr t,
       nonces_commit (nonces e) (block_timestamp env) n cr t = Some (nonces e')).
Proof.
  intros H Hns He.
  assert (Hput : forall w0 e0 e1, signers s !! w0 = Some e0 -> public_key e1 = public_key e0 ->
    (nonces e1 = nonces e0 \/ exists n cr t,
       nonces_commit (nonces e0) (block_timestamp env) n cr t = Some (nonces e1)) ->
    exists e', (<[w0 := e1]> (signers s)) !! w = Some e' /\ public_key e' = public_key e /\
      (nonces e' = nonces e \/ exists n cr t,
         nonces_commit (nonces e) (block_timestamp env) n cr t = Some (nonces e'))).
  { intros w0 e0 e1 H0 Hk Hn. rewrite lookup_insert. case_decide; [subst|eauto].
    simplify_eq. eauto. }
  destruct c; cbn [exec] in H;
    try (unfold add_minter, remove_minter, add_admin, remove_admin, on_signed in H; nrun H; eauto; done).
  - unfold install_signer in H. nrun H. guards. cbn. rewrite lookup_insert.
    case_decide; [congruence|eauto].
  - unfold submit_signed_tx in H. nrun H.
    apply authorize_inv in Hr0 as (e0 & ns & He0 & _ & _ & Hc & -> & -> & ->).
    apply sign_payload_inv in Hr. simplify_eq/=. eapply Hput; eauto.
  - unfold submit_signed_message in H. nrun H.
    apply authorize_inv in Hr0 as (e0 & ns & He0 & _ & _ & Hc & -> & -> & ->).
    apply sign_payload_inv in Hr. simplify_eq/=. eapply Hput; eauto.
  - unfold authority_sign_tx in H. nrun H. apply sign_payload_inv in Hr.
    simplify_eq/=. eapply Hput; eauto.
  - unfold swap_owner in H. nrun H; eauto; cbn; rewrite lookup_insert;
      (destruct (decide (wallet = w)); [subst; exact (False_ind _ (Hns _ _ eq_refl))|eauto]).
  - unfold self_freeze in H. nrun H. cbn. eapply Hput; eauto.
  - unfold freeze in H. nrun H; eauto; cbn; eapply Hput; eauto.
  - unfold unfreeze in H. nrun H; eauto; cbn; eapply Hput; eauto.
Qed.

Lemma run_keeps_spent tr s t0 w e n c t :
  signers s !! w = Some e -> spent (nonces e) t0 n c t -> time_ordered t0 tr ->
  Forall (fun x => not_swap_of w x.2) tr ->
  exists e', signers (run tr s) !! w = Some e' /\ exists t1, t1 <= last_time t0 tr /\
    spent (nonces e') t1 n c t.
Proof.
  intros He Hs Ht HF. revert s e t0 He Hs Ht.
  assert (HG : forall s e t0 t1, signers s !! w = Some e -> spent (nonces e) t1 n c t ->
    t1 <= t0 -> time_ordered t0 tr -> exists e', signers (run tr s) !! w = Some e' /\
      exists t2, t2 <= last_time t0 tr /\ spent (nonces e') t2 n c t).
  { induction HF as [|[env call] tr Hx _ IH]; intros s e t0 t1 He Hs Hle Ht.
    - exists e. split; [done|]. by exists t1.
    - destruct Ht as [Hnow Ht]. rewrite last_time_cons. cbn [fst].
      change (run ((env, call) :: tr) s) with (run tr (step_state s (env, call))).
      unfold Near.step_state. cbn [fst snd].
      destruct (exec call env s) as [[[[] s'] l]|] eqn:E; [|apply (IH s e _ t1); try done; lia].
      destruct (exec_keeps_window _ _ _ _ _ _ _ E Hx He) as (e' & He' & _ & [En|(n' & c' & t' & En)]).
      + apply (IH s' e' _ t1); [done|by rewrite En|lia|done].
      + apply (IH s' e' _ (block_timestamp env)); [done| |lia|done].
        eapply spent_stays; [exact Hs|lia|exact En]. }
  intros s e t0 He Hs Ht. by eapply HG.
Qed.

(** C24: Once a signed transaction was accepted, the same envelope is refused after
    every later history in time order that does not swap the wallet's owner,
    whatever proof, nonce or block hash comes with it. *)
Theorem signed_tx_cannot_be_replayed w msg proof n bh env s p s1 l tr env' proof' n' bh' :
  submit_signed_tx w msg proof n bh env s = Done (p, s1, l) ->
  time_ordered (block_timestamp env) tr ->
  last_time (block_timestamp env) tr <= block_timestamp env' ->
  Forall (fun x => not_swap_of w x.2) tr ->
  is_done (submit_signed_tx w msg proof' n' bh' env' (run tr s1)) = false.
Proof.
  intros H Ht Hl HF. unfold submit_signed_tx in H. nrun H.
  apply authorize_inv in Hr as (e & ns & He & Hf & Hv & Hc & -> & -> & ->).
  apply sign_payload_inv in H. injection H as -> -> ->.
  destruct (run_keeps_spent tr (s <| signers ::= <[w:=e <| nonces := ns |>
      <| last_signed_at := block_timestamp env |>]> |>) (block_timestamp env) w
      (e <| nonces := ns |> <| last_signed_at := block_timestamp env |>)
      (tm_nonce msg) (tm_created_at_secs msg) (tm_timeout_secs msg))
    as (e' & He' & t1 & Ht1 & Hsp); [apply lookup_insert_eq|by eapply commit_spends|done..|].
  destruct (submit_signed_tx w msg proof' n' bh' env' _) as [[[p' s2] l2]|] eqn:H'; [|done].
  unfold submit_signed_tx in H'. nrun H'.
  apply authorize_inv in Hr as (e2 & ns2 & He2 & _ & _ & Hc2 & _).
  rewrite He' in He2. injection He2 as <-.
  rewrite (spent_rejected _ _ _ _ _ (block_timestamp env') Hsp) in Hc2; [done|lia].
Qed.
End replays.

(** ** Domains *)
(** The bytes signed for a freeze, a transaction and a message envelope never
    coincide. *)
Theorem signing_domains_disjoint (freeze_msg tx_msg message : list Z) :
  FREEZE_DOMAIN ++ freeze_msg <> TX_DOMAIN ++ tx_msg /\
  FREEZE_DOMAIN ++ freeze_msg <> MESSAGE_DOMAIN ++ message /\
  TX_DOMAIN ++ tx_msg <> MESSAGE_DOMAIN ++ message.
Proof. split_and!; intros H; apply (f_equal (take 24)) in H; vm_compute in H; discriminate H. Qed.

(** A NEP-413 message payload never parses as a transaction. *)
Theorem nep413_payload_is_no_transaction message nonce recipient callback_url :
  Z.of_nat (length (payload message nonce recipient callback_url)) < 2 ^ 31 ->
  decode_transaction (payload message nonce recipient callback_url) = None.
Proof.
  set (l := payload _ _ _ _). intros Hl.
  assert (exists rest, l = to_le_bytes 4 TAG ++ rest) as [rest E].
  { unfold l, payload. rewrite !write_str_enc. destruct callback_url; rewrite ?write_str_enc;
      rewrite <- !app_assoc; eauto. }
  rewrite E in *. unfold decode_transaction, parse_str, parse_bytes.
  rewrite parse_int_app by (unfold TAG; simpl; lia). obind.
  unfold parse_raw. rewrite length_app, to_le_bytes_length in Hl.
  destruct (Nat.leb_spec (Z.to_nat TAG) (length rest)) as [H|H]; [|done].
  exfalso. apply Nat2Z.inj_le in H. rewrite Z2Nat.id in H by done. unfold TAG in H. lia.
Qed.

(** ** Administration *)
Definition authority_inv (s : ActiveSigner) : Prop :=
  admins s <> ∅ /\ MIN_TIMEOUT_SECS <= timeout_secs s <= MAX_TIMEOUT_SECS /\
  map_Forall (fun _ e => is_ed25519 (mpc_public_key e) = true) (signers s).

Lemma put_keeps_mpc_key (ss : gmap AccountId SignerEntry) w e e' :
  map_Forall (fun _ e => is_ed25519 (mpc_public_key e) = true) ss -> ss !! w = Some e ->
  mpc_public_key e' = mpc_public_key e ->
  map_Forall (fun _ e => is_ed25519 (mpc_public_key e) = true) (<[w := e']> ss).
Proof. intros Hm He E. apply map_Forall_insert_2; [|done]. rewrite E. by apply (Hm w). Qed.

Lemma exec_authority_inv : preserves exec authority_inv.
Proof.
  intros c env s s' l H (Ha & Ht & Hm).
  destruct c; cbn [exec] in H; unfold_methods H; nrun H; guards; unfold authority_inv; cbn;
    (split_and!; [|by destruct Ht..|]);
    eauto using put_keeps_mpc_key, set_remove_nonempty; try set_solver.
  by apply map_Forall_insert_2.
Qed.

(** From a successful initialisation on, active-signer keeps an admin, a timeout in
    bounds, its wiring, and an ed25519 MPC key for every wallet. *)
Theorem authority_invariant admin ma ra ms timeout s tr :
  new admin ma ra ms timeout = Done s -> authority_inv (run tr s).
Proof.
  intros H. apply run_invariant; [apply exec_authority_inv|].
  unfold new in H. destruct (_ && _) eqn:E; [|done]. injection H as <-. guards.
  unfold authority_inv. cbn. split_and!; [set_solver|done..|apply map_Forall_empty].
Qed.
End ActiveSignerProofs.

(** ** Evaluation on a concrete wallet crate *)
Definition demo_borsh (l : list string) (ints : list Z) : list Z :=
  mjoin (enc_str <$> l) ++ mjoin (to_le_bytes 8 <$> ints).

Definition demo_signed_by (m : list Z) (k : string) : string := k +:+ to_hex (demo_sha256 m).

#[export] Instance demo_wallet : DefuseWallet := {
  Ed25519PublicKey := string;
  ed_from_str s := if (1 <=? String.length s)%nat then Some s else None;
  ed_to_string k := k;
  Nonces := list (Z * Z * Z);
  nonces_new _ := [];
  nonces_commit ns now n c t :=
    if (c * 1000000000 <=? now) && (now <? (c + t) * 1000000000)
       && negb (bool_decide ((n, c, t) ∈ ns))
    then Some ((n, c, t) :: ns) else None;
  sha256_ed25519 m k sig := bool_decide (sig = demo_signed_by m k);
  borsh_freeze m := demo_borsh [fm_chain_id m; fm_signer_id m]
    [fm_nonce m; fm_created_at_secs m; fm_timeout_secs m];
  borsh_tx m := demo_borsh [tm_chain_id m; tm_signer_id m; tm_receiver_id m]
    [tm_nonce m; tm_created_at_secs m; tm_timeout_secs m] ++ mjoin (enc_action <$> tm_actions m);
  borsh_message m := demo_borsh [mr_chain_id m; mr_signer_id m; mr_message m; mr_recipient m]
    [mr_nonce m; mr_created_at_secs m; mr_timeout_secs m]
}.

#[export] Program Instance demo_nonces_laws : NoncesLaws := {
  spent ns _ n c t := (n, c, t) ∈ (ns : list (Z * Z * Z))
}.
Next Obligation. cbn. intros ns now n c t ns'. case_match; [|done]. intros [= <-]. by left. Qed.
Next Obligation. cbn. intros. case_match; [|done]. simplify_eq. by right. Qed.
Next Obligation. cbn. intros. rewrite bool_decide_true by done. cbn. by rewrite andb_false_r. Qed.

Definition demo_entry : SignerEntry :=
  mkSignerEntry "KEYA" (demo_key 7) [] [] 0 FreezeState_Unfrozen.
Definition demo_signer_state : ActiveSigner :=
  mkActiveSigner {["root"]} {["alice.near"]} "ext.hos" "rec.hos" "v1.signer" 3600
    {["bob.alice.near" := demo_entry]}.
Definition demo_tx : TxMessage :=
  mkTxMessage "mainnet" "bob.alice.near" 5 100 600 "carol.near" [TxAction_Transfer 10].
Definition demo_tx_proof (key : string) : string := demo_signed_by (TX_DOMAIN ++ borsh_tx demo_tx) key.
Definition demo_user (deposit now : Z) : Env := demo_env "anyone.near" "signer.hos" deposit (now * 1000000000).
Definition demo_as (caller : AccountId) (now : Z) : Env := demo_env caller "signer.hos" 0 (now * 1000000000).
Definition demo_submit : Env * Call :=
  (demo_user 1 200, Call_submit_signed_tx "bob.alice.near" demo_tx (demo_tx_proof "KEYA") 1 demo_hash).
Definition demo_freeze_msg : FreezeMessage := mkFreezeMessage "mainnet" "bob.alice.near" 9 100 600.
Definition demo_self_freeze : Env * Call :=
  (demo_user 0 250, Call_self_freeze "bob.alice.near" demo_freeze_msg
                      (demo_signed_by (FREEZE_DOMAIN ++ borsh_freeze demo_freeze_msg) "KEYA")).
Definition demo_frozen_state : ActiveSigner :=
  demo_signer_state <| signers := {["bob.alice.near" :=
    mkSignerEntry "KEYA" (demo_key 7) [] [(9, 100, 600)] 0 FreezeState_SelfFrozen]} |>.

Lemma self_freeze_is_one_way_witness :
  wallet_view (run exec [(demo_as "rec.hos" 300, Call_unfreeze "bob.alice.near");
                         (demo_as "ext.hos" 301, Call_swap_owner "bob.alice.near" "KEYB" None);
                         (demo_as "rec.hos" 302, Call_freeze "bob.alice.near" None)]
                 demo_frozen_state) "bob.alice.near"
    = Some ("KEYA", FreezeState_SelfFrozen).
Proof.
  apply (self_freeze_is_one_way demo_frozen_state "bob.alice.near" "KEYA").
  - vm_eq.
  - constructor; [|constructor; [|constructor; [|constructor]]];
      intros [E (key & ex & E')]; cbn in E, E'; discriminate.
Defined.

Lemma frozen_wallet_cannot_sign_witness :
  is_done (submit_signed_tx "bob.alice.near" demo_tx (demo_tx_proof "KEYA") 1 demo_hash
             (demo_user 1 300) demo_frozen_state) = false.
Proof.
  destruct (frozen_wallet_cannot_sign demo_frozen_state "bob.alice.near" "KEYA"
              FreezeState_SelfFrozen (demo_user 1 300)) as (H & _ & _).
  - vm_eq.
  - discriminate.
  - exact (H demo_tx (demo_tx_proof "KEYA") 1 demo_hash).
Defined.

Lemma demo_tx_fields :
  tx_fields_ok "bob.alice.near" "carol.near" (demo_key 7) 1 demo_hash [TxAction_Transfer 10].
Proof.
  unfold tx_fields_ok, str_ok, block_hash_ok, is_u64.
  split; [by apply Z.leb_le|]. split; [by apply Z.leb_le|].
  split; [by apply demo_key_wf; split|]. split; [by split; apply Z.leb_le|].
  split; [reflexivity|]. split; [|by apply Z.leb_le].
  constructor; [|constructor]. cbn [TxAction_ok]. unfold is_u128. by split; apply Z.leb_le.
Qed.

Lemma submit_signed_tx_sound_witness :
  exists unsigned,
    decode_transaction unsigned =
      Some (mkNearTransaction "bob.alice.near" (demo_key 7) 1 "carol.near" demo_hash [NA_Transfer 10]).
Proof.
  destruct (is_done_inv (submit_signed_tx "bob.alice.near" demo_tx (demo_tx_proof "KEYA") 1
              demo_hash (fst demo_submit) demo_signer_state)) as [[[p s'] l] E]; [vm_eq|].
  destruct (submit_signed_tx_sound _ _ _ _ _ _ _ _ _ _ _ E eq_refl)
    as (_ & _ & _ & _ & _ & _ & unsigned & ns & _ & H & _).
  - exact demo_tx_fields.
  - exists unsigned. exact H.
Defined.

Lemma swap_owner_compare_and_swap_witness :
  swap_owner "bob.alice.near" "KEYB" (Some "KEYZ") (demo_as "ext.hos" 300) demo_signer_state
    = Done (false, demo_signer_state, [Emit (Event_OwnerSwapVoided "bob.alice.near")]).
Proof.
  rewrite (swap_owner_compare_and_swap (HW := demo_wallet) demo_signer_state "bob.alice.near"
    demo_entry (demo_as "ext.hos" 300)
    "KEYB" "KEYB" "KEYZ" "KEYZ" eq_refl eq_refl eq_refl eq_refl). reflexivity.
Defined.

Lemma signed_tx_cannot_be_replayed_witness :
  exists p s' l,
    submit_signed_tx "bob.alice.near" demo_tx (demo_tx_proof "KEYA") 1 demo_hash
      (fst demo_submit) demo_signer_state = Done (p, s', l) /\
    is_done (submit_signed_tx "bob.alice.near" demo_tx (demo_tx_proof "KEYA") 2 demo_hash
      (demo_user 1 400) (run exec [demo_self_freeze] s')) = false.
Proof.
  destruct (is_done_inv (submit_signed_tx "bob.alice.near" demo_tx (demo_tx_proof "KEYA") 1
              demo_hash (fst demo_submit) demo_signer_state)) as [[[p s'] l] E]; [vm_eq|].
  exists p, s', l. split; [exact E|].
  apply (signed_tx_cannot_be_replayed _ _ _ _ _ _ _ _ _ _ [demo_self_freeze] (demo_user 1 400)
           _ _ _ E).
  - split; [by apply Z.leb_le|done].
  - by apply Z.leb_le.
  - constructor; [|constructor]. intros key ex. discriminate.
Defined.

Lemma nep413_payload_is_no_transaction_witness :
  decode_transaction (payload "login" (replicate 32 1) "app.near" (Some "https://app")) = None.
Proof. apply nep413_payload_is_no_transaction. by apply Z.ltb_lt. Defined.

Lemma authority_invariant_witness :
  exists s, new "root" "ext.hos" "rec.hos" "v1.signer" 3600 = Done s /\
    authority_inv (run exec [(demo_as "root" 1, Call_remove_admin "root")] s).
Proof.
  eexists. split; [reflexivity|].
  apply (authority_invariant "root" "ext.hos" "rec.hos" "v1.signer" 3600). reflexivity.
Defined.

(** A swap starts fresh nonce windows, and nothing ties an envelope to the
    ownership it was signed under: once the wallet comes back to a key within
    an envelope's timeout, an envelope that key already spent is accepted
    again. *)
Lemma replay_after_swap_back :
  let sold_and_returned :=
    run exec [demo_submit;
              (demo_as "ext.hos" 300, Call_swap_owner "bob.alice.near" "KEYB" (Some "KEYA"));
              (demo_as "ext.hos" 400, Call_swap_owner "bob.alice.near" "KEYA" (Some "KEYB"))]
      demo_signer_state in
  is_done (exec (snd demo_submit) (demo_user 1 500) sold_and_returned) = true.
Proof. cbv zeta. vm_eq. Qed.
