(* ===== verification/RecoveryProof.v ===== *)
(** * mpc-recovery: attestations, verdicts and the recovery transaction

    Models [contracts/mpc-recovery/src/proof.rs] (the messages the attestation
    key and the watchers sign, signature verification, the watcher quorum) and
    [contracts/mpc-recovery/src/tx.rs] (the AddKey transaction that restores a
    native account). *)
From S2P Require Export Demo.

(** ** proof.rs *)
Definition DOMAIN_REQUEST : Z := 1.
Definition DOMAIN_VERDICT : Z := 2.

Definition push_str (m : list Z) (s : string) : list Z :=
  let m := m ++ to_le_bytes 4 (cast_u32 (str_len s)) in
  m ++ as_bytes_str s.

Definition message_core (domain : Z) (contract account : AccountId) (new_owner : PublicKey)
    (round : Z) : list Z :=
  let m := [domain] in
  let m := push_str m contract in
  let m := push_str m account in
  let m := m ++ pk_as_bytes new_owner in
  m ++ to_le_bytes 8 round.

Definition request_message (contract account : AccountId) (new_owner : PublicKey) (round : Z)
    : list Z :=
  message_core DOMAIN_REQUEST contract account new_owner round.

Definition verdict_message (contract account : AccountId) (new_owner : PublicKey) (round : Z)
    (silent : bool) : list Z :=
  let m := message_core DOMAIN_VERDICT contract account new_owner round in
  m ++ [if silent then 1 else 0].

Definition ed25519_key (key : PublicKey) : option (list Z) :=
  let bytes := pk_as_bytes key in
  if negb (length bytes =? 33)%nat || negb (default 0 (bytes !! 0%nat) =? 0) then None
  else Some (drop 1 bytes).

Section verification.
Context `{HS : !Sdk}.

Definition verify (message signature : list Z) (key : PublicKey) : bool :=
  match ed25519_key key with
  | Some pubkey =>
      if default true (ed25519_is_weak pubkey) then false
      else ed25519_verify signature message pubkey
  | None => false
  end.

(** The body of the loop over the signatures: [counted] after one of them. *)
Definition count_signature (message : list Z) (watchers : list PublicKey)
    (counted : list PublicKey) (ks : PublicKey * list Z) : list PublicKey :=
  let (key, signature) := ks in
  if negb (bool_decide (key ∈ watchers)) || bool_decide (key ∈ counted) then counted
  else if verify message signature key then counted ++ [key] else counted.

Definition verify_quorum (message : list Z) (signatures : list (PublicKey * list Z))
    (watchers : list PublicKey) (threshold : Z) : bool :=
  let counted := foldl (count_signature message watchers) [] signatures in
  threshold <=? cast_u32 (Z.of_nat (length counted)).
End verification.

Global Arguments message_core : simpl never.
Global Arguments request_message : simpl never.
Global Arguments verdict_message : simpl never.
Global Arguments verify : simpl never.
Global Arguments verify_quorum : simpl never.

(** ** tx.rs *)
Definition ACTION_ADD_KEY : Z := 5.
Definition PERMISSION_FULL_ACCESS : Z := 1.

Definition tx_write_str (b : list Z) (s : string) : list Z :=
  let b := b ++ to_le_bytes 4 (cast_u32 (str_len s)) in
  b ++ as_bytes_str s.

Definition add_key_tx (account : AccountId) (signing_key : PublicKey) (nonce : Z)
    (block_hash : list Z) (new_key : PublicKey) : list Z :=
  let b := [] in
  let b := tx_write_str b account in
  let b := b ++ pk_as_bytes signing_key in
  let b := b ++ to_le_bytes 8 nonce in
  let b := tx_write_str b account in
  let b := b ++ block_hash in
  let b := b ++ to_le_bytes 4 1 in
  let b := b ++ [ACTION_ADD_KEY] in
  let b := b ++ pk_as_bytes new_key in
  let b := b ++ to_le_bytes 8 0 in
  b ++ [PERMISSION_FULL_ACCESS].

Global Arguments add_key_tx : simpl never.

(** ** Messages: a decoder, and what a signature binds *)

(** The fields a message commits to: its domain, the contract, the account, the
    proposed owner, the round, and what follows them. *)
Definition decode_message (m : list Z)
    : option (Z * AccountId * AccountId * PublicKey * Z * list Z) :=
  match m with
  | domain :: l =>
      '(contract, l) ← parse_str l;
      '(account, l) ← parse_str l;
      '(key, l) ← parse_key l;
      '(round, l) ← parse_int 8 l;
      Some (domain, contract, account, key, round, l)
  | [] => None
  end.

Lemma push_str_enc m s : push_str m s = m ++ enc_str s.
Proof.
  unfold push_str, enc_str, enc_bytes. rewrite as_bytes_str_length. by rewrite <- app_assoc.
Qed.

Lemma message_core_app domain c a k r rest :
  message_core domain c a k r ++ rest =
    domain :: enc_str c ++ enc_str a ++ pk_as_bytes k ++ to_le_bytes 8 r ++ rest.
Proof.
  unfold message_core. rewrite !push_str_enc. rewrite <- !app_assoc. done.
Qed.

Lemma decode_message_core domain c a k r rest :
  str_ok c -> str_ok a -> pk_wf k -> is_u64 r ->
  decode_message (message_core domain c a k r ++ rest) = Some (domain, c, a, k, r, rest).
Proof.
  intros Hc Ha Hk Hr. rewrite message_core_app. unfold decode_message.
  rewrite parse_str_app by done. obind. rewrite parse_str_app by done. obind.
  rewrite parse_key_app by done. obind. by rewrite parse_int_app by (unfold_max; simpl; lia).
Qed.

Lemma decode_request c a k r :
  str_ok c -> str_ok a -> pk_wf k -> is_u64 r ->
  decode_message (request_message c a k r) = Some (DOMAIN_REQUEST, c, a, k, r, []).
Proof.
  intros. unfold request_message. rewrite <- (app_nil_r (message_core _ _ _ _ _)).
  by apply decode_message_core.
Qed.

Lemma decode_verdict c a k r b :
  str_ok c -> str_ok a -> pk_wf k -> is_u64 r ->
  decode_message (verdict_message c a k r b) =
    Some (DOMAIN_VERDICT, c, a, k, r, [if b then 1 else 0]).
Proof. intros. by apply decode_message_core. Qed.

(** The fields are in range: what the Rust types guarantee. *)
Definition msg_fields_ok (c a : AccountId) (k : PublicKey) (r : Z) : Prop :=
  str_ok c /\ str_ok a /\ pk_wf k /\ is_u64 r.

(** C34: The messages the attestation key and the watchers sign determine the
    contract, account, new owner, round and verdict they speak of, and a request is
    never a verdict. *)
Theorem recovery_messages_injective c a k r c' a' k' r' b b' :
  msg_fields_ok c a k r -> msg_fields_ok c' a' k' r' ->
  (request_message c a k r = request_message c' a' k' r' ->
     c = c' /\ a = a' /\ k = k' /\ r = r') /\
  (verdict_message c a k r b = verdict_message c' a' k' r' b' ->
     c = c' /\ a = a' /\ k = k' /\ r = r' /\ b = b') /\
  request_message c a k r <> verdict_message c' a' k' r' b'.
Proof.
  intros (?&?&?&?) (?&?&?&?). repeat split_and.
  - intros E%(f_equal decode_message). rewrite !decode_request in E by done. by simplify_eq.
  - intros E%(f_equal decode_message). rewrite !decode_verdict in E by done.
    destruct b, b'; by simplify_eq.
  - intros E%(f_equal decode_message).
    rewrite decode_request, decode_verdict in E by done. done.
Qed.

(** ** The quorum *)
Section quorum.
Context `{HS : !Sdk}.

(** [key] is a watcher that validly signed [message]. *)
Definition attests (message : list Z) (signatures : list (PublicKey * list Z))
    (watchers : list PublicKey) (key : PublicKey) : Prop :=
  key ∈ watchers /\ exists signature, (key, signature) ∈ signatures /\ verify message signature key = true.

Lemma count_signature_spec message watchers counted key sig k :
  k ∈ count_signature message watchers counted (key, sig) <->
    k ∈ counted \/ (k = key /\ key ∈ watchers /\ verify message sig key = true).
Proof.
  unfold count_signature.
  destruct (bool_decide_reflect (key ∈ watchers)) as [W|W]; simpl; [|naive_solver].
  destruct (bool_decide_reflect (key ∈ counted)) as [C|C]; simpl; [naive_solver|].
  destruct (verify message sig key) eqn:V; [|naive_solver].
  rewrite elem_of_app, list_elem_of_singleton. naive_solver.
Qed.

Lemma count_signature_NoDup message watchers counted ks :
  NoDup counted -> NoDup (count_signature message watchers counted ks).
Proof.
  destruct ks as [key sig]. unfold count_signature. intros H.
  destruct (negb _); simpl; [done|]. case_bool_decide as C; [done|].
  destruct (verify _ _ _); [|done].
  apply list.NoDup_app. split; [done|]. split; [|apply NoDup_singleton].
  intros x Hx Hx'%list_elem_of_singleton. by subst.
Qed.

Lemma counted_spec message watchers signatures counted k :
  k ∈ foldl (count_signature message watchers) counted signatures <->
    k ∈ counted \/ attests message signatures watchers k.
Proof.
  revert counted. induction signatures as [|[key sig] l IH]; intros counted; cbn [foldl].
  - unfold attests. split; [auto|]. intros [?|(_ & ? & H & _)]; [done|]. by apply elem_of_nil in H.
  - rewrite IH, count_signature_spec. unfold attests.
    setoid_rewrite elem_of_cons. naive_solver.
Qed.

Lemma counted_NoDup message watchers signatures counted :
  NoDup counted -> NoDup (foldl (count_signature message watchers) counted signatures).
Proof.
  revert counted. induction signatures as [|ks l IH]; intros; simpl; [done|].
  apply IH. by apply count_signature_NoDup.
Qed.

(** C35: verify_quorum accepts exactly when at least threshold distinct registered
    watchers each have a valid signature among those submitted. *)
Theorem verify_quorum_correct message signatures watchers threshold :
  Z.of_nat (length watchers) <= U32_MAX ->
  verify_quorum message signatures watchers threshold = true <->
    exists ks, NoDup ks /\ threshold <= Z.of_nat (length ks)
               /\ Forall (attests message signatures watchers) ks.
Proof.
  intros Hw. unfold verify_quorum.
  set (counted := foldl _ _ _).
  assert (HN : NoDup counted) by (apply counted_NoDup, NoDup_nil_2).
  assert (HC : forall k, k ∈ counted <-> attests message signatures watchers k).
  { intros k. unfold counted. rewrite counted_spec.
    split; [intros [H|H]; [by apply elem_of_nil in H|done]|auto]. }
  assert (HL : (length counted <= length watchers)%nat).
  { apply submseteq_length, NoDup_submseteq; [done|]. intros k [H _]%HC. done. }
  rewrite cast_u32_small by (unfold_max; lia). rewrite Z.leb_le. split.
  - intros H. exists counted. split_and!; [done|done|]. apply list.Forall_forall. intros k. apply HC.
  - intros (ks & Hn & Ht & Ha). rewrite list.Forall_forall in Ha.
    assert ((length ks <= length counted)%nat); [|lia].
    apply submseteq_length, NoDup_submseteq; [done|]. intros k Hk. by apply HC, Ha.
Qed.
End quorum.

(** ** The recovery transaction *)
Lemma tx_write_str_enc b s : tx_write_str b s = b ++ enc_str s.
Proof.
  unfold tx_write_str, enc_str, enc_bytes. rewrite as_bytes_str_length. by rewrite <- app_assoc.
Qed.

(** The recovery transaction decodes to one AddKey of a full-access key on the recovered account itself. *)
Theorem add_key_tx_decodes account signing_key nonce block_hash new_key :
  str_ok account -> pk_wf signing_key -> is_u64 nonce -> block_hash_ok block_hash ->
  pk_wf new_key ->
  decode_transaction (add_key_tx account signing_key nonce block_hash new_key) =
    Some (mkNearTransaction account signing_key nonce account block_hash
            [NA_AddFullAccessKey new_key 0]).
Proof.
  intros Ha Hs Hn Hb Hk. unfold add_key_tx. rewrite !tx_write_str_enc.
  rewrite <- !app_assoc. cbn [app]. unfold decode_transaction.
  rewrite parse_str_app by done. obind. rewrite parse_key_app by done. obind.
  rewrite parse_int_app by (unfold_max; simpl; lia). obind.
  rewrite parse_str_app by done. obind. rewrite parse_raw_app by done. obind.
  rewrite parse_int_app by (simpl; lia). obind.
  change (Z.to_nat 1) with 1%nat. cbn [parse_many parse_action ACTION_ADD_KEY].
  unfold ACTION_ADD_KEY. rewrite parse_key_app by done. obind.
  by rewrite parse_int_app by (simpl; lia).
Qed.

(** The near-api-js vector of the unit tests of tx.rs. *)
Definition NEAR_API_JS_CANONICAL : string :=
  "0e00000076696374696d2e746573746e657400baa81b168f3b4d0c1af89664de30fa8d6754349847e0bba1020bf5ea43ff75fb01000000000000000e00000076696374696d2e746573746e65740000000000000000000000000000000000000000000000000000000000000000010000000500f423be8411811b08763736d3b1b6fdd73ef6c4d68ba3016a834d5bfa4a671108000000000000000001".
Definition golden_new_key : PublicKey := mkPublicKey CurveType_ED25519
  (default [] (from_hex "f423be8411811b08763736d3b1b6fdd73ef6c4d68ba3016a834d5bfa4a671108")).

Lemma add_key_golden_vector :
  to_hex (add_key_tx "victim.testnet" golden_key 1 (replicate 32 0) golden_new_key)
    = NEAR_API_JS_CANONICAL.
Proof. vm_compute. reflexivity. Qed.

(** ** Witnesses *)
Lemma demo_fields_ok a b r :
  str_ok a -> 0 <= b <= 255 -> 0 <= r <= U64_MAX -> msg_fields_ok "rec.hos" a (demo_key b) r.
Proof.
  intros Ha Hb Hr. split; [by apply Z.leb_le|]. split; [done|]. split; [|done].
  apply demo_key_wf. split; lia.
Qed.

Lemma recovery_messages_injective_witness :
  request_message "rec.hos" "bob.alice.near" (demo_key 7) 0
    <> verdict_message "rec.hos" "bob.alice.near" (demo_key 7) 0 true.
Proof.
  destruct (recovery_messages_injective "rec.hos" "bob.alice.near" (demo_key 7) 0
    "rec.hos" "bob.alice.near" (demo_key 7) 0 true true) as (_ & _ & H).
  - apply demo_fields_ok; [by apply Z.leb_le|split; by apply Z.leb_le|split; by apply Z.leb_le].
  - apply demo_fields_ok; [by apply Z.leb_le|split; by apply Z.leb_le|split; by apply Z.leb_le].
  - exact H.
Defined.

Definition demo_message : list Z := verdict_message "rec.hos" "bob.alice.near" (demo_key 7) 0 true.
Definition demo_vote (b : Z) (m : list Z) : PublicKey * list Z :=
  (demo_key b, demo_signature (demo_key b) m).

Lemma verify_quorum_correct_witness :
  exists ks, NoDup ks /\ 2 <= Z.of_nat (length ks) /\
    Forall (attests demo_message
      [demo_vote 11 demo_message; demo_vote 11 demo_message; demo_vote 40 demo_message;
       demo_vote 12 demo_message] [demo_key 11; demo_key 12; demo_key 13]) ks.
Proof.
  apply verify_quorum_correct; [by apply Z.leb_le|]. vm_eq.
Defined.
