(* ===== verification/MpcRecovery.v ===== *)
(** * mpc-recovery: the timelocked, watcher-attested recovery of a wallet

    Models [contracts/mpc-recovery/src/lib.rs] with [state.rs], [error.rs] and
    [events.rs]: policies, the five-phase recovery of an account, the freeze /
    swap / unfreeze calls to active-signer and the callbacks that settle them,
    and the reset when a wallet is transferred. *)
From S2P Require Export RecoveryProof.

(** ** error.rs *)
Definition ONLY_OWNER : string := "only owner".
Definition ONLY_TRANSFER_AUTHORITY : string := "only transfer authority".
Definition BAD_THRESHOLD : string := "threshold must be in 1..=watchers".
Definition NO_POLICY : string := "no recovery policy for account".
Definition NOT_IDLE : string := "recovery already in progress".
Definition NOT_REQUESTED : string := "no recovery requested".
Definition NOT_APPROVED : string := "recovery not approved".
Definition NOT_NATIVE : string := "policy is not a native-recovery policy".
Definition NOT_ACTIVE : string := "no abortable recovery in progress".
Definition STALE_ROUND : string := "stale or invalid round".
Definition BAD_ATTESTATION : string := "invalid attestation signature".
Definition TIMELOCK : string := "timelock not elapsed".
Definition NO_QUORUM : string := "watcher quorum not met".
Definition BAD_SIGNATURE_LEN : string := "signature must be 64 bytes".
Definition TIMELOCK_TOO_SHORT : string := "timelock below minimum".
Definition DUPLICATE_WATCHER : string := "duplicate watcher key".
Definition MPC_NOT_ED25519 : string := "native mpc key must be ed25519".
Definition WATCHER_NOT_ED25519 : string := "watcher key must be ed25519".
Definition ATTESTATION_NOT_ED25519 : string := "attestation key must be ed25519".
Definition BOUND_OWNER_NOT_ED25519 : string := "bound owner key must be ed25519".
Definition NEW_OWNER_NOT_ED25519 : string := "new owner key must be ed25519".

(** ** state.rs *)
Inductive Target :=
| Target_Native (mpc_public_key : PublicKey)
| Target_Wallet (active_signer : AccountId) (bound_owner : PublicKey).

Record Policy := mkPolicy {
  target : Target;
  attestation_key : PublicKey;
  timelock_secs : Z
}.

Inductive Phase :=
| Phase_Idle
| Phase_Requested (new_owner : PublicKey) (round : Z) (requested_at : Z)
| Phase_Approving (new_owner : PublicKey) (round : Z)
| Phase_Approved (new_owner : PublicKey) (round : Z)
| Phase_Resolving (new_owner : PublicKey) (round : Z).

Definition pending (p : Phase) : option (PublicKey * Z) :=
  match p with
  | Phase_Requested new_owner round _ | Phase_Approving new_owner round
  | Phase_Approved new_owner round | Phase_Resolving new_owner round => Some (new_owner, round)
  | Phase_Idle => None
  end.

Definition resolving_owner (p : Phase) (round : Z) : option PublicKey :=
  match p with
  | Phase_Resolving new_owner resolving_round =>
      if resolving_round =? round then Some new_owner else None
  | _ => None
  end.

Record Account := mkAccount {
  policy : Policy;
  round : Z;
  phase : Phase
}.

(** ** events.rs *)
Inductive Event :=
| Event_PolicyInstalled (account : AccountId)
| Event_Requested (account : AccountId) (round : Z) (new_owner : PublicKey)
| Event_Approved (account : AccountId) (round : Z)
| Event_Canceled (account : AccountId) (round : Z)
| Event_NativeSignatureProduced (account : AccountId) (round : Z)
| Event_Finalized (account : AccountId) (round : Z)
| Event_Aborted (account : AccountId) (round : Z)
| Event_Voided (account : AccountId) (round : Z)
| Event_PolicyReset (account : AccountId).

(** ** lib.rs *)
Definition SIGN_GAS : Z := 60 * Tgas.
Definition SWAP_GAS : Z := 15 * Tgas.
Definition FREEZE_GAS : Z := 15 * Tgas.
Definition CALLBACK_GAS : Z := 20 * Tgas.
Definition NS_PER_SEC : Z := 1000000000.
Definition MIN_TIMELOCK_SECS : Z := 60.

Record MpcRecovery := mkMpcRecovery {
  owner : AccountId;
  signer : AccountId;
  transfer_authority : AccountId;
  watchers : list PublicKey;
  threshold : Z;
  accounts : gmap AccountId Account;
  round_floor : gmap AccountId Z
}.

Record WatcherSignature := mkWatcherSignature {
  ws_public_key : PublicKey;
  ws_signature : list Z
}.

Record RecoveryResult := mkRecoveryResult {
  rr_signed_tx_hash : string;
  rr_mpc_signature : Value
}.

Inductive Callback :=
| Cb_on_frozen (account : AccountId) (round : Z)
| Cb_on_finalized (account : AccountId) (round : Z)
| Cb_on_aborted (account : AccountId) (round : Z)
| Cb_on_signed (account : AccountId) (round : Z) (signed_tx_hash : string).

Section MpcRecovery.
Context `{HS : !Sdk}.

Definition Account_eta (r : Account) : Account := mkAccount (policy r) (round r) (phase r).
#[global] Instance set_policy : Setter policy := ltac:(mk_setter Account_eta).
#[global] Instance set_round : Setter round := ltac:(mk_setter Account_eta).
#[global] Instance set_phase : Setter phase := ltac:(mk_setter Account_eta).

Definition Policy_eta (r : Policy) : Policy :=
  mkPolicy (target r) (attestation_key r) (timelock_secs r).
#[global] Instance set_target : Setter target := ltac:(mk_setter Policy_eta).

Definition MpcRecovery_eta (r : MpcRecovery) : MpcRecovery :=
  mkMpcRecovery (owner r) (signer r) (transfer_authority r) (watchers r) (threshold r)
    (accounts r) (round_floor r).
#[global] Instance set_accounts : Setter accounts := ltac:(mk_setter MpcRecovery_eta).
#[global] Instance set_round_floor : Setter round_floor := ltac:(mk_setter MpcRecovery_eta).

Notation RPromise := (Promise Msg Callback).
Notation M := (NearM MpcRecovery Event RPromise Empty_set).

(** ** Free functions at the end of lib.rs *)
Definition call_signer (active_signer : AccountId) (msg : Msg) (gas : Z) : RPromise :=
  ext_call active_signer msg 0 gas.

Definition swap_owner (active_signer account : AccountId) (new_owner bound_owner : PublicKey)
    : M RPromise :=
  new_public_key ← ed25519_base58_or_panic new_owner;
  expected_current ← ed25519_base58_or_panic bound_owner;
  mret (call_signer active_signer (Msg_swap_owner account new_public_key (Some expected_current))
          SWAP_GAS).

Definition freeze (active_signer account : AccountId) (bound_owner : PublicKey) : M RPromise :=
  expected_current ← ed25519_base58_or_panic bound_owner;
  mret (call_signer active_signer (Msg_freeze account (Some expected_current)) FREEZE_GAS).

Definition unfreeze (active_signer account : AccountId) : RPromise :=
  call_signer active_signer (Msg_unfreeze account) FREEZE_GAS.

Definition native_path (account : AccountId) : string := "hos-recovery/" +:+ account.

Definition into_sig (bytes : list Z) : M (list Z) :=
  unwrap_or_panic (if (length bytes =? 64)%nat then Some bytes else None) BAD_SIGNATURE_LEN.

(** ** Entry access: [accounts.get_mut(&account)] and assignments through it *)
Definition get_account (account : AccountId) : M Account :=
  accs ← gets accounts;
  unwrap_or_panic (accs !! account) NO_POLICY.

Definition put_account (account : AccountId) (entry : Account) : M unit :=
  modify (fun s => s <| accounts ::= <[account := entry]> |>).

Definition is_idle (p : Phase) : bool :=
  match p with Phase_Idle => true | _ => false end.
Definition is_wallet (t : Target) : bool :=
  match t with Target_Wallet _ _ => true | Target_Native _ => false end.

Definition assert_owner : M unit :=
  caller ← asks predecessor_account_id;
  o ← gets owner;
  require (bool_decide (caller = o)) ONLY_OWNER.

(** ** Methods *)
Fixpoint check_watchers (seen l : list PublicKey) : Res Empty_set unit :=
  match l with
  | [] => Done tt
  | watcher :: l =>
      if negb (is_ed25519 watcher) then Fail (Panicked WATCHER_NOT_ED25519)
      else if bool_decide (watcher ∈ seen) then Fail (Panicked DUPLICATE_WATCHER)
      else check_watchers (watcher :: seen) l
  end.

Definition new (owner signer transfer_authority : AccountId) (watchers : list PublicKey)
    (threshold : Z) : Res Empty_set MpcRecovery :=
  if negb ((0 <? threshold) && (threshold <=? Z.of_nat (length watchers)))
  then Fail (Panicked BAD_THRESHOLD)
  else match check_watchers [] watchers with
       | Done _ => Done (mkMpcRecovery owner signer transfer_authority watchers threshold ∅ ∅)
       | Fail f => Fail f
       end.

Definition install_policy (account : AccountId) (target : Target)
    (attestation_key : PublicKey) (timelock_secs : Z) : M unit :=
  not_payable "install_policy";;
  assert_owner;;
  require (MIN_TIMELOCK_SECS <=? timelock_secs) TIMELOCK_TOO_SHORT;;
  require (is_ed25519 attestation_key) ATTESTATION_NOT_ED25519;;
  match target with
  | Target_Native mpc_public_key => require (is_ed25519 mpc_public_key) MPC_NOT_ED25519
  | Target_Wallet _ bound_owner => require (is_ed25519 bound_owner) BOUND_OWNER_NOT_ED25519
  end;;
  accs ← gets accounts;
  round ← match accs !! account with
          | Some existing => require (is_idle (phase existing)) NOT_IDLE;; mret (round existing)
          | None => rf ← gets round_floor; mret (default 0 (rf !! account))
          end;
  put_account account (mkAccount (mkPolicy target attestation_key timelock_secs) round Phase_Idle);;
  emit (Event_PolicyInstalled account).

Definition request_recovery (account : AccountId) (new_owner : PublicKey) (round_arg : Z)
    (attestation : list Z) : M unit :=
  not_payable "request_recovery";;
  contract ← asks current_account_id;
  entry ← get_account account;
  require (is_idle (phase entry)) NOT_IDLE;;
  require (round_arg =? round entry) STALE_ROUND;;
  (if is_wallet (target (policy entry))
   then require (is_ed25519 new_owner) NEW_OWNER_NOT_ED25519 else mret tt);;
  let message := request_message contract account new_owner (round entry) in
  sig ← into_sig attestation;
  require (verify message sig (attestation_key (policy entry))) BAD_ATTESTATION;;
  let rnd := round entry in
  now ← asks block_timestamp;
  next ← add_u64 (round entry) 1;
  put_account account (entry <| phase := Phase_Requested new_owner rnd now |> <| round := next |>);;
  emit (Event_Requested account rnd new_owner).

Definition filter_sigs (signatures : list WatcherSignature) : list (PublicKey * list Z) :=
  omap (fun w => if (length (ws_signature w) =? 64)%nat
                 then Some (ws_public_key w, ws_signature w) else None) signatures.

Definition submit_verdict (account : AccountId) (silent : bool)
    (signatures : list WatcherSignature) : M (PromiseOrValue Msg Callback unit) :=
  not_payable "submit_verdict";;
  contract ← asks current_account_id;
  ws ← gets watchers;
  thr ← gets threshold;
  entry ← get_account account;
  '(new_owner, rnd, requested_at) ←
    unwrap_or_panic (match phase entry with
                     | Phase_Requested new_owner rnd at_ => Some (new_owner, rnd, at_)
                     | _ => None
                     end) NOT_REQUESTED;
  now ← asks block_timestamp;
  lock ← mul_u64 (timelock_secs (policy entry)) NS_PER_SEC;
  unlock_at ← add_u64 requested_at lock;
  require (unlock_at <=? now) TIMELOCK;;
  let message := verdict_message contract account new_owner rnd silent in
  let sigs := filter_sigs signatures in
  require (verify_quorum message sigs ws thr) NO_QUORUM;;
  if negb silent then
    put_account account (entry <| phase := Phase_Idle |>);;
    emit (Event_Canceled account rnd);;
    mret (POV_Value tt)
  else
    match target (policy entry) with
    | Target_Wallet active_signer bound_owner =>
        put_account account (entry <| phase := Phase_Approving new_owner rnd |>);;
        p ← freeze active_signer account bound_owner;
        mret (POV_Promise (PThen p (Cb_on_frozen account rnd) CALLBACK_GAS))
    | Target_Native _ =>
        put_account account (entry <| phase := Phase_Approved new_owner rnd |>);;
        emit (Event_Approved account rnd);;
        mret (POV_Value tt)
    end.

Definition approving_owner (p : Phase) (rnd : Z) : option PublicKey :=
  match p with
  | Phase_Approving new_owner approving_round =>
      if approving_round =? rnd then Some new_owner else None
  | _ => None
  end.

Definition on_frozen (account : AccountId) (rnd : Z) (result : CallResult unit) : M unit :=
  private_method "on_frozen";;
  accs ← gets accounts;
  match accs !! account with
  | None => mret tt
  | Some entry =>
      match approving_owner (phase entry) rnd with
      | None => mret tt
      | Some new_owner =>
          if is_ok result then
            put_account account (entry <| phase := Phase_Approved new_owner rnd |>);;
            emit (Event_Approved account rnd)
          else
            put_account account (entry <| phase := Phase_Idle |>);;
            emit (Event_Canceled account rnd)
      end
  end.

Definition sign_add_key (account : AccountId) (mpc_public_key : PublicKey) (nonce : Z)
    (block_hash : list Z) (new_owner : PublicKey) (rnd : Z) : M RPromise :=
  let path := native_path account in
  let unsigned := add_key_tx account mpc_public_key nonce block_hash new_owner in
  let hash_hex := to_hex (sha256 unsigned) in
  sgn ← gets signer;
  mret (PThen (ext_call sgn (Msg_sign path hash_hex ED25519_DOMAIN) 1 SIGN_GAS)
          (Cb_on_signed account rnd hash_hex) CALLBACK_GAS).

Definition finalize_recovery (account : AccountId) (nonce : Z) (block_hash : list Z)
    : M RPromise :=
  not_payable "finalize_recovery";;
  caller ← asks predecessor_account_id;
  o ← gets owner;
  entry ← get_account account;
  '(new_owner, rnd) ←
    unwrap_or_panic (match phase entry with
                     | Phase_Approved new_owner rnd => Some (new_owner, rnd)
                     | _ => None
                     end) NOT_APPROVED;
  (if negb (is_wallet (target (policy entry)))
   then require (bool_decide (caller = o)) ONLY_OWNER else mret tt);;
  put_account account (entry <| phase := Phase_Resolving new_owner rnd |>);;
  match target (policy entry) with
  | Target_Native mpc_public_key =>
      sign_add_key account mpc_public_key nonce block_hash new_owner rnd
  | Target_Wallet active_signer bound_owner =>
      p ← swap_owner active_signer account new_owner bound_owner;
      mret (PThen p (Cb_on_finalized account rnd) CALLBACK_GAS)
  end.

Inductive AbortAction :=
| AbortAction_Release (round : Z)
| AbortAction_Unfreeze (active_signer : AccountId) (new_owner : PublicKey) (round : Z).

Definition abort_action (p : Phase) (t : Target) : option AbortAction :=
  match p, t with
  | Phase_Requested _ rnd _, _ | Phase_Approved _ rnd, Target_Native _ =>
      Some (AbortAction_Release rnd)
  | Phase_Approved new_owner rnd, Target_Wallet active_signer _ =>
      Some (AbortAction_Unfreeze active_signer new_owner rnd)
  | Phase_Idle, _ | Phase_Approving _ _, _ | Phase_Resolving _ _, _ => None
  end.

Definition abort_recovery (account : AccountId) : M (PromiseOrValue Msg Callback unit) :=
  not_payable "abort_recovery";;
  assert_owner;;
  entry ← get_account account;
  action ← unwrap_or_panic (abort_action (phase entry) (target (policy entry))) NOT_ACTIVE;
  match action with
  | AbortAction_Release rnd =>
      put_account account (entry <| phase := Phase_Idle |>);;
      emit (Event_Aborted account rnd);;
      mret (POV_Value tt)
  | AbortAction_Unfreeze active_signer new_owner rnd =>
      put_account account (entry <| phase := Phase_Resolving new_owner rnd |>);;
      mret (POV_Promise (PThen (unfreeze active_signer account)
                           (Cb_on_aborted account rnd) CALLBACK_GAS))
  end.

Definition on_finalized (account : AccountId) (rnd : Z) (result : CallResult bool) : M unit :=
  private_method "on_finalized";;
  accs ← gets accounts;
  match accs !! account with
  | None => mret tt
  | Some entry =>
      match resolving_owner (phase entry) rnd with
      | None => mret tt
      | Some new_owner =>
          match result with
          | Ok true =>
              let pol := match target (policy entry) with
                         | Target_Wallet active_signer _ =>
                             policy entry <| target := Target_Wallet active_signer new_owner |>
                         | Target_Native _ => policy entry
                         end in
              put_account account (entry <| policy := pol |> <| phase := Phase_Idle |>);;
              emit (Event_Finalized account rnd)
          | Ok false =>
              put_account account (entry <| phase := Phase_Idle |>);;
              emit (Event_Voided account rnd)
          | Err _ =>
              put_account account (entry <| phase := Phase_Approved new_owner rnd |>)
          end
      end
  end.

Definition settle_resolving (account : AccountId) (rnd : Z) (done : bool) : M bool :=
  accs ← gets accounts;
  match accs !! account with
  | None => mret false
  | Some entry =>
      match resolving_owner (phase entry) rnd with
      | None => mret false
      | Some new_owner =>
          put_account account
            (entry <| phase := if done then Phase_Idle else Phase_Approved new_owner rnd |>);;
          mret true
      end
  end.

Definition on_aborted (account : AccountId) (rnd : Z) (result : CallResult unit) : M unit :=
  private_method "on_aborted";;
  settled ← settle_resolving account rnd (is_ok result);
  if settled && is_ok result then emit (Event_Aborted account rnd) else mret tt.

Definition on_signed (account : AccountId) (rnd : Z) (signed_tx_hash : string)
    (mpc_signature : CallResult Value) : M (option RecoveryResult) :=
  private_method "on_signed";;
  reverted ← settle_resolving account rnd false;
  match mpc_signature with
  | Ok mpc_signature =>
      if (reverted : bool) then
        emit (Event_NativeSignatureProduced account rnd);;
        mret (Some (mkRecoveryResult signed_tx_hash mpc_signature))
      else mret None
  | Err _ => mret None
  end.

Definition claim_native_finalized (account : AccountId) (rnd : Z) : M unit :=
  not_payable "claim_native_finalized";;
  assert_owner;;
  entry ← get_account account;
  require (negb (is_wallet (target (policy entry)))) NOT_NATIVE;;
  require (match phase entry with
           | Phase_Approved _ approved => approved =? rnd
           | _ => false
           end) NOT_APPROVED;;
  put_account account (entry <| phase := Phase_Idle |>);;
  emit (Event_Finalized account rnd).

Definition resettable (p : Phase) : bool :=
  match p with Phase_Idle | Phase_Requested _ _ _ => true | _ => false end.

Definition on_wallet_transferred (wallet : AccountId) : M unit :=
  not_payable "on_wallet_transferred";;
  caller ← asks predecessor_account_id;
  ta ← gets transfer_authority;
  require (bool_decide (caller = ta)) ONLY_TRANSFER_AUTHORITY;;
  accs ← gets accounts;
  let preserved_round :=
    match accs !! wallet with
    | Some account => if resettable (phase account) then Some (round account) else None
    | None => None
    end in
  match preserved_round with
  | Some rnd =>
      modify (fun s => s <| round_floor ::= <[wallet := rnd]> |>);;
      modify (fun s => s <| accounts ::= delete wallet |>);;
      emit (Event_PolicyReset wallet)
  | None => mret tt
  end.

(** ** Views *)
Definition round_of (s : MpcRecovery) (account : AccountId) : option Z :=
  round <$> accounts s !! account.
Definition pending_target (s : MpcRecovery) (account : AccountId) : option string :=
  a ← accounts s !! account; (fun p => pk_to_string p.1) <$> pending (phase a).
Definition expected_native_path (s : MpcRecovery) (account : AccountId) : string :=
  native_path account.

(** ** The contract's interface *)
Inductive Call :=
| Call_install_policy (account : AccountId) (target : Target) (key : PublicKey) (timelock : Z)
| Call_request_recovery (account : AccountId) (new_owner : PublicKey) (rnd : Z) (sig : list Z)
| Call_submit_verdict (account : AccountId) (silent : bool) (sigs : list WatcherSignature)
| Call_on_frozen (account : AccountId) (rnd : Z) (r : CallResult unit)
| Call_finalize_recovery (account : AccountId) (nonce : Z) (block_hash : list Z)
| Call_abort_recovery (account : AccountId)
| Call_on_finalized (account : AccountId) (rnd : Z) (r : CallResult bool)
| Call_on_aborted (account : AccountId) (rnd : Z) (r : CallResult unit)
| Call_on_signed (account : AccountId) (rnd : Z) (hash : string) (r : CallResult Value)
| Call_claim_native_finalized (account : AccountId) (rnd : Z)
| Call_on_wallet_transferred (wallet : AccountId).

Definition exec (c : Call) : M unit :=
  match c with
  | Call_install_policy a t k tl => install_policy a t k tl
  | Call_request_recovery a k r sg => request_recovery a k r sg
  | Call_submit_verdict a b sgs => submit_verdict a b sgs;; mret tt
  | Call_on_frozen a r res => on_frozen a r res
  | Call_finalize_recovery a n bh => finalize_recovery a n bh;; mret tt
  | Call_abort_recovery a => abort_recovery a;; mret tt
  | Call_on_finalized a r res => on_finalized a r res
  | Call_on_aborted a r res => on_aborted a r res
  | Call_on_signed a r h res => on_signed a r h res;; mret tt
  | Call_claim_native_finalized a r => claim_native_finalized a r
  | Call_on_wallet_transferred w => on_wallet_transferred w
  end.
End MpcRecovery.

#[export] Hint Unfold get_account put_account assert_owner into_sig settle_resolving
  swap_owner freeze sign_add_key ed25519_base58_or_panic : near_unfold.

Section MpcRecoveryProofs.
Context `{HS : !Sdk}.
Notation run := (run exec).
Notation step_state := (step_state exec).

(** ** The recovery of one account, as a step relation

    What the policy owner, the watchers and the wallet's holder rely on: who
    can move an account from one phase to the next and on what evidence.
    [recovery_step s env a] relates the account's entry before and after a
    call. *)

(** The latest round an account has reached, with or without a policy. *)
Definition round_at (s : MpcRecovery) (a : AccountId) : Z :=
  match accounts s !! a with
  | Some acc => round acc
  | None => default 0 (round_floor s !! a)
  end.

Definition target_keys_ok (t : Target) : Prop :=
  match t with
  | Target_Native k => is_ed25519 k = true
  | Target_Wallet _ k => is_ed25519 k = true
  end.

Definition unlocked (env : Env) (pol : Policy) (requested_at : Z) : Prop :=
  requested_at + timelock_secs pol * NS_PER_SEC <= block_timestamp env.

(** The quorum's verdict on a request, as [submit_verdict] checks it. *)
Definition verdict_given (s : MpcRecovery) (env : Env) (a : AccountId) (k : PublicKey)
    (r : Z) (silent : bool) (sigs : list WatcherSignature) : Prop :=
  verify_quorum (verdict_message (current_account_id env) a k r silent)
    (filter_sigs sigs) (watchers s) (threshold s) = true.

(** The callback of an accepted swap makes the new owner the bound owner. *)
Definition rebind (pol : Policy) (k : PublicKey) : Policy :=
  match target pol with
  | Target_Wallet active_signer _ => pol <| target := Target_Wallet active_signer k |>
  | Target_Native _ => pol
  end.

Inductive recovery_step (s : MpcRecovery) (env : Env) (a : AccountId)
    : Call -> option Account -> option Account -> Prop :=
| rs_stay c v : recovery_step s env a c v v
| rs_install t k tl v :
    predecessor_account_id env = owner s -> MIN_TIMELOCK_SECS <= tl ->
    is_ed25519 k = true -> target_keys_ok t ->
    (forall acc, v = Some acc -> phase acc = Phase_Idle) ->
    recovery_step s env a (Call_install_policy a t k tl) v
      (Some (mkAccount (mkPolicy t k tl) (round_at s a) Phase_Idle))
| rs_request pol r k sig :
    length sig = 64%nat -> r + 1 <= U64_MAX ->
    (is_wallet (target pol) = true -> is_ed25519 k = true) ->
    verify (request_message (current_account_id env) a k r) sig (attestation_key pol) = true ->
    recovery_step s env a (Call_request_recovery a k r sig)
      (Some (mkAccount pol r Phase_Idle))
      (Some (mkAccount pol (r + 1) (Phase_Requested k r (block_timestamp env))))
| rs_cancel pol n k r at_ sigs :
    unlocked env pol at_ -> verdict_given s env a k r false sigs ->
    recovery_step s env a (Call_submit_verdict a false sigs)
      (Some (mkAccount pol n (Phase_Requested k r at_)))
      (Some (mkAccount pol n Phase_Idle))
| rs_approve pol n k r at_ sigs :
    unlocked env pol at_ -> verdict_given s env a k r true sigs ->
    recovery_step s env a (Call_submit_verdict a true sigs)
      (Some (mkAccount pol n (Phase_Requested k r at_)))
      (Some (mkAccount pol n (if is_wallet (target pol) then Phase_Approving k r
                              else Phase_Approved k r)))
| rs_frozen pol n k r result :
    predecessor_account_id env = current_account_id env ->
    recovery_step s env a (Call_on_frozen a r result)
      (Some (mkAccount pol n (Phase_Approving k r)))
      (Some (mkAccount pol n (if is_ok result then Phase_Approved k r else Phase_Idle)))
| rs_finalize pol n k r nonce bh :
    (is_wallet (target pol) = false -> predecessor_account_id env = owner s) ->
    recovery_step s env a (Call_finalize_recovery a nonce bh)
      (Some (mkAccount pol n (Phase_Approved k r)))
      (Some (mkAccount pol n (Phase_Resolving k r)))
| rs_abort_request pol n k r at_ :
    predecessor_account_id env = owner s ->
    recovery_step s env a (Call_abort_recovery a)
      (Some (mkAccount pol n (Phase_Requested k r at_)))
      (Some (mkAccount pol n Phase_Idle))
| rs_abort_approved pol n k r :
    predecessor_account_id env = owner s ->
    recovery_step s env a (Call_abort_recovery a)
      (Some (mkAccount pol n (Phase_Approved k r)))
      (Some (mkAccount pol n (if is_wallet (target pol) then Phase_Resolving k r
                              else Phase_Idle)))
| rs_finalized pol n k r result :
    predecessor_account_id env = current_account_id env ->
    recovery_step s env a (Call_on_finalized a r result)
      (Some (mkAccount pol n (Phase_Resolving k r)))
      (Some (match result with
             | Ok true => mkAccount (rebind pol k) n Phase_Idle
             | Ok false => mkAccount pol n Phase_Idle
             | Err _ => mkAccount pol n (Phase_Approved k r)
             end))
| rs_aborted pol n k r result :
    predecessor_account_id env = current_account_id env ->
    recovery_step s env a (Call_on_aborted a r result)
      (Some (mkAccount pol n (Phase_Resolving k r)))
      (Some (mkAccount pol n (if is_ok result then Phase_Idle else Phase_Approved k r)))
| rs_signed pol n k r h result :
    predecessor_account_id env = current_account_id env ->
    recovery_step s env a (Call_on_signed a r h result)
      (Some (mkAccount pol n (Phase_Resolving k r)))
      (Some (mkAccount pol n (Phase_Approved k r)))
| rs_claim pol n k r :
    predecessor_account_id env = owner s -> is_wallet (target pol) = false ->
    recovery_step s env a (Call_claim_native_finalized a r)
      (Some (mkAccount pol n (Phase_Approved k r)))
      (Some (mkAccount pol n Phase_Idle))
| rs_transferred acc :
    predecessor_account_id env = transfer_authority s -> resettable (phase acc) = true ->
    recovery_step s env a (Call_on_wallet_transferred a) (Some acc) None.

Lemma recovery_step_put s env c a acc a' :
  recovery_step s env a c (accounts s !! a) (Some acc) ->
  recovery_step s env a' c (accounts s !! a') (accounts (s <| accounts ::= <[a := acc]> |>) !! a').
Proof.
  intros H. cbn. rewrite lookup_insert. destruct (decide (a = a')); [by subst|constructor].
Qed.

Lemma rs_cast s env a c v w w' :
  recovery_step s env a c v w -> w = w' -> recovery_step s env a c v w'.
Proof. by intros ? <-. Qed.

Lemma approving_owner_some p r k : approving_owner p r = Some k <-> p = Phase_Approving k r.
Proof.
  destruct p; simpl; try (split; congruence).
  destruct (Z.eqb_spec round0 r); split; congruence.
Qed.

Lemma resolving_owner_some p r k : resolving_owner p r = Some k <-> p = Phase_Resolving k r.
Proof.
  destruct p; simpl; try (split; congruence).
  destruct (Z.eqb_spec round0 r); split; congruence.
Qed.

Lemma is_idle_true p : is_idle p = true <-> p = Phase_Idle.
Proof. destruct p; split; done. Qed.

Lemma entry_eq s a acc pol n p :
  accounts s !! a = Some acc -> policy acc = pol -> round acc = n -> phase acc = p ->
  accounts s !! a = Some (mkAccount pol n p).
Proof. destruct acc; simpl. by intros -> -> -> ->. Qed.

(** Rewrites an entry into constructor form, its phase and key made explicit by
    the guard that read them. *)
Ltac open_entry :=
  repeat match goal with
  | x : Account |- _ => destruct x as [[t_ ak_ tl_] n_ p_]; cbn in *; subst
  | H : is_idle _ = true |- _ => apply is_idle_true in H
  | H : abort_action ?p ?t = Some _ |- _ => destruct p, t; simplify_eq/=
  | H : approving_owner _ _ = Some _ |- _ => apply approving_owner_some in H
  | H : resolving_owner _ _ = Some _ |- _ => apply resolving_owner_some in H
  | H : match ?p with _ => _ end = Some _ |- _ => destruct p eqn:?; simplify_eq/=
  end; simplify_eq/=.

Ltac rec_put := apply recovery_step_put;
  match goal with H : accounts _ !! _ = _ |- _ => rewrite H end.

(** Proves a step by the constructor [rule]. *)
Ltac by_rule rule := eapply rs_cast; [eapply rule; intros; first [done | cbn in *; congruence] | done].

Lemma install_policy_step a t k tl env s s' l a' :
  install_policy a t k tl env s = Done (tt, s', l) ->
  recovery_step s env a' (Call_install_policy a t k tl) (accounts s !! a') (accounts s' !! a').
Proof.
  unfold install_policy. intros H. nrun H; guards; apply recovery_step_put;
    match goal with |- recovery_step _ _ _ _ ?v (Some (mkAccount _ ?n _)) =>
      replace n with (round_at s a); [|unfold round_at; by case_match; simplify_eq/=] end;
    (apply rs_install; [done..|]; intros acc' Hacc; simplify_eq; by apply is_idle_true).
Qed.

Lemma submit_verdict_step a b sigs env s r s' l a' :
  submit_verdict a b sigs env s = Done (r, s', l) ->
  recovery_step s env a' (Call_submit_verdict a b sigs) (accounts s !! a') (accounts s' !! a').
Proof.
  unfold submit_verdict. intros H. nrun H; guards; open_entry; rec_put;
    first [by_rule rs_cancel | by_rule rs_approve].
Qed.

Lemma finalize_recovery_step a n bh env s r s' l a' :
  finalize_recovery a n bh env s = Done (r, s', l) ->
  recovery_step s env a' (Call_finalize_recovery a n bh) (accounts s !! a') (accounts s' !! a').
Proof.
  unfold finalize_recovery. intros H. nrun H; guards; open_entry; rec_put; by_rule rs_finalize.
Qed.

Lemma abort_recovery_step a env s r s' l a' :
  abort_recovery a env s = Done (r, s', l) ->
  recovery_step s env a' (Call_abort_recovery a) (accounts s !! a') (accounts s' !! a').
Proof.
  unfold abort_recovery. intros H. nrun H; guards; open_entry; rec_put;
    first [by_rule rs_abort_request | by_rule rs_abort_approved].
Qed.

Lemma on_finalized_step a rnd res env s s' l a' :
  on_finalized a rnd res env s = Done (tt, s', l) ->
  recovery_step s env a' (Call_on_finalized a rnd res) (accounts s !! a') (accounts s' !! a').
Proof.
  unfold on_finalized. intros H. nrun H; guards; try apply rs_stay; open_entry; rec_put;
    by_rule rs_finalized.
Qed.

Lemma exec_recovery_step c env s s' l a :
  exec c env s = Done (tt, s', l) ->
  recovery_step s env a c (accounts s !! a) (accounts s' !! a).
Proof.
  destruct c; cbn [exec]; intros H.
  - by eapply install_policy_step.
  - unfold request_recovery in H. nrun H; guards; open_entry; guards; rec_put; by_rule rs_request.
  - nrun H. by eapply submit_verdict_step.
  - destruct r; unfold on_frozen in H; nrun H; guards; try apply rs_stay; open_entry; rec_put;
      by_rule rs_frozen.
  - nrun H. by eapply finalize_recovery_step.
  - nrun H. by eapply abort_recovery_step.
  - by eapply on_finalized_step.
  - destruct r; unfold on_aborted in H; nrun H; guards; try apply rs_stay; open_entry; rec_put;
      by_rule rs_aborted.
  - unfold on_signed in H. nrun H; guards; try apply rs_stay; open_entry; rec_put;
      by_rule rs_signed.
  - unfold claim_native_finalized in H. nrun H; guards; open_entry.
    destruct p_; simplify_eq/=; guards; subst; rec_put; by_rule rs_claim.
  - unfold on_wallet_transferred in H. nrun H; guards; try apply rs_stay. cbn.
    rewrite lookup_delete. case_decide; [|constructor]. subst.
    destruct (accounts s !! a) as [acc|] eqn:E; [|done].
    destruct (resettable (phase acc)) eqn:R; [|done]. by apply rs_transferred.
Qed.

(** ** The evidence behind a recovery

    Every phase past [Idle] is backed by calls of the history: a request signed
    by the attestation key, and, once the account may be frozen or handed over,
    a verdict of the watchers at least the timelock later. *)
Definition request_evidence (tr : list (Env * Call)) (a : AccountId) (pol : Policy)
    (k : PublicKey) (r at_ : Z) : Prop :=
  exists t1 env sig t2,
    tr = t1 ++ (env, Call_request_recovery a k r sig) :: t2 /\ block_timestamp env = at_ /\
    verify (request_message (current_account_id env) a k r) sig (attestation_key pol) = true.

Definition verdict_evidence (ws : list PublicKey) (thr : Z) (tr : list (Env * Call))
    (a : AccountId) (pol : Policy) (k : PublicKey) (r : Z) : Prop :=
  exists tr1 env sigs tr2 at_,
    tr = tr1 ++ (env, Call_submit_verdict a true sigs) :: tr2 /\
    request_evidence tr1 a pol k r at_ /\ unlocked env pol at_ /\
    verify_quorum (verdict_message (current_account_id env) a k r true)
      (filter_sigs sigs) ws thr = true.

Definition evidence (ws : list PublicKey) (thr : Z) (tr : list (Env * Call))
    (a : AccountId) (acc : Account) : Prop :=
  match phase acc with
  | Phase_Idle => True
  | Phase_Requested k r at_ => request_evidence tr a (policy acc) k r at_
  | Phase_Approving k r | Phase_Approved k r | Phase_Resolving k r =>
      verdict_evidence ws thr tr a (policy acc) k r
  end.

Lemma request_evidence_app tr x a pol k r at_ :
  request_evidence tr a pol k r at_ -> request_evidence (tr ++ [x]) a pol k r at_.
Proof.
  intros (t1 & env & sig & t2 & -> & ?). exists t1, env, sig, (t2 ++ [x]).
  by rewrite <- app_assoc.
Qed.

Lemma verdict_evidence_app ws thr tr x a pol k r :
  verdict_evidence ws thr tr a pol k r -> verdict_evidence ws thr (tr ++ [x]) a pol k r.
Proof.
  intros (t1 & env & sigs & t2 & at_ & -> & ?). exists t1, env, sigs, (t2 ++ [x]), at_.
  by rewrite <- app_assoc.
Qed.

Lemma evidence_app ws thr tr x a acc :
  evidence ws thr tr a acc -> evidence ws thr (tr ++ [x]) a acc.
Proof.
  unfold evidence. destruct (phase acc); auto using request_evidence_app, verdict_evidence_app.
Qed.

Lemma evidence_step s env a c v acc tr :
  recovery_step s env a c v (Some acc) ->
  (forall acc0, v = Some acc0 -> evidence (watchers s) (threshold s) tr a acc0) ->
  evidence (watchers s) (threshold s) (tr ++ [(env, c)]) a acc.
Proof.
  intros Hs Hv0.
  assert (Hv : forall acc0, v = Some acc0 ->
    evidence (watchers s) (threshold s) (tr ++ [(env, c)]) a acc0 /\
    evidence (watchers s) (threshold s) tr a acc0) by auto using evidence_app.
  clear Hv0. inversion Hs; subst; clear Hs;
    try (destruct (Hv _ eq_refl) as [Hv' Hv0]; clear Hv);
    unfold evidence in *; cbn in *; try done.
  - exists tr, env, sig, []. auto.
  - assert (verdict_evidence (watchers s) (threshold s)
      (tr ++ [(env, Call_submit_verdict a true sigs)]) a pol k r).
    { exists tr, env, sigs, [], at_. auto. }
    by destruct (is_wallet (target pol)).
  - by destruct (is_ok result).
  - by destruct (is_wallet (target pol)).
  - by destruct result as [[]|].
  - by destruct (is_ok result).
Qed.

(** The wiring of the contract never changes after [new]. *)
Definition config (s : MpcRecovery) := (owner s, signer s, transfer_authority s, watchers s, threshold s).

Ltac unfold_methods H :=
  unfold install_policy, request_recovery, submit_verdict, on_frozen, finalize_recovery,
    abort_recovery, on_finalized, on_aborted, on_signed, claim_native_finalized,
    on_wallet_transferred in H.

Lemma exec_config c env s s' l : exec c env s = Done (tt, s', l) -> config s' = config s.
Proof. destruct c; cbn [exec]; intros H; unfold_methods H; nrun H; done. Qed.

Lemma step_state_step s env c a :
  recovery_step s env a c (accounts s !! a) (accounts (step_state s (env, c)) !! a).
Proof.
  unfold Near.step_state. cbn [fst snd].
  destruct (exec c env s) as [[[[] s'] l]|] eqn:E; [|apply rs_stay].
  by eapply exec_recovery_step.
Qed.

(** C26: Along every history, every call of mpc-recovery moves each account's entry
    by one step of the abstract five-phase recovery machine, with the caller,
    signature, timelock and quorum each step requires. *)
Theorem exec_refines_recovery_step s tr env c a :
  recovery_step (run tr s) env a c (accounts (run tr s) !! a)
    (accounts (run (tr ++ [(env, c)]) s) !! a).
Proof. rewrite run_app. apply step_state_step. Qed.

Lemma step_state_config s x : config (step_state s x) = config s.
Proof.
  unfold Near.step_state. destruct (exec x.2 x.1 s) as [[[[] s'] l]|] eqn:E; [|done].
  by eapply exec_config.
Qed.

Lemma run_config s tr : config (run tr s) = config s.
Proof.
  revert s. induction tr as [|x tr IH]; intros s; [done|].
  cbn. change (config (run tr (step_state s x)) = config s).
  by rewrite IH, step_state_config.
Qed.

Lemma run_snoc s tr x : run (tr ++ [x]) s = step_state (run tr s) x.
Proof. by rewrite run_app. Qed.

Lemma run_evidence s tr a acc :
  accounts s = ∅ -> accounts (run tr s) !! a = Some acc ->
  evidence (watchers s) (threshold s) tr a acc.
Proof.
  intros Hs. revert acc. induction tr as [|[env c] tr IH] using rev_ind; intros acc.
  - cbn. by rewrite Hs, lookup_empty.
  - rewrite run_snoc. intros Ha.
    pose proof (run_config s tr) as Hc. unfold config in Hc. injection Hc as _ _ _ Hw Ht.
    rewrite <- Hw, <- Ht. eapply evidence_step.
    + rewrite <- Ha. apply step_state_step.
    + intros acc0 H. rewrite Hw, Ht. by apply IH.
Qed.

(** C8: An account that is being frozen, is approved or is being handed to a new
    owner has in its history a request for that owner and round signed by the
    policy's attestation key and, at least the timelock later, a silent verdict
    carrying the watcher quorum. *)
Theorem recovery_needs_request_timelock_and_quorum s tr a acc k r :
  accounts s = ∅ -> accounts (run tr s) !! a = Some acc ->
  phase acc ∈ [Phase_Approving k r; Phase_Approved k r; Phase_Resolving k r] ->
  exists tr1 env1 sig tr2 env2 sigs tr3,
    tr = tr1 ++ (env1, Call_request_recovery a k r sig)
         :: tr2 ++ (env2, Call_submit_verdict a true sigs) :: tr3 /\
    verify (request_message (current_account_id env1) a k r) sig
      (attestation_key (policy acc)) = true /\
    block_timestamp env1 + timelock_secs (policy acc) * NS_PER_SEC <= block_timestamp env2 /\
    verify_quorum (verdict_message (current_account_id env2) a k r true)
      (filter_sigs sigs) (watchers s) (threshold s) = true.
Proof.
  intros Hs Ha Hp. pose proof (run_evidence _ _ _ _ Hs Ha) as He.
  assert (verdict_evidence (watchers s) (threshold s) tr a (policy acc) k r)
    as (t1 & env2 & sigs & t3 & at_ & -> & (t0 & env1 & sig & t2 & -> & <- & Hv) & Hu & Hq).
  { unfold evidence in He. rewrite !elem_of_cons in Hp.
    destruct Hp as [E|[E|[E|E%elem_of_nil]]]; [..|done]; by rewrite E in He. }
  exists t0, env1, sig, t2, env2, sigs, t3. by rewrite <- app_assoc.
Qed.

(** ** Rounds *)
Lemma lookup_insert_None {A} (m : gmap AccountId A) i x j : <[i:=x]> m !! j = None -> m !! j = None.
Proof. rewrite lookup_insert_None. by intros []. Qed.

Lemma exec_round_floor c env s s' l a :
  exec c env s = Done (tt, s', l) ->
  (round_floor s' !! a = round_floor s !! a /\ (accounts s' !! a = None -> accounts s !! a = None)) \/
  (accounts s' !! a = None /\ exists acc, accounts s !! a = Some acc /\
     round_floor s' !! a = Some (round acc)).
Proof.
  destruct c; cbn [exec]; intros H; unfold_methods H; nrun H; eauto using lookup_insert_None.
  destruct (decide (wallet = a)) as [->|].
  - right. rewrite lookup_delete_eq, lookup_insert_eq.
    destruct (accounts s !! a) as [acc|]; [|done].
    destruct (resettable (phase acc)); simplify_eq/=. eauto.
  - left. by rewrite lookup_insert_ne, lookup_delete_ne.
Qed.

Lemma step_state_cases (P : MpcRecovery -> Prop) s env c :
  P s -> (forall s' l, exec c env s = Done (tt, s', l) -> P s') -> P (step_state s (env, c)).
Proof.
  intros Hs Hd. unfold Near.step_state. cbn [fst snd].
  destruct (exec c env s) as [[[[] s'] l]|] eqn:E; [by eapply Hd|done].
Qed.

Lemma step_round_mono s x a : round_at s a <= round_at (step_state s x) a.
Proof.
  destruct x as [env c]. pose proof (step_state_step s env c a) as Hs.
  assert (Hf : accounts (step_state s (env, c)) !! a = None ->
    round_at s a <= default 0 (round_floor (step_state s (env, c)) !! a)).
  { apply step_state_cases; unfold round_at; [by intros ->|]. intros s' l E Hn.
    destruct (exec_round_floor _ _ _ _ _ a E) as [[-> Ha]|(_ & acc & -> & ->)]; [|done].
    by rewrite (Ha Hn). }
  unfold round_at at 2.
  destruct (accounts (step_state s (env, c)) !! a) as [acc'|] eqn:E'; [clear Hf|by apply Hf].
  inversion Hs; subst; try done; unfold round_at;
    try match goal with H : Some _ = accounts _ !! _ |- _ => rewrite <- H end; cbn; try lia.
  - by case_match; simplify_eq/=.
  - by repeat case_match.
Qed.

Lemma run_round_mono s tr a : round_at s a <= round_at (run tr s) a.
Proof.
  revert s. induction tr as [|x tr IH]; intros s; [done|].
  etrans; [apply (step_round_mono s x a)|apply IH].
Qed.

Lemma request_done s env a k r sig s1 l :
  exec (Call_request_recovery a k r sig) env s = Done (tt, s1, l) ->
  round_at s a = r /\ round_at s1 a = r + 1.
Proof.
  cbn [exec]. unfold request_recovery, round_at. intros H. nrun H; guards; subst; cbn;
    rewrite lookup_insert_eq; by rewrite G0.
Qed.

(** C37: Once a recovery request of a round was accepted, no request of that round
    is accepted again after any later history, whatever key or signature it carries. *)
Theorem attestation_is_single_use s env a k r sig s1 l tr env' k' sig' :
  exec (Call_request_recovery a k r sig) env s = Done (tt, s1, l) ->
  exists f, exec (Call_request_recovery a k' r sig') env' (run tr s1) = Fail f.
Proof.
  intros [Hr Hr1]%request_done.
  destruct (exec _ env' (run tr s1)) as [[[[] s2] l2]|f] eqn:E; [|eauto].
  apply request_done in E as [E _]. pose proof (run_round_mono s1 tr a). lia.
Qed.

(** ** Well-formed recoveries *)
Definition account_ok (acc : Account) : Prop :=
  let pol := policy acc in
  MIN_TIMELOCK_SECS <= timelock_secs pol /\ is_ed25519 (attestation_key pol) = true /\
  target_keys_ok (target pol) /\
  forall k r, pending (phase acc) = Some (k, r) ->
    r < round acc /\ (is_wallet (target pol) = true -> is_ed25519 k = true).

Definition quorum_ok (s : MpcRecovery) : Prop :=
  0 < threshold s <= Z.of_nat (length (watchers s)) /\ NoDup (watchers s) /\
  Forall (fun w => is_ed25519 w = true) (watchers s).

Definition recovery_inv (s : MpcRecovery) : Prop :=
  quorum_ok s /\ map_Forall (fun _ acc => account_ok acc) (accounts s).

Lemma account_ok_idle pol n p :
  account_ok (mkAccount pol n p) -> account_ok (mkAccount pol n Phase_Idle).
Proof. unfold account_ok. cbn. intros (?&?&?&_). by split_and!. Qed.

Lemma account_ok_move pol n p p' :
  pending p = pending p' -> account_ok (mkAccount pol n p) -> account_ok (mkAccount pol n p').
Proof. unfold account_ok. cbn. by intros ->. Qed.

Lemma account_ok_rebind pol n k r :
  account_ok (mkAccount pol n (Phase_Resolving k r)) ->
  account_ok (mkAccount (rebind pol k) n Phase_Idle).
Proof.
  unfold account_ok, rebind. cbn. intros (?&?&?&H).
  destruct (target pol) eqn:E; cbn; rewrite ?E; split_and!; try done.
  destruct (H k r eq_refl) as [_ Hk]. by apply Hk.
Qed.

Lemma recovery_step_ok s env a c v acc' :
  recovery_step s env a c v (Some acc') ->
  (forall acc, v = Some acc -> account_ok acc) -> account_ok acc'.
Proof.
  intros Hs Hv. inversion Hs; subst; clear Hs; auto;
    try (specialize (Hv _ eq_refl)); eauto using account_ok_idle.
  - unfold account_ok. cbn. by split_and!.
  - revert Hv. unfold account_ok. cbn. intros (?&?&?&_). split_and!; try done.
    intros ? ? [= <- <-]. split; [lia|done].
  - destruct (is_wallet _); by eapply account_ok_move.
  - destruct (is_ok _); [by eapply account_ok_move|by eapply account_ok_idle].
  - destruct (is_wallet _); [by eapply account_ok_move|by eapply account_ok_idle].
  - destruct result as [[]|]; [by eapply account_ok_rebind|by eapply account_ok_idle|].
    by eapply account_ok_move.
  - destruct (is_ok _); [by eapply account_ok_idle|by eapply account_ok_move].
Qed.

Lemma exec_recovery_inv : preserves exec recovery_inv.
Proof.
  intros c env s s' l H [Hq Ha]. split.
  - pose proof (exec_config _ _ _ _ _ H) as E. unfold config in E.
    injection E as _ _ _ Ew Et. unfold quorum_ok. by rewrite Ew, Et.
  - intros a acc' E. eapply recovery_step_ok.
    + rewrite <- E. by eapply exec_recovery_step.
    + intros acc E'. by apply (Ha a).
Qed.

Lemma check_watchers_ok seen l :
  check_watchers seen l = Done tt ->
  NoDup l /\ Forall (fun w => is_ed25519 w = true) l /\ (forall w, w ∈ l -> w ∉ seen).
Proof.
  revert seen. induction l as [|w l IH]; intros seen; cbn [check_watchers].
  - intros _. split_and!; [constructor|constructor|]. by intros w ?%elem_of_nil.
  - destruct (is_ed25519 w) eqn:E; cbn; [|done]. case_bool_decide as D; [done|].
    intros (Hn & Hf & Hs)%IH. split_and!.
    + constructor; [|done]. intros Hw. apply (Hs w Hw). by left.
    + by constructor.
    + intros x [->|Hx]%elem_of_cons; [done|]. intros Hx'. apply (Hs x Hx). by right.
Qed.

Lemma new_recovery_inv o sg ta ws thr s : new o sg ta ws thr = Done s -> recovery_inv s.
Proof.
  unfold new. destruct (negb _) eqn:E; [done|]. guards.
  destruct (check_watchers [] ws) as [[]|] eqn:C; [|done]. intros [= <-].
  apply check_watchers_ok in C as (?&?&_).
  split; [by split_and!|]. cbn. apply map_Forall_empty.
Qed.

(** From a successful initialisation on, the watcher set has no duplicates, holds
    ed25519 keys and reaches the threshold, and every account's policy keys,
    timelock and pending round are well-formed. *)
Theorem recovery_invariant o sg ta ws thr s tr :
  new o sg ta ws thr = Done s -> recovery_inv (run tr s).
Proof.
  intros H. apply run_invariant; [apply exec_recovery_inv|by eapply new_recovery_inv].
Qed.

(** ** Settling *)
Lemma bool_decide_refl {A} `{EqDecision A} (x : A) : bool_decide (x = x) = true.
Proof. by apply bool_decide_eq_true. Qed.

Section settling.
Context `{HL : !SdkLaws}.

(** Finalising an approved wallet recovery always yields the compare-and-swap
    from the bound owner to the new one, and its callback always lands: rebound and
    idle on success, idle on a void, approved again on an error. *)
Lemma finalize_wallet_outcome s a signer_id bound ak tl n k r env nonce bh :
  recovery_inv s ->
  accounts s !! a = Some (mkAccount (mkPolicy (Target_Wallet signer_id bound) ak tl) n
                            (Phase_Approved k r)) ->
  attached_deposit env = 0 ->
  exists new_key current s1,
    ed25519_base58 k = Some new_key /\ ed25519_base58 bound = Some current /\
    finalize_recovery a nonce bh env s =
      Done (PThen (ext_call signer_id (Msg_swap_owner a new_key (Some current)) 0 SWAP_GAS)
              (Cb_on_finalized a r) CALLBACK_GAS, s1, []) /\
    forall env' result, predecessor_account_id env' = current_account_id env' ->
    exists s2 ev, on_finalized a r result env' s1 = Done (tt, s2, ev) /\
      accounts s2 = <[a := match result with
                           | Ok true => mkAccount (mkPolicy (Target_Wallet signer_id k) ak tl) n Phase_Idle
                           | Ok false => mkAccount (mkPolicy (Target_Wallet signer_id bound) ak tl) n Phase_Idle
                           | Err _ => mkAccount (mkPolicy (Target_Wallet signer_id bound) ak tl) n
                                        (Phase_Approved k r)
                           end]> (accounts s).
Proof.
  intros [_ Hi] Ha Hd. pose proof (Hi a _ Ha) as (_ & _ & Hb & Hp). cbn in Hb, Hp.
  destruct (Hp k r eq_refl) as [_ Hk]. specialize (Hk eq_refl).
  destruct (ed25519_base58_is_some k Hk) as [nk Enk].
  destruct (ed25519_base58_is_some bound Hb) as [cur Ecur].
  exists nk, cur, (s <| accounts ::= <[a := mkAccount (mkPolicy (Target_Wallet signer_id bound) ak tl)
                                       n (Phase_Resolving k r)]> |>).
  split_and!; [done..| |].
  - unfold finalize_recovery. nexec. rewrite Hd. cbn. rewrite Ha. cbn. by rewrite Enk, Ecur.
  - intros env' result Hpriv. unfold on_finalized. nexec.
    rewrite Hpriv, bool_decide_refl. cbn. rewrite lookup_insert_eq. cbn. rewrite Z.eqb_refl. cbn.
    destruct result as [[]|]; cbn; do 2 eexists; (split; [done|]); cbn; by rewrite insert_insert_eq.
Qed.
End settling.

(** The callback that ends an in-flight phase of round [r]. *)
Inductive settles (a : AccountId) (k : PublicKey) (r : Z) : Call -> Phase -> Prop :=
| settles_frozen res : settles a k r (Call_on_frozen a r res) (Phase_Approving k r)
| settles_finalized res : settles a k r (Call_on_finalized a r res) (Phase_Resolving k r)
| settles_aborted res : settles a k r (Call_on_aborted a r res) (Phase_Resolving k r)
| settles_signed h res : settles a k r (Call_on_signed a r h res) (Phase_Resolving k r).

(** Whatever an in-flight call reports, the callback of the round leaves the account
    approved or idle with its round kept: no recovery stays in flight. *)
Theorem callbacks_always_settle s env a k r c pol n p :
  predecessor_account_id env = current_account_id env ->
  accounts s !! a = Some (mkAccount pol n p) -> settles a k r c p ->
  exists s' l acc', exec c env s = Done (tt, s', l) /\ accounts s' !! a = Some acc' /\
    round acc' = n /\ (phase acc' = Phase_Approved k r \/ phase acc' = Phase_Idle).
Proof.
  intros Hp Ha Hc. destruct Hc as [[]|[[]|]|[]|h []]; cbn [exec];
    unfold on_frozen, on_finalized, on_aborted, on_signed; nexec;
    rewrite Hp, bool_decide_refl; cbn; rewrite Ha; cbn; rewrite Z.eqb_refl; cbn;
    do 3 eexists; (split; [reflexivity|]); cbn;
    (split; [by rewrite lookup_insert_eq|]); cbn; auto.
Qed.
End MpcRecoveryProofs.

(** ** Witnesses *)
Definition demo_recovery : MpcRecovery :=
  mkMpcRecovery "dao.near" "v1.signer" "ext.hos" [demo_key 11; demo_key 12; demo_key 13] 2 ∅ ∅.
Definition demo_at (caller : AccountId) (secs : Z) : Env :=
  demo_env caller "rec.hos" 0 (secs * NS_PER_SEC).
Definition demo_policy : Policy :=
  mkPolicy (Target_Wallet "signer.hos" (demo_key 7)) (demo_key 20) 3600.
Definition demo_attestation (r : Z) : list Z :=
  demo_signature (demo_key 20) (request_message "rec.hos" "bob.alice.near" (demo_key 8) r).
Definition demo_verdict_sigs : list WatcherSignature :=
  let m := verdict_message "rec.hos" "bob.alice.near" (demo_key 8) 0 true in
  [mkWatcherSignature (demo_key 11) (demo_signature (demo_key 11) m);
   mkWatcherSignature (demo_key 13) (demo_signature (demo_key 13) m)].
Definition demo_install : Env * Call :=
  (demo_at "dao.near" 100, Call_install_policy "bob.alice.near"
     (Target_Wallet "signer.hos" (demo_key 7)) (demo_key 20) 3600).
Definition demo_request : Env * Call :=
  (demo_at "anyone.near" 200, Call_request_recovery "bob.alice.near" (demo_key 8) 0 (demo_attestation 0)).
Definition demo_verdict : Env * Call :=
  (demo_at "anyone.near" 3900, Call_submit_verdict "bob.alice.near" true demo_verdict_sigs).
Definition demo_frozen : Env * Call :=
  (demo_at "rec.hos" 3901, Call_on_frozen "bob.alice.near" 0 (Ok tt)).

Lemma recovery_needs_request_timelock_and_quorum_witness :
  exists tr1 env1 sig tr2 env2 sigs tr3,
    [demo_install; demo_request; demo_verdict] =
      tr1 ++ (env1, Call_request_recovery "bob.alice.near" (demo_key 8) 0 sig)
          :: tr2 ++ (env2, Call_submit_verdict "bob.alice.near" true sigs) :: tr3 /\
    block_timestamp env1 + 3600 * NS_PER_SEC <= block_timestamp env2.
Proof.
  destruct (recovery_needs_request_timelock_and_quorum demo_recovery
    [demo_install; demo_request; demo_verdict] "bob.alice.near"
    (mkAccount demo_policy 1 (Phase_Approving (demo_key 8) 0)) (demo_key 8) 0)
    as (tr1 & env1 & sig & tr2 & env2 & sigs & tr3 & E & _ & Ht & _).
  - reflexivity.
  - vm_eq.
  - left.
  - exists tr1, env1, sig, tr2, env2, sigs, tr3. split; [exact E|exact Ht].
Defined.

Lemma attestation_is_single_use_witness :
  exists s1 l f, exec (snd demo_request) (fst demo_request) (run exec [demo_install] demo_recovery)
      = Done (tt, s1, l) /\
    exec (Call_request_recovery "bob.alice.near" (demo_key 8) 0 (demo_attestation 0))
      (demo_at "anyone.near" 9000) (run exec [demo_verdict; demo_frozen] s1) = Fail f.
Proof.
  destruct (is_done_inv (exec (snd demo_request) (fst demo_request)
              (run exec [demo_install] demo_recovery))) as [[[[] s1] l] E]; [vm_eq|].
  destruct (attestation_is_single_use _ _ _ _ _ _ _ _ [demo_verdict; demo_frozen]
              (demo_at "anyone.near" 9000) (demo_key 8) (demo_attestation 0) E) as [f Hf].
  exists s1, l, f. split; [exact E|exact Hf].
Defined.

Lemma recovery_invariant_witness :
  recovery_inv (run exec [demo_install; demo_request; demo_verdict; demo_frozen] demo_recovery).
Proof.
  apply (recovery_invariant "dao.near" "v1.signer" "ext.hos"
           [demo_key 11; demo_key 12; demo_key 13] 2). vm_eq.
Defined.

Definition demo_approved : MpcRecovery :=
  run exec [demo_install; demo_request; demo_verdict; demo_frozen] demo_recovery.
Lemma demo_approved_inv : recovery_inv demo_approved.
Proof.
  unfold demo_approved. apply (run_invariant exec recovery_inv); [apply exec_recovery_inv|].
  apply (new_recovery_inv "dao.near" "v1.signer" "ext.hos"
           [demo_key 11; demo_key 12; demo_key 13] 2). vm_eq.
Qed.

Lemma callbacks_always_settle_witness :
  exists s' l acc', exec (Call_on_frozen "bob.alice.near" 0 (Err PromiseError_Failed))
      (demo_at "rec.hos" 3901) (run exec [demo_install; demo_request; demo_verdict] demo_recovery)
      = Done (tt, s', l) /\
    accounts s' !! "bob.alice.near" = Some acc' /\ round acc' = 1 /\
    (phase acc' = Phase_Approved (demo_key 8) 0 \/ phase acc' = Phase_Idle).
Proof.
  apply (callbacks_always_settle _ (demo_at "rec.hos" 3901) "bob.alice.near" (demo_key 8) 0
    (Call_on_frozen "bob.alice.near" 0 (Err PromiseError_Failed)) demo_policy 1
    (Phase_Approving (demo_key 8) 0)).
  - reflexivity.
  - vm_eq.
  - constructor.
Defined.
