(* ===== verification/HosExtension.v ===== *)
(** * hos-extension: the registry's authority over wallets

    Models [contracts/hos-extension/src]: the forced transfer of a wallet's
    operating key with its callback, the sweep of fungible tokens out of a
    reclaimed wallet, and the contract's administration. *)
From S2P Require Export Demo.

(** ** error.rs *)
Inductive ContractError :=
| ContractError_OnlyAdmin
| ContractError_OnlyRegistry
| ContractError_Paused
| ContractError_CannotRemoveLastAdmin
| ContractError_InsufficientDeposit
| ContractError_InsufficientBalance
| ContractError_NotEd25519.

(** ** events.rs *)
Inductive Event :=
| Event_ContractPaused (by_ : AccountId)
| Event_ContractUnpaused (by_ : AccountId)
| Event_AdminAdded (account by_ : AccountId)
| Event_AdminRemoved (account by_ : AccountId)
| Event_ForceTransferRequested (wallet : AccountId) (new_public_key : PublicKey) (by_ : AccountId)
| Event_ForceTransferCompleted (wallet : AccountId)
| Event_ForceTransferVoided (wallet : AccountId)
| Event_BalanceSkimmed (amount : Z) (to by_ : AccountId)
| Event_SweepRequested (wallet ft destination by_ : AccountId)
| Event_SweepDispatched (wallet ft destination : AccountId) (amount : Z)
| Event_SweepSkipped (wallet ft : AccountId) (reason : string)
| Event_SweepFailed (wallet ft : AccountId) (reason : string).

(** ** lib.rs *)
Definition CONTRACT_VERSION : Z := 1.
Definition GAS_FOR_SWAP_OWNER : Z := 8 * Tgas.
Definition GAS_FOR_SWAP_CB : Z := 10 * Tgas.
Definition GAS_FOR_RESET : Z := 5 * Tgas.
Definition GAS_FOR_BALANCE_QUERY : Z := 5 * Tgas.
Definition GAS_FOR_BALANCE_CB : Z := 105 * Tgas.
Definition GAS_FOR_STORAGE_DEPOSIT : Z := 10 * Tgas.
Definition GAS_FOR_STORAGE_CB : Z := 90 * Tgas.
Definition GAS_FOR_AUTHORITY_SIGN : Z := 75 * Tgas.
Definition GAS_FOR_SETTLE_CB : Z := 8 * Tgas.
Definition GAS_FOR_FT_TRANSFER : Z := 10 * Tgas.
Definition STORAGE_DEPOSIT_AMOUNT : Z := FT_STORAGE_DEPOSIT_YOCTO.
Definition MIN_SWEEP_ATTACHED : Z := FT_STORAGE_DEPOSIT_YOCTO + 1.

Record HosExtension := mkHosExtension {
  admins : gset AccountId;
  registry : AccountId;
  active_signer : AccountId;
  recovery : AccountId;
  paused : bool;
  version : Z
}.

Inductive Callback :=
| Cb_after_force_swap (wallet : AccountId)
| Cb_after_balance_for_sweep (wallet ft destination : AccountId) (tx_nonce : Z) (block_hash : list Z)
| Cb_after_storage_for_sweep (wallet ft destination : AccountId) (balance tx_nonce : Z)
    (block_hash : list Z)
| Cb_after_sweep_settled (wallet ft destination : AccountId) (amount : Z).

Section HosExtension.
Context `{HS : !Sdk}.

Definition HosExtension_eta (r : HosExtension) : HosExtension :=
  mkHosExtension (admins r) (registry r) (active_signer r) (recovery r) (paused r) (version r).
#[global] Instance set_admins : Setter admins := ltac:(mk_setter HosExtension_eta).
#[global] Instance set_paused : Setter paused := ltac:(mk_setter HosExtension_eta).

Notation EPromise := (Promise Msg Callback).
Notation M := (NearM HosExtension Event EPromise ContractError).

Definition assert_admin : M unit :=
  caller ← asks predecessor_account_id;
  ads ← gets admins;
  ensure (bool_decide (caller ∈ ads)) ContractError_OnlyAdmin.

Definition assert_registry : M unit :=
  caller ← asks predecessor_account_id;
  r ← gets registry;
  ensure (bool_decide (caller = r)) ContractError_OnlyRegistry.

Definition assert_not_paused : M unit :=
  p ← gets paused;
  ensure (negb p) ContractError_Paused.

Definition refund_registry (amount : Z) : M EPromise :=
  r ← gets registry;
  mret (transfer_to r amount).

Definition abort_and_refund (event : Event) : M (PromiseOrValue Msg Callback (option Value)) :=
  emit event;;
  p ← refund_registry MIN_SWEEP_ATTACHED;
  send p;;
  mret (POV_Value None).

Definition ext_ed25519_base58 (key : PublicKey) : M string :=
  ok_or (ed25519_base58 key) ContractError_NotEd25519.

Definition sweep_action (destination : AccountId) (amount : Z) : TxAction :=
  TxAction_FunctionCall "ft_transfer" (json_ft_transfer destination amount "hos-tla reclaim")
    GAS_FOR_FT_TRANSFER ONE_YOCTO.

Definition new (admin registry active_signer recovery : AccountId) : HosExtension :=
  mkHosExtension {[admin]} registry active_signer recovery false CONTRACT_VERSION.

Definition pause : M unit :=
  not_payable "pause";;
  assert_admin;;
  modify (fun s => s <| paused := true |>);;
  by_ ← asks predecessor_account_id;
  emit (Event_ContractPaused by_).

Definition unpause : M unit :=
  not_payable "unpause";;
  assert_admin;;
  modify (fun s => s <| paused := false |>);;
  by_ ← asks predecessor_account_id;
  emit (Event_ContractUnpaused by_).

Definition add_admin (account : AccountId) : M unit :=
  not_payable "add_admin";;
  assert_admin;;
  modify (fun s => s <| admins ::= union {[account]} |>);;
  by_ ← asks predecessor_account_id;
  emit (Event_AdminAdded account by_).

Definition remove_admin (account : AccountId) : M unit :=
  not_payable "remove_admin";;
  assert_admin;;
  ads ← gets admins;
  ensure (negb (Z.of_nat (size ads) <=? 1)) ContractError_CannotRemoveLastAdmin;;
  modify (fun s => s <| admins ::= fun x => x ∖ {[account]} |>);;
  by_ ← asks predecessor_account_id;
  emit (Event_AdminRemoved account by_).

(** [storage_byte_cost * storage_usage], what the account must keep locked. *)
Definition storage_reserve (env : Env) : Z :=
  saturating_mul U128_MAX (storage_byte_cost env) (storage_usage env).

Definition skim (amount : Z) (to : AccountId) : M EPromise :=
  not_payable "skim";;
  assert_admin;;
  reserve ← asks storage_reserve;
  balance ← asks account_balance;
  let available := saturating_sub balance reserve in
  ensure (negb (available <? amount)) ContractError_InsufficientBalance;;
  by_ ← asks predecessor_account_id;
  emit (Event_BalanceSkimmed amount to by_);;
  mret (transfer_to to amount).

Definition force_transfer (wallet : AccountId) (new_public_key : PublicKey)
    (expected_current : option PublicKey) : M EPromise :=
  not_payable "force_transfer";;
  assert_registry;;
  assert_not_paused;;
  raw_key ← ext_ed25519_base58 new_public_key;
  expected_raw ← match expected_current with
                 | Some key => raw ← ext_ed25519_base58 key; mret (Some raw)
                 | None => mret None
                 end;
  by_ ← asks predecessor_account_id;
  emit (Event_ForceTransferRequested wallet new_public_key by_);;
  signer ← gets active_signer;
  mret (PThen (ext_call signer (Msg_swap_owner wallet raw_key expected_raw) 0 GAS_FOR_SWAP_OWNER)
          (Cb_after_force_swap wallet) GAS_FOR_SWAP_CB).

Definition after_force_swap (wallet : AccountId) (swapped : CallResult bool) : M bool :=
  private_method "after_force_swap";;
  let transferred := match swapped with Ok true => true | _ => false end in
  (if transferred then
     emit (Event_ForceTransferCompleted wallet);;
     r ← gets recovery;
     send (ext_call r (Msg_on_wallet_transferred wallet) 0 GAS_FOR_RESET)
   else emit (Event_ForceTransferVoided wallet));;
  mret transferred.

Definition sweep_ft (wallet ft destination : AccountId) (tx_nonce : Z) (block_hash : list Z)
    : M EPromise :=
  assert_registry;;
  assert_not_paused;;
  deposit ← asks attached_deposit;
  ensure (deposit =? MIN_SWEEP_ATTACHED) ContractError_InsufficientDeposit;;
  by_ ← asks predecessor_account_id;
  emit (Event_SweepRequested wallet ft destination by_);;
  mret (PThen (ext_call ft (Msg_ft_balance_of wallet) 0 GAS_FOR_BALANCE_QUERY)
          (Cb_after_balance_for_sweep wallet ft destination tx_nonce block_hash)
          GAS_FOR_BALANCE_CB).

Definition after_balance_for_sweep (wallet ft destination : AccountId) (tx_nonce : Z)
    (block_hash : list Z) (balance : CallResult Z) : M (PromiseOrValue Msg Callback (option Value)) :=
  private_method "after_balance_for_sweep";;
  match balance with
  | Err _ => abort_and_refund (Event_SweepSkipped wallet ft "balance_query_failed")
  | Ok balance =>
      if balance =? 0 then abort_and_refund (Event_SweepSkipped wallet ft "zero_balance")
      else
        mret (POV_Promise
          (PThen (ext_call ft (Msg_storage_deposit (Some destination) (Some true))
                    STORAGE_DEPOSIT_AMOUNT GAS_FOR_STORAGE_DEPOSIT)
             (Cb_after_storage_for_sweep wallet ft destination balance tx_nonce block_hash)
             GAS_FOR_STORAGE_CB))
  end.

Definition after_storage_for_sweep (wallet ft destination : AccountId) (balance tx_nonce : Z)
    (block_hash : list Z) : M (PromiseOrValue Msg Callback (option Value)) :=
  private_method "after_storage_for_sweep";;
  success ← is_promise_success;
  if negb success then
    abort_and_refund (Event_SweepFailed wallet ft "storage_deposit_failed")
  else
    let action := sweep_action destination balance in
    signer ← gets active_signer;
    mret (POV_Promise
      (PThen (ext_call signer (Msg_authority_sign_tx wallet ft [action] tx_nonce block_hash)
                ONE_YOCTO GAS_FOR_AUTHORITY_SIGN)
         (Cb_after_sweep_settled wallet ft destination balance) GAS_FOR_SETTLE_CB)).

Definition after_sweep_settled (wallet ft destination : AccountId) (amount : Z)
    (signed : CallResult Value) : M (option Value) :=
  private_method "after_sweep_settled";;
  let failed :=
    emit (Event_SweepFailed wallet ft "authority_sign_failed");; mret None in
  match signed with
  | Ok signed =>
      if negb (is_null signed) then
        emit (Event_SweepDispatched wallet ft destination amount);;
        mret (Some signed)
      else failed
  | Err _ => failed
  end.

(** ** Views *)
Definition get_version (s : HosExtension) : Z := version s.
Definition is_paused (s : HosExtension) : bool := paused s.
Definition get_registry (s : HosExtension) : AccountId := registry s.
Definition get_active_signer (s : HosExtension) : AccountId := active_signer s.
Definition get_recovery (s : HosExtension) : AccountId := recovery s.
Definition get_admins (s : HosExtension) : list AccountId := elements (admins s).
Definition min_sweep_attached (s : HosExtension) : Z := MIN_SWEEP_ATTACHED.

Inductive Call :=
| Call_pause
| Call_unpause
| Call_add_admin (account : AccountId)
| Call_remove_admin (account : AccountId)
| Call_skim (amount : Z) (to : AccountId)
| Call_force_transfer (wallet : AccountId) (key : PublicKey) (expected : option PublicKey)
| Call_after_force_swap (wallet : AccountId) (r : CallResult bool)
| Call_sweep_ft (wallet ft destination : AccountId) (nonce : Z) (hash : list Z)
| Call_after_balance_for_sweep (wallet ft destination : AccountId) (nonce : Z) (hash : list Z)
    (r : CallResult Z)
| Call_after_storage_for_sweep (wallet ft destination : AccountId) (balance nonce : Z)
    (hash : list Z)
| Call_after_sweep_settled (wallet ft destination : AccountId) (amount : Z) (r : CallResult Value).

Definition exec (c : Call) : M unit :=
  match c with
  | Call_pause => pause
  | Call_unpause => unpause
  | Call_add_admin a => add_admin a
  | Call_remove_admin a => remove_admin a
  | Call_skim x to => skim x to;; mret tt
  | Call_force_transfer w k e => force_transfer w k e;; mret tt
  | Call_after_force_swap w r => after_force_swap w r;; mret tt
  | Call_sweep_ft w f d n h => sweep_ft w f d n h;; mret tt
  | Call_after_balance_for_sweep w f d n h r => after_balance_for_sweep w f d n h r;; mret tt
  | Call_after_storage_for_sweep w f d b n h => after_storage_for_sweep w f d b n h;; mret tt
  | Call_after_sweep_settled w f d a r => after_sweep_settled w f d a r;; mret tt
  end.
End HosExtension.

#[export] Hint Unfold assert_admin assert_registry assert_not_paused refund_registry
  abort_and_refund ext_ed25519_base58 : near_unfold.

Section HosExtensionProofs.
Context `{HS : !Sdk}.
Notation run := (run exec).

(** ** The forced transfer *)

(** The base58 form of an optional expected owner; [None] when it is no
    ed25519 key. *)
Definition expected_raw (e : option PublicKey) : option (option string) :=
  match e with
  | Some key => Some <$> ed25519_base58 key
  | None => Some None
  end.

(** force_transfer succeeds exactly for the registry, unpaused, without a deposit
    and with ed25519 keys, and then does nothing but promise the owner swap with the
    expected current key and its settlement. *)
Theorem force_transfer_gated w k e env s p s' l :
  force_transfer w k e env s = Done (p, s', l) <->
    attached_deposit env = 0 /\ predecessor_account_id env = registry s /\ paused s = false /\
    exists raw eraw, ed25519_base58 k = Some raw /\ expected_raw e = Some eraw /\
      p = PThen (ext_call (active_signer s) (Msg_swap_owner w raw eraw) 0 GAS_FOR_SWAP_OWNER)
            (Cb_after_force_swap w) GAS_FOR_SWAP_CB /\
      s' = s /\ l = [Emit (Event_ForceTransferRequested w k (registry s))].
Proof.
  split.
  - unfold force_transfer. intros H. nrun H; guards;
      (split_and!; [done..|]); do 2 eexists; split_and!; try done; cbn;
      by rewrite ?G4, ?G0.
  - intros (Hd & Hr & Hp & raw & eraw & Hk & He & -> & -> & ->).
    unfold force_transfer. nexec. rewrite Hd. cbn. rewrite Hr, bool_decide_true by done. cbn.
    rewrite Hp. cbn. rewrite Hk. cbn.
    destruct e as [key|]; cbn in He; [|by simplify_eq/=].
    destruct (ed25519_base58 key); by simplify_eq/=.
Qed.

(** The recovery contract is told of a transfer exactly when the swap took
    place, and the value returned to the registry says whether it did. *)
(** after_force_swap always succeeds; it reports true, and tells the recovery
    contract, exactly when the swap took place. *)
Theorem force_swap_settles w swapped env s :
  predecessor_account_id env = current_account_id env ->
  exists b l, after_force_swap w swapped env s = Done (b, s, l) /\
    (b = true <-> swapped = Ok true) /\
    (b = true <-> Send (ext_call (recovery s) (Msg_on_wallet_transferred w) 0 GAS_FOR_RESET) ∈ l).
Proof.
  intros Hp. unfold after_force_swap. nexec. rewrite bool_decide_true by done. cbn.
  destruct swapped as [[]|err]; do 2 eexists; (split; [reflexivity|]); split; split; try done.
  - intros _. right. left.
  - by intros [?|?%elem_of_nil]%elem_of_cons.
  - by intros [?|?%elem_of_nil]%elem_of_cons.
Qed.

(** ** The sweep's deposit *)

(** What the promises a method drops and the promise it returns send away. *)
Definition effects_deposit (l : list (Effect Event (Promise Msg Callback))) : Z :=
  foldr (fun e acc => match e with Send p => promise_deposit p + acc | Emit _ => acc end) 0 l.

Definition outflow {A} (r : PromiseOrValue Msg Callback A)
    (l : list (Effect Event (Promise Msg Callback))) : Z :=
  match r with POV_Promise p => promise_deposit p | POV_Value _ => 0 end + effects_deposit l.

Definition refunds (s : HosExtension) (r : PromiseOrValue Msg Callback (option Value))
    (l : list (Effect Event (Promise Msg Callback))) : Prop :=
  r = POV_Value None /\ Send (transfer_to (registry s) MIN_SWEEP_ATTACHED) ∈ l /\
  outflow r l = MIN_SWEEP_ATTACHED.

(** C39: The deposit of a token sweep is spent to the yocto on every branch: on
    storage and the signature when the sweep goes through, returned whole to the
    registry when the balance query fails or is zero or the storage deposit fails. *)
Theorem sweep_deposit_is_accounted w ft dest n h env s p s' l :
  sweep_ft w ft dest n h env s = Done (p, s', l) ->
  attached_deposit env = MIN_SWEEP_ATTACHED /\ s' = s /\ promise_deposit p = 0 /\
  forall env1 balance, predecessor_account_id env1 = current_account_id env1 ->
  exists r1 l1, after_balance_for_sweep w ft dest n h balance env1 s = Done (r1, s, l1) /\
    match balance with
    | Ok b =>
        if b =? 0 then refunds s r1 l1
        else outflow r1 l1 = STORAGE_DEPOSIT_AMOUNT /\
          forall env2, predecessor_account_id env2 = current_account_id env2 ->
          (promise_results env2 = [PromiseResult_Failed] ->
             exists r2 l2, after_storage_for_sweep w ft dest b n h env2 s = Done (r2, s, l2) /\
               refunds s r2 l2) /\
          (forall data, promise_results env2 = [PromiseResult_Successful data] ->
             exists r2 l2, after_storage_for_sweep w ft dest b n h env2 s = Done (r2, s, l2) /\
               outflow r1 l1 + outflow r2 l2 = MIN_SWEEP_ATTACHED)
    | Err _ => refunds s r1 l1
    end.
Proof.
  unfold sweep_ft. intros H. nrun H. guards. split_and!; [done..|].
  intros env1 balance Hp1. unfold after_balance_for_sweep. nexec.
  rewrite bool_decide_true by done. cbn.
  assert (HR : forall ev, refunds s (POV_Value None)
    [Emit ev; Send (transfer_to (registry s) MIN_SWEEP_ATTACHED)]).
  { intros ev. unfold refunds. split_and!; [done| |done]. right. left. }
  destruct balance as [b|err]; cbn; [|by eauto].
  destruct (b =? 0) eqn:Eb; cbn; [by eauto|].
  do 2 eexists. split; [reflexivity|]. split; [done|].
  intros env2 Hp2. unfold after_storage_for_sweep. nexec.
  rewrite bool_decide_true by done. cbn.
  split; [intros E|intros data E]; rewrite E; cbn; eauto.
Qed.

(** ** Administration *)
(** Skimming is an admin's and leaves the storage reserve untouched. *)
Theorem skim_leaves_storage_reserve amount to env s p s' l :
  skim amount to env s = Done (p, s', l) -> 0 <= amount ->
  predecessor_account_id env ∈ admins s /\ promise_deposit p = amount /\ s' = s /\
  (amount = 0 \/ storage_reserve env <= account_balance env - amount).
Proof.
  unfold skim. intros H Ha. nrun H. guards. split_and!; [done|cbn; lia|done|].
  unfold saturating_sub in *. lia.
Qed.

Definition extension_inv (s : HosExtension) : Prop := admins s <> ∅.

Lemma exec_extension_inv : preserves exec extension_inv.
Proof.
  intros c env s s' l H Ha. unfold extension_inv in *.
  destruct c; cbn [exec] in H;
    unfold pause, unpause, add_admin, remove_admin, skim, force_transfer, after_force_swap, sweep_ft,
      after_balance_for_sweep, after_storage_for_sweep, after_sweep_settled in H;
    nrun H; guards; cbn; try done; try set_solver. by apply set_remove_nonempty.
Qed.

(** The extension never loses its last admin. *)
Theorem extension_keeps_an_admin admin reg signer rec tr :
  admins (run tr (new admin reg signer rec)) <> ∅.
Proof.
  apply (run_invariant exec extension_inv); [apply exec_extension_inv|].
  unfold extension_inv. cbn. set_solver.
Qed.
End HosExtensionProofs.

(** ** Witnesses *)
Definition demo_extension : HosExtension :=
  mkHosExtension {["dao.near"]} "registry.hos" "signer.hos" "rec.hos" false CONTRACT_VERSION.
Definition extension_call (caller : AccountId) (deposit : Z) : Env :=
  demo_env caller "ext.hos" deposit 0.

Lemma force_swap_settles_witness :
  exists b l, after_force_swap "bob.web.near" (Err PromiseError_Failed) (extension_call "ext.hos" 0)
    demo_extension = Done (b, demo_extension, l) /\ (b = true <-> Err PromiseError_Failed = Ok true).
Proof.
  destruct (force_swap_settles "bob.web.near" (Err PromiseError_Failed) (extension_call "ext.hos" 0)
    demo_extension eq_refl) as (b & l & H1 & H2 & _).
  exists b, l. split; [exact H1|exact H2].
Defined.

Lemma sweep_deposit_is_accounted_witness :
  exists r l, after_balance_for_sweep "bob.web.near" "usdt.near" "bob.near" 1 demo_hash (Ok 0)
      (extension_call "ext.hos" 0) demo_extension = Done (r, demo_extension, l) /\
    refunds demo_extension r l.
Proof.
  destruct (is_done_inv (sweep_ft "bob.web.near" "usdt.near" "bob.near" 1 demo_hash
    (extension_call "registry.hos" MIN_SWEEP_ATTACHED) demo_extension)) as [[[p s'] l] E]; [vm_eq|].
  destruct (sweep_deposit_is_accounted _ _ _ _ _ _ _ _ _ _ E) as (_ & _ & _ & H).
  exact (H (extension_call "ext.hos" 0) (Ok 0) eq_refl).
Defined.
