(* ===== verification/TlaManager.v ===== *)
(** * tla-manager: minting the sub-accounts of a TLA

    Models [contracts/tla-manager/src]: the creation of a sub-account (MPC key
    derivation, account creation, signer installation) as a chain of callbacks,
    its failure paths that return the funding to the registry, and the retried
    installation. *)
From S2P Require Export Demo.

(** ** error.rs *)
Definition ONLY_REGISTRY : string := "only registry".
Definition INVALID_NAME : string := "invalid sub-account name".
Definition INSUFFICIENT_DEPOSIT : string := "deposit below minimum balance".
Definition DERIVE_FAILED : string := "mpc key derivation failed".

(** ** events.rs *)
Inductive Event :=
| Event_SubAccountMinted (account : AccountId) (owner : string)
| Event_MintFailed (account : AccountId)
| Event_SignerInstallFailed (account : AccountId).

(** ** lib.rs *)
Definition DERIVE_KEY_GAS : Z := 10 * Tgas.
Definition ON_KEY_DERIVED_GAS : Z := 75 * Tgas.
Definition ON_RETRY_KEY_DERIVED_GAS : Z := 15 * Tgas.
Definition INSTALL_SIGNER_GAS : Z := 10 * Tgas.
Definition CALLBACK_GAS : Z := 20 * Tgas.
Definition ON_CREATED_GAS : Z := 50 * Tgas.

Record TlaManager := mkTlaManager {
  registry : AccountId;
  active_signer : AccountId;
  mpc_signer : AccountId;
  min_balance : Z
}.

Inductive Callback :=
| Cb_on_key_derived (account : AccountId) (owner_public_key : PublicKey) (funding : Z)
| Cb_on_wallet_created (account : AccountId) (owner_public_key mpc_public_key : PublicKey)
    (funding : Z)
| Cb_on_signer_settled (account : AccountId)
| Cb_on_creation_failed
| Cb_on_retry_key_derived (account : AccountId) (owner_public_key : PublicKey).

Section TlaManager.
Context `{HS : !Sdk}.
Notation TPromise := (Promise Msg Callback).
Notation M := (NearM TlaManager Event TPromise Empty_set).

Definition new (registry active_signer mpc_signer : AccountId) (min_balance : Z) : TlaManager :=
  mkTlaManager registry active_signer mpc_signer min_balance.

Definition assert_registry : M unit :=
  caller ← asks predecessor_account_id;
  r ← gets registry;
  require (bool_decide (caller = r)) ONLY_REGISTRY.

Definition derive_key (account : AccountId) : M TPromise :=
  signer ← gets active_signer;
  mpc ← gets mpc_signer;
  mret (ext_call mpc (Msg_derived_public_key (mpc_path account) signer ED25519_DOMAIN) 0
          DERIVE_KEY_GAS).

Definition refund_and_fail (funding : Z) : M (PromiseOrValue Msg Callback MintOutcome) :=
  r ← gets registry;
  mret (POV_Promise (PThen (transfer_to r funding) Cb_on_creation_failed CALLBACK_GAS)).

Definition create_sub_account (name : string) (owner_public_key : PublicKey) : M TPromise :=
  assert_registry;;
  require (negb (bool_decide (name = EmptyString)) && negb (str_contains "." name)) INVALID_NAME;;
  require (is_ed25519 owner_public_key) NOT_ED25519;;
  funding ← asks attached_deposit;
  mb ← gets min_balance;
  require (mb <=? funding) INSUFFICIENT_DEPOSIT;;
  this ← asks current_account_id;
  account ← unwrap_or_panic (account_parse (name +:+ "." +:+ this)) INVALID_NAME;
  p ← derive_key account;
  mret (PThen p (Cb_on_key_derived account owner_public_key funding) ON_KEY_DERIVED_GAS).

(** [Ok(key) if is_ed25519(&key)] *)
Definition usable_key (derived : CallResult PublicKey) : option PublicKey :=
  match derived with
  | Ok key => if is_ed25519 key then Some key else None
  | Err _ => None
  end.

Definition on_key_derived (account : AccountId) (owner_public_key : PublicKey) (funding : Z)
    (derived : CallResult PublicKey) : M (PromiseOrValue Msg Callback MintOutcome) :=
  private_method "on_key_derived";;
  match usable_key derived with
  | None =>
      emit (Event_MintFailed account);;
      refund_and_fail funding
  | Some mpc_public_key =>
      mret (POV_Promise
        (PThen (PBatch account [PA_create_account; PA_transfer funding;
                                PA_add_full_access_key mpc_public_key])
           (Cb_on_wallet_created account owner_public_key mpc_public_key funding) ON_CREATED_GAS))
  end.

Definition install_call (account : AccountId) (owner_public_key mpc_public_key : PublicKey)
    : M TPromise :=
  raw ← ed25519_base58_or_panic owner_public_key;
  signer ← gets active_signer;
  mret (ext_call signer (Msg_install_signer account raw mpc_public_key) 0 INSTALL_SIGNER_GAS).

Definition on_wallet_created (account : AccountId) (owner_public_key mpc_public_key : PublicKey)
    (funding : Z) (result : CallResult unit) : M (PromiseOrValue Msg Callback MintOutcome) :=
  private_method "on_wallet_created";;
  if negb (is_ok result) then
    emit (Event_MintFailed account);;
    refund_and_fail funding
  else
    emit (Event_SubAccountMinted account (pk_to_string owner_public_key));;
    p ← install_call account owner_public_key mpc_public_key;
    mret (POV_Promise (PThen p (Cb_on_signer_settled account) CALLBACK_GAS)).

Definition on_signer_settled (account : AccountId) (result : CallResult unit) : M MintOutcome :=
  private_method "on_signer_settled";;
  if is_ok result then mret MintOutcome_Active
  else
    emit (Event_SignerInstallFailed account);;
    mret MintOutcome_SignerPending.

Definition on_creation_failed : M MintOutcome :=
  private_method "on_creation_failed";;
  mret MintOutcome_CreationFailed.

Definition retry_install (account : AccountId) (owner_public_key : PublicKey) : M TPromise :=
  not_payable "retry_install";;
  assert_registry;;
  require (is_ed25519 owner_public_key) NOT_ED25519;;
  p ← derive_key account;
  mret (PThen p (Cb_on_retry_key_derived account owner_public_key) ON_RETRY_KEY_DERIVED_GAS).

Definition on_retry_key_derived (account : AccountId) (owner_public_key : PublicKey)
    (derived : CallResult PublicKey) : M TPromise :=
  private_method "on_retry_key_derived";;
  match usable_key derived with
  | None => panic_str DERIVE_FAILED
  | Some mpc_public_key => install_call account owner_public_key mpc_public_key
  end.

(** ** Views *)
Definition config (s : TlaManager) : AccountId * AccountId * Z :=
  (active_signer s, mpc_signer s, min_balance s).
End TlaManager.

#[export] Hint Unfold assert_registry derive_key refund_and_fail install_call
  ed25519_base58_or_panic : near_unfold.

Section TlaManagerProofs.
Context `{HS : !Sdk} `{HL : !SdkLaws}.

(** ** The minting chain

    [mint_chain] runs a mint to its end: the handlers are composed by the
    continuations they return, each on the result its promise delivers
    ([derived] by the MPC signer, [created] by the account batch, [installed]
    by active-signer). It returns the outcome the registry receives, and the
    yoctoNEAR that ends with the new account and back with the registry. [None]
    would be a chain that panics or strays. *)
Definition refund_end (env : Env) (s : TlaManager) (p : Promise Msg Callback)
    : option (MintOutcome * Z * Z) :=
  match on_creation_failed env s with
  | Done (o, _, _) => Some (o, 0, promise_deposit p)
  | Fail _ => None
  end.

Definition mint_chain (env env_cb : Env) (s : TlaManager) (name : string) (owner : PublicKey)
    (derived : CallResult PublicKey) (created installed : CallResult unit)
    : option (MintOutcome * Z * Z) :=
  match create_sub_account name owner env s with
  | Done (PThen _ (Cb_on_key_derived a k f) _, _, _) =>
      match on_key_derived a k f derived env_cb s with
      | Done (POV_Promise (PThen p Cb_on_creation_failed _), _, _) => refund_end env_cb s p
      | Done (POV_Promise (PThen p (Cb_on_wallet_created a k mk f) _), _, _) =>
          match on_wallet_created a k mk f created env_cb s with
          | Done (POV_Promise (PThen q Cb_on_creation_failed _), _, _) => refund_end env_cb s q
          | Done (POV_Promise (PThen _ (Cb_on_signer_settled a) _), _, _) =>
              match on_signer_settled a installed env_cb s with
              | Done (o, _, _) => Some (o, promise_deposit p, 0)
              | Fail _ => None
              end
          | _ => None
          end
      | _ => None
      end
  | _ => None
  end.

(** The conditions under which [create_sub_account] starts a mint. *)
Definition mint_request_ok (env : Env) (s : TlaManager) (name : string) (owner : PublicKey)
    (account : AccountId) : Prop :=
  predecessor_account_id env = registry s /\ name <> EmptyString /\ byte_lit "." ∉ as_bytes_str name /\
  is_ed25519 owner = true /\ min_balance s <= attached_deposit env /\
  account_parse (name +:+ "." +:+ current_account_id env) = Some account.

Lemma create_sub_account_run name owner env s account :
  mint_request_ok env s name owner account ->
  create_sub_account name owner env s =
    Done (PThen (ext_call (mpc_signer s)
                   (Msg_derived_public_key (mpc_path account) (active_signer s) 1) 0 DERIVE_KEY_GAS)
            (Cb_on_key_derived account owner (attached_deposit env)) ON_KEY_DERIVED_GAS, s, []).
Proof.
  intros (Hr & Hn & Hd & Hk & Hf & Ha). unfold create_sub_account, str_contains. nexec.
  rewrite Hr, bool_decide_true by done. cbn. rewrite !bool_decide_false by done. cbn.
  rewrite Hk. cbn. apply Z.leb_le in Hf. rewrite Hf. cbn. by rewrite Ha.
Qed.

(** When a mint starts, and the key derivation it starts with. *)
Theorem create_sub_account_spec name owner env s p s' l :
  create_sub_account name owner env s = Done (p, s', l) <->
    exists account, mint_request_ok env s name owner account /\
      account = name +:+ "." +:+ current_account_id env /\
      p = PThen (ext_call (mpc_signer s)
                   (Msg_derived_public_key ("hos-tla/" +:+ account) (active_signer s) 1) 0 DERIVE_KEY_GAS)
            (Cb_on_key_derived account owner (attached_deposit env)) ON_KEY_DERIVED_GAS /\
      s' = s /\ l = [].
Proof.
  split.
  - unfold mint_request_ok, create_sub_account, str_contains.
    intros H. nrun H. guards. eexists. split_and!; try done. by apply account_parse_id.
  - intros (a & Hok & _ & -> & -> & ->). by apply create_sub_account_run.
Qed.

Lemma mint_chain_runs env env_cb s name owner account derived created installed :
  mint_request_ok env s name owner account ->
  predecessor_account_id env_cb = current_account_id env_cb ->
  mint_chain env env_cb s name owner derived created installed =
    Some (if usable_key derived then
            if is_ok created then
              (if is_ok installed then MintOutcome_Active else MintOutcome_SignerPending,
               attached_deposit env, 0)
            else (MintOutcome_CreationFailed, 0, attached_deposit env)
          else (MintOutcome_CreationFailed, 0, attached_deposit env)).
Proof.
  intros Hok Hp. pose proof Hok as (_ & _ & _ & Hk & _ & Ha).
  assert (Hc : create_sub_account name owner env s = Done (PThen (ext_call (mpc_signer s)
      (Msg_derived_public_key (mpc_path account) (active_signer s) 1) 0 DERIVE_KEY_GAS)
      (Cb_on_key_derived account owner (attached_deposit env)) ON_KEY_DERIVED_GAS, s, [])).
  { apply create_sub_account_run. done. }
  unfold mint_chain. rewrite Hc. unfold on_key_derived, on_wallet_created, on_signer_settled,
    refund_end, on_creation_failed. nexec. rewrite !bool_decide_true by done. cbn.
  destruct (ed25519_base58_is_some owner Hk) as [raw Hraw].
  destruct (usable_key derived) as [mk|]; cbn; [|by rewrite Z.add_0_r].
  destruct (is_ok created); cbn; [|by rewrite Z.add_0_r].
  rewrite Hraw. cbn. destruct (is_ok installed); cbn; by rewrite Z.add_0_r.
Qed.
End TlaManagerProofs.
