(* ===== verification/TestFt.v ===== *)
(** * test-ft: the fungible token the contracts are deployed against

    Models [dev-contracts/test-ft/src/lib.rs], the NEP-141 stand-in of the
    sandbox: balances, registrations and the saturating arithmetic of its
    transfers and mints. *)
From S2P Require Export Demo.

Record TestFt := mkTestFt {
  balances : gmap AccountId Z;
  registered : gmap AccountId bool;
  total_supply : Z;
  refuse_storage_deposit : bool
}.

Section TestFt.
Definition TestFt_eta (r : TestFt) : TestFt :=
  mkTestFt (balances r) (registered r) (total_supply r) (refuse_storage_deposit r).
#[global] Instance set_balances : Setter balances := ltac:(mk_setter TestFt_eta).
#[global] Instance set_registered : Setter registered := ltac:(mk_setter TestFt_eta).
#[global] Instance set_total_supply : Setter total_supply := ltac:(mk_setter TestFt_eta).
#[global] Instance set_refuse : Setter refuse_storage_deposit := ltac:(mk_setter TestFt_eta).

(** The contract emits no event, sends no promise and has no typed error. *)
Notation M := (NearM TestFt Empty_set Empty_set Empty_set).

Definition STORAGE_BALANCE : Z := 1250000000000000000000.

Definition new (owner : AccountId) (total_supply : Z) : TestFt :=
  mkTestFt {[owner := total_supply]} {[owner := true]} total_supply false.

Definition ft_balance_of (s : TestFt) (account_id : AccountId) : Z :=
  default 0 (balances s !! account_id).
Definition ft_total_supply (s : TestFt) : Z := total_supply s.
Definition is_registered (s : TestFt) (account_id : AccountId) : bool :=
  bool_decide (is_Some (registered s !! account_id)).
Definition storage_balance_of (s : TestFt) (account_id : AccountId) : option Z :=
  if is_registered s account_id then Some STORAGE_BALANCE else None.

Definition ft_transfer (receiver_id : AccountId) (amount : Z) (memo : option string) : M unit :=
  deposit ← asks attached_deposit;
  require (deposit =? 1) "requires_one_yocto";;
  sender ← asks predecessor_account_id;
  known ← gets (fun s => is_registered s receiver_id);
  require known "receiver_not_registered";;
  sender_balance ← gets (fun s => ft_balance_of s sender);
  require (negb (sender_balance <? amount)) "not_enough_balance";;
  modify (fun s => s <| balances ::= <[sender := saturating_sub sender_balance amount]> |>);;
  receiver_balance ← gets (fun s => ft_balance_of s receiver_id);
  modify (fun s => s <| balances ::=
    <[receiver_id := saturating_add U128_MAX receiver_balance amount]> |>).

Definition storage_deposit (account_id : option AccountId) (registration_only : option bool)
    : M unit :=
  refuse ← gets refuse_storage_deposit;
  require (negb refuse) "storage_deposit_refused";;
  caller ← asks predecessor_account_id;
  let target := default caller account_id in
  modify (fun s => s <| registered ::= <[target := true]> |>).

Definition set_refuse_storage_deposit (value : bool) : M unit :=
  not_payable "set_refuse_storage_deposit";;
  modify (fun s => s <| refuse_storage_deposit := value |>).

Definition mint (account_id : AccountId) (amount : Z) : M unit :=
  not_payable "mint";;
  known ← gets (fun s => is_registered s account_id);
  (if negb known then modify (fun s => s <| registered ::= <[account_id := true]> |>)
   else mret tt);;
  cur ← gets (fun s => ft_balance_of s account_id);
  modify (fun s => s <| balances ::= <[account_id := saturating_add U128_MAX cur amount]> |>);;
  modify (fun s => s <| total_supply ::= fun t => saturating_add U128_MAX t amount |>).

Inductive Call :=
| Call_ft_transfer (receiver_id : AccountId) (amount : Z) (memo : option string)
| Call_storage_deposit (account_id : option AccountId) (registration_only : option bool)
| Call_set_refuse_storage_deposit (value : bool)
| Call_mint (account_id : AccountId) (amount : Z).

Definition exec (c : Call) : M unit :=
  match c with
  | Call_ft_transfer r a m => ft_transfer r a m
  | Call_storage_deposit a o => storage_deposit a o
  | Call_set_refuse_storage_deposit v => set_refuse_storage_deposit v
  | Call_mint a x => mint a x
  end.

(** The amounts of a call are unsigned. *)
Definition call_ok (c : Call) : Prop :=
  match c with Call_ft_transfer _ x _ | Call_mint _ x => 0 <= x | _ => True end.

(** ** Where the supply is *)

(** Balances are unsigned and, until the supply has saturated, add up to it. *)
Definition supply_ok (s : TestFt) : Prop :=
  map_Forall (fun _ x => 0 <= x) (balances s) /\
  (total_supply s < U128_MAX -> map_sum (balances s) = total_supply s).

Lemma balance_nonneg s a : supply_ok s -> 0 <= ft_balance_of s a.
Proof.
  intros [H _]. unfold ft_balance_of. destruct (_ !! a) as [x|] eqn:E; [|done]. by apply (H a x).
Qed.

Lemma balance_le_sum s a : supply_ok s -> ft_balance_of s a <= map_sum (balances s).
Proof.
  intros [H _]. unfold ft_balance_of. destruct (_ !! a) as [x|] eqn:E; cbn.
  - by apply (map_sum_lookup_le (balances s) a).
  - by apply map_sum_nonneg.
Qed.

Notation run := (run exec).

Lemma sum_after s a v :
  map_sum (<[a := v]> (balances s)) = map_sum (balances s) - ft_balance_of s a + v.
Proof. by rewrite map_sum_insert. Qed.

Lemma balance_after s a v b :
  ft_balance_of (s <| balances ::= <[a := v]> |>) b = if bool_decide (b = a) then v else ft_balance_of s b.
Proof.
  unfold ft_balance_of. cbn. case_bool_decide; [subst; by rewrite lookup_insert_eq|by rewrite lookup_insert_ne].
Qed.

(** What is taken from an account leaves room for it in any other. *)
Lemma debit_room s a x r :
  supply_ok s -> 0 <= x <= ft_balance_of s a ->
  let s1 := s <| balances ::= <[a := saturating_sub (ft_balance_of s a) x]> |> in
  map_Forall (fun _ v => 0 <= v) (balances s1) /\ 0 <= ft_balance_of s1 r /\
  map_sum (balances s1) = map_sum (balances s) - x /\
  ft_balance_of s1 r <= map_sum (balances s) - x.
Proof.
  intros Hs Hx s1.
  assert (Hs1 : map_Forall (fun _ v => 0 <= v) (balances s1)).
  { cbn. apply map_Forall_insert_2; [unfold saturating_sub; lia|apply Hs]. }
  assert (Hsum : map_sum (balances s1) = map_sum (balances s) - x)
    by (cbn; rewrite sum_after; unfold saturating_sub; lia).
  assert (Hok : supply_ok (s1 <| total_supply := U128_MAX |>)) by (split; [done|cbn; lia]).
  pose proof (balance_nonneg _ r Hok). pose proof (balance_le_sum _ r Hok). cbn in *.
  by rewrite <- Hsum.
Qed.

Lemma exec_supply c env s s' l :
  call_ok c -> exec c env s = Done (tt, s', l) -> supply_ok s -> supply_ok s'.
Proof.
  intros Hc H Hs. destruct c as [r x memo|a o|v|a x]; cbn [exec] in H.
  - unfold ft_transfer in H. nrun H. guards. cbn in Hc.
    set (s1 := s <| balances ::= <[predecessor_account_id env :=
                      saturating_sub (ft_balance_of s (predecessor_account_id env)) x]> |>) in *.
    destruct (debit_room s (predecessor_account_id env) x r Hs) as (H1 & H2 & H3 & H4); [lia|].
    fold s1 in H1, H2, H3, H4.
    split; cbn; [apply map_Forall_insert_2; [|done]; unfold saturating_add; unfold_max; lia|].
    intros Ht. specialize (proj2 Hs Ht) as Htot.
    etrans; [exact (sum_after s1 r _)|]. rewrite H3, saturating_add_exact by lia. lia.
  - unfold storage_deposit in H. by nrun H.
  - unfold set_refuse_storage_deposit in H. by nrun H.
  - unfold mint in H. cbn in Hc.
    pose proof (balance_nonneg s a Hs) as H1. pose proof (balance_le_sum s a Hs) as H2.
    pose proof (map_sum_nonneg _ (proj1 Hs)) as H3.
    assert (Hfin : supply_ok (s <| balances ::= <[a := saturating_add U128_MAX (ft_balance_of s a) x]> |>
       <| total_supply ::= fun t => saturating_add U128_MAX t x |>)).
    { split; cbn; [apply map_Forall_insert_2; [|apply Hs]; unfold saturating_add; unfold_max; lia|].
      destruct Hs as [_ Hs]. rewrite sum_after. unfold saturating_add. intros Ht.
      assert (Htot : total_supply s + x < U128_MAX) by lia. specialize (Hs ltac:(lia)). lia. }
    nrun H; exact Hfin.
Qed.

(** The total supply of the token is the sum of its balances, and none is negative,
    along every history that stays below the u128 ceiling. *)
Theorem ft_supply_is_conserved owner supply tr :
  0 <= supply -> Forall (fun x => call_ok x.2) tr ->
  let s := run tr (new owner supply) in
  map_Forall (fun _ x => 0 <= x) (balances s) /\
  (total_supply s < U128_MAX -> map_sum (balances s) = total_supply s).
Proof.
  intros Hn Htr. cbv zeta.
  apply (run_invariant_cond exec (fun x => call_ok x.2) supply_ok); [|done|].
  - intros [env c] s Hc Hs. unfold step_state. cbn [fst snd].
    destruct (exec c env s) as [[[[] s'] l]|] eqn:E; [by eapply exec_supply|done].
  - split; cbn; [by apply map_Forall_singleton|].
    intros _. rewrite <- (insert_empty (M := gmap AccountId)), map_sum_insert_fresh by done.
    rewrite map_sum_empty. lia.
Qed.

(** The balances after a transfer: a transfer to oneself changes nothing. *)
Definition moved (s s' : TestFt) (sender receiver : AccountId) (amount : Z) : Prop :=
  (forall a, ft_balance_of s' a =
    ft_balance_of s a - (if bool_decide (a = sender) then amount else 0)
                      + (if bool_decide (a = receiver) then amount else 0)) /\
  registered s' = registered s /\ total_supply s' = total_supply s.

Lemma transfer_runs r x memo env s :
  0 <= x -> supply_ok s -> total_supply s < U128_MAX ->
  attached_deposit env = 1 -> is_registered s r = true ->
  x <= ft_balance_of s (predecessor_account_id env) ->
  exists s', ft_transfer r x memo env s = Done (tt, s', []) /\
    moved s s' (predecessor_account_id env) r x.
Proof.
  intros Hx Hs Hmax Hd Hr Hb. unfold ft_transfer. nexec.
  set (sender := predecessor_account_id env) in *.
  rewrite (proj2 (Z.eqb_eq _ _) Hd). cbn. rewrite Hr. cbn. rewrite (proj2 (Z.ltb_ge _ _) Hb). cbn.
  eexists. split; [reflexivity|].
  destruct (debit_room s sender x r Hs) as (_ & H1 & _ & H2); [lia|].
  pose proof (proj2 Hs Hmax). split; [|done]. intros a.
  set (s1 := s <| balances ::= <[sender := saturating_sub (ft_balance_of s sender) x]> |>) in *.
  assert (E1 : forall b, ft_balance_of s1 b =
    if bool_decide (b = sender) then saturating_sub (ft_balance_of s sender) x else ft_balance_of s b)
    by (intros b; apply balance_after).
  etrans; [apply (balance_after s1)|]. rewrite saturating_add_exact by lia. rewrite !E1.
  unfold saturating_sub in *. repeat case_bool_decide; subst; lia || congruence.
Qed.

(** A transfer succeeds exactly with one yocto attached, to a registered
    receiver, within the sender's balance; it then moves the amount. *)
Theorem ft_transfer_spec r x memo env s :
  0 <= x -> supply_ok s -> total_supply s < U128_MAX ->
  let sender := predecessor_account_id env in
  (attached_deposit env = 1 /\ is_registered s r = true /\ x <= ft_balance_of s sender ->
   exists s', ft_transfer r x memo env s = Done (tt, s', []) /\ moved s s' sender r x) /\
  (~ (attached_deposit env = 1 /\ is_registered s r = true /\ x <= ft_balance_of s sender) ->
   exists msg, ft_transfer r x memo env s = Fail (Panicked msg)).
Proof.
  intros Hx Hs Hmax sender. split; [intros (? & ? & ?); by apply transfer_runs|].
  intros Hn. unfold ft_transfer. nexec. fold sender.
  destruct (Z.eqb_spec (attached_deposit env) 1) as [Hd|Hd]; cbn; [|by eexists].
  destruct (is_registered s r) eqn:Hr; cbn; [|by eexists].
  destruct (Z.ltb_spec (ft_balance_of s sender) x) as [Hb|Hb]; cbn; [by eexists|by destruct Hn].
Qed.
End TestFt.

(** ** Witnesses *)
Definition ft_call (caller : AccountId) (deposit : Z) : Env := demo_env caller "usdt.near" deposit 0.

Definition demo_ft : TestFt :=
  run exec [(ft_call "dao.near" 0, Call_mint "bob.web.near" 500)] (new "dao.near" 1000).

(** A transfer to an account that is not registered reverts; the supply grows
    by what is minted. *)
Lemma ft_supply_is_conserved_witness :
  let s := run exec [(ft_call "dao.near" 0, Call_mint "bob.web.near" 500);
                     (ft_call "bob.web.near" 1, Call_ft_transfer "eve.near" 500 None);
                     (ft_call "dao.near" 1, Call_ft_transfer "bob.web.near" 20 None)]
             (new "dao.near" 1000) in
  map_sum (balances s) = 1500 /\ ft_balance_of s "bob.web.near" = 520.
Proof.
  split; [|vm_eq].
  refine (eq_trans (proj2 (ft_supply_is_conserved "dao.near" 1000 _ _ _) _) _).
  - done.
  - by repeat constructor.
  - apply Z.ltb_lt. vm_eq.
  - vm_eq.
Defined.

Lemma demo_ft_supply : supply_ok demo_ft.
Proof.
  split; [|intros _; vm_eq]. apply map_Forall_lookup_2. intros k v Hk.
  assert (Hb : bool_decide (map_Forall (fun _ x => 0 <= x) (balances demo_ft)) = true) by vm_eq.
  apply bool_decide_eq_true in Hb. by apply (Hb k).
Qed.

Lemma ft_transfer_spec_witness :
  exists s', ft_transfer "dao.near" 500 None (ft_call "bob.web.near" 1) demo_ft = Done (tt, s', []) /\
    moved demo_ft s' "bob.web.near" "dao.near" 500.
Proof.
  refine (proj1 (ft_transfer_spec "dao.near" 500 None (ft_call "bob.web.near" 1) demo_ft _ demo_ft_supply _) _).
  - done.
  - apply Z.ltb_lt. vm_eq.
  - split_and!; [vm_eq|vm_eq|]. apply Z.leb_le. vm_eq.
Defined.
