(* ===== verification/TestMpc.v ===== *)
(** * test-mpc: the signer the contracts are deployed against

    Models [dev-contracts/test-mpc/src/lib.rs], the sandbox stand-in of the MPC
    network: one ed25519 key that answers every derivation and signs whatever
    payload it is sent. ed25519-dalek is not part of the sources: its keys and
    signatures are the class [Ed25519], with the laws the contract relies on. *)
From S2P Require Export Demo.

Class Ed25519 := {
  (** [SigningKey::from_bytes(secret).verifying_key().as_bytes()] *)
  verifying_key : list Z -> list Z;
  (** [SigningKey::from_bytes(secret).sign(payload).to_bytes()] *)
  dalek_sign : list Z -> list Z -> list Z
}.

Class Ed25519Laws `{HS : Sdk} `{HE : Ed25519} := {
  verifying_key_wf secret : length secret = 32%nat ->
    length (verifying_key secret) = 32%nat /\ Forall byte_ok (verifying_key secret);
  dalek_sign_verifies secret message : length secret = 32%nat ->
    ed25519_verify (dalek_sign secret message) message (verifying_key secret) = true
}.

Record TestMpc := mkTestMpc { secret : list Z }.

(** [json!({ "scheme": .., "signature": .. })] *)
Record SignResponse := mkSignResponse { scheme : string; signature : list Z }.

Section TestMpc.
Context `{HS : !Sdk} `{HE : !Ed25519}.
Notation M := (NearM TestMpc Empty_set Empty_set Empty_set).

Definition new (secret : list Z) : TestMpc := mkTestMpc secret.

Definition derived_public_key (s : TestMpc) (path : string) (predecessor : AccountId)
    (domain_id : Z) : PublicKey :=
  mkPublicKey CurveType_ED25519 (verifying_key (secret s)).

(** [from_hex(s)], with its two panics. *)
Definition from_hex_or_panic (s : string) : M (list Z) :=
  require (Z.of_nat (String.length s) mod 2 =? 0) "odd hex length";;
  unwrap_or_panic (from_hex s) "invalid hex".

(** [eddsa] is [request["payload_v2"]["Eddsa"].as_str()]. *)
Definition sign (eddsa : option string) : M SignResponse :=
  payload_hex ← unwrap_or_panic eddsa "missing Eddsa payload";
  payload ← from_hex_or_panic payload_hex;
  secret ← gets secret;
  mret (mkSignResponse "Ed25519" (dalek_sign secret payload)).

(** ** What it signs *)
Lemma sign_runs payload env s :
  Forall byte_ok payload ->
  sign (Some (to_hex payload)) env s =
    Done (mkSignResponse "Ed25519" (dalek_sign (secret s) payload), s, []).
Proof.
  intros Hp. unfold sign, from_hex_or_panic. nexec.
  rewrite to_hex_length, Nat2Z.inj_mul, Z.mul_comm, Z.mod_mul by done. cbn.
  by rewrite (from_hex_to_hex _ Hp).
Qed.

(** Every request is answered by a signature on the bytes its payload spells,
    under the key the contract derives, or reverts: the request has no payload,
    the payload has odd length or is not hexadecimal. *)
Theorem sign_spec `{!Ed25519Laws} eddsa env s :
  length (secret s) = 32%nat ->
  match eddsa with
  | None => sign eddsa env s = Fail (Panicked "missing Eddsa payload")
  | Some hex =>
      if negb (Z.of_nat (String.length hex) mod 2 =? 0)
      then sign eddsa env s = Fail (Panicked "odd hex length")
      else match from_hex hex with
           | None => sign eddsa env s = Fail (Panicked "invalid hex")
           | Some payload => exists r, sign eddsa env s = Done (r, s, []) /\ scheme r = "Ed25519" /\
               forall path who domain, ed25519_verify (signature r) payload
                 (key_data (derived_public_key s path who domain)) = true
           end
  end.
Proof.
  intros Hs. destruct eddsa as [hex|]; [|done].
  unfold sign, from_hex_or_panic. nexec.
  destruct (_ mod 2 =? 0); cbn; [|done].
  destruct (from_hex hex) as [payload|]; [|done]. cbn.
  eexists. split; [done|]. split; [done|]. intros _ _ _. by apply dalek_sign_verifies.
Qed.
End TestMpc.

(** ** A concrete signer *)
#[export] Instance demo_ed25519 : Ed25519 := {
  verifying_key secret := map (fun b => b mod 256) secret;
  dalek_sign secret message :=
    let key := map (fun b => b mod 256) secret in key ++ demo_sha256 (key ++ message)
}.

#[export] Instance demo_ed25519_laws : Ed25519Laws.
Proof.
  split.
  - intros secret Hs. cbn. split; [by rewrite length_map|].
    clear Hs. induction secret as [|b secret IH]; constructor; [by apply Z.mod_pos_bound|done].
  - intros secret message _. cbn. by rewrite bool_decide_true.
Qed.

Definition demo_mpc : TestMpc := mkTestMpc (replicate 32 7).

Lemma sign_spec_witness :
  exists r, sign (Some "00ff10") (demo_env "signer.hos" "mpc.near" 1 0) demo_mpc = Done (r, demo_mpc, []) /\
    ed25519_verify (signature r) [0; 255; 16] (replicate 32 7) = true.
Proof.
  destruct (sign_spec (Some "00ff10"%string) (demo_env "signer.hos" "mpc.near" 1 0) demo_mpc eq_refl)
    as (r & H & _ & Hv).
  exists r. split; [exact H|exact (Hv "p"%string "x.near"%string 1)].
Defined.
