(* ===== verification/RecoveryWorld.v ===== *)
(** * mpc-recovery and active-signer with their promises in flight

    A wallet recovery freezes the wallet, hands it over or releases it by calls
    to active-signer that arrive later and report back later still, while
    anybody calls either contract. This file runs the two contracts together
    with the calls between them, and shows what that leaves of a recovery: an
    approved one holds its wallet, a hand-over in flight is never voided, none
    gets stuck, and no wallet stays frozen by recovery without one. *)
From S2P Require Import ActiveSigner.
From S2P Require Import MpcRecovery.

(** What a call to active-signer, or to the MPC signer, reports. *)
Inductive Answer :=
| Answer_unit (r : CallResult unit)
| Answer_bool (r : CallResult bool)
| Answer_value (r : CallResult Value).

(** A call mpc-recovery sent and the callback that waits for it; [fl_answer] is
    [None] until the call has been executed. *)
Record Flight := mkFlight {
  fl_callback : MpcRecovery.Callback;
  fl_receiver : AccountId;
  fl_msg : Msg;
  fl_deposit : Z;
  fl_answer : option Answer
}.

Section RecoveryWorld.
Context `{HS : !Sdk} `{HW : !DefuseWallet}.
(** The accounts of mpc-recovery and of active-signer. *)
Context (rec_id sig_id : AccountId).

(** ** The two contracts at work *)
Definition call_promise (c : MpcRecovery.Call)
    : NearM MpcRecovery MpcRecovery.Event (Promise Msg MpcRecovery.Callback) Empty_set
        (option (Promise Msg MpcRecovery.Callback)) :=
  match c with
  | Call_submit_verdict a silent sigs => returning promise_of (submit_verdict a silent sigs)
  | Call_finalize_recovery a nonce bh => returning Some (finalize_recovery a nonce bh)
  | Call_abort_recovery a => returning promise_of (abort_recovery a)
  | _ => returning (fun _ => None) (MpcRecovery.exec c)
  end.

Definition flight_of (p : option (Promise Msg MpcRecovery.Callback)) : list Flight :=
  match p with
  | Some (PThen (PBatch receiver [PA_function_call msg deposit _]) cb _) =>
      [mkFlight cb receiver msg deposit None]
  | _ => []
  end.

(** The callback with the answer it gets; [None] where the answer is not of the
    type the callback declares. *)
Definition resume (cb : MpcRecovery.Callback) (a : Answer) : option MpcRecovery.Call :=
  match cb, a with
  | Cb_on_frozen w r, Answer_unit x => Some (Call_on_frozen w r x)
  | Cb_on_finalized w r, Answer_bool x => Some (Call_on_finalized w r x)
  | Cb_on_aborted w r, Answer_unit x => Some (Call_on_aborted w r x)
  | MpcRecovery.Cb_on_signed w r h, Answer_value x => Some (MpcRecovery.Call_on_signed w r h x)
  | _, _ => None
  end.

Definition answered (f : Flight) (a : Answer) : Flight :=
  mkFlight (fl_callback f) (fl_receiver f) (fl_msg f) (fl_deposit f) (Some a).

Record World := mkWorld { rec : MpcRecovery; sgn : ActiveSigner; flights : list Flight }.

(** Somebody calls mpc-recovery or active-signer; the [i]th call in flight is
    executed, by active-signer or by another contract that answers [a]; the
    callback of the [i]th call runs. *)
Inductive Happening :=
| Hp_recovery (env : Env) (c : MpcRecovery.Call)
| Hp_signer (env : Env) (c : ActiveSigner.Call)
| Hp_arrive (i : nat) (env : Env) (a : Answer)
| Hp_resume (i : nat) (env : Env).

Definition env_at (caller contract : AccountId) (deposit : Z) (env : Env) : Env :=
  mkEnv caller contract deposit (block_timestamp env) (account_balance env) (storage_byte_cost env)
    (storage_usage env) [].

(** A call of mpc-recovery executed by active-signer. *)
Definition signer_answer (f : Flight) (env : Env) (g : ActiveSigner) : Answer * ActiveSigner :=
  let env := env_at rec_id sig_id (fl_deposit f) env in
  match fl_msg f with
  | Msg_swap_owner w k ex =>
      let r := ActiveSigner.swap_owner w k ex env g in (Answer_bool (delivered r), state_after g r)
  | Msg_freeze w ex =>
      let r := ActiveSigner.freeze w ex env g in (Answer_unit (delivered r), state_after g r)
  | Msg_unfreeze w =>
      let r := ActiveSigner.unfreeze w env g in (Answer_unit (delivered r), state_after g r)
  | _ => (Answer_value (Err PromiseError_Failed), g)
  end.

Definition wstep (w : World) (h : Happening) : World :=
  match h with
  | Hp_recovery env c =>
      if bool_decide (predecessor_account_id env = rec_id) then w
      else match call_promise c (env_at (predecessor_account_id env) rec_id (attached_deposit env) env)
                   (rec w) with
           | Done (p, m', _) => mkWorld m' (sgn w) (flight_of p ++ flights w)
           | Fail _ => w
           end
  | Hp_signer env c =>
      if bool_decide (predecessor_account_id env = rec_id) then w
      else mkWorld (rec w)
             (step_state ActiveSigner.exec (sgn w)
                (env_at (predecessor_account_id env) sig_id (attached_deposit env) env, c))
             (flights w)
  | Hp_arrive i env a =>
      match flights w !! i with
      | Some f =>
          if bool_decide (fl_answer f = None) then
            let '(a, g') := if bool_decide (fl_receiver f = sig_id) then signer_answer f env (sgn w)
                            else (a, sgn w) in
            match resume (fl_callback f) a with
            | Some _ => mkWorld (rec w) g' (answered f a :: delete i (flights w))
            | None => w
            end
          else w
      | None => w
      end
  | Hp_resume i env =>
      match flights w !! i with
      | Some f =>
          match fl_answer f ≫= resume (fl_callback f) with
          | Some c =>
              match MpcRecovery.exec c (env_at rec_id rec_id 0 env) (rec w) with
              | Done (_, m', _) => mkWorld m' (sgn w) (delete i (flights w))
              | Fail _ => mkWorld (rec w) (sgn w) (delete i (flights w))
              end
          | None => w
          end
      | None => w
      end
  end.

Definition wrun (tr : list Happening) (w : World) : World := foldl wstep w tr.

(** ** Who holds a wallet *)
Definition account_of (f : Flight) : AccountId :=
  match fl_callback f with
  | Cb_on_frozen a _ | Cb_on_finalized a _ | Cb_on_aborted a _ | MpcRecovery.Cb_on_signed a _ _ => a
  end.

(** What a recovery's phase says of the wallet: nothing, that it is approved, or
    that a call about it is in flight. *)
Inductive Hold :=
| Hold_none
| Hold_approved (active_signer : AccountId) (bound : PublicKey)
| Hold_busy (p : Phase) (t : Target).

Definition hold_of (acc : Account) : Hold :=
  match phase acc, target (policy acc) with
  | Phase_Approved _ _, Target_Wallet active_signer bound => Hold_approved active_signer bound
  | Phase_Approving k r, t => Hold_busy (Phase_Approving k r) t
  | Phase_Resolving k r, t => Hold_busy (Phase_Resolving k r) t
  | _, _ => Hold_none
  end.
Definition hold_at (v : option Account) : Hold := from_option hold_of Hold_none v.
Definition hold (m : MpcRecovery) (a : AccountId) : Hold := hold_at (accounts m !! a).

(** A flight is that of the phase its account is in, and asks what that phase
    asks. *)
Definition asks_of (f : Flight) (m : MpcRecovery) : Prop :=
  match fl_callback f with
  | Cb_on_frozen a r => exists k bound raw,
      hold m a = Hold_busy (Phase_Approving k r) (Target_Wallet (fl_receiver f) bound) /\
      ed25519_base58 bound = Some raw /\ fl_msg f = Msg_freeze a (Some raw) /\ fl_deposit f = 0
  | Cb_on_finalized a r => exists k new bound raw,
      hold m a = Hold_busy (Phase_Resolving k r) (Target_Wallet (fl_receiver f) bound) /\
      ed25519_base58 bound = Some raw /\ fl_msg f = Msg_swap_owner a new (Some raw) /\ fl_deposit f = 0
  | Cb_on_aborted a r => exists k bound,
      hold m a = Hold_busy (Phase_Resolving k r) (Target_Wallet (fl_receiver f) bound) /\
      fl_msg f = Msg_unfreeze a /\ fl_deposit f = 0
  | MpcRecovery.Cb_on_signed a r _ => exists k mpc_key path hash domain,
      hold m a = Hold_busy (Phase_Resolving k r) (Target_Native mpc_key) /\
      fl_msg f = Msg_sign path hash domain
  end.
Definition flight_ok (m : MpcRecovery) (f : Flight) : Prop :=
  asks_of f m /\ (forall a, fl_answer f = Some a -> is_Some (resume (fl_callback f) a)).

(** Every account in a busy phase has one flight, and every flight is of one. *)
Definition flights_ok (m : MpcRecovery) (fs : list Flight) : Prop :=
  Forall (flight_ok m) fs /\ NoDup (account_of <$> fs) /\
  forall a p t, hold m a = Hold_busy p t -> a ∈ account_of <$> fs.

(** The flight still holds the wallet: the freeze was made, the hand-over or the
    release has not been made, or was refused. *)
Definition keeps_lock (f : Flight) : bool :=
  match fl_callback f, fl_answer f with
  | Cb_on_frozen _ _, Some (Answer_unit (Ok _)) => true
  | Cb_on_finalized _ _, (None | Some (Answer_bool (Err _))) => true
  | Cb_on_aborted _ _, (None | Some (Answer_unit (Err _))) => true
  | _, _ => false
  end.

(** A recovery bound to the key [b] holds the wallet [a]. *)
Definition held_by (m : MpcRecovery) (fs : list Flight) (a : AccountId) (b : PublicKey) : Prop :=
  hold m a = Hold_approved sig_id b \/
  exists p f, hold m a = Hold_busy p (Target_Wallet sig_id b) /\ f ∈ fs /\ account_of f = a /\
    keeps_lock f = true.

(** The wallet is frozen under the key [b]. *)
Definition locked (g : ActiveSigner) (a : AccountId) (b : PublicKey) : Prop :=
  exists e raw, signers g !! a = Some e /\ frozen e <> FreezeState_Unfrozen /\
    ed25519_base58 b = Some raw /\ ed_from_str raw = Some (public_key e).

Definition voided (f : Flight) : Prop := fl_answer f = Some (Answer_bool (Ok false)).

(** active-signer takes its recovery orders from mpc-recovery alone. *)
Definition wired (g : ActiveSigner) : Prop :=
  recovery_authority g = rec_id /\ marketplace_authority g <> rec_id.

Record coupled (w : World) : Prop := {
  c_flights : flights_ok (rec w) (flights w);
  c_locked a b : held_by (rec w) (flights w) a b -> locked (sgn w) a b;
  c_frozen a e : signers (sgn w) !! a = Some e -> frozen e = FreezeState_RecoveryFrozen ->
    exists b, held_by (rec w) (flights w) a b;
  c_voided : Forall (fun f => fl_receiver f = sig_id -> ~ voided f) (flights w);
  c_wiring : wired (sgn w)
}.

(** *** Flights in any order *)
Lemma flights_ok_perm m fs fs' : fs ≡ₚ fs' -> flights_ok m fs -> flights_ok m fs'.
Proof.
  intros Hp (H1 & H2 & H3). split_and!; [by rewrite <- Hp|by rewrite <- Hp|].
  intros a p t H. rewrite <- Hp. by eapply H3.
Qed.

Lemma held_perm m fs fs' a b : fs ≡ₚ fs' -> held_by m fs a b <-> held_by m fs' a b.
Proof. intros Hp. unfold held_by. by setoid_rewrite Hp. Qed.

(** The flight of an account is the one that counts. *)
Lemma held_cons m f fs a b :
  a ∉ account_of <$> fs -> account_of f = a ->
  held_by m (f :: fs) a b <->
    hold m a = Hold_approved sig_id b \/
    (exists p, hold m a = Hold_busy p (Target_Wallet sig_id b)) /\ keeps_lock f = true.
Proof.
  intros Hn Ha. unfold held_by. split; (intros [?|H]; [by left|right]).
  - destruct H as (p & f' & Hh & [->|Hf]%elem_of_cons & Ha' & Hk); [by eauto|].
    destruct Hn. rewrite <- Ha'. by apply list_elem_of_fmap_2.
  - destruct H as [[p Hh] Hk]. exists p, f. split_and!; [done|left|done|done].
Qed.

Lemma held_elsewhere m m' f fs a b :
  account_of f <> a -> hold m' a = hold m a ->
  held_by m' (f :: fs) a b <-> held_by m fs a b.
Proof.
  intros Ha Hh. unfold held_by. rewrite Hh. split; (intros [?|(p & f' & ? & Hf & ? & ?)]; [by left|right]).
  - apply elem_of_cons in Hf as [->|Hf]; [done|]. by exists p, f'.
  - exists p, f'. split_and!; [done|by right|done|done].
Qed.

Lemma held_not_busy m fs a b :
  (forall p t, hold m a <> Hold_busy p t) -> held_by m fs a b <-> hold m a = Hold_approved sig_id b.
Proof.
  intros Hn. split; [|by left]. intros [?|(p & f & Hh & _)]; [done|]. by destruct (Hn _ _ Hh).
Qed.

(** ** A call of mpc-recovery *)
Definition not_busy (h : Hold) : Prop := forall p t, h <> Hold_busy p t.

(** The call starts a flight of an account that had none. *)
Definition starts (m m' : MpcRecovery) (f : Flight) : Prop :=
  (forall b, b <> account_of f -> hold m' b = hold m b) /\ not_busy (hold m (account_of f)) /\
  flight_ok m' f /\ fl_answer f = None /\
  match hold m (account_of f) with
  | Hold_approved active_signer b =>
      keeps_lock f = true /\ exists p, hold m' (account_of f) = Hold_busy p (Target_Wallet active_signer b)
  | _ => keeps_lock f = false
  end.

Lemma hold_put m a acc b :
  hold (m <| accounts ::= <[a := acc]> |>) b = if decide (a = b) then hold_of acc else hold m b.
Proof. unfold hold. cbn. rewrite lookup_insert. by case_decide. Qed.

Lemma hold_lookup m a acc : accounts m !! a = Some acc -> hold m a = hold_of acc.
Proof. unfold hold. by intros ->. Qed.

(** A call that returns no promise and is no callback moves no hold. *)
Lemma quiet_step c env m a v v' :
  recovery_step m env a c v v' -> predecessor_account_id env <> current_account_id env ->
  match c with
  | Call_submit_verdict _ _ _ | Call_finalize_recovery _ _ _ | Call_abort_recovery _ => False
  | _ => True
  end -> hold_at v' = hold_at v.
Proof.
  intros H Hp Hc. destruct H; try done; cbn.
  - destruct v as [acc|]; [|done]. cbn. unfold hold_of. by rewrite (H3 acc eq_refl).
  - unfold hold_of. cbn. destruct pol as [[] ? ?]; done.
  - destruct acc as [[] ? []]; done.
Qed.

Ltac entry :=
  repeat match goal with
  | x : Account |- _ => let t := fresh "t" in let n := fresh "n" in let p := fresh "p" in
      destruct x as [[t ? ?] n p]; cbn in *; subst
  | H : match ?p with _ => _ end = Some _ |- _ => destruct p eqn:?; simplify_eq/=
  | H : abort_action ?p ?t = Some _ |- _ => destruct p, t; simplify_eq/=
  end; simplify_eq/=.

Ltac hold_tac :=
  match goal with H : accounts ?m !! ?a = Some ?acc |- _ =>
    pose proof (hold_lookup m a acc H) end;
  first
  [ left; split; [done|]; intros b; rewrite hold_put; case_decide; subst;
      [match goal with H : hold _ _ = _ |- _ => by rewrite H end|done]
  | right; eexists; split; [reflexivity|]; unfold starts, not_busy, flight_ok, asks_of; cbn;
    match goal with H : hold _ _ = _ |- _ => rewrite ?H end;
    rewrite !hold_put; rewrite ?decide_True by done;
    split_and!; [intros b Hb; rewrite hold_put; by rewrite decide_False by done|done| |done|done|];
    unfold hold_of; cbn; eauto 10 ].

Lemma recovery_user_step c env m p m' l :
  call_promise c env m = Done (p, m', l) -> predecessor_account_id env <> current_account_id env ->
  (flight_of p = [] /\ forall a, hold m' a = hold m a) \/
  exists f, flight_of p = [f] /\ starts m m' f.
Proof.
  intros H Hp.
  assert (Hquiet : (match c with
    | Call_submit_verdict _ _ _ | Call_finalize_recovery _ _ _ | Call_abort_recovery _ => False
    | _ => True
    end) -> MpcRecovery.exec c env m = Done (tt, m', l) -> forall a, hold m' a = hold m a).
  { intros Hc E a. exact (quiet_step c env m a _ _ (exec_recovery_step _ _ _ _ _ a E) Hp Hc). }
  destruct c; cbn [call_promise] in H; apply returning_inv in H as (x & H & ->).
  all: try (destruct x; left; split; [done|]; apply Hquiet; [done|exact H]).
  all: clear Hquiet.
  - unfold submit_verdict in H. nrun H; guards; entry; hold_tac.
  - unfold finalize_recovery in H. nrun H; guards; entry; hold_tac.
  - unfold abort_recovery in H. nrun H; guards; entry; hold_tac.
Qed.

(** ** A callback of mpc-recovery *)
Lemma busy_entry m a p t :
  hold m a = Hold_busy p t ->
  exists pol n, accounts m !! a = Some (mkAccount pol n p) /\ target pol = t.
Proof.
  unfold hold. destruct (accounts m !! a) as [[pol n q]|]; [|done]. cbn. unfold hold_of. cbn.
  destruct q; try done; [| |]; destruct (target pol) eqn:E; intros [= <- <-]; eauto.
Qed.

(** The hold a flight leaves when its callback has run. *)
Definition hold_left (f : Flight) (t : Target) : Hold :=
  match t with
  | Target_Wallet active_signer b => if keeps_lock f then Hold_approved active_signer b else Hold_none
  | Target_Native _ => Hold_none
  end.

Lemma resume_step f a c env m p t :
  asks_of f m -> fl_answer f = Some a -> resume (fl_callback f) a = Some c ->
  predecessor_account_id env = current_account_id env -> hold m (account_of f) = Hold_busy p t ->
  exists m' l, MpcRecovery.exec c env m = Done (tt, m', l) /\
    (forall b, b <> account_of f -> hold m' b = hold m b) /\ hold m' (account_of f) = hold_left f t.
Proof.
  destruct f as [cb receiver msg deposit ans]. cbn. intros Hf -> Hc Hp Hh.
  unfold asks_of, account_of in *. cbn in *.
  destruct cb, a as [r|r|r]; try done; injection Hc as <-;
    destruct Hf as (k & Hf); destruct_and?; repeat (destruct Hf as [? Hf]);
    match goal with H : hold _ _ = Hold_busy (_ k _) _ |- _ => rewrite Hh in H; simplify_eq end;
    apply busy_entry in Hh as (pol & n & Ha & Ht); destruct pol; cbn in Ht; subst; cbn [exec];
    unfold on_frozen, on_finalized, on_aborted, on_signed; nexec;
    rewrite bool_decide_true by done; cbn; rewrite Ha; cbn; rewrite Z.eqb_refl; cbn;
    try destruct r as [[]|]; cbn; do 2 eexists; split; try reflexivity;
    (split; [intros b Hb; rewrite hold_put; by rewrite decide_False by done
            |rewrite hold_put; by rewrite decide_True by done]).
Qed.

(** ** The flights *)
Lemma flight_ok_hold m m' f :
  hold m' (account_of f) = hold m (account_of f) -> flight_ok m f -> flight_ok m' f.
Proof.
  destruct f as [[] ? ? ? ?]; unfold flight_ok, asks_of, account_of; cbn; intros ->; done.
Qed.

Lemma asks_busy m f : asks_of f m -> exists p t, hold m (account_of f) = Hold_busy p t.
Proof.
  destruct f as [[] ? ? ? ?]; unfold asks_of, account_of; cbn;
    intros (? & H); repeat (destruct H as [? H]); eauto.
Qed.

(** Only a call to active-signer about the wallet keeps a lock. *)
Lemma kept_target m f p t :
  asks_of f m -> hold m (account_of f) = Hold_busy p t -> keeps_lock f = true ->
  exists b, t = Target_Wallet (fl_receiver f) b.
Proof.
  destruct f as [[] ? ? ? ?]; unfold asks_of, account_of; cbn; intros H Hh; rewrite Hh in H;
    [| | |done]; destruct H as (? & H); repeat (destruct H as [? H]); simplify_eq; eauto.
Qed.

Lemma flights_ok_cons m f fs :
  flights_ok m (f :: fs) ->
  flight_ok m f /\ Forall (flight_ok m) fs /\ account_of f ∉ account_of <$> fs /\
  NoDup (account_of <$> fs).
Proof.
  intros (H1 & H2 & _). apply list.Forall_cons in H1 as [? ?].
  rewrite fmap_cons, list.NoDup_cons in H2. by destruct H2.
Qed.

Lemma elsewhere_ok m m' fs a :
  Forall (flight_ok m) fs -> a ∉ account_of <$> fs -> (forall b, b <> a -> hold m' b = hold m b) ->
  Forall (flight_ok m') fs.
Proof.
  intros Hfs Ha Hm. apply list.Forall_forall. intros f Hf. rewrite list.Forall_forall in Hfs.
  apply (flight_ok_hold m); [|by apply Hfs]. apply Hm. intros <-. destruct Ha.
  by apply list_elem_of_fmap_2.
Qed.

Lemma flights_ok_start m m' f fs :
  flights_ok m fs -> starts m m' f -> flights_ok m' (f :: fs) /\ account_of f ∉ account_of <$> fs.
Proof.
  intros (H1 & H2 & H3) (Hm & Hn & Hf & _).
  assert (Ha : account_of f ∉ account_of <$> fs).
  { intros (g & Eg & Hg)%list_elem_of_fmap. rewrite list.Forall_forall in H1.
    destruct (H1 g Hg) as [(p & t & Hb)%asks_busy _]. apply (Hn p t). by rewrite Eg. }
  split; [|done]. split_and!.
  - apply list.Forall_cons. split; [done|]. by eapply elsewhere_ok.
  - rewrite fmap_cons. by apply list.NoDup_cons.
  - intros a p t Hb. rewrite fmap_cons. destruct (decide (a = account_of f)) as [->|Hne]; [left|right].
    rewrite Hm in Hb by done. by eapply H3.
Qed.

Lemma flights_ok_end m m' f fs :
  flights_ok m (f :: fs) -> (forall b, b <> account_of f -> hold m' b = hold m b) ->
  not_busy (hold m' (account_of f)) -> flights_ok m' fs.
Proof.
  intros Hfs Hm Hn. pose proof Hfs as (_ & _ & Hb). apply flights_ok_cons in Hfs as (_ & H1 & Ha & H2).
  split_and!; [by eapply elsewhere_ok|done|]. intros a p t Ht.
  destruct (decide (a = account_of f)) as [->|Hne]; [by destruct (Hn _ _ Ht)|].
  rewrite Hm in Ht by done. apply Hb in Ht. rewrite fmap_cons in Ht.
  by apply elem_of_cons in Ht as [->|?].
Qed.

Lemma flights_ok_answer m f fs a :
  flights_ok m (f :: fs) -> is_Some (resume (fl_callback f) a) ->
  flights_ok m (answered f a :: fs).
Proof.
  intros (H1 & H2 & H3) Ha. split_and!; [|done|done].
  apply list.Forall_cons in H1 as [[Hf _] H1]. apply list.Forall_cons. split; [|done].
  split; [done|]. by intros ? [= <-].
Qed.

(** ** The hold a recovery has of a wallet *)
Lemma held_start m m' f fs a b :
  starts m m' f -> account_of f ∉ account_of <$> fs ->
  held_by m' (f :: fs) a b <-> held_by m fs a b.
Proof.
  intros (Hm & Hn & [[p0 [t0 Hb]]%asks_busy _] & _ & Hk) Hfs.
  destruct (decide (account_of f = a)) as [Ea|Hne]; [|by apply held_elsewhere; [done|apply Hm]].
  rewrite (held_cons m' f fs a b) by (done || by rewrite <- Ea).
  rewrite (held_not_busy m fs a b) by (rewrite <- Ea; apply Hn). rewrite Ea in *.
  destruct (hold m a) as [|s b'|p t] eqn:E.
  - rewrite Hk, Hb. split; [intros [?|[_ ?]]|]; done.
  - destruct Hk as [Hk [p Hp]]. rewrite Hk. split.
    + intros [H|[[p' H] _]]; [by rewrite Hp in H|]. rewrite Hp in H. by simplify_eq.
    + intros [= -> ->]. right. split; [by exists p|done].
  - by destruct (Hn p t).
Qed.

Lemma held_end m m' f fs p t a b :
  flights_ok m (f :: fs) -> hold m (account_of f) = Hold_busy p t ->
  (forall b, b <> account_of f -> hold m' b = hold m b) -> hold m' (account_of f) = hold_left f t ->
  held_by m' fs a b <-> held_by m (f :: fs) a b.
Proof.
  intros Hfs Hb Hm Hl. apply flights_ok_cons in Hfs as (_ & _ & Ha & _).
  destruct (decide (account_of f = a)) as [Ea|Hne].
  - rewrite (held_cons m f fs a b), held_not_busy by (done || (rewrite <- Ea, ?Hl; destruct t; cbn; by destruct (keeps_lock f))).
    rewrite Ea in *. rewrite Hb, Hl. unfold hold_left.
    destruct t as [k|s b']; [split; [done|by intros [?|[[? ?] _]]]|].
    destruct (keeps_lock f); split; [intros [= -> ->]; eauto| |done|by intros [?|[_ ?]]].
    intros [?|[[? ?] _]]; by simplify_eq.
  - symmetry. apply held_elsewhere; [done|]. symmetry. by apply Hm.
Qed.

(** ** A call executed by active-signer *)
Lemma wiring_wired g g' : wiring g' = wiring g -> wired g -> wired g'.
Proof. unfold wired, wiring. by intros [= -> -> _ _]. Qed.

Lemma freeze_effect w raw env g r g' :
  (let run := ActiveSigner.freeze w (Some raw) env g in r = delivered run /\ g' = state_after g run) ->
  wiring g' = wiring g /\ (forall b, b <> w -> signers g' !! b = signers g !! b) /\
  match r with
  | Ok _ => exists e, signers g' !! w = Some e /\ frozen e <> FreezeState_Unfrozen /\
              ed_from_str raw = Some (public_key e)
  | Err _ => g' = g
  end.
Proof.
  intros [-> ->]. destruct (ActiveSigner.freeze w (Some raw) env g) as [[[[] g1] l]|x] eqn:E; cbn; [|done].
  unfold ActiveSigner.freeze in E. nrun E; guards; subst.
  - split_and!; [done|intros b Hb; by rewrite lookup_insert_ne|].
    eexists. by rewrite lookup_insert_eq.
  - split_and!; [done|done|]. eexists. split_and!; [done|congruence|done].
Qed.

Lemma unfreeze_effect w env g r g' :
  (let run := ActiveSigner.unfreeze w env g in r = delivered run /\ g' = state_after g run) ->
  wiring g' = wiring g /\ (forall b, b <> w -> signers g' !! b = signers g !! b) /\
  match r with
  | Ok _ => forall e, signers g' !! w = Some e -> frozen e <> FreezeState_RecoveryFrozen
  | Err _ => g' = g
  end.
Proof.
  intros [-> ->]. destruct (ActiveSigner.unfreeze w env g) as [[[[] g1] l]|x] eqn:E; cbn; [|done].
  unfold ActiveSigner.unfreeze in E. nrun E; guards; subst.
  - split_and!; [done|done|]. intros e' He. simplify_eq. congruence.
  - split_and!; [done|intros b Hb; by rewrite lookup_insert_ne|].
    intros e'. rewrite lookup_insert_eq. by intros [= <-].
Qed.

(** A hand-over of a wallet that is locked under the expected key is refused or
    done, and never voided. *)
Lemma swap_effect w new raw env g r g' :
  (let run := ActiveSigner.swap_owner w new (Some raw) env g in
   r = delivered run /\ g' = state_after g run) ->
  (exists e, signers g !! w = Some e /\ ed_from_str raw = Some (public_key e)) ->
  wiring g' = wiring g /\ (forall b, b <> w -> signers g' !! b = signers g !! b) /\
  match r with
  | Ok moved => moved = true /\
      forall e, signers g' !! w = Some e -> frozen e <> FreezeState_RecoveryFrozen
  | Err _ => g' = g
  end.
Proof.
  intros [-> ->] (e & He & Hk).
  destruct (ActiveSigner.swap_owner w new (Some raw) env g) as [[[b g1] l]|x] eqn:E; cbn; [|done].
  unfold ActiveSigner.swap_owner in E. nrun E; guards; subst; simplify_eq; try done;
    (split_and!; [done|intros b Hb; by rewrite lookup_insert_ne|done|]);
    intros e'; rewrite lookup_insert_eq; by intros [= <-].
Qed.

(** What an answer of active-signer does to the hold of a flight. *)
Lemma arrive_effect m f env g a g' p t :
  asks_of f m -> fl_answer f = None -> fl_receiver f = sig_id ->
  hold m (account_of f) = Hold_busy p t ->
  (forall b, t = Target_Wallet sig_id b -> keeps_lock f = true -> locked g (account_of f) b) ->
  signer_answer f env g = (a, g') ->
  is_Some (resume (fl_callback f) a) /\ wiring g' = wiring g /\ ~ voided (answered f a) /\
  (forall b, b <> account_of f -> signers g' !! b = signers g !! b) /\
  if keeps_lock (answered f a) then forall b, t = Target_Wallet sig_id b -> locked g' (account_of f) b
  else forall e, signers g' !! account_of f = Some e -> frozen e = FreezeState_RecoveryFrozen ->
         g' = g /\ keeps_lock f = false.
Proof.
  destruct f as [cb receiver msg deposit ans]. unfold asks_of, account_of, signer_answer, voided.
  cbn. intros Hf -> -> Hh Hl Ha. destruct cb as [w r|w r|w r|w r h]; cbn in *.
  - destruct Hf as (k & bound & raw & Hb & Hraw & -> & ->). rewrite Hh in Hb. simplify_eq.
    edestruct (freeze_effect w raw (env_at rec_id sig_id 0 env) g) as (Hw & Ho & He); [split; [reflexivity|done]|].
    destruct (ActiveSigner.freeze _ _ _ _) as [[[x g1] l]|]; cbn in *;
      (split_and!; [by eexists|done|done|done|]).
    + intros b' [= ->]. destruct He as (e & ? & ? & ?). exists e, raw. by split_and!.
    + done.
  - destruct Hf as (k & new & bound & raw & Hb & Hraw & -> & ->). rewrite Hh in Hb. simplify_eq.
    destruct (Hl bound eq_refl eq_refl) as (e & raw' & Hs & Hz & Hraw' & Hk). simplify_eq.
    edestruct (swap_effect w new raw (env_at rec_id sig_id 0 env) g) as (Hw & Ho & He); [split; [reflexivity|done]|by eexists|].
    destruct (ActiveSigner.swap_owner _ _ _ _ _) as [[[x g1] l]|]; cbn in *.
    + destruct He as [-> He]. split_and!; [by eexists|done|done|done|]. intros e' ? ?. by destruct (He e').
    + split_and!; [by eexists|done|done|done|]. intros b' [= ->]. by exists e, raw.
  - destruct Hf as (k & bound & Hb & -> & ->). rewrite Hh in Hb. simplify_eq.
    edestruct (unfreeze_effect w (env_at rec_id sig_id 0 env) g) as (Hw & Ho & He); [split; [reflexivity|done]|].
    destruct (ActiveSigner.unfreeze _ _ _) as [[[x g1] l]|]; cbn in *.
    + split_and!; [by eexists|done|done|done|]. intros e' ? ?. by destruct (He e').
    + split_and!; [by eexists|done|done|done|]. intros b' [= ->]. by apply Hl.
  - destruct Hf as (k & mk & path & hash & domain & Hb & ->). simplify_eq.
    split_and!; [by eexists|done|done|done|]. done.
Qed.

(** Nobody else freezes a wallet for recovery, and a locked wallet stays so. *)
Lemma user_signer_step g env c a :
  wired g -> predecessor_account_id env <> rec_id ->
  let g' := step_state ActiveSigner.exec g (env, c) in
  wired g' /\ (forall b, locked g a b -> locked g' a b) /\
  (forall e, signers g' !! a = Some e -> frozen e = FreezeState_RecoveryFrozen ->
     exists e0, signers g !! a = Some e0 /\ frozen e0 = FreezeState_RecoveryFrozen).
Proof.
  intros Hw Hp g'. pose proof (step_state_wallet_step g env c a) as Hs. fold g' in Hs.
  split; [apply (wiring_wired g); [apply step_state_wiring|done]|]. destruct Hw as [Hr Hm].
  unfold wallet_view in Hs. unfold locked. destruct (signers g' !! a) as [e'|] eqn:E';
    destruct (signers g !! a) as [e|] eqn:E; cbn in Hs; inversion Hs; simplify_eq;
    (split; [intros b (? & raw & ? & ? & ? & ?); simplify_eq|intros ? ? ?; simplify_eq]);
    first [congruence|by eexists|idtac].
  all: try (exists e', raw; split_and!; congruence).
  all: try (eexists; split; [done|congruence]).
Qed.

(** ** The invariant *)
Lemma coupled_perm m g fs fs' : fs ≡ₚ fs' -> coupled (mkWorld m g fs) -> coupled (mkWorld m g fs').
Proof.
  intros Hp [H1 H2 H3 H4 H5]. split; cbn in *.
  - by eapply flights_ok_perm.
  - intros a b H. apply H2. by rewrite (held_perm m fs fs').
  - intros a e He Hf. destruct (H3 a e He Hf) as [b Hb]. exists b. by rewrite <- (held_perm m fs fs').
  - by rewrite <- Hp.
  - done.
Qed.

(** A step that leaves active-signer and the holds as they are. *)
Lemma coupled_same m m' g fs fs' :
  coupled (mkWorld m g fs) -> flights_ok m' fs' ->
  (forall a b, held_by m' fs' a b <-> held_by m fs a b) ->
  Forall (fun f => fl_receiver f = sig_id -> ~ voided f) fs' -> coupled (mkWorld m' g fs').
Proof.
  intros [H1 H2 H3 H4 H5] Hfs Hh Hv. split; cbn in *; [done| | |done|done].
  - intros a b H. apply H2. by apply Hh.
  - intros a e He Hf. destruct (H3 a e He Hf) as [b Hb]. exists b. by apply Hh.
Qed.

Lemma recovery_call_coupled m m' g fs p :
  coupled (mkWorld m g fs) ->
  (flight_of p = [] /\ forall a, hold m' a = hold m a) \/
  (exists f, flight_of p = [f] /\ starts m m' f) ->
  coupled (mkWorld m' g (flight_of p ++ fs)).
Proof.
  intros Hw [[-> Hh]|(f & -> & Hs)]; pose proof Hw as [H1 _ _ H4 _]; cbn in *.
  - eapply coupled_same; [exact Hw| | |done].
    + destruct H1 as (Hf & ? & Hb). split_and!; [|done|].
      * revert Hf. apply Forall_impl. intros f. by apply flight_ok_hold.
      * intros a p' t Ht. rewrite Hh in Ht. by eapply Hb.
    + intros a b. unfold held_by. by rewrite Hh.
  - destruct (flights_ok_start _ _ _ _ H1 Hs) as [Hfs Ha].
    eapply coupled_same; [exact Hw|done|by intros; apply held_start|].
    apply list.Forall_cons. split; [|done]. unfold voided.
    destruct Hs as (_ & _ & _ & -> & _). done.
Qed.

Lemma resume_coupled m g f fs a c env m' l :
  coupled (mkWorld m g (f :: fs)) -> fl_answer f = Some a -> resume (fl_callback f) a = Some c ->
  MpcRecovery.exec c (env_at rec_id rec_id 0 env) m = Done (tt, m', l) ->
  coupled (mkWorld m' g fs).
Proof.
  intros Hw Ha Hc E. pose proof Hw as [H1 _ _ H4 _]. cbn in *.
  pose proof (flights_ok_cons _ _ _ H1) as ([Hf _] & _).
  destruct (asks_busy _ _ Hf) as (p & t & Hb).
  destruct (resume_step f a c (env_at rec_id rec_id 0 env) m p t Hf Ha Hc eq_refl Hb)
    as (m2 & l2 & E2 & Hm & Hl). rewrite E in E2. simplify_eq.
  eapply coupled_same; [exact Hw| |intros; by eapply held_end|by apply list.Forall_cons in H4 as [_ ?]].
  eapply flights_ok_end; [done|done|]. rewrite Hl. intros p' t'. destruct t; cbn; by destruct (keeps_lock f).
Qed.

Lemma arrive_coupled m g f fs env a g' :
  coupled (mkWorld m g (f :: fs)) -> fl_answer f = None -> is_Some (resume (fl_callback f) a) ->
  (if bool_decide (fl_receiver f = sig_id) then signer_answer f env g = (a, g') else g' = g) ->
  coupled (mkWorld m g' (answered f a :: fs)).
Proof.
  intros Hw Ha Hr E. pose proof Hw as [H1 H2 H3 H4 H5]. cbn in *.
  pose proof (flights_ok_cons _ _ _ H1) as ([Hf _] & _ & Hn & _).
  destruct (asks_busy _ _ Hf) as (p & t & Hb).
  pose proof (flights_ok_answer _ _ _ _ H1 Hr) as Hfs. apply list.Forall_cons in H4 as [_ H4].
  assert (Hheld : forall b c, account_of f <> b ->
    held_by m (answered f a :: fs) b c <-> held_by m (f :: fs) b c).
  { intros b c Hne. by rewrite !held_elsewhere. }
  assert (Hown : forall f' c, account_of f' = account_of f ->
    held_by m (f' :: fs) (account_of f) c <-> t = Target_Wallet sig_id c /\ keeps_lock f' = true).
  { intros f' c Hf'. rewrite held_cons by done. rewrite Hb. split.
    - intros [?|[[? ?] ?]]; simplify_eq; done.
    - intros [-> ?]. eauto. }
  case_bool_decide as Hrec.
  - destruct (arrive_effect m f env g a g' p t Hf Ha Hrec Hb) as (_ & Hw' & Hv & Ho & Hk); [|done|].
    { intros b -> Hkb. apply H2. by apply Hown. }
    split; cbn; [done| | |by apply list.Forall_cons|by eapply wiring_wired].
    + intros b c Hc. destruct (decide (account_of f = b)) as [<-|Hne].
      * apply Hown in Hc as [-> Hc]; [|done]. rewrite Hc in Hk. by apply Hk.
      * apply Hheld in Hc; [|done]. destruct (H2 b c Hc) as (e & raw & ?). exists e, raw.
        by rewrite Ho by done.
    + intros b e He Hz. destruct (decide (account_of f = b)) as [<-|Hne].
      * destruct (keeps_lock (answered f a)) eqn:Eka.
        -- destruct (kept_target m (answered f a) p t Hf Hb Eka) as [c ->]. cbn in *. rewrite Hrec in *.
           exists c. by apply Hown.
        -- destruct (Hk e He Hz) as [-> Hkf]. destruct (H3 _ e He Hz) as [c Hc].
           apply Hown in Hc as [_ Hc]; [|done]. congruence.
      * rewrite Ho in He by done. destruct (H3 b e He Hz) as [c Hc]. exists c. by apply Hheld.
  - subst g'. eapply coupled_same; [exact Hw|done| |].
    + intros b c. destruct (decide (account_of f = b)) as [<-|Hne]; [|by apply Hheld].
      rewrite !Hown by done. split; intros [-> Hk]; destruct Hrec;
        [destruct (kept_target m (answered f a) _ _ Hf Hb Hk) as [? [= ? ?]]
        |destruct (kept_target m f _ _ Hf Hb Hk) as [? [= ? ?]]]; done.
    + apply list.Forall_cons. by split.
Qed.

Lemma lookup_perm (fs : list Flight) i f : fs !! i = Some f -> fs ≡ₚ f :: delete i fs.
Proof. apply delete_Permutation. Qed.

Lemma coupled_pick w i f :
  coupled w -> flights w !! i = Some f -> coupled (mkWorld (rec w) (sgn w) (f :: delete i (flights w))).
Proof. intros Hw Hf. destruct w. eapply coupled_perm; [by apply lookup_perm|done]. Qed.

Lemma coupled_step w h : coupled w -> coupled (wstep w h).
Proof.
  intros Hw. destruct h as [env c|env c|i env a|i env]; cbn.
  - case_bool_decide as Hp; [done|].
    destruct (call_promise c _ (rec w)) as [[[p m'] l]|] eqn:E; [|done].
    destruct w. eapply recovery_call_coupled; [done|]. by eapply recovery_user_step.
  - case_bool_decide as Hp; [done|]. destruct Hw as [H1 H2 H3 H4 H5].
    pose proof (fun a => user_signer_step (sgn w)
      (env_at (predecessor_account_id env) sig_id (attached_deposit env) env) c a H5 Hp) as Hs.
    split; cbn; [done| | |done|exact (proj1 (Hs EmptyString))].
    + intros a b Hb. destruct (Hs a) as (_ & Hl & _). by apply Hl, H2.
    + intros a e He Hz. destruct (Hs a) as (_ & _ & Hf). destruct (Hf e He Hz) as (e0 & He0 & Hz0).
      by apply (H3 a e0).
  - destruct (flights w !! i) as [f|] eqn:Ef; [|done]. case_bool_decide as Ha; [|done].
    destruct (if bool_decide _ then _ else _) as [a' g'] eqn:E.
    destruct (resume (fl_callback f) a') as [c|] eqn:Ec; [|done].
    eapply arrive_coupled; [by eapply coupled_pick|done|by eexists|].
    case_bool_decide; [exact E|by injection E as _ <-].
  - destruct (flights w !! i) as [f|] eqn:Ef; [|done].
    destruct (fl_answer f) as [a|] eqn:Ea; cbn; [|done].
    destruct (resume (fl_callback f) a) as [c|] eqn:Ec; [|done].
    pose proof (coupled_pick w i f Hw Ef) as Hw'. pose proof Hw' as [H1 _ _ _ _]. cbn in H1.
    pose proof (flights_ok_cons _ _ _ H1) as ([Hf _] & _). destruct (asks_busy _ _ Hf) as (p & t & Hb).
    destruct (resume_step f a c (env_at rec_id rec_id 0 env) (rec w) p t Hf Ea Ec eq_refl Hb)
      as (m' & l & E & _). rewrite E. by eapply resume_coupled.
Qed.

(** No recovery is past its request and no wallet is frozen for one. *)
Definition at_rest (w : World) : Prop :=
  flights w = [] /\
  map_Forall (fun _ acc => resettable (phase acc) = true) (accounts (rec w)) /\
  map_Forall (fun _ e => frozen e <> FreezeState_RecoveryFrozen) (signers (sgn w)) /\ wired (sgn w).

Lemma rest_coupled w : at_rest w -> coupled w.
Proof.
  intros (Hf & Hr & Hz & Hw).
  assert (Hn : forall a, hold (rec w) a = Hold_none).
  { intros a. unfold hold. destruct (accounts (rec w) !! a) as [acc|] eqn:E; [|done].
    specialize (Hr _ _ E). by destruct acc as [pol n []]. }
  split; rewrite ?Hf; [| | | |done].
  - split_and!; [constructor|apply NoDup_nil_2|]. intros a p t. by rewrite Hn.
  - intros a b. rewrite held_not_busy by (intros p t; by rewrite Hn). by rewrite Hn.
  - intros a e He Hfz. by destruct (Hz _ _ He).
  - constructor.
Qed.

Lemma wrun_coupled tr w : coupled w -> coupled (wrun tr w).
Proof.
  unfold wrun. revert w. induction tr as [|h tr IH]; intros w Hw; [done|].
  by apply IH, coupled_step.
Qed.

(** ** What a recovery can rely on *)

(** C10: After every interleaving of calls to mpc-recovery and active-signer with
    the calls and callbacks in flight between them, a wallet whose recovery is
    approved is frozen under the key its policy is bound to, and no hand-over of a
    recovery is ever voided. *)
Theorem approved_recovery_holds_its_wallet w tr a acc bound k r :
  at_rest w -> let w' := wrun tr w in
  accounts (rec w') !! a = Some acc -> target (policy acc) = Target_Wallet sig_id bound ->
  phase acc = Phase_Approved k r ->
  locked (sgn w') a bound /\
  Forall (fun f => fl_receiver f = sig_id -> ~ voided f) (flights w').
Proof.
  intros Hw w' Ha Ht Hp. destruct (wrun_coupled tr w (rest_coupled w Hw)) as [_ H2 _ H4 _].
  fold w' in H2, H4. split; [|done]. apply H2. left. rewrite (hold_lookup _ _ _ Ha). unfold hold_of. by rewrite Hp, Ht.
Qed.

(** C11: After every such interleaving each account in an in-flight phase has its
    one call in flight, whose callback takes it out of that phase whatever was
    answered, and a wallet frozen by recovery always has an approved or in-flight
    recovery: once nothing is in flight none is frozen without an approved one. *)
Theorem no_recovery_is_stuck w tr :
  at_rest w -> let w' := wrun tr w in
  (forall a acc k r, accounts (rec w') !! a = Some acc ->
     phase acc = Phase_Approving k r \/ phase acc = Phase_Resolving k r ->
     exists f, f ∈ flights w' /\ account_of f = a) /\
  NoDup (account_of <$> flights w') /\
  (forall f i env, flights w' !! i = Some f -> is_Some (fl_answer f) ->
     not_busy (hold (rec (wstep w' (Hp_resume i env))) (account_of f))) /\
  (forall a e, signers (sgn w') !! a = Some e -> frozen e = FreezeState_RecoveryFrozen ->
     exists acc k r, accounts (rec w') !! a = Some acc /\
       (phase acc = Phase_Approved k r \/
        (phase acc = Phase_Approving k r \/ phase acc = Phase_Resolving k r) /\ flights w' <> [])).
Proof.
  intros Hw w'. destruct (wrun_coupled tr w (rest_coupled w Hw)) as [H1 _ H3 _ _]. fold w' in H1, H3.
  pose proof H1 as (Hfs & Hn & Hb).
  assert (Hpend : forall a acc k r, accounts (rec w') !! a = Some acc ->
    phase acc = Phase_Approving k r \/ phase acc = Phase_Resolving k r -> a ∈ account_of <$> flights w').
  { intros a acc k r Ha Hp. apply (Hb a (phase acc) (target (policy acc))).
    rewrite (hold_lookup _ _ _ Ha). unfold hold_of. by destruct Hp as [-> | ->]. }
  split_and!; [|done| |].
  - intros a acc k r Ha Hp. destruct (proj1 (list_elem_of_fmap _ _ _) (Hpend _ _ _ _ Ha Hp)) as (f & -> & ?).
    by exists f.
  - intros f i env Hf [ans Hans]. pose proof (Forall_lookup_1 _ _ _ _ Hfs Hf) as [Hask Hfit].
    destruct (Hfit ans Hans) as [c Hc]. destruct (asks_busy _ _ Hask) as (p & t & Hh).
    destruct (resume_step f ans c (env_at rec_id rec_id 0 env) (rec w') p t Hask Hans Hc eq_refl Hh)
      as (m' & l & E & _ & Hl). cbn. rewrite Hf, Hans. cbn. rewrite Hc, E. cbn. rewrite Hl.
    intros p' t'. destruct t; cbn; by destruct (keeps_lock f).
  - intros a e He Hz. destruct (H3 a e He Hz) as [b [Hh|(p & f & Hh & Hf & _)]];
      unfold hold in Hh; destruct (accounts (rec w') !! a) as [[pol n ph]|] eqn:Ea; try done;
      cbn in Hh; unfold hold_of in Hh; cbn in Hh; destruct ph, (target pol); simplify_eq;
      do 3 eexists; (split; [done|]); cbn; try (by left);
      right; (split; [eauto|]); by intros E; rewrite E in Hf; apply not_elem_of_nil in Hf.
Qed.

(** *** An approved recovery can be ended *)
Lemma abort_run a acc k r s b env m :
  accounts m !! a = Some acc -> phase acc = Phase_Approved k r -> target (policy acc) = Target_Wallet s b ->
  predecessor_account_id env = owner m -> attached_deposit env = 0 ->
  abort_recovery a env m =
    Done (POV_Promise (PThen (ext_call s (Msg_unfreeze a) 0 FREEZE_GAS) (Cb_on_aborted a r) CALLBACK_GAS),
          m <| accounts ::= <[a := acc <| phase := Phase_Resolving k r |>]> |>, []).
Proof.
  intros Ha Hp Ht Ho Hd. unfold abort_recovery. nexec. rewrite Hd. cbn.
  rewrite Ho, bool_decide_true by done. cbn. rewrite Ha. cbn. rewrite Hp, Ht. done.
Qed.

Lemma finalize_run a acc k r s b kraw braw n bh env m :
  accounts m !! a = Some acc -> phase acc = Phase_Approved k r -> target (policy acc) = Target_Wallet s b ->
  ed25519_base58 k = Some kraw -> ed25519_base58 b = Some braw -> attached_deposit env = 0 ->
  finalize_recovery a n bh env m =
    Done (PThen (ext_call s (Msg_swap_owner a kraw (Some braw)) 0 SWAP_GAS) (Cb_on_finalized a r) CALLBACK_GAS,
          m <| accounts ::= <[a := acc <| phase := Phase_Resolving k r |>]> |>, []).
Proof.
  intros Ha Hp Ht Hk Hb Hd. unfold finalize_recovery. nexec. rewrite Hd. cbn.
  rewrite Ha. cbn. rewrite Hp. cbn. rewrite Ht. cbn. by rewrite Hk, Hb.
Qed.

(** A call of mpc-recovery with its call to active-signer and its callback. *)
Definition chain_of (env : Env) (c : MpcRecovery.Call) (env_g : Env) (x : Answer) (env_cb : Env)
    : list Happening :=
  [Hp_recovery env c; Hp_arrive 0 env_g x; Hp_resume 0 env_cb].

Lemma chain_runs w env c env_g x env_cb p m1 l1 f ans g' c' m2 l2 :
  predecessor_account_id env <> rec_id ->
  call_promise c (env_at (predecessor_account_id env) rec_id (attached_deposit env) env) (rec w)
    = Done (p, m1, l1) ->
  flight_of p = [f] -> fl_receiver f = sig_id -> fl_answer f = None ->
  signer_answer f env_g (sgn w) = (ans, g') -> resume (fl_callback f) ans = Some c' ->
  MpcRecovery.exec c' (env_at rec_id rec_id 0 env_cb) m1 = Done (tt, m2, l2) ->
  wrun (chain_of env c env_g x env_cb) w = mkWorld m2 g' (flights w).
Proof.
  intros Hp E1 Hf Hr Hn Ha Hc E2. unfold wrun, chain_of. cbn [foldl wstep].
  rewrite bool_decide_false, E1, Hf by done. cbn.
  rewrite Hn, Hr, !bool_decide_true by done. rewrite Ha. cbn. rewrite Hc. cbn. by rewrite Hc, E2.
Qed.

Lemma put_put (m : MpcRecovery) a acc acc' :
  accounts (m <| accounts ::= <[a := acc]> |> <| accounts ::= <[a := acc']> |>) = <[a := acc']> (accounts m).
Proof. cbn. by rewrite insert_insert_eq. Qed.

Lemma finalized_runs a k r pol n env m :
  predecessor_account_id env = current_account_id env ->
  accounts m !! a = Some (mkAccount pol n (Phase_Resolving k r)) ->
  exists l, MpcRecovery.exec (Call_on_finalized a r (Ok true)) env m =
    Done (tt, m <| accounts ::= <[a := mkAccount (rebind pol k) n Phase_Idle]> |>, l).
Proof.
  intros Hp Ha. cbn [exec]. unfold on_finalized. nexec. rewrite bool_decide_true by done. cbn.
  rewrite Ha. cbn. rewrite Z.eqb_refl. cbn. eexists. unfold rebind. by destruct (target pol).
Qed.

Lemma aborted_runs a k r pol n env m :
  predecessor_account_id env = current_account_id env ->
  accounts m !! a = Some (mkAccount pol n (Phase_Resolving k r)) ->
  exists l, MpcRecovery.exec (Call_on_aborted a r (Ok tt)) env m =
    Done (tt, m <| accounts ::= <[a := mkAccount pol n Phase_Idle]> |>, l).
Proof.
  intros Hp Ha. cbn [exec]. unfold on_aborted. nexec. rewrite bool_decide_true by done. cbn.
  rewrite Ha. cbn. rewrite Z.eqb_refl. cbn. by eexists.
Qed.

(** C25: After every such interleaving an approved wallet recovery can be ended in
    three receipts: anybody's finalisation gives the wallet the new key, unfrozen,
    and rebinds the policy; the owner's abort leaves its key and unfreezes it,
    unless its holder froze it himself. Nothing else changes. *)
Theorem approved_recovery_can_be_ended w tr a acc bound k r kraw k' env x :
  at_rest w -> let w' := wrun tr w in
  accounts (rec w') !! a = Some acc -> target (policy acc) = Target_Wallet sig_id bound ->
  phase acc = Phase_Approved k r ->
  ed25519_base58 k = Some kraw -> ed_from_str kraw = Some k' ->
  predecessor_account_id env <> rec_id -> attached_deposit env = 0 ->
  exists e, signers (sgn w') !! a = Some e /\
    (forall n bh env_g env_cb,
       let w2 := wrun (chain_of env (Call_finalize_recovery a n bh) env_g x env_cb) w' in
       accounts (rec w2) = <[a := mkAccount (rebind (policy acc) k) (MpcRecovery.round acc) Phase_Idle]>
                             (accounts (rec w')) /\
       signers (sgn w2) = <[a := mkSignerEntry k' (mpc_public_key e) (nonces_new (timeout_secs (sgn w')))
                                   (nonces_new (timeout_secs (sgn w'))) (last_signed_at e)
                                   FreezeState_Unfrozen]> (signers (sgn w')) /\
       flights w2 = flights w') /\
    (predecessor_account_id env = owner (rec w') -> forall env_g env_cb,
       let w2 := wrun (chain_of env (Call_abort_recovery a) env_g x env_cb) w' in
       accounts (rec w2) = <[a := mkAccount (policy acc) (MpcRecovery.round acc) Phase_Idle]>
                             (accounts (rec w')) /\
       signers (sgn w2) = (if bool_decide (frozen e = FreezeState_SelfFrozen) then signers (sgn w')
                           else <[a := e <| frozen := FreezeState_Unfrozen |>]> (signers (sgn w'))) /\
       flights w2 = flights w').
Proof.
  intros Hw w' Ha Ht Hp Hk Hk' Hpr Hd.
  destruct (wrun_coupled tr w (rest_coupled w Hw)) as [_ H2 _ _ [Hra Hma]]. fold w' in H2, Hra, Hma.
  destruct (H2 a bound) as (e & raw & He & Hz & Hraw & Hcur).
  { left. rewrite (hold_lookup _ _ _ Ha). unfold hold_of. by rewrite Hp, Ht. }
  exists e. split; [done|]. destruct acc as [[t ak tl] n0 p0]. cbn in Ht, Hp. subst t p0.
  set (m1 := rec w' <| accounts ::= <[a := mkAccount (mkPolicy (Target_Wallet sig_id bound) ak tl) n0
                                            (Phase_Resolving k r)]> |>).
  assert (Hm1 : accounts m1 !! a = Some (mkAccount (mkPolicy (Target_Wallet sig_id bound) ak tl) n0
                                           (Phase_Resolving k r))) by apply lookup_insert_eq.
  split; [intros n bh env_g env_cb|intros Ho env_g env_cb]; cbv zeta.
  - pose proof (recovery_swap_runs a kraw raw (env_at rec_id sig_id 0 env_g) (sgn w') k' _ eq_refl
      (eq_sym Hra) ltac:(congruence) Hk' Hcur) as Hs.
    rewrite He, !bool_decide_false, bool_decide_true in Hs by done.
    destruct Hs as (g' & lg & Hs & Hg).
    destruct (finalized_runs a k r _ n0 (env_at rec_id rec_id 0 env_cb) m1 eq_refl Hm1) as [lc Hc].
    pose proof (finalize_run a _ k r sig_id bound kraw raw n bh
      (env_at (predecessor_account_id env) rec_id (attached_deposit env) env) (rec w')
      Ha eq_refl eq_refl Hk Hraw Hd) as Hf.
    rewrite (chain_runs w' env (Call_finalize_recovery a n bh) env_g x env_cb _ _ _ _ _ _ _ _ _ Hpr
      (returning_done Some _ _ _ _ _ _ Hf) eq_refl eq_refl eq_refl
      (f_equal (fun r => (Answer_bool (delivered r), state_after (sgn w') r)) Hs) eq_refl Hc).
    split_and!; [by apply put_put|done|done].
  - destruct (unfreeze_runs a (env_at rec_id sig_id 0 env_g) (sgn w') e eq_refl (eq_sym Hra) He) as [lg Hs].
    destruct (aborted_runs a k r _ n0 (env_at rec_id rec_id 0 env_cb) m1 eq_refl Hm1) as [lc Hc].
    pose proof (abort_run a _ k r sig_id bound
      (env_at (predecessor_account_id env) rec_id (attached_deposit env) env) (rec w')
      Ha eq_refl eq_refl Ho Hd) as Hf.
    rewrite (chain_runs w' env (Call_abort_recovery a) env_g x env_cb _ _ _ _ _ _ _ _ _ Hpr
      (returning_done promise_of _ _ _ _ _ _ Hf) eq_refl eq_refl eq_refl
      (f_equal (fun r => (Answer_unit (delivered r), state_after (sgn w') r)) Hs) eq_refl Hc).
    split_and!; [by apply put_put| |done]. cbn. by case_bool_decide.
Qed.
End RecoveryWorld.

(** ** Witnesses *)
Definition demo_raw (b : Z) : string := str_of_bytes (replicate 32 b).
Definition demo_wallet_entry (b : Z) (f : FreezeState) : SignerEntry :=
  mkSignerEntry (demo_raw b) (demo_key 70) [] [] 0 f.

(** A wallet with the key of [demo_policy], and no recovery. *)
Definition demo_recovery_world : World :=
  mkWorld demo_recovery
    (mkActiveSigner {["dao.near"]} ∅ "ext.hos" "rec.hos" "v1.signer" 3600
       {["bob.alice.near" := demo_wallet_entry 7 FreezeState_Unfrozen]}) [].

Definition recovery_call (x : Env * MpcRecovery.Call) : Happening := Hp_recovery x.1 x.2.
Definition any_answer : Answer := Answer_unit (Err PromiseError_Failed).

(** A policy, a request and a verdict; the marketplace tries to sell the wallet
    after the freeze has arrived, and before its callback. *)
Definition demo_approval : list Happening :=
  [recovery_call demo_install; recovery_call demo_request; recovery_call demo_verdict;
   Hp_arrive 0 (demo_at "rec.hos" 3901) any_answer;
   Hp_signer (demo_at "ext.hos" 3902)
     (Call_swap_owner "bob.alice.near" (demo_raw 9) (Some (demo_raw 7)));
   Hp_resume 0 (demo_at "rec.hos" 3903)].

Notation demo_run tr := (wrun "rec.hos" "signer.hos" tr demo_recovery_world).
Definition demo_approved_entry : Account := mkAccount demo_policy 1 (Phase_Approved (demo_key 8) 0).

Lemma demo_at_rest : at_rest "rec.hos" demo_recovery_world.
Proof.
  split; [done|]. split; [apply map_Forall_empty|].
  split; [|split; [done|discriminate]]. by apply map_Forall_singleton.
Qed.

Lemma approved_recovery_holds_its_wallet_witness :
  locked (sgn (demo_run demo_approval)) "bob.alice.near" (demo_key 7).
Proof.
  refine (proj1 (approved_recovery_holds_its_wallet "rec.hos" "signer.hos" demo_recovery_world demo_approval
    "bob.alice.near" demo_approved_entry (demo_key 7) (demo_key 8) 0 demo_at_rest _ eq_refl eq_refl)).
  vm_eq.
Defined.

Lemma no_recovery_is_stuck_witness :
  exists f, f ∈ flights (demo_run (take 5 demo_approval)) /\ account_of f = "bob.alice.near"%string.
Proof.
  apply (proj1 (no_recovery_is_stuck "rec.hos" "signer.hos" demo_recovery_world (take 5 demo_approval) demo_at_rest)
    "bob.alice.near"%string (mkAccount demo_policy 1 (Phase_Approving (demo_key 8) 0)) (demo_key 8) 0);
    [vm_eq|by left].
Defined.

Lemma approved_recovery_can_be_ended_witness :
  let w2 := wrun "rec.hos" "signer.hos"
    (chain_of (demo_at "anyone.near" 4000) (Call_finalize_recovery "bob.alice.near" 1 demo_hash)
       (demo_at "rec.hos" 4001) any_answer (demo_at "rec.hos" 4002)) (demo_run demo_approval) in
  flights w2 = flights (demo_run demo_approval) /\
  ActiveSigner.public_key <$> signers (sgn w2) !! "bob.alice.near"%string = Some (demo_raw 8).
Proof.
  destruct (approved_recovery_can_be_ended "rec.hos" "signer.hos" demo_recovery_world demo_approval
    "bob.alice.near" demo_approved_entry (demo_key 7) (demo_key 8) 0 (demo_raw 8) (demo_raw 8)
    (demo_at "anyone.near" 4000) any_answer demo_at_rest) as (e & _ & H & _);
    [vm_eq|reflexivity|reflexivity|vm_eq|vm_eq|discriminate|reflexivity|].
  destruct (H 1 demo_hash (demo_at "rec.hos" 4001) (demo_at "rec.hos" 4002)) as (_ & Hs & Hf).
  split; [exact Hf|]. rewrite Hs, lookup_insert_eq. reflexivity.
Defined.

(** A wallet sold between the verdict and the freeze keeps its former owner's
    policy: the extension's reset finds the recovery in flight. The freeze is
    refused then, and the policy can hold the wallet no more. *)
Lemma policy_outlives_a_sale :
  let w := demo_run
    [recovery_call demo_install; recovery_call demo_request; recovery_call demo_verdict;
     Hp_signer (demo_at "ext.hos" 3901) (Call_swap_owner "bob.alice.near" (demo_raw 9) (Some (demo_raw 7)));
     Hp_recovery (demo_at "ext.hos" 3902) (Call_on_wallet_transferred "bob.alice.near");
     Hp_arrive 0 (demo_at "rec.hos" 3903) any_answer;
     Hp_resume 0 (demo_at "rec.hos" 3904)] in
  accounts (rec w) !! "bob.alice.near"%string = Some (mkAccount demo_policy 1 Phase_Idle) /\
  wallet_view (sgn w) "bob.alice.near" = Some (demo_raw 9, FreezeState_Unfrozen).
Proof. cbv zeta. split; vm_eq. Qed.
