(* ===== verification/RegistryTypes.v ===== *)
(** * tla-registry: data, pricing, errors and events

    Models [contracts/tla-registry/src/types.rs], [fees.rs], [error.rs] and
    [events.rs]: the entries the registry stores, the lifecycle computed from
    time, the name rules, the rent and the resale split. *)
From S2P Require Export Demo.

(** ** error.rs *)
Inductive NameInvalidReason :=
| LengthOutOfBounds
| DisallowedCharacter
| EdgeSeparator.

Inductive ContractError :=
| OnlyAdmin
| OnlyPaymentAuthority
| OnlyLicensee
| OnlyOwner
| Paused
| NoPendingRefund
| TlaNotFound
| TlaAlreadyRegistered
| TlaNotInRegisteredState
| TlaNotActive
| TlaNotSuspended
| TlaNotAcceptingRentals
| TlaPastGracePeriod
| BusinessTlaRequiresLicensee
| BusinessTlaMissingLicensee
| WrongActivationEndpoint
| SubAccountNotFound
| SubAccountNameTaken
| SubAccountPastGracePeriod
| SubAccountNotReclaimable
| SignerNotPending
| MainWalletEqualsSubAccount
| InvalidSubAccountId
| InvalidName (reason : NameInvalidReason)
| InsufficientPayment
| InsufficientRevenue
| WithdrawalAmountZero
| TokenNotInAllowlist
| AllowlistFull
| AllRentTiersZero
| CreationDepositZero
| CannotRemoveLastAdmin
| SubAccountIsMother
| MotherIsReclaimable
| MotherNotSet
| MaxBusinessSubsReached
| NoRetractionScheduled
| RetractionAlreadyScheduled
| RetractionAlreadyElapsed
| RetractionPending
| NotBusinessTla
| RequiresOneYocto
| InsufficientContractBalance
| NotListed
| SaleInProgress
| ReclaimInProgress
| SubAccountTlaMismatch
| SubAccountNotSellable
| BusinessSubNotResellable
| PriceNotMet
| InvalidPrice
| NoAcceptedOffer
| InvalidCommissionRate
| NotEd25519.

(** ** types.rs *)
Definition ONE_NEAR : Z := 1000000000000000000000000.
Definition ONE_YEAR_NS : Z := 365 * 24 * 60 * 60 * 1000000000.

Inductive TlaType := TlaType_Business | TlaType_Open.
Inductive TlaStatus := TlaStatus_Registered | TlaStatus_Active | TlaStatus_Suspended.
Inductive PremiumCategory :=
| PremiumCategory_Legendary | PremiumCategory_Premium
| PremiumCategory_Standard | PremiumCategory_Community.

Global Instance TlaType_eq_dec : EqDecision TlaType.
Proof. solve_decision. Defined.
Global Instance TlaStatus_eq_dec : EqDecision TlaStatus.
Proof. solve_decision. Defined.

Definition multiplier (p : PremiumCategory) : Z * Z :=
  match p with
  | PremiumCategory_Legendary => (5, 1)
  | PremiumCategory_Premium => (3, 1)
  | PremiumCategory_Standard => (3, 2)
  | PremiumCategory_Community => (0, 1)
  end.

Record TlaEntry := mkTlaEntry {
  te_tla_type : TlaType;
  te_status : TlaStatus;
  te_licensee : option AccountId;
  te_premium_category : PremiumCategory;
  te_activated_at : Z;
  te_expires_at : Z
}.

Record SubAccountEntry := mkSubAccountEntry {
  se_owner : AccountId;
  se_tla_id : AccountId;
  se_main_wallet : AccountId;
  se_rented_at : Z;
  se_expires_at : Z;
  se_retraction_at : option Z
}.

Record Listing := mkListing {
  li_price : Z;
  li_settling : bool;
  li_owner_key : PublicKey
}.

Record ParkedEntry := mkParkedEntry { pk_tla_id : AccountId; pk_parked_at : Z }.

Record AcceptedOffer := mkAcceptedOffer {
  ao_buyer : AccountId;
  ao_price : Z;
  ao_settling : bool;
  ao_owner_key : PublicKey
}.

Record FeeConfig := mkFeeConfig {
  tla_allocation_fee : Z;
  rent_tier_5 : Z;
  rent_tier_8 : Z;
  rent_tier_10 : Z;
  rent_tier_12plus : Z;
  sub_fee_per_account : Z;
  account_creation_deposit : Z;
  business_max_subs : Z;
  retraction_notice_ns : Z;
  resale_commission_bps : Z
}.

Inductive LifecycleStatus :=
| Lifecycle_Registered | Lifecycle_Active | Lifecycle_Grace
| Lifecycle_Reclaimable | Lifecycle_Suspended.
Global Instance LifecycleStatus_eq_dec : EqDecision LifecycleStatus.
Proof. solve_decision. Defined.

Record TlaView := mkTlaView {
  tv_tla_id : AccountId; tv_tla_type : TlaType; tv_lifecycle : LifecycleStatus;
  tv_licensee : option AccountId; tv_premium_category : PremiumCategory;
  tv_activated_at : Z; tv_expires_at : Z; tv_annual_rent : Z
}.

Record SubAccountView := mkSubAccountView {
  sv_full_name : string; sv_owner : AccountId; sv_tla_id : AccountId;
  sv_main_wallet : AccountId; sv_lifecycle : LifecycleStatus;
  sv_rented_at : Z; sv_expires_at : Z; sv_annual_rent : Z
}.

Record ListingView := mkListingView {
  lv_full_name : string; lv_price_yocto : Z; lv_settling : bool
}.

Record AcceptedOfferView := mkAcceptedOfferView {
  av_full_name : string; av_buyer : AccountId; av_price_yocto : Z; av_settling : bool
}.

Record RentPriceView := mkRentPriceView {
  rv_rent_yocto : Z; rv_creation_deposit_yocto : Z; rv_total_yocto : Z
}.

Record RegistryStats := mkRegistryStats {
  rs_tla_count : Z; rs_sub_account_count : Z; rs_total_revenue_yocto : Z;
  rs_total_pending_refunds_yocto : Z
}.

Record BusinessRenewalCostView := mkBusinessRenewalCostView {
  bv_tla_id : AccountId; bv_tla_rent_yocto : Z; bv_per_sub_yocto : Z;
  bv_sub_count : Z; bv_total_yocto : Z
}.

(** The block time the Rust functions read from [env] is an argument here. *)
Definition time_lifecycle (now expires_at grace_period_ns : Z) : LifecycleStatus :=
  let grace_end := saturating_add U64_MAX expires_at grace_period_ns in
  if now <? expires_at then Lifecycle_Active
  else if now <? grace_end then Lifecycle_Grace
  else Lifecycle_Reclaimable.

Definition tla_lifecycle (now : Z) (e : TlaEntry) (grace_period_ns : Z) : LifecycleStatus :=
  match te_status e with
  | TlaStatus_Registered => Lifecycle_Registered
  | TlaStatus_Suspended => Lifecycle_Suspended
  | TlaStatus_Active => time_lifecycle now (te_expires_at e) grace_period_ns
  end.

Definition is_accepting_rentals (now : Z) (e : TlaEntry) : bool :=
  bool_decide (te_status e = TlaStatus_Active) && (now <? te_expires_at e).

Definition sub_lifecycle (now : Z) (s : SubAccountEntry) (grace_period_ns : Z) : LifecycleStatus :=
  time_lifecycle now (se_expires_at s) grace_period_ns.

(** [matches!(c, b'a'..=b'z' | b'0'..=b'9' | b'-' | b'_')] *)
Definition name_char_ok (c : Z) : bool :=
  ((byte_lit "a" <=? c) && (c <=? byte_lit "z")) || ((byte_lit "0" <=? c) && (c <=? byte_lit "9"))
  || (c =? byte_lit "-") || (c =? byte_lit "_").

Definition starts_with (c : Z) (l : list Z) : bool :=
  match l with b :: _ => b =? c | [] => false end.
Definition ends_with (c : Z) (l : list Z) : bool := starts_with c (rev l).

(** [None] for [Ok(())], the reason otherwise. *)
Definition name_error (name : string) : option NameInvalidReason :=
  let bs := as_bytes_str name in
  if bool_decide (name = EmptyString) || (60 <? str_len name) then Some LengthOutOfBounds
  else if negb (forallb name_char_ok bs) then Some DisallowedCharacter
  else if starts_with (byte_lit "-") bs || starts_with (byte_lit "_") bs
          || ends_with (byte_lit "-") bs || ends_with (byte_lit "_") bs then Some EdgeSeparator
  else None.

Definition sub_account_key (tla_id : AccountId) (name : string) : string :=
  name +:+ "." +:+ tla_id.

Definition total_name_length (tla_id : AccountId) (name : string) : Z :=
  cast_u8 (str_len name + 1 + str_len tla_id).

(** ** fees.rs *)
Definition base_rent (total_len : Z) (config : FeeConfig) : Z :=
  if total_len <=? 5 then rent_tier_5 config
  else if total_len <=? 8 then rent_tier_8 config
  else if total_len <=? 10 then rent_tier_10 config
  else rent_tier_12plus config.

Definition sub_account_rent (total_len : Z) (premium : PremiumCategory) (config : FeeConfig) : Z :=
  let base := base_rent total_len config in
  let (num, den) := multiplier premium in
  saturating_mul U128_MAX base num / den.

Definition split_resale (price commission_bps : Z) : Z * Z :=
  let commission := Z.min (saturating_mul U128_MAX price commission_bps / 10000) price in
  (commission, saturating_sub price commission).

Definition calculate_rent (tla : TlaEntry) (tla_id : AccountId) (name : string)
    (config : FeeConfig) : Z :=
  match te_tla_type tla with
  | TlaType_Business => sub_fee_per_account config
  | TlaType_Open =>
      let total_len := total_name_length tla_id name in
      sub_account_rent total_len (te_premium_category tla) config
  end.

Definition default_fee_config : FeeConfig :=
  mkFeeConfig (1000 * ONE_NEAR) (50 * ONE_NEAR) (20 * ONE_NEAR) (10 * ONE_NEAR) (5 * ONE_NEAR)
    (ONE_NEAR / 2) (ONE_NEAR / 100) 1000 (7 * 24 * 60 * 60 * 1000000000) 0.

(** ** events.rs *)
Inductive Event :=
| Event_TlaRegistered (tla_id : AccountId) (tla_type premium_category : string)
    (licensee : option AccountId)
| Event_TlaActivated (tla_id : AccountId) (expires_at paid_yocto : Z)
| Event_TlaSuspended (tla_id : AccountId) (action : string) (by_ : AccountId)
| Event_TlaUnsuspended (tla_id : AccountId) (action : string) (by_ : AccountId)
| Event_TlaRenewed (tla_id : AccountId) (new_expires_at paid_yocto : Z)
| Event_ContractPaused (by_ : AccountId)
| Event_ContractUnpaused (by_ : AccountId)
| Event_FeeConfigUpdated (by_ : AccountId)
| Event_AdminAdded (action : string) (account by_ : AccountId)
| Event_AdminRemoved (action : string) (account by_ : AccountId)
| Event_PaymentAuthorityAdded (account by_ : AccountId)
| Event_PaymentAuthorityRemoved (account by_ : AccountId)
| Event_WithdrawalQueued (amount_yocto : Z) (recipient : AccountId)
| Event_FtAllowlistAdded (kind : string) (token by_ : AccountId)
| Event_FtAllowlistRemoved (kind : string) (token by_ : AccountId)
| Event_ParkedSignerUpdated (pubkey : PublicKey) (by_ : AccountId)
| Event_BusinessSubCapSet (tla_id : AccountId) (cap : string) (by_ : AccountId)
| Event_SubAccountRented (full_name : string) (tla_id owner : AccountId) (rent_yocto expires_at : Z)
| Event_SubAccountReRented (full_name : string) (tla_id owner : AccountId) (rent_yocto expires_at : Z)
| Event_SubAccountRenewed (full_name : string) (new_expires_at paid_yocto : Z)
| Event_MainWalletUpdated (full_name : string) (new_wallet : AccountId)
| Event_RefundPending (account : AccountId) (amount_yocto : Z) (reason : string)
| Event_SubAccountListed (full_name : string) (price_yocto : Z) (seller : AccountId)
| Event_SubAccountUnlisted (full_name : string) (by_ : AccountId)
| Event_ListingRejected (full_name : string) (seller : AccountId) (reason : string)
| Event_OfferAccepted (full_name : string) (buyer : AccountId) (price_yocto : Z) (seller : AccountId)
| Event_OfferRejected (full_name : string) (buyer seller : AccountId) (reason : string)
| Event_OfferRevoked (full_name : string) (by_ : AccountId)
| Event_SubAccountSold (full_name : string) (tla_id seller buyer : AccountId)
    (price_yocto commission_yocto seller_proceeds_yocto : Z)
| Event_SubAccountSaleFailed (full_name : string) (buyer : AccountId)
| Event_SubAccountSaleBlocked (full_name token reason : string)
| Event_SubAccountReclaimed (full_name : string) (tla_id swept_to : AccountId)
| Event_ReclaimFinalizeBlocked (full_name token reason : string)
| Event_MotherSet (user mother : AccountId) (source : string)
| Event_MotherCleared (user previous_mother by_ : AccountId)
| Event_SubAccountRetractionScheduled (full_name : string) (retraction_at : Z) (by_ : AccountId)
| Event_SubAccountRetractionCanceled (full_name : string) (by_ : AccountId)
| Event_SubAccountSignerPending (full_name : string) (owner : AccountId)
| Event_SignerInstalled (full_name : string)
| Event_SettlingCleared (full_name : string) (by_ : AccountId)
| Event_ReclaimPendingCleared (full_name : string) (by_ : AccountId).

(** ** Pricing *)

Lemma split_resale_parts price bps commission proceeds :
  0 <= price <= U128_MAX -> 0 <= bps ->
  split_resale price bps = (commission, proceeds) ->
  commission + proceeds = price /\ 0 <= commission <= price /\ 0 <= proceeds <= price.
Proof.
  unfold split_resale. intros Hp Hb [= Hc Hr].
  assert (Hn : 0 <= saturating_mul U128_MAX price bps / 10000).
  { apply Z.div_pos; [|lia]. unfold saturating_mul. nia. }
  assert (Hle : 0 <= commission <= price) by (rewrite <- Hc; lia).
  rewrite Hc, saturating_sub_exact in Hr by lia. lia.
Qed.

(** The exact commission, in basis points, rounded down. *)
(** The commission and the proceeds add up to the price, and the commission is exact below the u128 ceiling. *)
Theorem split_resale_conserves price bps commission proceeds :
  0 <= price <= U128_MAX -> 0 <= bps ->
  split_resale price bps = (commission, proceeds) ->
  commission + proceeds = price /\ 0 <= commission <= price /\ 0 <= proceeds <= price /\
  (price * bps <= U128_MAX -> bps <= 10000 -> commission = price * bps / 10000).
Proof.
  intros Hp Hb E. destruct (split_resale_parts _ _ _ _ Hp Hb E) as (?&?&?). split_and!; try done; try lia.
  intros Ho Hm. injection E as Hc _. rewrite <- Hc. unfold saturating_mul.
  rewrite (Z.min_l (price * bps)) by lia. apply Z.min_l.
  apply Z.div_le_upper_bound; nia.
Qed.

(** Name lengths: a validated name under any account id fits a [u8]. *)
Definition name_bounds (tla_id : AccountId) (name : string) : Prop :=
  str_len name <= 60 /\ str_len tla_id <= 64.

Lemma str_len_nonneg s : 0 <= str_len s.
Proof. unfold str_len. lia. Qed.

Lemma total_name_length_exact tla_id name :
  name_bounds tla_id name -> total_name_length tla_id name = str_len (sub_account_key tla_id name).
Proof.
  intros [Hn Ht]. unfold total_name_length, sub_account_key, cast_u8.
  pose proof (str_len_nonneg name). pose proof (str_len_nonneg tla_id).
  rewrite Z.mod_small by lia. unfold str_len. rewrite !string_app_length. cbn. lia.
Qed.

(** A tier's rent times the premium of the TLA: five times for a legendary one, three
    times for a premium one, half as much again for a standard one, nothing for a
    community's; the product stops at the largest [u128]. *)
Definition with_premium (p : PremiumCategory) (tier : Z) : Z :=
  match p with
  | PremiumCategory_Legendary => Z.min (5 * tier) U128_MAX
  | PremiumCategory_Premium => Z.min (3 * tier) U128_MAX
  | PremiumCategory_Standard => Z.min (3 * tier) U128_MAX / 2
  | PremiumCategory_Community => 0
  end.

Lemma with_premium_spec p tier :
  (let (num, den) := multiplier p in saturating_mul U128_MAX tier num / den) = with_premium p tier.
Proof.
  unfold saturating_mul. destruct p; cbn [multiplier with_premium].
  - by rewrite Z.div_1_r, Z.mul_comm.
  - by rewrite Z.div_1_r, Z.mul_comm.
  - by rewrite (Z.mul_comm tier).
  - by rewrite Z.mul_0_r.
Qed.

(** C40: The rent of a name is the flat fee under a business TLA and otherwise the
    premium of the TLA times the tier of the full account name's length: tier 5 up
    to 5 characters, tier 8 for 6 to 8, tier 10 for 9 and 10, tier 12+ from 11 on,
    with no wrap-around of the length for a name of at most 60 and a TLA of at most
    64 characters, and the product capped at u128. *)
Theorem rent_follows_the_full_name tla tla_id name config :
  name_bounds tla_id name ->
  let len := str_len (sub_account_key tla_id name) in
  let rent := calculate_rent tla tla_id name config in
  match te_tla_type tla with
  | TlaType_Business => rent = sub_fee_per_account config
  | TlaType_Open =>
      let owed tier := with_premium (te_premium_category tla) tier in
      (len <= 5 -> rent = owed (rent_tier_5 config)) /\
      (6 <= len <= 8 -> rent = owed (rent_tier_8 config)) /\
      (9 <= len <= 10 -> rent = owed (rent_tier_10 config)) /\
      (11 <= len -> rent = owed (rent_tier_12plus config))
  end.
Proof.
  intros Hn len rent. unfold rent, calculate_rent. destruct (te_tla_type tla); [done|]. cbv zeta.
  rewrite (total_name_length_exact tla_id name Hn). fold len. unfold sub_account_rent. cbv zeta. rewrite with_premium_spec. unfold base_rent.
  split_and!; intros; repeat match goal with |- context [?a <=? ?b] => destruct (Z.leb_spec a b) end;
    (done || lia).
Qed.

(** Where every tier costs no more than the one before it, a longer name costs no
    more than a shorter one. [update_fee_config] takes tiers in any order. *)
Lemma base_rent_antitone c l1 l2 :
  rent_tier_8 c <= rent_tier_5 c -> rent_tier_10 c <= rent_tier_8 c ->
  rent_tier_12plus c <= rent_tier_10 c -> l1 <= l2 -> base_rent l2 c <= base_rent l1 c.
Proof.
  intros. unfold base_rent.
  repeat match goal with |- context [?a <=? ?b] => destruct (Z.leb_spec a b) end; lia.
Qed.

(** ** Names *)

(** What the contract means by a valid name, without the order of its checks. *)
Definition is_alnum (c : Z) : Prop :=
  (byte_lit "a" <= c <= byte_lit "z") \/ (byte_lit "0" <= c <= byte_lit "9").
Definition valid_name (name : string) : Prop :=
  1 <= str_len name <= 60 /\
  Forall (fun c => is_alnum c \/ c = byte_lit "-" \/ c = byte_lit "_") (as_bytes_str name) /\
  (exists c rest, as_bytes_str name = c :: rest /\ is_alnum c) /\
  (exists c front, as_bytes_str name = front ++ [c] /\ is_alnum c).

Lemma name_char_ok_spec c :
  name_char_ok c = true <-> is_alnum c \/ c = byte_lit "-" \/ c = byte_lit "_".
Proof.
  unfold name_char_ok, is_alnum. rewrite !orb_true_iff, !andb_true_iff, !Z.leb_le, !Z.eqb_eq. tauto.
Qed.

Lemma not_alnum_sep : ~ is_alnum (byte_lit "-") /\ ~ is_alnum (byte_lit "_").
Proof. split; intros [[H1 H2]|[H1 H2]]; vm_compute in H1, H2; by (apply H1 || apply H2). Qed.

Lemma edge_ok l :
  l <> [] -> Forall (fun c => is_alnum c \/ c = byte_lit "-" \/ c = byte_lit "_") l ->
  (starts_with (byte_lit "-") l || starts_with (byte_lit "_") l = false <->
   exists c rest, l = c :: rest /\ is_alnum c).
Proof.
  intros Hl Hf. destruct l as [|c rest]; [done|]. cbn [starts_with].
  inversion_clear Hf as [|? ? Hc _]. destruct not_alnum_sep as [N1 N2].
  rewrite orb_false_iff, !Z.eqb_neq. split.
  - intros [H1 H2]. exists c, rest. split; [done|]. tauto.
  - intros (c' & rest' & [= <- <-] & Ha). split; intros ->; done.
Qed.

Lemma name_error_None name : name_error name = None <-> valid_name name.
Proof.
  unfold name_error, valid_name. rewrite <- as_bytes_str_length.
  assert (Hemp : name = EmptyString <-> as_bytes_str name = []).
  { split; [by intros ->|]. intros E. apply (inj as_bytes_str). by rewrite E. }
  set (bs := as_bytes_str name) in *.
  assert (Hrev : (ends_with (byte_lit "-") bs || ends_with (byte_lit "_") bs = false ->
    bs <> [] -> Forall (fun c => is_alnum c \/ c = byte_lit "-" \/ c = byte_lit "_") bs ->
    exists c front, bs = front ++ [c] /\ is_alnum c) /\
    ((exists c front, bs = front ++ [c] /\ is_alnum c) ->
     ends_with (byte_lit "-") bs || ends_with (byte_lit "_") bs = false)).
  { unfold ends_with. split.
    - intros He Hn Hf. apply edge_ok in He as (c & rest & E & Ha);
        [|by intros E; apply Hn; rewrite <- (rev_involutive bs), E|].
      + exists c, (rev rest). split; [|done]. rewrite <- (rev_involutive bs), E. done.
      + by apply Forall_rev.
    - intros (c & front & E & Ha). rewrite E, rev_unit. cbn [starts_with].
      destruct not_alnum_sep as [N1 N2].
      rewrite orb_false_iff, !Z.eqb_neq. by split; intros ->. }
  destruct Hrev as [Hr1 Hr2].
  case_bool_decide as E0; cbn [orb].
  { split; [done|]. intros (Hl & _). apply Hemp in E0. rewrite E0 in Hl. cbn in Hl. lia. }
  assert (Hn : bs <> []) by (by rewrite <- Hemp).
  assert (Hl : 1 <= Z.of_nat (length bs)) by (destruct bs; [done|cbn; lia]).
  destruct (Z.ltb_spec 60 (Z.of_nat (length bs))) as [Hlen|Hlen].
  { split; [done|]. intros ((_ & ?) & _). lia. }
  destruct (forallb name_char_ok bs) eqn:Ef; cbn [negb].
  - assert (HF : Forall (fun c => is_alnum c \/ c = byte_lit "-" \/ c = byte_lit "_") bs).
    { rewrite forallb_forall in Ef. apply list.Forall_forall. intros c Hc.
      apply name_char_ok_spec, Ef. by apply list_elem_of_In. }
    rewrite <- orb_assoc.
    destruct (starts_with _ bs || starts_with _ bs) eqn:Es; cbn [orb].
    + split; [done|]. intros (_ & _ & Hs & _). apply edge_ok in Hs; [|done..]. by rewrite Es in Hs.
    + apply edge_ok in Es; [|done..].
      destruct (ends_with _ bs || ends_with _ bs) eqn:Ee.
      * split; [done|]. intros (_ & _ & _ & He). by apply Hr2 in He.
      * split; [|done]. intros _. split_and!; auto.
  - split; [done|]. intros (_ & HF & _). exfalso.
    assert (forallb name_char_ok bs = true); [|congruence].
    apply forallb_forall. intros c Hc. apply name_char_ok_spec.
    rewrite list.Forall_forall in HF. by apply HF, list_elem_of_In.
Qed.

Lemma forallb_false_exists {A} (f : A -> bool) (l : list A) :
  forallb f l = false <-> exists x, x ∈ l /\ f x <> true.
Proof.
  induction l as [|a l IH]; cbn.
  - split; [done|]. by intros (? & ?%elem_of_nil & _).
  - rewrite andb_false_iff, IH. split.
    + intros [H|(x & H1 & H2)]; [exists a; split; [by left|congruence]|exists x; split; [by right|done]].
    + intros (x & [->|H1]%elem_of_cons & H2); [left; by destruct (f a)|right; eauto].
Qed.

Lemma valid_name_no_dot name : valid_name name -> byte_lit "." ∉ as_bytes_str name.
Proof.
  intros (_ & HF & _) Hin. rewrite list.Forall_forall in HF. specialize (HF _ Hin).
  assert (Hno : forall x, (byte_lit "." =? x) = false -> byte_lit "." <> x) by (intros x; lia).
  destruct HF as [[[H1 H2]|[H1 H2]]|[H|H]];
    [by apply H1|by apply H1|by apply Hno in H|by apply Hno in H].
Qed.

(** validate_name accepts exactly the names of 1 to 60 characters among a-z, 0-9,
    '-' and '_' that begin and end with a letter or digit, and reports what is wrong
    first. *)
Theorem validate_name_spec name :
  (name_error name = None <-> valid_name name) /\
  (name_error name = Some LengthOutOfBounds <-> ~ (1 <= str_len name <= 60)) /\
  (name_error name = Some DisallowedCharacter <->
     1 <= str_len name <= 60 /\
     exists c, c ∈ as_bytes_str name /\ ~ (is_alnum c \/ c = byte_lit "-" \/ c = byte_lit "_")).
Proof.
  split; [apply name_error_None|].
  assert (Hlen : name <> EmptyString <-> 1 <= str_len name).
  { unfold str_len. destruct name; cbn; split; [done|lia|lia|done]. }
  assert (Hbad : forallb name_char_ok (as_bytes_str name) = false <->
    exists c, c ∈ as_bytes_str name /\ ~ (is_alnum c \/ c = byte_lit "-" \/ c = byte_lit "_")).
  { rewrite forallb_false_exists. by setoid_rewrite name_char_ok_spec. }
  unfold name_error. case_bool_decide as E0; cbn [orb].
  { subst name. change (str_len EmptyString) with 0. split; split; [lia|done|done|lia]. }
  apply Hlen in E0. destruct (Z.ltb_spec 60 (str_len name)).
  { split; split; [lia|done|done|lia]. }
  destruct (forallb name_char_ok (as_bytes_str name)) eqn:Ef; cbn [negb].
  - split; split; [case_match; done|lia|case_match; done|].
    intros (_ & Hb%Hbad). congruence.
  - split; split; [done|lia| |done]. intros _. split; [lia|by apply Hbad].
Qed.

Lemma split_at_dot (p q r s : list Z) d :
  d ∉ p -> d ∉ r -> p ++ d :: q = r ++ d :: s -> p = r /\ q = s.
Proof.
  revert r. induction p as [|x p IH]; intros [|y r] Hp Hr E; cbn in E; simplify_eq.
  - done.
  - exfalso. apply Hr. by left.
  - exfalso. apply Hp. by left.
  - destruct (IH r) as [-> ->]; [by intros ?; apply Hp; right|by intros ?; apply Hr; right|done|done].
Qed.

(** Two valid names under two TLAs share a key only if both name and TLA are the
    same. *)
Theorem sub_account_key_injective tla_id name tla_id' name' :
  name_error name = None -> name_error name' = None ->
  sub_account_key tla_id name = sub_account_key tla_id' name' ->
  tla_id = tla_id' /\ name = name'.
Proof.
  intros H1%name_error_None%valid_name_no_dot H2%name_error_None%valid_name_no_dot.
  unfold sub_account_key. intros E%(f_equal as_bytes_str).
  rewrite !as_bytes_str_app in E.
  destruct (split_at_dot _ _ _ _ _ H1 H2 E) as [E1 E2].
  split; by apply (inj as_bytes_str).
Qed.

(** ** Time *)
Definition stage (l : LifecycleStatus) : Z :=
  match l with
  | Lifecycle_Active => 0 | Lifecycle_Grace => 1 | Lifecycle_Reclaimable => 2 | _ => 0
  end.

(** Time only moves a lifecycle forward. *)
Theorem lifecycle_only_ages now now' expires grace :
  now <= now' -> 0 <= grace ->
  stage (time_lifecycle now expires grace) <= stage (time_lifecycle now' expires grace) /\
  (time_lifecycle now expires grace = Lifecycle_Active <-> now < expires) /\
  (expires + grace <= U64_MAX ->
   time_lifecycle now expires grace = Lifecycle_Reclaimable <-> expires + grace <= now).
Proof.
  intros Hn Hg. unfold time_lifecycle, saturating_add.
  destruct (Z.ltb_spec now expires); destruct (Z.ltb_spec now' expires); try lia;
    destruct (Z.ltb_spec now (Z.min (expires + grace) U64_MAX));
    destruct (Z.ltb_spec now' (Z.min (expires + grace) U64_MAX)); cbn;
    split_and!; try lia; try (split; (done || lia)); intros; split; intros; done || lia.
Qed.

Lemma split_resale_conserves_witness : 25 + 975 = 1000 /\ 25 = 1000 * 250 / 10000.
Proof.
  destruct (split_resale_conserves 1000 250 25 975) as (H & _ & _ & Hx).
  - by split; apply Z.leb_le.
  - by apply Z.leb_le.
  - reflexivity.
  - split; [exact H|]. apply Hx; by apply Z.leb_le.
Defined.

Lemma rent_follows_the_full_name_witness :
  calculate_rent (mkTlaEntry TlaType_Open TlaStatus_Active None PremiumCategory_Standard 0 0)
    "near" "bob" default_fee_config = 30 * ONE_NEAR.
Proof.
  destruct (rent_follows_the_full_name
    (mkTlaEntry TlaType_Open TlaStatus_Active None PremiumCategory_Standard 0 0)
    "near" "bob" default_fee_config) as (_ & H & _).
  - by split; apply Z.leb_le.
  - etransitivity; [apply H; by split; apply Z.leb_le|vm_eq].
Defined.

Lemma sub_account_key_injective_witness : "web.near" = "web.near" /\ "bob" = "bob".
Proof.
  by apply (sub_account_key_injective "web.near" "bob" "web.near" "bob").
Defined.
