(* ===== verification/RegistryState.v ===== *)
(** * tla-registry: the contract state and its shared helpers

    Models [contracts/tla-registry/src/lib.rs]: the [TlaRegistry] struct, its
    initialisation, pausing, the pending-refund ledger and its claims, and the
    access checks every other part of the registry uses. *)
From S2P Require Export RegistryTypes.

Definition CONTRACT_VERSION : Z := 1.
Definition MIN_GRACE_PERIOD_NS : Z := 24 * 60 * 60 * 1000000000.
Definition GAS_FOR_CLAIM_REFUND_CB : Z := 10 * Tgas.

Record TlaRegistry := mkTlaRegistry {
  tlas : gmap AccountId TlaEntry;
  sub_accounts : gmap string SubAccountEntry;
  admins : gset AccountId;
  fee_config : FeeConfig;
  total_revenue : Z;
  sub_account_count : Z;
  paused : bool;
  version : Z;
  pending_refunds : gmap AccountId Z;
  total_pending_refunds : Z;
  ft_allowlist : gset AccountId;
  mothers : gmap AccountId AccountId;
  mother_use_count : gmap AccountId Z;
  business_sub_count : gmap AccountId Z;
  business_sub_cap_override : gmap AccountId Z;
  listings : gmap string Listing;
  accepted_offers : gmap string AcceptedOffer;
  parked_names : gmap string ParkedEntry;
  signer_pending : gmap string PublicKey;
  reclaim_pending : gmap string bool;
  payment_authorities : gset AccountId;
  hos_extension : AccountId;
  active_signer : AccountId;
  parked_signer_pubkey : PublicKey;
  grace_period_ns : Z
}.

(** The settlements carried through the registry's promise chains. *)
Record PendingReRent := mkPendingReRent {
  pr_tla_id : AccountId;
  pr_name : string;
  pr_payer : AccountId;
  pr_owner_key : PublicKey;
  pr_rent : Z;
  pr_attached : Z;
  pr_sub_account : AccountId
}.

Record PendingBuy := mkPendingBuy {
  pb_tla_id : AccountId;
  pb_name : string;
  pb_buyer : AccountId;
  pb_new_owner_key : PublicKey;
  pb_price : Z;
  pb_deposit : Z;
  pb_owner_key : PublicKey;
  pb_sub_account : AccountId
}.

(** The continuations the registry schedules on itself. *)
Inductive Callback :=
| Cb_on_claim_refund_settled (caller : AccountId) (amount : Z)
| Cb_on_sub_account_created (tla_id : AccountId) (name : string) (payer : AccountId)
    (owner_key : PublicKey) (rent attached : Z)
| Cb_on_sub_account_created_paid (tla_id : AccountId) (name : string) (payer : AccountId)
    (owner_key : PublicKey) (rent attached : Z)
| Cb_on_sub_account_re_rented (tla_id : AccountId) (name : string) (payer : AccountId)
    (rent attached : Z)
| Cb_on_re_rent_balances_checked (pending : PendingReRent) (allowlist : list AccountId)
| Cb_on_retry_signer_settled (key : string)
| Cb_on_listing_verified (tla_id : AccountId) (name : string) (price : Z) (owner_key : PublicKey)
    (seller : AccountId)
| Cb_on_offer_verified (tla_id : AccountId) (name : string) (buyer : AccountId) (price : Z)
    (owner_key : PublicKey) (seller : AccountId)
| Cb_on_sub_account_sold (tla_id : AccountId) (name : string) (buyer : AccountId)
    (price deposit : Z)
| Cb_on_sub_account_sold_paid (tla_id : AccountId) (name : string) (buyer operator : AccountId)
    (price : Z)
| Cb_on_buy_balances_checked (settlement : PendingBuy) (allowlist : list AccountId)
| Cb_on_buy_paid_balances_checked (settlement : PendingBuy) (allowlist : list AccountId)
    (operator : AccountId)
| Cb_on_balances_checked (tla_id : AccountId) (name : string) (destination : AccountId)
    (allowlist : list AccountId)
| Cb_on_reclaim_finalized (tla_id : AccountId) (name : string) (destination : AccountId).

Notation RegPromise := (Promise Msg Callback).
Notation RegM := (NearM TlaRegistry Event RegPromise ContractError).
Notation RegCheck A := (Env -> TlaRegistry -> Res ContractError A).

(** ** Field updates *)
Definition TlaRegistry_eta (r : TlaRegistry) : TlaRegistry :=
  mkTlaRegistry (tlas r) (sub_accounts r) (admins r) (fee_config r) (total_revenue r)
    (sub_account_count r) (paused r) (version r) (pending_refunds r) (total_pending_refunds r)
    (ft_allowlist r) (mothers r) (mother_use_count r) (business_sub_count r)
    (business_sub_cap_override r) (listings r) (accepted_offers r) (parked_names r)
    (signer_pending r) (reclaim_pending r) (payment_authorities r) (hos_extension r)
    (active_signer r) (parked_signer_pubkey r) (grace_period_ns r).
#[global] Instance set_tlas : Setter tlas := ltac:(mk_setter TlaRegistry_eta).
#[global] Instance set_sub_accounts : Setter sub_accounts := ltac:(mk_setter TlaRegistry_eta).
#[global] Instance set_admins : Setter admins := ltac:(mk_setter TlaRegistry_eta).
#[global] Instance set_fee_config : Setter fee_config := ltac:(mk_setter TlaRegistry_eta).
#[global] Instance set_total_revenue : Setter total_revenue := ltac:(mk_setter TlaRegistry_eta).
#[global] Instance set_sub_account_count : Setter sub_account_count := ltac:(mk_setter TlaRegistry_eta).
#[global] Instance set_paused : Setter paused := ltac:(mk_setter TlaRegistry_eta).
#[global] Instance set_pending_refunds : Setter pending_refunds := ltac:(mk_setter TlaRegistry_eta).
#[global] Instance set_total_pending_refunds : Setter total_pending_refunds := ltac:(mk_setter TlaRegistry_eta).
#[global] Instance set_ft_allowlist : Setter ft_allowlist := ltac:(mk_setter TlaRegistry_eta).
#[global] Instance set_mothers : Setter mothers := ltac:(mk_setter TlaRegistry_eta).
#[global] Instance set_mother_use_count : Setter mother_use_count := ltac:(mk_setter TlaRegistry_eta).
#[global] Instance set_business_sub_count : Setter business_sub_count := ltac:(mk_setter TlaRegistry_eta).
#[global] Instance set_business_sub_cap_override : Setter business_sub_cap_override := ltac:(mk_setter TlaRegistry_eta).
#[global] Instance set_listings : Setter listings := ltac:(mk_setter TlaRegistry_eta).
#[global] Instance set_accepted_offers : Setter accepted_offers := ltac:(mk_setter TlaRegistry_eta).
#[global] Instance set_parked_names : Setter parked_names := ltac:(mk_setter TlaRegistry_eta).
#[global] Instance set_signer_pending : Setter signer_pending := ltac:(mk_setter TlaRegistry_eta).
#[global] Instance set_reclaim_pending : Setter reclaim_pending := ltac:(mk_setter TlaRegistry_eta).
#[global] Instance set_payment_authorities : Setter payment_authorities := ltac:(mk_setter TlaRegistry_eta).
#[global] Instance upd_parked_signer_pubkey : Setter parked_signer_pubkey := ltac:(mk_setter TlaRegistry_eta).

Definition TlaEntry_eta (r : TlaEntry) : TlaEntry :=
  mkTlaEntry (te_tla_type r) (te_status r) (te_licensee r) (te_premium_category r)
    (te_activated_at r) (te_expires_at r).
#[global] Instance set_te_status : Setter te_status := ltac:(mk_setter TlaEntry_eta).
#[global] Instance set_te_activated_at : Setter te_activated_at := ltac:(mk_setter TlaEntry_eta).
#[global] Instance set_te_expires_at : Setter te_expires_at := ltac:(mk_setter TlaEntry_eta).

Definition SubAccountEntry_eta (r : SubAccountEntry) : SubAccountEntry :=
  mkSubAccountEntry (se_owner r) (se_tla_id r) (se_main_wallet r) (se_rented_at r)
    (se_expires_at r) (se_retraction_at r).
#[global] Instance set_se_owner : Setter se_owner := ltac:(mk_setter SubAccountEntry_eta).
#[global] Instance set_se_main_wallet : Setter se_main_wallet := ltac:(mk_setter SubAccountEntry_eta).
#[global] Instance set_se_expires_at : Setter se_expires_at := ltac:(mk_setter SubAccountEntry_eta).
#[global] Instance set_se_retraction_at : Setter se_retraction_at := ltac:(mk_setter SubAccountEntry_eta).

Definition Listing_eta (r : Listing) : Listing := mkListing (li_price r) (li_settling r) (li_owner_key r).
#[global] Instance set_li_settling : Setter li_settling := ltac:(mk_setter Listing_eta).
Definition AcceptedOffer_eta (r : AcceptedOffer) : AcceptedOffer :=
  mkAcceptedOffer (ao_buyer r) (ao_price r) (ao_settling r) (ao_owner_key r).
#[global] Instance set_ao_settling : Setter ao_settling := ltac:(mk_setter AcceptedOffer_eta).

Section RegistryState.
Context `{HS : !Sdk}.

(** ** Access checks *)
Definition assert_admin : RegM unit :=
  caller ← asks predecessor_account_id;
  ads ← gets admins;
  ensure (bool_decide (caller ∈ ads)) OnlyAdmin.

Definition assert_payment_authority : RegM AccountId :=
  caller ← asks predecessor_account_id;
  pas ← gets payment_authorities;
  ensure (bool_decide (caller ∈ pas)) OnlyPaymentAuthority;;
  mret caller.

Definition assert_not_paused : RegM unit :=
  p ← gets paused;
  ensure (negb p) Paused.

Definition assert_one_yocto : RegM unit :=
  deposit ← asks attached_deposit;
  ensure (deposit =? 1) RequiresOneYocto.

(** [validate_name(name)?] *)
Definition validate_name (name : string) : RegM unit :=
  match name_error name with
  | Some reason => throw (InvalidName reason)
  | None => mret tt
  end.

(** ** The refund ledger *)
Definition add_pending_refund (account : AccountId) (amount : Z) : RegM unit :=
  pr ← gets pending_refunds;
  let existing := default 0 (pr !! account) in
  modify (fun s => s <| pending_refunds ::=
                     <[account := saturating_add U128_MAX existing amount]> |>);;
  modify (fun s => s <| total_pending_refunds ::=
                     fun t => saturating_add U128_MAX t amount |>).

Definition refund_excess (payer : AccountId) (attached charged : Z) : RegM unit :=
  let excess := saturating_sub attached charged in
  if 0 <? excess then add_pending_refund payer excess else mret tt.

Definition add_revenue (amount : Z) : RegM unit :=
  modify (fun s => s <| total_revenue ::= fun t => saturating_add U128_MAX t amount |>).

Definition available_balance (env : Env) : Z :=
  let total := account_balance env in
  let reserve := saturating_mul U128_MAX (storage_byte_cost env) (storage_usage env) in
  saturating_sub total reserve.

(** ** Methods of lib.rs *)
Definition new (env : Env) (admin hos_extension active_signer : AccountId)
    (parked_signer_pubkey : PublicKey) (grace_period_ns : Z) : Res ContractError TlaRegistry :=
  if negb (is_ed25519 parked_signer_pubkey) then Fail (Panicked "parked signer key must be ed25519")
  else if grace_period_ns <? MIN_GRACE_PERIOD_NS then Fail (Panicked "grace period too short")
  else if bool_decide (hos_extension = active_signer)
  then Fail (Panicked "extension and signer must differ")
  else
    let this := current_account_id env in
    if bool_decide (hos_extension = this) || bool_decide (active_signer = this)
    then Fail (Panicked "wiring must not point at the registry")
    else Done (mkTlaRegistry ∅ ∅ {[admin]} default_fee_config 0 0 false CONTRACT_VERSION
                 ∅ 0 ∅ ∅ ∅ ∅ ∅ ∅ ∅ ∅ ∅ ∅ ∅ hos_extension active_signer
                 parked_signer_pubkey grace_period_ns).

Definition pause : RegM unit :=
  not_payable "pause";;
  assert_admin;;
  modify (fun s => s <| paused := true |>);;
  by_ ← asks predecessor_account_id;
  emit (Event_ContractPaused by_).

Definition unpause : RegM unit :=
  not_payable "unpause";;
  assert_admin;;
  modify (fun s => s <| paused := false |>);;
  by_ ← asks predecessor_account_id;
  emit (Event_ContractUnpaused by_).

Definition claim_refund : RegM RegPromise :=
  not_payable "claim_refund";;
  caller ← asks predecessor_account_id;
  pr ← gets pending_refunds;
  let amount := default 0 (pr !! caller) in
  ensure (negb (amount =? 0)) NoPendingRefund;;
  available ← asks available_balance;
  ensure (negb (available <? amount)) InsufficientContractBalance;;
  modify (fun s => s <| pending_refunds ::= delete caller |>);;
  modify (fun s => s <| total_pending_refunds ::= fun t => saturating_sub t amount |>);;
  mret (PThen (transfer_to caller amount) (Cb_on_claim_refund_settled caller amount)
          GAS_FOR_CLAIM_REFUND_CB).

Definition on_claim_refund_settled (caller : AccountId) (amount : Z) : RegM unit :=
  private_method "on_claim_refund_settled";;
  success ← is_promise_success;
  if success : bool then mret tt
  else
    add_pending_refund caller amount;;
    emit (Event_RefundPending caller amount "transfer_failed").

Definition get_pending_refund (s : TlaRegistry) (account_id : AccountId) : Z :=
  default 0 (pending_refunds s !! account_id).
Definition get_total_pending_refunds (s : TlaRegistry) : Z := total_pending_refunds s.
End RegistryState.

#[export] Hint Unfold assert_admin assert_payment_authority assert_not_paused assert_one_yocto
  validate_name refund_excess add_revenue : near_unfold.
