(* ===== verification/RegistryMother.v ===== *)
(** * tla-registry: mother names and business sub-accounts

    Models [contracts/tla-registry/src/mother.rs] (the anchor name of a user
    and the use counts that protect it) and [business.rs] (retraction of
    business sub-accounts and their capacity). *)
From S2P Require Export RegistryState.

Section RegistryMother.
Context `{HS : !Sdk}.

(** ** mother.rs *)
Definition effective_sub_lifecycle (now : Z) (sub : SubAccountEntry) (tla : TlaEntry)
    (retraction_notice_ns grace_period_ns : Z) : LifecycleStatus :=
  if bool_decide (tla_lifecycle now tla grace_period_ns = Lifecycle_Reclaimable)
  then Lifecycle_Reclaimable
  else
    match se_retraction_at sub with
    | Some retraction_at =>
        let elapsed_at := saturating_add U64_MAX retraction_at retraction_notice_ns in
        if elapsed_at <=? now then Lifecycle_Reclaimable
        else sub_lifecycle now sub grace_period_ns
    | None => sub_lifecycle now sub grace_period_ns
    end.

Definition mother_uses (s : TlaRegistry) (account : AccountId) : Z :=
  default 0 (mother_use_count s !! account).

Definition increment_mother_use (account : AccountId) : RegM unit :=
  modify (fun s => s <| mother_use_count ::=
    <[account := saturating_add U32_MAX (mother_uses s account) 1]> |>).

Definition decrement_mother_use (account : AccountId) : RegM unit :=
  modify (fun s =>
    let next := saturating_sub (mother_uses s account) 1 in
    if next =? 0 then s <| mother_use_count ::= delete account |>
    else s <| mother_use_count ::= <[account := next]> |>).

Definition is_managed (s : TlaRegistry) (key : string) : bool :=
  bool_decide (is_Some (sub_accounts s !! key)).

Definition ensure_mother_default (user : AccountId) : RegM unit :=
  ms ← gets mothers;
  if bool_decide (is_Some (ms !! user)) then mret tt
  else
    modify (fun s => s <| mothers ::= <[user := user]> |>);;
    managed ← gets (fun s => is_managed s user);
    (if managed : bool then increment_mother_use user else mret tt);;
    emit (Event_MotherSet user user "default").

Definition set_mother_internal (user new_mother : AccountId) (source : string) : RegM unit :=
  now ← asks block_timestamp;
  cfg ← gets fee_config;
  grace ← gets grace_period_ns;
  new_mother_is_managed ← gets (fun s => is_managed s new_mother);
  subs ← gets sub_accounts;
  ts ← gets tlas;
  match subs !! new_mother with
  | Some sub =>
      ensure (bool_decide (se_owner sub = user)) OnlyOwner;;
      tla ← ok_or (ts !! se_tla_id sub) TlaNotFound;
      ensure (negb (bool_decide (effective_sub_lifecycle now sub tla (retraction_notice_ns cfg) grace
                                 = Lifecycle_Reclaimable))) MotherIsReclaimable
  | None => mret tt
  end;;
  ms ← gets mothers;
  let finish :=
    modify (fun s => s <| mothers ::= <[user := new_mother]> |>);;
    (if new_mother_is_managed : bool then increment_mother_use new_mother else mret tt);;
    emit (Event_MotherSet user new_mother source) in
  match ms !! user with
  | Some old_mother =>
      if bool_decide (old_mother = new_mother) then mret tt
      else
        managed ← gets (fun s => is_managed s old_mother);
        (if managed : bool then decrement_mother_use old_mother else mret tt);;
        finish
  | None => finish
  end.

Definition set_mother (new_mother : AccountId) : RegM unit :=
  assert_one_yocto;;
  assert_not_paused;;
  subs ← gets sub_accounts;
  ensure (bool_decide (is_Some (subs !! new_mother))) SubAccountNotFound;;
  caller ← asks predecessor_account_id;
  set_mother_internal caller new_mother "explicit".

Definition get_mother (s : TlaRegistry) (user : AccountId) : option AccountId := mothers s !! user.
Definition is_mother (s : TlaRegistry) (account : AccountId) : bool := 0 <? mother_uses s account.
Definition get_mother_use_count (s : TlaRegistry) (account : AccountId) : Z := mother_uses s account.

Definition admin_clear_mother (user : AccountId) : RegM unit :=
  not_payable "admin_clear_mother";;
  assert_admin;;
  ms ← gets mothers;
  previous ← ok_or (ms !! user) MotherNotSet;
  modify (fun s => s <| mothers ::= delete user |>);;
  managed ← gets (fun s => is_managed s previous);
  (if managed : bool then decrement_mother_use previous else mret tt);;
  by_ ← asks predecessor_account_id;
  emit (Event_MotherCleared user previous by_).

(** ** business.rs *)
Definition effective_business_cap (s : TlaRegistry) (tla_id : AccountId) : Z :=
  default (business_max_subs (fee_config s)) (business_sub_cap_override s !! tla_id).

Definition business_count (s : TlaRegistry) (tla_id : AccountId) : Z :=
  default 0 (business_sub_count s !! tla_id).

Definition business_count_check_and_bump (tla_id : AccountId) : RegM unit :=
  cap ← gets (fun s => effective_business_cap s tla_id);
  count ← gets (fun s => business_count s tla_id);
  ensure (negb (cap <=? count)) MaxBusinessSubsReached;;
  modify (fun s => s <| business_sub_count ::= <[tla_id := saturating_add U32_MAX count 1]> |>).

Definition business_count_decrement (tla_id : AccountId) : RegM unit :=
  count ← gets (fun s => business_count s tla_id);
  if count =? 0 then mret tt
  else
    let next := saturating_sub count 1 in
    if next =? 0 then modify (fun s => s <| business_sub_count ::= delete tla_id |>)
    else modify (fun s => s <| business_sub_count ::= <[tla_id := next]> |>).

Definition business_count_decrement_if_business (tla_id : AccountId) : RegM unit :=
  ts ← gets tlas;
  let is_business :=
    match ts !! tla_id with
    | Some t => bool_decide (te_tla_type t = TlaType_Business)
    | None => false
    end in
  if is_business then business_count_decrement tla_id else mret tt.

Definition get_sub (key : string) : RegM SubAccountEntry :=
  subs ← gets sub_accounts;
  ok_or (subs !! key) SubAccountNotFound.
Definition put_sub (key : string) (sub : SubAccountEntry) : RegM unit :=
  modify (fun s => s <| sub_accounts ::= <[key := sub]> |>).
Definition get_tla_entry (tla_id : AccountId) : RegM TlaEntry :=
  ts ← gets tlas;
  ok_or (ts !! tla_id) TlaNotFound.
Definition put_tla (tla_id : AccountId) (tla : TlaEntry) : RegM unit :=
  modify (fun s => s <| tlas ::= <[tla_id := tla]> |>).

Definition schedule_retraction (tla_id : AccountId) (name : string) : RegM unit :=
  assert_one_yocto;;
  assert_not_paused;;
  let key := sub_account_key tla_id name in
  caller ← asks predecessor_account_id;
  now ← asks block_timestamp;
  tla ← get_tla_entry tla_id;
  ensure (bool_decide (te_tla_type tla = TlaType_Business)) NotBusinessTla;;
  sub ← get_sub key;
  ensure (bool_decide (caller = se_owner sub)) OnlyOwner;;
  ensure (bool_decide (se_retraction_at sub = None)) RetractionAlreadyScheduled;;
  put_sub key (sub <| se_retraction_at := Some now |>);;
  emit (Event_SubAccountRetractionScheduled key now caller).

Definition cancel_retraction (tla_id : AccountId) (name : string) : RegM unit :=
  assert_one_yocto;;
  assert_not_paused;;
  let key := sub_account_key tla_id name in
  caller ← asks predecessor_account_id;
  cfg ← gets fee_config;
  now ← asks block_timestamp;
  sub ← get_sub key;
  ensure (bool_decide (caller = se_owner sub)) OnlyOwner;;
  retraction_at ← ok_or (se_retraction_at sub) NoRetractionScheduled;
  ensure (negb (saturating_add U64_MAX retraction_at (retraction_notice_ns cfg) <=? now))
    RetractionAlreadyElapsed;;
  put_sub key (sub <| se_retraction_at := None |>);;
  emit (Event_SubAccountRetractionCanceled key caller).

Definition get_business_sub_count (s : TlaRegistry) (tla_id : AccountId) : Z := business_count s tla_id.
Definition get_business_sub_cap (s : TlaRegistry) (tla_id : AccountId) : Z :=
  effective_business_cap s tla_id.

Definition set_business_sub_cap (tla_id : AccountId) (cap : option Z) : RegM unit :=
  not_payable "set_business_sub_cap";;
  assert_admin;;
  tla ← get_tla_entry tla_id;
  ensure (bool_decide (te_tla_type tla = TlaType_Business)) NotBusinessTla;;
  cap_str ← match cap with
            | Some value =>
                modify (fun s => s <| business_sub_cap_override ::= <[tla_id := value]> |>);;
                mret (dec_string value)
            | None =>
                modify (fun s => s <| business_sub_cap_override ::= delete tla_id |>);;
                mret "default"
            end;
  by_ ← asks predecessor_account_id;
  emit (Event_BusinessSubCapSet tla_id cap_str by_).

Definition get_business_renewal_cost (s : TlaRegistry) (tla_id : AccountId)
    : Res ContractError BusinessRenewalCostView :=
  match tlas s !! tla_id with
  | None => Fail (Failed TlaNotFound)
  | Some tla =>
      if negb (bool_decide (te_tla_type tla = TlaType_Business)) then Fail (Failed NotBusinessTla)
      else
        let tla_len := cast_u8 (str_len tla_id) in
        let tla_rent := base_rent tla_len (fee_config s) in
        let per_sub := sub_fee_per_account (fee_config s) in
        let count := business_count s tla_id in
        let total := tla_rent in
        Done (mkBusinessRenewalCostView tla_id tla_rent per_sub count total)
  end.

Definition get_retraction_at (s : TlaRegistry) (tla_id : AccountId) (name : string) : option Z :=
  sub_accounts s !! sub_account_key tla_id name ≫= se_retraction_at.
End RegistryMother.

#[export] Hint Unfold get_sub put_sub get_tla_entry put_tla : near_unfold.
