(* ===== verification/RegistryMarket.v ===== *)
(** * tla-registry: the marketplace and its asset gate

    Models [contracts/tla-registry/src/asset_gate.rs] (no name changes hands
    while it still holds an allow-listed token) and [marketplace.rs]: listings
    and offers verified against the current operating key, the settlement lock,
    and the settlement of direct and operator-paid sales. *)
From S2P Require Export RegistryMother.

(** ** asset_gate.rs *)
Definition FT_BALANCE_MAX_LEN : Z := 256.
Definition GAS_PER_FT_BALANCE : Z := 5 * Tgas.

Inductive BalanceGate :=
| BalanceGate_Clear
| BalanceGate_Blocked (token reason : string).

Definition GAS_FOR_FORCE_TRANSFER : Z := 45 * Tgas.
Definition GAS_FOR_SOLD_CALLBACK : Z := 20 * Tgas.
Definition GAS_FOR_BUY_BALANCES_CB : Z := 85 * Tgas.
Definition GAS_FOR_SIGNER_QUERY : Z := 5 * Tgas.
Definition GAS_FOR_VERIFY_CALLBACK : Z := 10 * Tgas.

Section RegistryMarket.
Context `{HS : !Sdk}.

Definition ft_balance_query (ft sub_account : AccountId) : RegPromise :=
  ext_call ft (Msg_ft_balance_of sub_account) 0 GAS_PER_FT_BALANCE.

Definition ft_balance_fanout (allowlist : list AccountId) (sub_account : AccountId)
    : option RegPromise :=
  match allowlist with
  | [] => None
  | first :: rest =>
      Some (foldl (fun chain ft => PAnd chain (ft_balance_query ft sub_account))
              (ft_balance_query first sub_account) rest)
  end.

Definition block_reason (env : Env) (index : nat) : option string :=
  match promise_result_checked env index FT_BALANCE_MAX_LEN with
  | Ok bytes =>
      match json_u128 bytes with
      | Some balance => if 0 <? balance then Some (dec_string balance) else None
      | None => Some "balance_unverifiable"
      end
  | Err PromiseError_Failed => Some "balance_query_failed"
  | Err _ => Some "balance_query_unverifiable"
  end.

(** The loop over [allowlist.iter().enumerate()], from [index] on. *)
Fixpoint first_blocked (env : Env) (index : nat) (allowlist : list AccountId) : BalanceGate :=
  match allowlist with
  | [] => BalanceGate_Clear
  | token :: rest =>
      match block_reason env index with
      | Some reason => BalanceGate_Blocked token reason
      | None => first_blocked env (S index) rest
      end
  end.

Definition ft_balances_clear (env : Env) (allowlist : list AccountId) : BalanceGate :=
  if negb (promise_results_count env =? Z.of_nat (length allowlist))
  then BalanceGate_Blocked EmptyString "result_count_mismatch"
  else first_blocked env 0 allowlist.

(** ** marketplace.rs: checks *)

(** [key.parse::<AccountId>().map_err(|_| InvalidSubAccountId)?] *)
Definition parse_sub_account (key : string) : RegM AccountId :=
  ok_or (account_parse key) InvalidSubAccountId.

Definition sale_idle (s : TlaRegistry) (key : string) : bool :=
  negb (match listings s !! key with Some l => li_settling l | None => false end)
  && negb (match accepted_offers s !! key with Some o => ao_settling o | None => false end).

Definition assert_sale_idle (key : string) : RegM unit :=
  idle ← gets (fun s => sale_idle s key);
  ensure idle SaleInProgress.

Definition assert_sellable (key : string) (tla_id : AccountId) : RegM AccountId :=
  now ← asks block_timestamp;
  sub_account ← parse_sub_account key;
  uses ← gets (fun s => mother_uses s sub_account);
  ensure (negb (0 <? uses)) SubAccountIsMother;;
  sp ← gets signer_pending;
  ensure (bool_decide (sp !! key = None)) SubAccountNotSellable;;
  sub ← get_sub key;
  ensure (bool_decide (se_tla_id sub = tla_id)) SubAccountTlaMismatch;;
  ensure (bool_decide (se_retraction_at sub = None)) RetractionPending;;
  tla ← get_tla_entry tla_id;
  ensure (negb (bool_decide (te_tla_type tla = TlaType_Business))) BusinessSubNotResellable;;
  ensure (bool_decide (te_status tla = TlaStatus_Active)) SubAccountNotSellable;;
  cfg ← gets fee_config;
  grace ← gets grace_period_ns;
  ensure (bool_decide (effective_sub_lifecycle now sub tla (retraction_notice_ns cfg) grace
                       = Lifecycle_Active)) SubAccountNotSellable;;
  mret (se_owner sub).

Definition assert_listable (tla_id : AccountId) (name : string) (price : Z)
    (owner_key : PublicKey) : RegM (AccountId * AccountId) :=
  assert_one_yocto;;
  assert_not_paused;;
  validate_name name;;
  ensure (negb (price =? 0)) InvalidPrice;;
  ensure (is_ed25519 owner_key) NotEd25519;;
  let key := sub_account_key tla_id name in
  assert_sale_idle key;;
  owner ← assert_sellable key tla_id;
  caller ← asks predecessor_account_id;
  ensure (bool_decide (caller = owner)) OnlyOwner;;
  sub_account ← parse_sub_account key;
  mret (sub_account, owner).

Definition sub_account_owner (key : string) : RegM AccountId :=
  sub ← get_sub key;
  mret (se_owner sub).

Definition current_key_matches (current : CallResult (option string)) (owner_key : PublicKey)
    : bool :=
  match current, ed25519_base58 owner_key with
  | Ok (Some signer), Some expected =>
      bool_decide (default signer (strip_prefix "ed25519:" signer) = expected)
  | _, _ => false
  end.

(** ** marketplace.rs: the settlement lock *)
Definition resolve_and_lock_listing (key : string) (deposit : option Z) : RegM (Z * PublicKey) :=
  ls ← gets listings;
  match ls !! key with
  | Some l =>
      (match deposit with
       | Some deposit => ensure (negb (deposit <? li_price l)) PriceNotMet
       | None => mret tt
       end);;
      modify (fun s => s <| listings ::= <[key := l <| li_settling := true |>]> |>);;
      mret (li_price l, li_owner_key l)
  | None => throw NotListed
  end.

Definition resolve_and_lock_sale (key : string) (buyer : AccountId) (deposit : Z)
    : RegM (Z * PublicKey) :=
  os ← gets accepted_offers;
  match os !! key with
  | Some o =>
      if bool_decide (ao_buyer o = buyer) then
        ensure (negb (deposit <? ao_price o)) PriceNotMet;;
        modify (fun s => s <| accepted_offers ::= <[key := o <| ao_settling := true |>]> |>);;
        mret (ao_price o, ao_owner_key o)
      else resolve_and_lock_listing key (Some deposit)
  | None => resolve_and_lock_listing key (Some deposit)
  end.

Definition resolve_and_lock_paid_sale (key : string) (buyer : AccountId) : RegM (Z * PublicKey) :=
  os ← gets accepted_offers;
  match os !! key with
  | Some o =>
      if bool_decide (ao_buyer o = buyer) then
        modify (fun s => s <| accepted_offers ::= <[key := o <| ao_settling := true |>]> |>);;
        mret (ao_price o, ao_owner_key o)
      else resolve_and_lock_listing key None
  | None => resolve_and_lock_listing key None
  end.

Definition clear_settling (key : string) : RegM unit :=
  modify (fun s => s <| listings ::= alter (fun l => l <| li_settling := false |>) key |>
                     <| accepted_offers ::= alter (fun o => o <| ao_settling := false |>) key |>).

Definition abort_sale (key : string) (settlement : PendingBuy) (token reason : string)
    : RegM (PromiseOrValue Msg Callback unit) :=
  add_pending_refund (pb_buyer settlement) (pb_deposit settlement);;
  clear_settling key;;
  emit (Event_SubAccountSaleBlocked key token reason);;
  mret (POV_Value tt).

(** ** marketplace.rs: methods *)
Definition list_sub_account (tla_id : AccountId) (name : string) (price : Z)
    (owner_key : PublicKey) : RegM RegPromise :=
  '(sub_account, owner) ← assert_listable tla_id name price owner_key;
  signer ← gets active_signer;
  mret (PThen (ext_call signer (Msg_signer_of sub_account) 0 GAS_FOR_SIGNER_QUERY)
          (Cb_on_listing_verified tla_id name price owner_key owner) GAS_FOR_VERIFY_CALLBACK).

Definition owner_is (s : TlaRegistry) (key : string) (account : AccountId) : bool :=
  bool_decide (se_owner <$> sub_accounts s !! key = Some account).

Definition on_listing_verified (tla_id : AccountId) (name : string) (price : Z)
    (owner_key : PublicKey) (seller : AccountId) (current : CallResult (option string))
    : RegM unit :=
  private_method "on_listing_verified";;
  let key := sub_account_key tla_id name in
  if negb (current_key_matches current owner_key) then
    emit (Event_ListingRejected key seller "owner_key_not_current")
  else
    still_owner ← gets (fun s => owner_is s key seller);
    if negb still_owner then emit (Event_ListingRejected key seller "owner_changed")
    else
      ls ← gets listings;
      if default false (li_settling <$> ls !! key) then
        emit (Event_ListingRejected key seller "settlement_in_progress")
      else
        modify (fun s => s <| listings ::= <[key := mkListing price false owner_key]> |>);;
        emit (Event_SubAccountListed key price seller).

Definition unlist_sub_account (tla_id : AccountId) (name : string) : RegM unit :=
  assert_one_yocto;;
  assert_not_paused;;
  validate_name name;;
  let key := sub_account_key tla_id name in
  assert_sale_idle key;;
  ls ← gets listings;
  ensure (bool_decide (is_Some (ls !! key))) NotListed;;
  owner ← sub_account_owner key;
  caller ← asks predecessor_account_id;
  ensure (bool_decide (caller = owner)) OnlyOwner;;
  modify (fun s => s <| listings ::= delete key |>);;
  emit (Event_SubAccountUnlisted key owner).

Definition accept_offer (tla_id : AccountId) (name : string) (buyer : AccountId) (price : Z)
    (owner_key : PublicKey) : RegM RegPromise :=
  '(sub_account, owner) ← assert_listable tla_id name price owner_key;
  signer ← gets active_signer;
  mret (PThen (ext_call signer (Msg_signer_of sub_account) 0 GAS_FOR_SIGNER_QUERY)
          (Cb_on_offer_verified tla_id name buyer price owner_key owner) GAS_FOR_VERIFY_CALLBACK).

Definition on_offer_verified (tla_id : AccountId) (name : string) (buyer : AccountId) (price : Z)
    (owner_key : PublicKey) (seller : AccountId) (current : CallResult (option string))
    : RegM unit :=
  private_method "on_offer_verified";;
  let key := sub_account_key tla_id name in
  if negb (current_key_matches current owner_key) then
    emit (Event_OfferRejected key buyer seller "owner_key_not_current")
  else
    still_owner ← gets (fun s => owner_is s key seller);
    if negb still_owner then emit (Event_OfferRejected key buyer seller "owner_changed")
    else
      os ← gets accepted_offers;
      if default false (ao_settling <$> os !! key) then
        emit (Event_OfferRejected key buyer seller "settlement_in_progress")
      else
        modify (fun s => s <| accepted_offers ::=
                           <[key := mkAcceptedOffer buyer price false owner_key]> |>);;
        emit (Event_OfferAccepted key buyer price seller).

Definition revoke_offer (tla_id : AccountId) (name : string) : RegM unit :=
  assert_one_yocto;;
  assert_not_paused;;
  validate_name name;;
  let key := sub_account_key tla_id name in
  assert_sale_idle key;;
  os ← gets accepted_offers;
  ensure (bool_decide (is_Some (os !! key))) NoAcceptedOffer;;
  owner ← sub_account_owner key;
  caller ← asks predecessor_account_id;
  ensure (bool_decide (caller = owner)) OnlyOwner;;
  modify (fun s => s <| accepted_offers ::= delete key |>);;
  emit (Event_OfferRevoked key owner).

Definition settle_transfer (hos_extension : AccountId) (settlement : PendingBuy) : RegPromise :=
  PThen (ext_call hos_extension
           (Msg_force_transfer (pb_sub_account settlement) (pb_new_owner_key settlement)
              (Some (pb_owner_key settlement))) 0 GAS_FOR_FORCE_TRANSFER)
    (Cb_on_sub_account_sold (pb_tla_id settlement) (pb_name settlement) (pb_buyer settlement)
       (pb_price settlement) (pb_deposit settlement)) GAS_FOR_SOLD_CALLBACK.

Definition settle_transfer_paid (hos_extension : AccountId) (settlement : PendingBuy)
    (operator : AccountId) : RegPromise :=
  PThen (ext_call hos_extension
           (Msg_force_transfer (pb_sub_account settlement) (pb_new_owner_key settlement)
              (Some (pb_owner_key settlement))) 0 GAS_FOR_FORCE_TRANSFER)
    (Cb_on_sub_account_sold_paid (pb_tla_id settlement) (pb_name settlement) (pb_buyer settlement)
       operator (pb_price settlement)) GAS_FOR_SOLD_CALLBACK.

(** The allow-list as the registry iterates it. *)
Definition allowlist_of (s : TlaRegistry) : list AccountId := elements (ft_allowlist s).

Definition buy_sub_account (tla_id : AccountId) (name : string) (new_owner_key : PublicKey)
    : RegM RegPromise :=
  assert_not_paused;;
  validate_name name;;
  ensure (is_ed25519 new_owner_key) NotEd25519;;
  let key := sub_account_key tla_id name in
  assert_sale_idle key;;
  assert_sellable key tla_id;;
  buyer ← asks predecessor_account_id;
  deposit ← asks attached_deposit;
  '(price, owner_key) ← resolve_and_lock_sale key buyer deposit;
  sub_account ← parse_sub_account key;
  let settlement := mkPendingBuy tla_id name buyer new_owner_key price deposit owner_key sub_account in
  allowlist ← gets allowlist_of;
  ext ← gets hos_extension;
  match ft_balance_fanout allowlist sub_account with
  | None => mret (settle_transfer ext settlement)
  | Some chain =>
      mret (PThen chain (Cb_on_buy_balances_checked settlement allowlist) GAS_FOR_BUY_BALANCES_CB)
  end.

Definition buy_sub_account_paid (tla_id : AccountId) (name : string) (buyer : AccountId)
    (new_owner_key : PublicKey) : RegM (PromiseOrValue Msg Callback unit) :=
  not_payable "buy_sub_account_paid";;
  assert_not_paused;;
  operator ← assert_payment_authority;
  validate_name name;;
  ensure (is_ed25519 new_owner_key) NotEd25519;;
  let key := sub_account_key tla_id name in
  assert_sale_idle key;;
  assert_sellable key tla_id;;
  '(price, owner_key) ← resolve_and_lock_paid_sale key buyer;
  sub_account ← parse_sub_account key;
  let settlement := mkPendingBuy tla_id name buyer new_owner_key price 0 owner_key sub_account in
  allowlist ← gets allowlist_of;
  ext ← gets hos_extension;
  match ft_balance_fanout allowlist sub_account with
  | None => mret (POV_Promise (settle_transfer_paid ext settlement operator))
  | Some chain =>
      mret (POV_Promise (PThen chain (Cb_on_buy_paid_balances_checked settlement allowlist operator)
                           GAS_FOR_BUY_BALANCES_CB))
  end.

Definition swap_done (swapped : CallResult bool) : bool :=
  match swapped with Ok true => true | _ => false end.

Definition on_sub_account_sold (tla_id : AccountId) (name : string) (buyer : AccountId)
    (price deposit : Z) (swapped : CallResult bool) : RegM unit :=
  private_method "on_sub_account_sold";;
  let key := sub_account_key tla_id name in
  if negb (swap_done swapped) then
    add_pending_refund buyer deposit;;
    clear_settling key;;
    emit (Event_SubAccountSaleFailed key buyer)
  else
    subs ← gets sub_accounts;
    match subs !! key with
    | None =>
        add_pending_refund buyer deposit;;
        clear_settling key
    | Some sub =>
        let seller := se_owner sub in
        cfg ← gets fee_config;
        let '(commission, seller_proceeds) := split_resale price (resale_commission_bps cfg) in
        add_revenue commission;;
        add_pending_refund seller seller_proceeds;;
        refund_excess buyer deposit price;;
        put_sub key (sub <| se_owner := buyer |> <| se_main_wallet := buyer |>);;
        modify (fun s => s <| listings ::= delete key |>);;
        modify (fun s => s <| accepted_offers ::= delete key |>);;
        emit (Event_SubAccountSold key tla_id seller buyer price commission seller_proceeds)
    end.

Definition on_sub_account_sold_paid (tla_id : AccountId) (name : string)
    (buyer operator : AccountId) (price : Z) (swapped : CallResult bool) : RegM unit :=
  private_method "on_sub_account_sold_paid";;
  let key := sub_account_key tla_id name in
  if negb (swap_done swapped) then
    clear_settling key;;
    emit (Event_SubAccountSaleFailed key buyer)
  else
    subs ← gets sub_accounts;
    match subs !! key with
    | None => clear_settling key
    | Some sub =>
        let seller := se_main_wallet sub in
        put_sub key (sub <| se_owner := operator |> <| se_main_wallet := buyer |>);;
        modify (fun s => s <| listings ::= delete key |>);;
        modify (fun s => s <| accepted_offers ::= delete key |>);;
        emit (Event_SubAccountSold key tla_id seller buyer price 0 0)
    end.

Definition on_buy_balances_checked (settlement : PendingBuy) (allowlist : list AccountId)
    : RegM (PromiseOrValue Msg Callback unit) :=
  private_method "on_buy_balances_checked";;
  let key := sub_account_key (pb_tla_id settlement) (pb_name settlement) in
  gate ← asks (fun env => ft_balances_clear env allowlist);
  match gate with
  | BalanceGate_Blocked token reason => abort_sale key settlement token reason
  | BalanceGate_Clear =>
      ext ← gets hos_extension;
      mret (POV_Promise (settle_transfer ext settlement))
  end.

Definition on_buy_paid_balances_checked (settlement : PendingBuy) (allowlist : list AccountId)
    (operator : AccountId) : RegM (PromiseOrValue Msg Callback unit) :=
  private_method "on_buy_paid_balances_checked";;
  let key := sub_account_key (pb_tla_id settlement) (pb_name settlement) in
  gate ← asks (fun env => ft_balances_clear env allowlist);
  match gate with
  | BalanceGate_Blocked token reason =>
      clear_settling key;;
      emit (Event_SubAccountSaleBlocked key token reason);;
      mret (POV_Value tt)
  | BalanceGate_Clear =>
      ext ← gets hos_extension;
      mret (POV_Promise (settle_transfer_paid ext settlement operator))
  end.

Definition get_listing (s : TlaRegistry) (tla_id : AccountId) (name : string) : option ListingView :=
  let key := sub_account_key tla_id name in
  (fun l => mkListingView key (li_price l) (li_settling l)) <$> listings s !! key.

Definition get_accepted_offer (s : TlaRegistry) (tla_id : AccountId) (name : string)
    : option AcceptedOfferView :=
  let key := sub_account_key tla_id name in
  (fun o => mkAcceptedOfferView key (ao_buyer o) (ao_price o) (ao_settling o))
    <$> accepted_offers s !! key.
End RegistryMarket.

#[export] Hint Unfold parse_sub_account assert_sale_idle sub_account_owner : near_unfold.
