(* ===== verification/RegistryRental.v ===== *)
(** * tla-registry: renting names

    Models [contracts/tla-registry/src/rental.rs] and [callbacks.rs]: the
    activation and renewal of TLAs, the rental of a fresh name (minted through
    tla-manager) or of a parked one (transferred through hos-extension), the
    operator-paid rental, and the callbacks that charge or refund them. *)
From S2P Require Export RegistryMarket.

Definition GAS_FOR_CREATE : Z := 90 * Tgas.
Definition GAS_FOR_CALLBACK : Z := 15 * Tgas.
Definition GAS_FOR_RERENT_FORCE : Z := 45 * Tgas.
Definition RENTAL_GAS_FOR_RETRY_INSTALL : Z := 30 * Tgas.
Definition GAS_FOR_RERENT_BALANCES_CB : Z := 85 * Tgas.

Section RegistryRental.
Context `{HS : !Sdk}.

(** ** callbacks.rs: charging and failing a mint *)
Definition settle_failed_mint (key : string) (tla_id payer : AccountId) (attached : Z)
    (reason : string) : RegM unit :=
  modify (fun s => s <| sub_accounts ::= delete key |>);;
  business_count_decrement_if_business tla_id;;
  add_pending_refund payer attached;;
  emit (Event_RefundPending payer attached reason).

Definition rented_until (key : string) : RegM Z :=
  subs ← gets sub_accounts;
  match subs !! key with
  | Some sub => mret (se_expires_at sub)
  | None => throw SubAccountNotFound
  end.

Definition count_sub_account : RegM unit :=
  modify (fun s => s <| sub_account_count ::= fun c => saturating_add U64_MAX c 1 |>).

Definition record_rental (key : string) (payer : AccountId) (rent attached : Z) : RegM Z :=
  count_sub_account;;
  add_revenue rent;;
  cfg ← gets fee_config;
  let charged := saturating_add U128_MAX rent (account_creation_deposit cfg) in
  refund_excess payer attached charged;;
  rented_until key.

Definition record_paid_rental (key : string) (payer : AccountId) (attached : Z) : RegM Z :=
  count_sub_account;;
  cfg ← gets fee_config;
  refund_excess payer attached (account_creation_deposit cfg);;
  rented_until key.

Definition on_sub_account_created (tla_id : AccountId) (name : string) (payer : AccountId)
    (owner_key : PublicKey) (rent attached : Z) (outcome : CallResult MintOutcome) : RegM unit :=
  private_method "on_sub_account_created";;
  let key := sub_account_key tla_id name in
  match outcome with
  | Ok MintOutcome_Active =>
      expires_at ← record_rental key payer rent attached;
      emit (Event_SubAccountRented key tla_id payer rent expires_at)
  | Ok MintOutcome_SignerPending =>
      expires_at ← record_rental key payer rent attached;
      modify (fun s => s <| signer_pending ::= <[key := owner_key]> |>);;
      emit (Event_SubAccountRented key tla_id payer rent expires_at);;
      emit (Event_SubAccountSignerPending key payer)
  | Ok MintOutcome_CreationFailed | Err _ =>
      settle_failed_mint key tla_id payer attached "sub-account creation failed"
  end.

Definition on_sub_account_created_paid (tla_id : AccountId) (name : string) (payer : AccountId)
    (owner_key : PublicKey) (rent attached : Z) (outcome : CallResult MintOutcome) : RegM unit :=
  private_method "on_sub_account_created_paid";;
  let key := sub_account_key tla_id name in
  match outcome with
  | Ok MintOutcome_Active =>
      expires_at ← record_paid_rental key payer attached;
      emit (Event_SubAccountRented key tla_id payer rent expires_at)
  | Ok MintOutcome_SignerPending =>
      expires_at ← record_paid_rental key payer attached;
      modify (fun s => s <| signer_pending ::= <[key := owner_key]> |>);;
      emit (Event_SubAccountRented key tla_id payer rent expires_at);;
      emit (Event_SubAccountSignerPending key payer)
  | Ok MintOutcome_CreationFailed | Err _ =>
      settle_failed_mint key tla_id payer attached "paid sub-account creation failed"
  end.

Definition on_sub_account_re_rented (tla_id : AccountId) (name : string) (payer : AccountId)
    (rent attached : Z) : RegM unit :=
  private_method "on_sub_account_re_rented";;
  let key := sub_account_key tla_id name in
  success ← is_promise_success;
  if negb success then
    settle_failed_mint key tla_id payer attached "sub-account re-rent failed"
  else
    modify (fun s => s <| parked_names ::= delete key |>);;
    count_sub_account;;
    add_revenue rent;;
    refund_excess payer attached rent;;
    subs ← gets sub_accounts;
    match subs !! key with
    | None => mret tt
    | Some sub => emit (Event_SubAccountReRented key tla_id payer rent (se_expires_at sub))
    end.

(** ** rental.rs *)
Definition tla_len (tla_id : AccountId) : Z := cast_u8 (str_len tla_id).

Definition activate_tla (tla_id : AccountId) : RegM unit :=
  assert_not_paused;;
  caller ← asks predecessor_account_id;
  cfg ← gets fee_config;
  let rent := base_rent (tla_len tla_id) cfg in
  let required := saturating_add U128_MAX (tla_allocation_fee cfg) rent in
  attached ← asks attached_deposit;
  ensure (negb (attached <? required)) InsufficientPayment;;
  entry ← get_tla_entry tla_id;
  ensure (bool_decide (te_status entry = TlaStatus_Registered)) TlaNotInRegisteredState;;
  ensure (bool_decide (te_tla_type entry = TlaType_Business)) WrongActivationEndpoint;;
  licensee ← ok_or (te_licensee entry) BusinessTlaMissingLicensee;
  ensure (bool_decide (caller = licensee)) OnlyLicensee;;
  now ← asks block_timestamp;
  let new_expires_at := saturating_add U64_MAX now ONE_YEAR_NS in
  put_tla tla_id (entry <| te_status := TlaStatus_Active |> <| te_activated_at := now |>
                        <| te_expires_at := new_expires_at |>);;
  add_revenue required;;
  refund_excess caller attached required;;
  emit (Event_TlaActivated tla_id new_expires_at required).

(** The licensee check of a business TLA on [who], and the rent of a name. *)
Definition rental_terms (tla_id : AccountId) (name : string) (who : AccountId)
    : RegM (Z * bool) :=
  now ← asks block_timestamp;
  entry ← get_tla_entry tla_id;
  ensure (is_accepting_rentals now entry) TlaNotAcceptingRentals;;
  let is_business := bool_decide (te_tla_type entry = TlaType_Business) in
  (if is_business then
     licensee ← ok_or (te_licensee entry) BusinessTlaMissingLicensee;
     ensure (bool_decide (who = licensee)) OnlyLicensee
   else mret tt);;
  cfg ← gets fee_config;
  mret (calculate_rent entry tla_id name cfg, is_business).

Definition re_rent_transfer (hos_extension : AccountId) (pending : PendingReRent) : RegPromise :=
  PThen (ext_call hos_extension
           (Msg_force_transfer (pr_sub_account pending) (pr_owner_key pending) None) 0
           GAS_FOR_RERENT_FORCE)
    (Cb_on_sub_account_re_rented (pr_tla_id pending) (pr_name pending) (pr_payer pending)
       (pr_rent pending) (pr_attached pending)) GAS_FOR_CALLBACK.

Definition rent_sub_account (tla_id : AccountId) (name : string) (owner_key : PublicKey)
    (main_wallet : AccountId) : RegM RegPromise :=
  assert_not_paused;;
  validate_name name;;
  let key := sub_account_key tla_id name in
  subs ← gets sub_accounts;
  ensure (bool_decide (subs !! key = None)) SubAccountNameTaken;;
  ensure (negb (bool_decide (main_wallet = key))) MainWalletEqualsSubAccount;;
  parked ← gets parked_names;
  let is_re_rent := bool_decide (is_Some (parked !! key)) in
  caller ← asks predecessor_account_id;
  '(rent, is_business) ← rental_terms tla_id name caller;
  cfg ← gets fee_config;
  let total := if is_re_rent then rent
               else saturating_add U128_MAX rent (account_creation_deposit cfg) in
  attached ← asks attached_deposit;
  ensure (negb (attached <? total)) InsufficientPayment;;
  ensure_mother_default caller;;
  (if is_business : bool then business_count_check_and_bump tla_id else mret tt);;
  now ← asks block_timestamp;
  put_sub key (mkSubAccountEntry caller tla_id main_wallet now
                 (saturating_add U64_MAX now ONE_YEAR_NS) None);;
  if is_re_rent then
    sub_account ← parse_sub_account key;
    let pending := mkPendingReRent tla_id name caller owner_key rent attached sub_account in
    allowlist ← gets allowlist_of;
    ext ← gets hos_extension;
    match ft_balance_fanout allowlist sub_account with
    | None => mret (re_rent_transfer ext pending)
    | Some chain =>
        mret (PThen chain (Cb_on_re_rent_balances_checked pending allowlist)
                GAS_FOR_RERENT_BALANCES_CB)
    end
  else
    mret (PThen (ext_call tla_id (Msg_create_sub_account name owner_key)
                   (account_creation_deposit cfg) GAS_FOR_CREATE)
            (Cb_on_sub_account_created tla_id name caller owner_key rent attached)
            GAS_FOR_CALLBACK).

Definition rent_sub_account_paid (tla_id : AccountId) (name : string) (owner_key : PublicKey)
    (main_wallet : AccountId) : RegM RegPromise :=
  assert_not_paused;;
  payer ← assert_payment_authority;
  validate_name name;;
  ensure (is_ed25519 owner_key) NotEd25519;;
  let key := sub_account_key tla_id name in
  subs ← gets sub_accounts;
  parked ← gets parked_names;
  ensure (bool_decide (subs !! key = None) && bool_decide (parked !! key = None))
    SubAccountNameTaken;;
  ensure (negb (bool_decide (main_wallet = key))) MainWalletEqualsSubAccount;;
  '(rent, is_business) ← rental_terms tla_id name main_wallet;
  cfg ← gets fee_config;
  let creation_deposit := account_creation_deposit cfg in
  attached ← asks attached_deposit;
  ensure (negb (attached <? creation_deposit)) InsufficientPayment;;
  ensure_mother_default payer;;
  (if is_business : bool then business_count_check_and_bump tla_id else mret tt);;
  now ← asks block_timestamp;
  put_sub key (mkSubAccountEntry payer tla_id main_wallet now
                 (saturating_add U64_MAX now ONE_YEAR_NS) None);;
  mret (PThen (ext_call tla_id (Msg_create_sub_account name owner_key) creation_deposit
                 GAS_FOR_CREATE)
          (Cb_on_sub_account_created_paid tla_id name payer owner_key rent attached)
          GAS_FOR_CALLBACK).

Definition renew_tla (tla_id : AccountId) : RegM unit :=
  assert_not_paused;;
  caller ← asks predecessor_account_id;
  cfg ← gets fee_config;
  grace ← gets grace_period_ns;
  let rent := base_rent (tla_len tla_id) cfg in
  now ← asks block_timestamp;
  entry ← get_tla_entry tla_id;
  ensure (bool_decide (te_status entry = TlaStatus_Active)) TlaNotActive;;
  ensure (negb (saturating_add U64_MAX (te_expires_at entry) grace <=? now)) TlaPastGracePeriod;;
  (if bool_decide (te_tla_type entry = TlaType_Business) then
     licensee ← ok_or (te_licensee entry) BusinessTlaMissingLicensee;
     ensure (bool_decide (caller = licensee)) OnlyLicensee
   else assert_admin);;
  attached ← asks attached_deposit;
  ensure (negb (attached <? rent)) InsufficientPayment;;
  let new_expires_at := saturating_add U64_MAX (Z.max now (te_expires_at entry)) ONE_YEAR_NS in
  put_tla tla_id (entry <| te_expires_at := new_expires_at |>);;
  add_revenue rent;;
  refund_excess caller attached rent;;
  emit (Event_TlaRenewed tla_id new_expires_at rent).

Definition set_main_wallet (tla_id : AccountId) (name : string) (new_wallet : AccountId)
    : RegM unit :=
  assert_one_yocto;;
  assert_not_paused;;
  let key := sub_account_key tla_id name in
  assert_sale_idle key;;
  ensure (negb (bool_decide (new_wallet = key))) MainWalletEqualsSubAccount;;
  caller ← asks predecessor_account_id;
  sub ← get_sub key;
  ensure (bool_decide (caller = se_owner sub)) OnlyOwner;;
  put_sub key (sub <| se_main_wallet := new_wallet |>);;
  emit (Event_MainWalletUpdated key new_wallet).

Definition renew_sub_account (tla_id : AccountId) (name : string) : RegM unit :=
  assert_not_paused;;
  let key := sub_account_key tla_id name in
  caller ← asks predecessor_account_id;
  now ← asks block_timestamp;
  grace ← gets grace_period_ns;
  sub ← get_sub key;
  ensure (negb (saturating_add U64_MAX (se_expires_at sub) grace <=? now))
    SubAccountPastGracePeriod;;
  ensure (bool_decide (caller = se_owner sub)) OnlyOwner;;
  ensure (bool_decide (se_retraction_at sub = None)) RetractionPending;;
  tla ← get_tla_entry tla_id;
  ensure (negb (bool_decide (tla_lifecycle now tla grace = Lifecycle_Reclaimable)))
    TlaPastGracePeriod;;
  cfg ← gets fee_config;
  let rent := calculate_rent tla tla_id name cfg in
  attached ← asks attached_deposit;
  ensure (negb (attached <? rent)) InsufficientPayment;;
  let new_expires_at := saturating_add U64_MAX (Z.max now (se_expires_at sub)) ONE_YEAR_NS in
  put_sub key (sub <| se_expires_at := new_expires_at |>);;
  add_revenue rent;;
  refund_excess caller attached rent;;
  emit (Event_SubAccountRenewed key new_expires_at rent).

Definition retry_signer_install (tla_id : AccountId) (name : string) : RegM RegPromise :=
  not_payable "retry_signer_install";;
  assert_not_paused;;
  let key := sub_account_key tla_id name in
  sp ← gets signer_pending;
  owner_key ← ok_or (sp !! key) SignerNotPending;
  sub ← get_sub key;
  caller ← asks predecessor_account_id;
  ensure (bool_decide (caller = se_owner sub)) OnlyOwner;;
  sub_account ← parse_sub_account key;
  mret (PThen (ext_call tla_id (Msg_retry_install sub_account owner_key) 0
                 RENTAL_GAS_FOR_RETRY_INSTALL)
          (Cb_on_retry_signer_settled key) GAS_FOR_CALLBACK).

Definition on_retry_signer_settled (key : string) : RegM unit :=
  private_method "on_retry_signer_settled";;
  success ← is_promise_success;
  if negb success then mret tt
  else
    modify (fun s => s <| signer_pending ::= delete key |>);;
    emit (Event_SignerInstalled key).

Definition on_re_rent_balances_checked (pending : PendingReRent) (allowlist : list AccountId)
    : RegM (PromiseOrValue Msg Callback unit) :=
  private_method "on_re_rent_balances_checked";;
  let key := sub_account_key (pr_tla_id pending) (pr_name pending) in
  gate ← asks (fun env => ft_balances_clear env allowlist);
  match gate with
  | BalanceGate_Blocked token reason =>
      settle_failed_mint key (pr_tla_id pending) (pr_payer pending) (pr_attached pending)
        "re-rent blocked by asset gate";;
      emit (Event_SubAccountSaleBlocked key token reason);;
      mret (POV_Value tt)
  | BalanceGate_Clear =>
      ext ← gets hos_extension;
      mret (POV_Promise (re_rent_transfer ext pending))
  end.
End RegistryRental.

#[export] Hint Unfold rented_until count_sub_account rental_terms : near_unfold.
