(* ===== verification/RegistryReclaim.v ===== *)
(** * tla-registry: reclaiming expired names

    Models [contracts/tla-registry/src/reclaim.rs]: sweeping tokens out of a
    reclaimable wallet and parking the wallet under the registry's key. *)
From S2P Require Export RegistryRental.

Definition GAS_FOR_HOS_SWEEP : Z := 120 * Tgas.
Definition GAS_FOR_HOS_FORCE_TRANSFER : Z := 45 * Tgas.
Definition GAS_FOR_RETRY_INSTALL : Z := 30 * Tgas.
Definition GAS_FOR_FINALIZE_CB : Z := 10 * Tgas.
Definition GAS_FOR_BALANCES_CB_TOTAL : Z := 80 * Tgas.
Definition SWEEP_ATTACHED_REQUIRED : Z := FT_STORAGE_DEPOSIT_YOCTO + 1.

Section RegistryReclaim.
Context `{HS : !Sdk}.

Definition resolve_reclaimable (tla_id : AccountId) (key : string)
    : RegCheck (AccountId * AccountId) := fun env s =>
  match account_parse key with
  | None => Fail (Failed InvalidSubAccountId)
  | Some sub_account =>
      match sub_accounts s !! key with
      | None => Fail (Failed SubAccountNotFound)
      | Some sub =>
          if negb (bool_decide (se_tla_id sub = tla_id)) then Fail (Failed SubAccountTlaMismatch)
          else
            let total_refs := mother_uses s sub_account in
            let owner_self_ref := bool_decide (mothers s !! se_owner sub = Some sub_account) in
            let external_refs := if owner_self_ref then saturating_sub total_refs 1 else total_refs in
            if 0 <? external_refs then Fail (Failed SubAccountIsMother)
            else
              match tlas s !! tla_id with
              | None => Fail (Failed TlaNotFound)
              | Some tla =>
                  if negb (bool_decide
                       (effective_sub_lifecycle (block_timestamp env) sub tla
                          (retraction_notice_ns (fee_config s)) (grace_period_ns s)
                        = Lifecycle_Reclaimable))
                  then Fail (Failed SubAccountNotReclaimable)
                  else Done (sub_account, se_main_wallet sub)
              end
      end
  end.

Definition park_wallet (sub_account tla_id : AccountId) (name : string) (destination : AccountId)
    : RegM RegPromise :=
  let key := sub_account_key tla_id name in
  let finalize := Cb_on_reclaim_finalized tla_id name destination in
  sp ← gets signer_pending;
  parked_key ← gets parked_signer_pubkey;
  if bool_decide (is_Some (sp !! key)) then
    mret (PThen (ext_call tla_id (Msg_retry_install sub_account parked_key) 0 GAS_FOR_RETRY_INSTALL)
            finalize GAS_FOR_FINALIZE_CB)
  else
    ext ← gets hos_extension;
    mret (PThen (ext_call ext (Msg_force_transfer sub_account parked_key None) 0
                   GAS_FOR_HOS_FORCE_TRANSFER)
            finalize GAS_FOR_FINALIZE_CB).

Definition reclaim_sweep_ft (tla_id : AccountId) (name : string) (ft : AccountId) (tx_nonce : Z)
    (block_hash : list Z) : RegM RegPromise :=
  assert_not_paused;;
  validate_name name;;
  attached ← asks attached_deposit;
  ensure (negb (attached <? SWEEP_ATTACHED_REQUIRED)) InsufficientPayment;;
  let key := sub_account_key tla_id name in
  assert_sale_idle key;;
  al ← gets ft_allowlist;
  ensure (bool_decide (ft ∈ al)) TokenNotInAllowlist;;
  '(sub_account, destination) ← lift (resolve_reclaimable tla_id key);
  caller ← asks predecessor_account_id;
  refund_excess caller attached SWEEP_ATTACHED_REQUIRED;;
  ext ← gets hos_extension;
  mret (ext_call ext (Msg_sweep_ft sub_account ft destination tx_nonce block_hash)
          SWEEP_ATTACHED_REQUIRED GAS_FOR_HOS_SWEEP).

Definition reclaim_finalize (tla_id : AccountId) (name : string) : RegM RegPromise :=
  not_payable "reclaim_finalize";;
  assert_not_paused;;
  validate_name name;;
  let key := sub_account_key tla_id name in
  assert_sale_idle key;;
  rp ← gets reclaim_pending;
  ensure (bool_decide (rp !! key = None)) ReclaimInProgress;;
  '(sub_account, destination) ← lift (resolve_reclaimable tla_id key);
  modify (fun s => s <| reclaim_pending ::= <[key := true]> |>);;
  allowlist ← gets allowlist_of;
  match ft_balance_fanout allowlist sub_account with
  | None => park_wallet sub_account tla_id name destination
  | Some chain =>
      mret (PThen chain (Cb_on_balances_checked tla_id name destination allowlist)
              GAS_FOR_BALANCES_CB_TOTAL)
  end.

(** [reclaim_pending.remove(&key)] and the event that says why. *)
Definition block_reclaim (key token reason : string) : RegM (PromiseOrValue Msg Callback unit) :=
  modify (fun s => s <| reclaim_pending ::= delete key |>);;
  emit (Event_ReclaimFinalizeBlocked key token reason);;
  mret (POV_Value tt).

Definition on_balances_checked (tla_id : AccountId) (name : string) (destination : AccountId)
    (allowlist : list AccountId) : RegM (PromiseOrValue Msg Callback unit) :=
  private_method "on_balances_checked";;
  let key := sub_account_key tla_id name in
  idle ← gets (fun s => sale_idle s key);
  if negb idle then block_reclaim key EmptyString "sale_in_progress"
  else
    gate ← asks (fun env => ft_balances_clear env allowlist);
    match gate with
    | BalanceGate_Blocked token reason => block_reclaim key token reason
    | BalanceGate_Clear =>
        resolved ← inspect (resolve_reclaimable tla_id key);
        match resolved with
        | Fail _ => block_reclaim key EmptyString "no_longer_reclaimable"
        | Done (sub_account, _) =>
            p ← park_wallet sub_account tla_id name destination;
            mret (POV_Promise p)
        end
    end.

Definition on_reclaim_finalized (tla_id : AccountId) (name : string) (destination : AccountId)
    : RegM unit :=
  private_method "on_reclaim_finalized";;
  let key := sub_account_key tla_id name in
  modify (fun s => s <| reclaim_pending ::= delete key |>);;
  success ← is_promise_success;
  if negb success then emit (Event_ReclaimFinalizeBlocked key EmptyString "park_failed")
  else
    subs ← gets sub_accounts;
    match subs !! key with
    | None => mret tt
    | Some removed =>
        modify (fun s => s <| sub_accounts ::= delete key |>);;
        ms ← gets mothers;
        match account_parse key with
        | Some sub_account =>
            if bool_decide (ms !! se_owner removed = Some sub_account) then
              modify (fun s => s <| mothers ::= delete (se_owner removed) |>);;
              decrement_mother_use sub_account
            else mret tt
        | None => mret tt
        end;;
        modify (fun s => s <| listings ::= delete key |>);;
        modify (fun s => s <| accepted_offers ::= delete key |>);;
        modify (fun s => s <| signer_pending ::= delete key |>);;
        modify (fun s => s <| sub_account_count ::= fun c => saturating_sub c 1 |>);;
        business_count_decrement_if_business tla_id;;
        now ← asks block_timestamp;
        modify (fun s => s <| parked_names ::= <[key := mkParkedEntry tla_id now]> |>);;
        emit (Event_SubAccountReclaimed key tla_id destination)
    end.
End RegistryReclaim.

#[export] Hint Unfold park_wallet block_reclaim : near_unfold.
