(* ===== verification/RegistryAdmin.v ===== *)
(** * tla-registry: administration

    Models [contracts/tla-registry/src/admin.rs]: registering, suspending and
    activating TLAs, the admin and payment-authority sets, the fee
    configuration, withdrawals, the token allow-list and the manual clearing of
    settlement locks; and the contract's dispatcher over all its methods. *)
From S2P Require Export RegistryReclaim.

Definition MAX_ALLOWLIST_SIZE : Z := 16.

Section RegistryAdmin.
Context `{HS : !Sdk}.

Definition register_tla (tla_id : AccountId) (tla_type : TlaType)
    (premium_category : PremiumCategory) (licensee : option AccountId) : RegM unit :=
  not_payable "register_tla";;
  assert_admin;;
  ts ← gets tlas;
  ensure (bool_decide (ts !! tla_id = None)) TlaAlreadyRegistered;;
  ensure (negb (bool_decide (tla_type = TlaType_Business) && bool_decide (licensee = None)))
    BusinessTlaRequiresLicensee;;
  put_tla tla_id (mkTlaEntry tla_type TlaStatus_Registered licensee premium_category 0 0);;
  let type_str := match tla_type with TlaType_Business => "business" | TlaType_Open => "open" end in
  let premium_str := match premium_category with
                     | PremiumCategory_Legendary => "legendary"
                     | PremiumCategory_Premium => "premium"
                     | PremiumCategory_Standard => "standard"
                     | PremiumCategory_Community => "community"
                     end in
  emit (Event_TlaRegistered tla_id type_str premium_str licensee).

Definition suspend_tla (tla_id : AccountId) : RegM unit :=
  not_payable "suspend_tla";;
  assert_admin;;
  entry ← get_tla_entry tla_id;
  ensure (negb (bool_decide (te_status entry = TlaStatus_Registered))) TlaNotActive;;
  put_tla tla_id (entry <| te_status := TlaStatus_Suspended |>);;
  by_ ← asks predecessor_account_id;
  emit (Event_TlaSuspended tla_id "suspended" by_).

Definition unsuspend_tla (tla_id : AccountId) : RegM unit :=
  not_payable "unsuspend_tla";;
  assert_admin;;
  entry ← get_tla_entry tla_id;
  ensure (bool_decide (te_status entry = TlaStatus_Suspended)) TlaNotSuspended;;
  ensure (negb (bool_decide (te_tla_type entry = TlaType_Business)
                && bool_decide (te_licensee entry = None))) BusinessTlaMissingLicensee;;
  put_tla tla_id (entry <| te_status := TlaStatus_Active |>);;
  by_ ← asks predecessor_account_id;
  emit (Event_TlaUnsuspended tla_id "unsuspended" by_).

Definition add_admin (account_id : AccountId) : RegM unit :=
  not_payable "add_admin";;
  assert_admin;;
  ads ← gets admins;
  if bool_decide (account_id ∈ ads) then mret tt
  else
    modify (fun s => s <| admins ::= union {[account_id]} |>);;
    by_ ← asks predecessor_account_id;
    emit (Event_AdminAdded "added" account_id by_).

Definition remove_admin (account_id : AccountId) : RegM unit :=
  not_payable "remove_admin";;
  assert_admin;;
  ads ← gets admins;
  ensure (negb (Z.of_nat (size ads) <=? 1)) CannotRemoveLastAdmin;;
  modify (fun s => s <| admins ::= fun x => x ∖ {[account_id]} |>);;
  by_ ← asks predecessor_account_id;
  emit (Event_AdminRemoved "removed" account_id by_).

Definition add_payment_authority (account_id : AccountId) : RegM unit :=
  not_payable "add_payment_authority";;
  assert_admin;;
  pas ← gets payment_authorities;
  if bool_decide (account_id ∈ pas) then mret tt
  else
    modify (fun s => s <| payment_authorities ::= union {[account_id]} |>);;
    by_ ← asks predecessor_account_id;
    emit (Event_PaymentAuthorityAdded account_id by_).

Definition remove_payment_authority (account_id : AccountId) : RegM unit :=
  not_payable "remove_payment_authority";;
  assert_admin;;
  pas ← gets payment_authorities;
  if negb (bool_decide (account_id ∈ pas)) then mret tt
  else
    modify (fun s => s <| payment_authorities ::= fun x => x ∖ {[account_id]} |>);;
    by_ ← asks predecessor_account_id;
    emit (Event_PaymentAuthorityRemoved account_id by_).

Definition update_fee_config (config : FeeConfig) : RegM unit :=
  not_payable "update_fee_config";;
  assert_admin;;
  ensure (negb ((rent_tier_5 config =? 0) && (rent_tier_8 config =? 0)
                && (rent_tier_10 config =? 0) && (rent_tier_12plus config =? 0))) AllRentTiersZero;;
  ensure (negb (account_creation_deposit config =? 0)) CreationDepositZero;;
  ensure (negb (10000 <? resale_commission_bps config)) InvalidCommissionRate;;
  modify (fun s => s <| fee_config := config |>);;
  by_ ← asks predecessor_account_id;
  emit (Event_FeeConfigUpdated by_).

Definition set_parked_signer_pubkey (pubkey : PublicKey) : RegM unit :=
  not_payable "set_parked_signer_pubkey";;
  assert_admin;;
  ensure (is_ed25519 pubkey) NotEd25519;;
  modify (fun s => s <| parked_signer_pubkey := pubkey |>);;
  by_ ← asks predecessor_account_id;
  emit (Event_ParkedSignerUpdated pubkey by_).

Definition withdraw (amount : Z) (recipient : AccountId) : RegM unit :=
  not_payable "withdraw";;
  assert_admin;;
  ensure (negb (amount =? 0)) WithdrawalAmountZero;;
  revenue ← gets total_revenue;
  ensure (negb (revenue <? amount)) InsufficientRevenue;;
  owed ← gets total_pending_refunds;
  available ← asks available_balance;
  ensure (negb (available <? saturating_add U128_MAX owed amount)) InsufficientContractBalance;;
  modify (fun s => s <| total_revenue ::= fun t => saturating_sub t amount |>);;
  add_pending_refund recipient amount;;
  emit (Event_WithdrawalQueued amount recipient).

Definition add_ft_allowlist (token : AccountId) : RegM unit :=
  not_payable "add_ft_allowlist";;
  assert_admin;;
  al ← gets ft_allowlist;
  if bool_decide (token ∈ al) then mret tt
  else
    ensure (negb (MAX_ALLOWLIST_SIZE <=? Z.of_nat (size al))) AllowlistFull;;
    modify (fun s => s <| ft_allowlist ::= union {[token]} |>);;
    by_ ← asks predecessor_account_id;
    emit (Event_FtAllowlistAdded "ft" token by_).

Definition remove_ft_allowlist (token : AccountId) : RegM unit :=
  not_payable "remove_ft_allowlist";;
  assert_admin;;
  al ← gets ft_allowlist;
  if negb (bool_decide (token ∈ al)) then mret tt
  else
    modify (fun s => s <| ft_allowlist ::= fun x => x ∖ {[token]} |>);;
    by_ ← asks predecessor_account_id;
    emit (Event_FtAllowlistRemoved "ft" token by_).

Definition activate_open_tla (tla_id : AccountId) : RegM unit :=
  not_payable "activate_open_tla";;
  assert_admin;;
  now ← asks block_timestamp;
  entry ← get_tla_entry tla_id;
  ensure (bool_decide (te_status entry = TlaStatus_Registered)) TlaNotInRegisteredState;;
  ensure (bool_decide (te_tla_type entry = TlaType_Open)) WrongActivationEndpoint;;
  let new_expires_at := saturating_add U64_MAX now ONE_YEAR_NS in
  put_tla tla_id (entry <| te_status := TlaStatus_Active |> <| te_activated_at := now |>
                        <| te_expires_at := new_expires_at |>);;
  emit (Event_TlaActivated tla_id new_expires_at 0).

Definition admin_clear_settling (tla_id : AccountId) (name : string) : RegM unit :=
  not_payable "admin_clear_settling";;
  assert_admin;;
  let key := sub_account_key tla_id name in
  clear_settling key;;
  by_ ← asks predecessor_account_id;
  emit (Event_SettlingCleared key by_).

Definition admin_clear_reclaim_pending (tla_id : AccountId) (name : string) : RegM unit :=
  not_payable "admin_clear_reclaim_pending";;
  assert_admin;;
  let key := sub_account_key tla_id name in
  modify (fun s => s <| reclaim_pending ::= delete key |>);;
  by_ ← asks predecessor_account_id;
  emit (Event_ReclaimPendingCleared key by_).

(** ** The contract's interface: every method that can change its state *)
Inductive Call :=
| Call_pause | Call_unpause | Call_claim_refund
| Call_on_claim_refund_settled (caller : AccountId) (amount : Z)
| Call_register_tla (t : AccountId) (ty : TlaType) (p : PremiumCategory) (l : option AccountId)
| Call_suspend_tla (t : AccountId) | Call_unsuspend_tla (t : AccountId)
| Call_add_admin (a : AccountId) | Call_remove_admin (a : AccountId)
| Call_add_payment_authority (a : AccountId) | Call_remove_payment_authority (a : AccountId)
| Call_update_fee_config (c : FeeConfig) | Call_set_parked_signer_pubkey (k : PublicKey)
| Call_withdraw (amount : Z) (to : AccountId)
| Call_add_ft_allowlist (t : AccountId) | Call_remove_ft_allowlist (t : AccountId)
| Call_activate_open_tla (t : AccountId)
| Call_admin_clear_settling (t : AccountId) (n : string)
| Call_admin_clear_reclaim_pending (t : AccountId) (n : string)
| Call_set_mother (m : AccountId) | Call_admin_clear_mother (u : AccountId)
| Call_schedule_retraction (t : AccountId) (n : string)
| Call_cancel_retraction (t : AccountId) (n : string)
| Call_set_business_sub_cap (t : AccountId) (cap : option Z)
| Call_list_sub_account (t : AccountId) (n : string) (price : Z) (k : PublicKey)
| Call_on_listing_verified (t : AccountId) (n : string) (price : Z) (k : PublicKey)
    (seller : AccountId) (r : CallResult (option string))
| Call_unlist_sub_account (t : AccountId) (n : string)
| Call_accept_offer (t : AccountId) (n : string) (buyer : AccountId) (price : Z) (k : PublicKey)
| Call_on_offer_verified (t : AccountId) (n : string) (buyer : AccountId) (price : Z)
    (k : PublicKey) (seller : AccountId) (r : CallResult (option string))
| Call_revoke_offer (t : AccountId) (n : string)
| Call_buy_sub_account (t : AccountId) (n : string) (k : PublicKey)
| Call_buy_sub_account_paid (t : AccountId) (n : string) (buyer : AccountId) (k : PublicKey)
| Call_on_sub_account_sold (t : AccountId) (n : string) (buyer : AccountId) (price deposit : Z)
    (r : CallResult bool)
| Call_on_sub_account_sold_paid (t : AccountId) (n : string) (buyer operator : AccountId)
    (price : Z) (r : CallResult bool)
| Call_on_buy_balances_checked (p : PendingBuy) (al : list AccountId)
| Call_on_buy_paid_balances_checked (p : PendingBuy) (al : list AccountId) (operator : AccountId)
| Call_activate_tla (t : AccountId)
| Call_rent_sub_account (t : AccountId) (n : string) (k : PublicKey) (w : AccountId)
| Call_rent_sub_account_paid (t : AccountId) (n : string) (k : PublicKey) (w : AccountId)
| Call_renew_tla (t : AccountId)
| Call_set_main_wallet (t : AccountId) (n : string) (w : AccountId)
| Call_renew_sub_account (t : AccountId) (n : string)
| Call_retry_signer_install (t : AccountId) (n : string)
| Call_on_retry_signer_settled (key : string)
| Call_on_re_rent_balances_checked (p : PendingReRent) (al : list AccountId)
| Call_on_sub_account_created (t : AccountId) (n : string) (payer : AccountId) (k : PublicKey)
    (rent attached : Z) (r : CallResult MintOutcome)
| Call_on_sub_account_created_paid (t : AccountId) (n : string) (payer : AccountId)
    (k : PublicKey) (rent attached : Z) (r : CallResult MintOutcome)
| Call_on_sub_account_re_rented (t : AccountId) (n : string) (payer : AccountId) (rent attached : Z)
| Call_reclaim_sweep_ft (t : AccountId) (n : string) (ft : AccountId) (nonce : Z) (bh : list Z)
| Call_reclaim_finalize (t : AccountId) (n : string)
| Call_on_balances_checked (t : AccountId) (n : string) (dest : AccountId) (al : list AccountId)
| Call_on_reclaim_finalized (t : AccountId) (n : string) (dest : AccountId).

Definition exec (c : Call) : RegM unit :=
  match c with
  | Call_pause => pause
  | Call_unpause => unpause
  | Call_claim_refund => claim_refund;; mret tt
  | Call_on_claim_refund_settled a x => on_claim_refund_settled a x
  | Call_register_tla t ty p l => register_tla t ty p l
  | Call_suspend_tla t => suspend_tla t
  | Call_unsuspend_tla t => unsuspend_tla t
  | Call_add_admin a => add_admin a
  | Call_remove_admin a => remove_admin a
  | Call_add_payment_authority a => add_payment_authority a
  | Call_remove_payment_authority a => remove_payment_authority a
  | Call_update_fee_config c => update_fee_config c
  | Call_set_parked_signer_pubkey k => set_parked_signer_pubkey k
  | Call_withdraw x to => withdraw x to
  | Call_add_ft_allowlist t => add_ft_allowlist t
  | Call_remove_ft_allowlist t => remove_ft_allowlist t
  | Call_activate_open_tla t => activate_open_tla t
  | Call_admin_clear_settling t n => admin_clear_settling t n
  | Call_admin_clear_reclaim_pending t n => admin_clear_reclaim_pending t n
  | Call_set_mother m => set_mother m
  | Call_admin_clear_mother u => admin_clear_mother u
  | Call_schedule_retraction t n => schedule_retraction t n
  | Call_cancel_retraction t n => cancel_retraction t n
  | Call_set_business_sub_cap t cap => set_business_sub_cap t cap
  | Call_list_sub_account t n p k => list_sub_account t n p k;; mret tt
  | Call_on_listing_verified t n p k sl r => on_listing_verified t n p k sl r
  | Call_unlist_sub_account t n => unlist_sub_account t n
  | Call_accept_offer t n b p k => accept_offer t n b p k;; mret tt
  | Call_on_offer_verified t n b p k sl r => on_offer_verified t n b p k sl r
  | Call_revoke_offer t n => revoke_offer t n
  | Call_buy_sub_account t n k => buy_sub_account t n k;; mret tt
  | Call_buy_sub_account_paid t n b k => buy_sub_account_paid t n b k;; mret tt
  | Call_on_sub_account_sold t n b p d r => on_sub_account_sold t n b p d r
  | Call_on_sub_account_sold_paid t n b o p r => on_sub_account_sold_paid t n b o p r
  | Call_on_buy_balances_checked p al => on_buy_balances_checked p al;; mret tt
  | Call_on_buy_paid_balances_checked p al o => on_buy_paid_balances_checked p al o;; mret tt
  | Call_activate_tla t => activate_tla t
  | Call_rent_sub_account t n k w => rent_sub_account t n k w;; mret tt
  | Call_rent_sub_account_paid t n k w => rent_sub_account_paid t n k w;; mret tt
  | Call_renew_tla t => renew_tla t
  | Call_set_main_wallet t n w => set_main_wallet t n w
  | Call_renew_sub_account t n => renew_sub_account t n
  | Call_retry_signer_install t n => retry_signer_install t n;; mret tt
  | Call_on_retry_signer_settled key => on_retry_signer_settled key
  | Call_on_re_rent_balances_checked p al => on_re_rent_balances_checked p al;; mret tt
  | Call_on_sub_account_created t n p k r at_ o => on_sub_account_created t n p k r at_ o
  | Call_on_sub_account_created_paid t n p k r at_ o => on_sub_account_created_paid t n p k r at_ o
  | Call_on_sub_account_re_rented t n p r at_ => on_sub_account_re_rented t n p r at_
  | Call_reclaim_sweep_ft t n ft nonce bh => reclaim_sweep_ft t n ft nonce bh;; mret tt
  | Call_reclaim_finalize t n => reclaim_finalize t n;; mret tt
  | Call_on_balances_checked t n d al => on_balances_checked t n d al;; mret tt
  | Call_on_reclaim_finalized t n d => on_reclaim_finalized t n d
  end.
End RegistryAdmin.
