(* ===== verification/RegistryViews.v ===== *)
(** * tla-registry: views

    Models [contracts/tla-registry/src/views.rs] and the two getters of
    [lib.rs]. near-sdk's iterable collections enumerate in their storage order,
    which is an argument of [list_tlas]; the account lists below stand for sets,
    and their order is not the contract's. *)
From S2P Require Export RegistryAdmin.

Record ParkedSubAccountView := mkParkedSubAccountView {
  pv_full_name : string; pv_tla_id : AccountId; pv_parked_at : Z
}.

Definition to_tla_view (now : Z) (tla_id : AccountId) (entry : TlaEntry) (config : FeeConfig)
    (grace_period_ns : Z) : TlaView :=
  let tla_len := cast_u8 (str_len tla_id) in
  let rent := base_rent tla_len config in
  mkTlaView tla_id (te_tla_type entry) (tla_lifecycle now entry grace_period_ns)
    (te_licensee entry) (te_premium_category entry) (te_activated_at entry) (te_expires_at entry)
    rent.

Definition to_sub_view (now : Z) (key : string) (entry : SubAccountEntry) (tla : TlaEntry)
    (tla_id : AccountId) (name : string) (config : FeeConfig) (grace_period_ns : Z)
    : SubAccountView :=
  let rent := calculate_rent tla tla_id name config in
  mkSubAccountView key (se_owner entry) (se_tla_id entry) (se_main_wallet entry)
    (sub_lifecycle now entry grace_period_ns) (se_rented_at entry) (se_expires_at entry) rent.

Definition get_tla (now : Z) (s : TlaRegistry) (tla_id : AccountId) : option TlaView :=
  (fun e => to_tla_view now tla_id e (fee_config s) (grace_period_ns s)) <$> tlas s !! tla_id.

Definition get_sub_account (now : Z) (s : TlaRegistry) (tla_id : AccountId) (name : string)
    : option SubAccountView :=
  let key := sub_account_key tla_id name in
  sub ← sub_accounts s !! key;
  tla ← tlas s !! tla_id;
  Some (to_sub_view now key sub tla tla_id name (fee_config s) (grace_period_ns s)).

Definition get_parked_sub_account (s : TlaRegistry) (tla_id : AccountId) (name : string)
    : option ParkedSubAccountView :=
  let key := sub_account_key tla_id name in
  (fun p => mkParkedSubAccountView key (pk_tla_id p) (pk_parked_at p)) <$> parked_names s !! key.

Definition is_name_re_rentable (s : TlaRegistry) (tla_id : AccountId) (name : string) : bool :=
  bool_decide (is_Some (parked_names s !! sub_account_key tla_id name)).

Definition is_reclaim_in_progress (s : TlaRegistry) (tla_id : AccountId) (name : string) : bool :=
  bool_decide (is_Some (reclaim_pending s !! sub_account_key tla_id name)).

Definition get_rent_price (s : TlaRegistry) (tla_id : AccountId) (name : string)
    : Res ContractError RentPriceView :=
  match tlas s !! tla_id with
  | None => Fail (Failed TlaNotFound)
  | Some tla =>
      let rent := calculate_rent tla tla_id name (fee_config s) in
      let key := sub_account_key tla_id name in
      let deposit := if bool_decide (is_Some (parked_names s !! key)) then 0
                     else account_creation_deposit (fee_config s) in
      Done (mkRentPriceView rent deposit (saturating_add U128_MAX rent deposit))
  end.

Definition is_name_available (s : TlaRegistry) (tla_id : AccountId) (name : string) : bool :=
  bool_decide (sub_accounts s !! sub_account_key tla_id name = None).

Definition is_signer_pending (s : TlaRegistry) (tla_id : AccountId) (name : string) : bool :=
  bool_decide (is_Some (signer_pending s !! sub_account_key tla_id name)).

Definition get_stats (s : TlaRegistry) : RegistryStats :=
  mkRegistryStats (Z.of_nat (size (tlas s))) (sub_account_count s) (total_revenue s)
    (total_pending_refunds s).

Definition get_admins (s : TlaRegistry) : list AccountId := elements (admins s).
Definition get_payment_authorities (s : TlaRegistry) : list AccountId := elements (payment_authorities s).
Definition get_ft_allowlist (s : TlaRegistry) : list AccountId := elements (ft_allowlist s).

Definition get_version (s : TlaRegistry) : Z := version s.
Definition is_paused (s : TlaRegistry) : bool := paused s.
Definition get_hos_extension (s : TlaRegistry) : AccountId := hos_extension s.
Definition get_active_signer (s : TlaRegistry) : AccountId := active_signer s.
Definition get_parked_signer_pubkey (s : TlaRegistry) : PublicKey := parked_signer_pubkey s.
Definition get_grace_period_ns (s : TlaRegistry) : Z := grace_period_ns s.
Definition get_fee_config (s : TlaRegistry) : FeeConfig := fee_config s.

(** [self.tlas.iter()], in the storage order [order]. *)
Definition tlas_iter (order : list AccountId) (s : TlaRegistry) : list (AccountId * TlaEntry) :=
  omap (fun id => pair id <$> tlas s !! id) order.

(** [as usize] keeps 32 bits on wasm. *)
Definition list_tlas (order : list AccountId) (now : Z) (s : TlaRegistry) (from_index limit : Z)
    : list TlaView :=
  (fun '(id, entry) => to_tla_view now id entry (fee_config s) (grace_period_ns s)) <$>
    take (Z.to_nat (cast_u32 limit)) (drop (Z.to_nat (cast_u32 from_index)) (tlas_iter order s)).
