(* ===== verification/RegistryDemo.v ===== *)
(** * tla-registry: concrete states

    The registry the witnesses evaluate: an open TLA ["web.near"] with one
    rented name, listed for sale, and one allow-listed token. *)
From S2P Require Export RegistryViews.

Definition demo_tla : TlaEntry :=
  mkTlaEntry TlaType_Open TlaStatus_Active None PremiumCategory_Standard 0 (10 ^ 18).
Definition demo_sub : SubAccountEntry :=
  mkSubAccountEntry "bob.near" "web.near" "bob.near" 0 (10 ^ 17) None.
Definition demo_listing : Listing := mkListing (10 ^ 24) false (demo_key 7).
Definition demo_name : string := "bob.web.near".

(** [rented], [listed] and [owed] are the tables that differ between states. *)
Definition demo_registry_with (rented : gmap string SubAccountEntry) (listed : gmap string Listing)
    (owed : gmap AccountId Z) (total revenue : Z) : TlaRegistry :=
  mkTlaRegistry {["web.near" := demo_tla]} rented {["dao.near"]} default_fee_config revenue 1 false
    CONTRACT_VERSION owed total {["usdt.near"]} ∅ ∅ ∅ ∅ listed ∅ ∅ ∅ ∅ {["shop.near"]}
    "ext.hos" "signer.hos" (demo_key 99) MIN_GRACE_PERIOD_NS.

Definition demo_registry : TlaRegistry :=
  demo_registry_with {[demo_name := demo_sub]} {[demo_name := demo_listing]} ∅ 0 0.
Definition demo_settling : TlaRegistry :=
  demo_registry_with {[demo_name := demo_sub]}
    {[demo_name := demo_listing <| li_settling := true |>]} ∅ 0 0.

Definition registry_call (caller : AccountId) (deposit now : Z) : Env :=
  demo_env caller "registry.hos" deposit now.
Definition registry_callback (now : Z) (results : list PromiseResult) : Env :=
  mkEnv "registry.hos" "registry.hos" 0 now (10 ^ 25) (10 ^ 19) 1000 results.
