(* ===== verification/RegistryInvariant.v ===== *)
(** * tla-registry: configuration and ledger invariants

    The configuration every method leaves well-formed, and the refund ledger:
    the total the registry reports as owed is the sum of what it owes. *)
From S2P Require Export RegistryDemo.

(** Unfolds every method of the registry. *)
Ltac unfold_methods H :=
  unfold pause, unpause, claim_refund, on_claim_refund_settled, register_tla, suspend_tla,
    unsuspend_tla, add_admin, remove_admin, add_payment_authority, remove_payment_authority,
    update_fee_config, set_parked_signer_pubkey, withdraw, add_ft_allowlist, remove_ft_allowlist,
    activate_open_tla, admin_clear_settling, admin_clear_reclaim_pending, set_mother,
    admin_clear_mother, schedule_retraction, cancel_retraction, set_business_sub_cap,
    list_sub_account, on_listing_verified, unlist_sub_account, accept_offer, on_offer_verified,
    revoke_offer, buy_sub_account, buy_sub_account_paid, on_sub_account_sold,
    on_sub_account_sold_paid, on_buy_balances_checked, on_buy_paid_balances_checked, activate_tla,
    rent_sub_account, rent_sub_account_paid, renew_tla, set_main_wallet, renew_sub_account,
    retry_signer_install, on_retry_signer_settled, on_re_rent_balances_checked,
    on_sub_account_created, on_sub_account_created_paid, on_sub_account_re_rented,
    reclaim_sweep_ft, reclaim_finalize, on_balances_checked, on_reclaim_finalized in H.

(** The same for a goal, with the helpers that update the state. *)
Ltac unfold_all :=
  unfold pause, unpause, claim_refund, on_claim_refund_settled, register_tla, suspend_tla,
    unsuspend_tla, add_admin, remove_admin, add_payment_authority, remove_payment_authority,
    update_fee_config, set_parked_signer_pubkey, withdraw, add_ft_allowlist, remove_ft_allowlist,
    activate_open_tla, admin_clear_settling, admin_clear_reclaim_pending, set_mother,
    set_mother_internal, admin_clear_mother, schedule_retraction, cancel_retraction,
    set_business_sub_cap,
    list_sub_account, on_listing_verified, unlist_sub_account, accept_offer, on_offer_verified,
    revoke_offer, buy_sub_account, buy_sub_account_paid, on_sub_account_sold,
    on_sub_account_sold_paid, on_buy_balances_checked, on_buy_paid_balances_checked, activate_tla,
    rent_sub_account, rent_sub_account_paid, renew_tla, set_main_wallet, renew_sub_account,
    retry_signer_install, on_retry_signer_settled, on_re_rent_balances_checked,
    on_sub_account_created, on_sub_account_created_paid, on_sub_account_re_rented,
    reclaim_sweep_ft, reclaim_finalize, on_balances_checked, on_reclaim_finalized,
    assert_listable, assert_sellable, resolve_and_lock_sale, resolve_and_lock_paid_sale,
    resolve_and_lock_listing, abort_sale, clear_settling, settle_failed_mint, record_rental,
    record_paid_rental, ensure_mother_default, increment_mother_use, decrement_mother_use,
    business_count_check_and_bump, business_count_decrement_if_business,
    business_count_decrement.

Section RegistryInvariant.
Context `{HS : !Sdk}.
Notation run := (run exec).

(** ** Configuration *)
Definition fee_config_ok (c : FeeConfig) : Prop :=
  (rent_tier_5 c <> 0 \/ rent_tier_8 c <> 0 \/ rent_tier_10 c <> 0 \/ rent_tier_12plus c <> 0) /\
  account_creation_deposit c <> 0 /\ resale_commission_bps c <= 10000.

Definition config_ok (s : TlaRegistry) : Prop :=
  admins s <> ∅ /\ fee_config_ok (fee_config s) /\ is_ed25519 (parked_signer_pubkey s) = true /\
  (size (ft_allowlist s) <= 16)%nat.

Definition wiring (s : TlaRegistry) := (hos_extension s, active_signer s, grace_period_ns s).

Lemma add_pending_refund_keeps (I : TlaRegistry -> Prop) account amount :
  (forall s f g, I s -> I (s <| pending_refunds ::= f |> <| total_pending_refunds ::= g |>)) ->
  keeps I (add_pending_refund account amount).
Proof.
  intros HI env s a s' l H Hs. unfold add_pending_refund in H. nrun H. by apply HI.
Qed.

Lemma registry_exec_wiring c w : keeps (fun s => wiring s = w) (exec c).
Proof.
  destruct c; cbn [exec]; unfold_all; keeps_tac;
    first [apply add_pending_refund_keeps; done | cbn; repeat case_match; done].
Qed.

Lemma exec_config_ok c : keeps config_ok (exec c).
Proof.
  destruct c; cbn [exec];
    try (unfold_all; keeps_tac; first [apply add_pending_refund_keeps; intros; done | cbn; repeat case_match; done]; fail).
  - unfold add_admin. intros env s a' s' l H Hs. nrun H; [done|].
    destruct Hs as (?&?&?&?). split_and!; try done. cbn. set_solver.
  - unfold remove_admin. intros env s a' s' l H Hs. nrun H. guards.
    destruct Hs as (?&?&?&?). split_and!; try done. cbn. by apply set_remove_nonempty.
  - unfold update_fee_config. intros env s a' s' l H Hs. nrun H. guards.
    destruct Hs as (?&?&?&?). split_and!; try done. cbn. unfold fee_config_ok.
    rewrite !andb_false_iff in *. rewrite !Z.eqb_neq in *. split_and!; [naive_solver|done..].
  - unfold set_parked_signer_pubkey. intros env s a' s' l H Hs. nrun H.
    by destruct Hs as (?&?&?&?).
  - unfold add_ft_allowlist. intros env s a' s' l H Hs. nrun H; [done|]. guards.
    destruct Hs as (?&?&?&?). split_and!; try done. cbn.
    rewrite size_union by set_solver. rewrite size_singleton. unfold MAX_ALLOWLIST_SIZE in *. lia.
  - unfold remove_ft_allowlist. intros env s a' s' l H Hs. nrun H; [done|].
    destruct Hs as (?&?&?&Hal). split_and!; try done. cbn.
    etrans; [|exact Hal]. apply subseteq_size. set_solver.
Qed.

(** After a successful initialisation, through every history, the registry keeps an
    admin, a usable fee configuration, an ed25519 parking key and at most 16
    allow-listed tokens, and its wiring and grace period never change. *)
Theorem registry_configuration_invariant env admin ext signer parked grace s tr :
  new env admin ext signer parked grace = Done s ->
  config_ok (run tr s) /\ hos_extension (run tr s) = ext /\ active_signer (run tr s) = signer /\
  ext <> signer /\ ext <> current_account_id env /\ signer <> current_account_id env /\
  grace_period_ns (run tr s) = grace /\ MIN_GRACE_PERIOD_NS <= grace.
Proof.
  intros H.
  assert (Hk : forall I, (forall c, keeps I (exec c)) -> I s -> I (run tr s)).
  { intros I HI. apply run_invariant. intros c env' s1 s2 l E. exact (HI c env' s1 tt s2 l E). }
  assert (Hw : wiring (run tr s) = wiring s) by (apply (Hk (fun x => wiring x = wiring s));
    [intros c; apply registry_exec_wiring|done]).
  unfold new in H. destruct (is_ed25519 parked) eqn:Ep; [|done]. cbn in H.
  destruct (grace <? _) eqn:Eg; [done|]. case_bool_decide as D; [done|].
  destruct (_ || _) eqn:Ew; [done|]. injection H as Hs. guards. guards.
  split; [|subst s; unfold wiring in Hw; cbn in Hw; injection Hw as -> -> ->; by split_and!].
  apply Hk; [apply exec_config_ok|]. subst s. unfold config_ok. cbn.
  split_and!; [set_solver| |done|rewrite size_empty; lia].
  split; [|split]; cbn; [by left|done|done].
Qed.

(** ** The refund ledger *)
Definition ledger_exact (s : TlaRegistry) : Prop :=
  map_Forall (fun _ v => 0 <= v) (pending_refunds s) /\
  total_pending_refunds s = map_sum (pending_refunds s).

Definition ledger_or_saturated (s : TlaRegistry) : Prop :=
  ledger_exact s \/ total_pending_refunds s = U128_MAX.

Lemma add_pending_refund_ledger account amount :
  0 <= amount -> keeps ledger_or_saturated (add_pending_refund account amount).
Proof.
  intros Ha env s a s' l H Hs. unfold add_pending_refund in H. nrun H.
  unfold ledger_or_saturated, ledger_exact. cbn.
  destruct Hs as [[Hp Ht]|Hs]; [|right; rewrite Hs; unfold saturating_add; lia].
  destruct (Z.le_gt_cases U128_MAX (total_pending_refunds s + amount)) as [Hbig|Hsmall].
  { right. unfold saturating_add. lia. }
  left. set (old := default 0 (pending_refunds s !! account)).
  assert (Hold : 0 <= old <= total_pending_refunds s).
  { rewrite Ht. unfold old. destruct (pending_refunds s !! account) as [v|] eqn:E; cbn.
    - split; [by apply (Hp account)|by eapply map_sum_lookup_le].
    - split; [done|by apply map_sum_nonneg]. }
  rewrite (saturating_add_exact _ old amount), (saturating_add_exact _ _ amount) by lia.
  split.
  - apply map_Forall_insert_2; [lia|done].
  - rewrite map_sum_insert. unfold old. lia.
Qed.

Lemma refund_excess_ledger payer attached charged :
  keeps ledger_or_saturated (refund_excess payer attached charged).
Proof.
  unfold refund_excess. destruct (0 <? saturating_sub attached charged) eqn:E.
  - apply add_pending_refund_ledger. apply Z.ltb_lt in E. lia.
  - apply keeps_ret.
Qed.

Lemma split_resale_nonneg price bps c p : split_resale price bps = (c, p) -> 0 <= p.
Proof. intros [= <- <-]. unfold saturating_sub. lia. Qed.

(** Amounts are unsigned in the source. *)
Definition amounts_ok (c : Call) : Prop :=
  match c with
  | Call_on_claim_refund_settled _ x | Call_withdraw x _ => 0 <= x
  | Call_on_sub_account_sold _ _ _ _ deposit _ => 0 <= deposit
  | Call_on_buy_balances_checked p _ => 0 <= pb_deposit p
  | Call_on_re_rent_balances_checked p _ => 0 <= pr_attached p
  | Call_on_sub_account_created _ _ _ _ _ attached _
  | Call_on_sub_account_created_paid _ _ _ _ _ attached _
  | Call_on_sub_account_re_rented _ _ _ _ attached => 0 <= attached
  | _ => True
  end.

#[local] Hint Resolve refund_excess_ledger add_pending_refund_ledger : keeps.

Lemma exec_ledger_or_saturated c :
  c <> Call_claim_refund -> amounts_ok c -> keeps ledger_or_saturated (exec c).
Proof.
  intros Hc Ha. destruct c; try done; cbn [exec amounts_ok] in *; unfold_all; keeps_tac;
    first [ apply add_pending_refund_ledger; first [done|by eapply split_resale_nonneg]
          | cbn; repeat case_match; done ].
Qed.

Lemma claim_refund_ledger env s p s' l :
  claim_refund env s = Done (p, s', l) -> ledger_exact s -> ledger_exact s'.
Proof.
  unfold claim_refund. intros H [Hp Ht]. nrun H. guards. unfold ledger_exact. cbn. split.
  - by apply map_Forall_delete.
  - rewrite map_sum_delete, Ht. unfold saturating_sub.
    pose proof (map_sum_nonneg _ (map_Forall_delete _ _ (predecessor_account_id env) Hp)) as Hn.
    rewrite map_sum_delete in Hn. lia.
Qed.

Lemma exec_ledger c env s s' l :
  exec c env s = Done (tt, s', l) -> amounts_ok c -> ledger_exact s ->
  total_pending_refunds s' <> U128_MAX -> ledger_exact s'.
Proof.
  intros H Ha Hs Hm. assert (c = Call_claim_refund \/ c <> Call_claim_refund) as [->|Hc]
    by (destruct c; auto).
  - cbn [exec] in H. nrun H. by eapply claim_refund_ledger.
  - destruct (exec_ledger_or_saturated c Hc Ha env s tt s' l H (or_introl Hs)); done.
Qed.

(** No state along the history has hit the [u128] ceiling of the total. *)
Fixpoint never_saturated (tr : list (Env * Call)) (s : TlaRegistry) : Prop :=
  match tr with
  | [] => True
  | x :: tr => let s' := step_state exec s x in
      total_pending_refunds s' <> U128_MAX /\ never_saturated tr s'
  end.

(** C18: The total of pending refunds the registry reports is the sum of what it
    owes each account, and no account is owed a negative amount, after every history
    that stays below the u128 ceiling. *)
Theorem refund_ledger_is_exact s tr :
  ledger_exact s -> Forall (fun x => amounts_ok x.2) tr -> never_saturated tr s ->
  ledger_exact (run tr s).
Proof.
  intros Hs Ha. revert s Hs. induction Ha as [|[env c] tr Hc _ IH]; intros s Hs; [done|].
  intros [Hm Hn]. change (ledger_exact (run tr (step_state exec s (env, c)))).
  apply IH; [|done]. unfold step_state in *. cbn [fst snd] in *.
  destruct (exec c env s) as [[[[] s'] l]|] eqn:E; [|done]. by eapply exec_ledger.
Qed.

Lemma refund_fields_eq s s0 :
  s0 = s <| pending_refunds := pending_refunds s0 |>
         <| total_pending_refunds := total_pending_refunds s0 |> ->
  pending_refunds s0 = pending_refunds s -> total_pending_refunds s0 = total_pending_refunds s ->
  s0 = s.
Proof. intros E E1 E2. rewrite E, E1, E2. by destruct s. Qed.

(** C38: A claim that is accepted sends exactly what the caller is owed, never more
    than the available balance; a settled transfer leaves it paid, a failed one
    restores the very state before the claim. *)
Theorem claim_refund_pays_what_is_owed env s p s1 l :
  claim_refund env s = Done (p, s1, l) -> ledger_exact s -> total_pending_refunds s <= U128_MAX ->
  let caller := predecessor_account_id env in
  let amount := get_pending_refund s caller in
  0 < amount <= available_balance env /\
  p = PThen (transfer_to caller amount) (Cb_on_claim_refund_settled caller amount)
        GAS_FOR_CLAIM_REFUND_CB /\
  get_pending_refund s1 caller = 0 /\
  total_pending_refunds s1 = total_pending_refunds s - amount /\
  (forall env' data, predecessor_account_id env' = current_account_id env' ->
     promise_results env' = [PromiseResult_Successful data] ->
     on_claim_refund_settled caller amount env' s1 = Done (tt, s1, [])) /\
  (forall env', predecessor_account_id env' = current_account_id env' ->
     promise_results env' = [PromiseResult_Failed] ->
     exists s2 l2, on_claim_refund_settled caller amount env' s1 = Done (tt, s2, l2) /\ s2 = s).
Proof.
  intros H [Hp Ht] Hmax. cbv zeta. unfold claim_refund in H. nrun H. guards.
  unfold get_pending_refund. set (caller := predecessor_account_id env) in *.
  remember (default 0 (pending_refunds s !! caller)) as amount eqn:Hamt. symmetry in Hamt.
  assert (Hpos : 0 <= amount <= total_pending_refunds s).
  { rewrite <- Hamt, Ht. destruct (pending_refunds s !! caller) as [v|] eqn:E; cbn.
    - split; [by apply (Hp caller)|by eapply map_sum_lookup_le].
    - split; [done|by apply map_sum_nonneg]. }
  split_and!; [lia|done|done| | | |].
  - cbn. by rewrite lookup_delete_eq.
  - cbn. unfold saturating_sub. lia.
  - intros env' data Hpr Hres. unfold on_claim_refund_settled. nexec.
    rewrite bool_decide_true by done. cbn. by rewrite Hres.
  - intros env' Hpr Hres. unfold on_claim_refund_settled. nexec.
    rewrite bool_decide_true by done. cbn. rewrite Hres. cbn. unfold add_pending_refund. nexec.
    do 2 eexists. split; [reflexivity|]. rewrite lookup_delete_eq. cbn.
    apply refund_fields_eq; cbn; [done| |unfold saturating_add, saturating_sub; lia].
    rewrite saturating_add_exact by lia. rewrite insert_delete_eq. apply insert_id.
    destruct (pending_refunds s !! caller) eqn:E; cbn in Hamt; [by rewrite Hamt|lia].
Qed.

(** An accepted withdrawal is an admin's, comes out of revenue, is queued as a
    refund, and leaves everything the registry owes covered by its available
    balance. *)
Theorem withdraw_leaves_refunds_covered amount recipient env s s' l :
  withdraw amount recipient env s = Done (tt, s', l) ->
  ledger_exact s -> 0 <= amount -> total_revenue s <= U128_MAX ->
  total_pending_refunds s + amount < U128_MAX ->
  predecessor_account_id env ∈ admins s /\ 0 < amount <= total_revenue s /\
  total_revenue s' = total_revenue s - amount /\
  total_pending_refunds s' = total_pending_refunds s + amount /\
  total_pending_refunds s' <= available_balance env /\
  get_pending_refund s' recipient = get_pending_refund s recipient + amount.
Proof.
  intros H [Hp Ht] Ha Hr Hsum. unfold withdraw in H. nrun H. guards.
  unfold add_pending_refund in Hr0. nrun Hr0. unfold get_pending_refund. cbn.
  assert (0 <= default 0 (pending_refunds s !! recipient) <= total_pending_refunds s).
  { rewrite Ht. destruct (pending_refunds s !! recipient) as [v|] eqn:E; cbn.
    - split; [by apply (Hp recipient)|by eapply map_sum_lookup_le].
    - split; [done|by apply map_sum_nonneg]. }
  rewrite lookup_insert_eq. cbn. rewrite !saturating_add_exact in * by lia.
  unfold saturating_sub. split_and!; try done; lia.
Qed.
End RegistryInvariant.

(** ** Witnesses *)
Lemma registry_configuration_invariant_witness :
  exists s, new (registry_call "dao.near" 0 0) "dao.near" "ext.hos" "signer.hos" (demo_key 99)
      MIN_GRACE_PERIOD_NS = Done s /\
    config_ok (run exec [(registry_call "dao.near" 0 1, Call_remove_admin "dao.near")] s).
Proof.
  eexists. split; [reflexivity|].
  apply (registry_configuration_invariant (registry_call "dao.near" 0 0) "dao.near" "ext.hos"
    "signer.hos" (demo_key 99) MIN_GRACE_PERIOD_NS). vm_eq.
Defined.

(** A state that owes bob.near 5 and carol.near 7. *)
Definition demo_owed : gmap AccountId Z := {["bob.near" := 5; "carol.near" := 7]}.
Definition demo_indebted : TlaRegistry := demo_registry_with ∅ ∅ demo_owed 12 100.

Lemma demo_indebted_exact : ledger_exact demo_indebted.
Proof.
  split; [|vm_compute; reflexivity].
  intros a v. unfold demo_indebted, demo_owed. cbn. intros H.
  apply lookup_insert_Some in H as [[_ <-]|[_ H]]; [done|].
  by apply lookup_singleton_Some in H as [_ <-].
Qed.

Lemma refund_ledger_is_exact_witness :
  ledger_exact (run exec [(registry_call "bob.near" 0 1, Call_claim_refund);
                          (registry_callback 2 [PromiseResult_Failed],
                           Call_on_claim_refund_settled "bob.near" 5)] demo_indebted).
Proof.
  apply refund_ledger_is_exact.
  - apply demo_indebted_exact.
  - constructor; [exact I|]. constructor; [by apply Z.leb_le|constructor].
  - assert (Hn : forall x : Z, (x =? U128_MAX) = false -> x <> U128_MAX) by (intros x; apply Z.eqb_neq).
    split; [apply Hn; vm_eq|]. split; [apply Hn; vm_eq|exact I].
Defined.

Lemma claim_refund_pays_what_is_owed_witness :
  exists p s1 l, claim_refund (registry_call "bob.near" 0 1) demo_indebted = Done (p, s1, l) /\
    get_pending_refund s1 "bob.near" = 0 /\ total_pending_refunds s1 = 12 - 5.
Proof.
  destruct (is_done_inv (claim_refund (registry_call "bob.near" 0 1) demo_indebted))
    as [[[p s1] l] E]; [vm_eq|].
  destruct (claim_refund_pays_what_is_owed _ _ _ _ _ E demo_indebted_exact) as (_ & _ & H1 & H2 & _);
    [by apply Z.leb_le|].
  exists p, s1, l. split; [exact E|]. split; [exact H1|exact H2].
Defined.

Lemma withdraw_leaves_refunds_covered_witness :
  exists s' l, withdraw 40 "treasury.near" (registry_call "dao.near" 0 1) demo_indebted = Done (tt, s', l) /\
    total_revenue s' = 100 - 40 /\ total_pending_refunds s' = 12 + 40.
Proof.
  destruct (is_done_inv (withdraw 40 "treasury.near" (registry_call "dao.near" 0 1) demo_indebted))
    as [[[[] s'] l] E]; [vm_eq|].
  destruct (withdraw_leaves_refunds_covered _ _ _ _ _ _ E demo_indebted_exact)
    as (_ & _ & H1 & H2 & _); [by apply Z.leb_le..|by apply Z.ltb_lt|].
  exists s', l. split; [exact E|]. split; [exact H1|exact H2].
Defined.
