(* ===== verification/RegistrySale.v ===== *)
(** * tla-registry: what the marketplace guarantees

    The asset gate fails closed, a purchase locks the name it is settling, the
    lock holds until the settlement reports back, and a settlement moves
    exactly the yoctoNEAR that were attached to it. *)
From S2P Require Export RegistryInvariant.

Local Arguments split_resale : simpl never.

Section RegistrySale.
Context `{HS : !Sdk}.
Notation run := (run exec).

(** ** The asset gate *)

(** The calls a promise makes first, in the order of the results its
    continuation sees. *)
Fixpoint joined_calls (p : RegPromise) : list (AccountId * Msg) :=
  match p with
  | PBatch r [PA_function_call m _ _] => [(r, m)]
  | PBatch _ _ => []
  | PAnd p q => joined_calls p ++ joined_calls q
  | PThen _ _ _ => []
  end.

(** A balance answer that lets a name pass. *)
Definition zero_balance (r : PromiseResult) : Prop :=
  exists data b, r = PromiseResult_Successful data /\ Z.of_nat (length data) <= FT_BALANCE_MAX_LEN /\
    json_u128 data = Some b /\ b <= 0.

Lemma block_reason_None env i :
  block_reason env i = None <-> exists r, promise_results env !! i = Some r /\ zero_balance r.
Proof.
  unfold block_reason, promise_result_checked, zero_balance.
  destruct (promise_results env !! i) as [[data|]|]; cbn.
  - destruct (Z.leb_spec (Z.of_nat (length data)) FT_BALANCE_MAX_LEN); cbn.
    + destruct (json_u128 data) as [b|] eqn:Ej; cbn.
      * destruct (Z.ltb_spec 0 b); split; try done; [naive_solver lia|eauto 10].
      * split; [done|]. naive_solver.
    + split; [done|]. naive_solver lia.
  - split; [done|]. naive_solver.
  - split; [done|]. naive_solver.
Qed.

Lemma first_blocked_Clear env i l :
  first_blocked env i l = BalanceGate_Clear <->
  forall j, (j < length l)%nat -> exists r, promise_results env !! (i + j)%nat = Some r /\ zero_balance r.
Proof.
  revert i. induction l as [|t l IH]; intros i; cbn.
  - split; [lia|done].
  - destruct (block_reason env i) as [reason|] eqn:E.
    + split; [done|]. intros H. destruct (H 0%nat ltac:(lia)) as (r & Hr & Hz).
      rewrite Nat.add_0_r in Hr.
      assert (block_reason env i = None) by (apply block_reason_None; eauto). congruence.
    + rewrite IH. split; intros H j Hj.
      * destruct j as [|j]; [rewrite Nat.add_0_r; by apply block_reason_None|].
        replace (i + S j)%nat with (S i + j)%nat by lia. apply H. lia.
      * replace (S i + j)%nat with (i + S j)%nat by lia. apply H. lia.
Qed.

Lemma fanout_calls allowlist sub p :
  ft_balance_fanout allowlist sub = Some p ->
  joined_calls p = (fun ft => (ft, Msg_ft_balance_of sub)) <$> allowlist.
Proof.
  destruct allowlist as [|t l]; [done|]. cbn. intros [= <-].
  assert (Hg : forall l q, joined_calls (foldl (fun chain ft => PAnd chain (ft_balance_query ft sub)) q l)
    = joined_calls q ++ ((fun ft => (ft, Msg_ft_balance_of sub)) <$> l)).
  { clear. induction l as [|t l IH]; intros q; cbn; [by rewrite app_nil_r|].
    rewrite IH. cbn. by rewrite <- app_assoc. }
  by rewrite Hg.
Qed.

(** C27: The asset gate queries every allow-listed token on the name's account in
    order, skips the query only for an empty list, and is clear only when there is
    one result per token and every one is a successful answer of at most 256 bytes
    that parses to a zero balance. *)
Theorem asset_gate_fails_closed allowlist sub env :
  (forall p, ft_balance_fanout allowlist sub = Some p ->
     joined_calls p = (fun ft => (ft, Msg_ft_balance_of sub)) <$> allowlist) /\
  (ft_balance_fanout allowlist sub = None <-> allowlist = []) /\
  (ft_balances_clear env allowlist = BalanceGate_Clear <->
     length (promise_results env) = length allowlist /\ Forall zero_balance (promise_results env)).
Proof.
  split_and!; [by apply fanout_calls|by destruct allowlist|].
  unfold ft_balances_clear, promise_results_count.
  destruct (Z.eqb_spec (Z.of_nat (length (promise_results env))) (Z.of_nat (length allowlist)))
    as [E|E]; cbn [negb].
  - rewrite first_blocked_Clear. split.
    + intros H. split; [lia|]. apply Forall_lookup. intros i r Hi.
      pose proof (lookup_lt_Some _ _ _ Hi). destruct (H i ltac:(lia)) as (r' & Hr & Hz).
      cbn in Hr. congruence.
    + intros [_ HF] j Hj. destruct (lookup_lt_is_Some_2 (promise_results env) j ltac:(lia)) as [r Hr].
      exists r. split; [done|]. rewrite Forall_lookup in HF. eauto.
  - split; [done|]. intros [? _]. lia.
Qed.

(** ** Buying locks the name *)

(** What a buyer pays for [key]: the offer made to that buyer, or else the
    listing. *)
Definition agreed_terms (s : TlaRegistry) (key : string) (buyer : AccountId) (price : Z)
    (okey : PublicKey) : Prop :=
  (exists o, accepted_offers s !! key = Some o /\ ao_buyer o = buyer /\ price = ao_price o /\
     okey = ao_owner_key o) \/
  ((forall o, accepted_offers s !! key = Some o -> ao_buyer o <> buyer) /\
   exists l, listings s !! key = Some l /\ price = li_price l /\ okey = li_owner_key l).

(** The name [key] may be sold at [now]. *)
Definition sellable (s : TlaRegistry) (now : Z) (tla_id : AccountId) (key : string)
    (account owner : AccountId) : Prop :=
  account_parse key = Some account /\ mother_uses s account <= 0 /\ signer_pending s !! key = None /\
  exists sub tla, sub_accounts s !! key = Some sub /\ se_owner sub = owner /\
    se_tla_id sub = tla_id /\ se_retraction_at sub = None /\ tlas s !! tla_id = Some tla /\
    te_tla_type tla <> TlaType_Business /\ te_status tla = TlaStatus_Active /\
    effective_sub_lifecycle now sub tla (retraction_notice_ns (fee_config s)) (grace_period_ns s)
      = Lifecycle_Active.

Lemma assert_sellable_inv key tla_id env s owner s' l :
  assert_sellable key tla_id env s = Done (owner, s', l) ->
  s' = s /\ l = [] /\ exists account, sellable s (block_timestamp env) tla_id key account owner.
Proof.
  unfold assert_sellable. intros H. nrun H. guards. split_and!; [done..|].
  eexists. unfold sellable. split_and!; [done|lia|done|]. do 2 eexists. by split_and!.
Qed.

(** What a purchase records: the settlement lock on the slot that sets the
    terms, nothing else. *)
Definition locked_for (s s' : TlaRegistry) (key : string) : Prop :=
  (exists o, accepted_offers s !! key = Some o /\
     s' = s <| accepted_offers := <[key := o <| ao_settling := true |>]> (accepted_offers s) |>) \/
  (exists l, listings s !! key = Some l /\
     s' = s <| listings := <[key := l <| li_settling := true |>]> (listings s) |>).

Lemma resolve_and_lock_listing_inv key dep env s r s' l :
  resolve_and_lock_listing key dep env s = Done (r, s', l) ->
  l = [] /\ exists li, listings s !! key = Some li /\ r = (li_price li, li_owner_key li) /\
    s' = s <| listings := <[key := li <| li_settling := true |>]> (listings s) |> /\
    (forall d, dep = Some d -> li_price li <= d).
Proof.
  unfold resolve_and_lock_listing. intros H. nrun H; guards;
    (split; [done|]); eexists; split_and!; try done; intros ? [= <-]; lia.
Qed.

Lemma resolve_and_lock_sale_inv key buyer dep env s price okey s' l :
  resolve_and_lock_sale key buyer dep env s = Done ((price, okey), s', l) ->
  l = [] /\ agreed_terms s key buyer price okey /\ price <= dep /\ locked_for s s' key.
Proof.
  unfold resolve_and_lock_sale, agreed_terms, locked_for. intros H. nrun H; guards.
  - split_and!; [done|left; eauto 10|lia|left; eauto].
  - apply resolve_and_lock_listing_inv in H as (-> & li & Hl & [= -> ->] & -> & Hd).
    split_and!; [done| |by apply Hd|right; eauto]. right. split; [|eauto]. naive_solver.
  - apply resolve_and_lock_listing_inv in H as (-> & li & Hl & [= -> ->] & -> & Hd).
    split_and!; [done| |by apply Hd|right; eauto]. right. split; [|eauto]. naive_solver.
Qed.

Lemma resolve_and_lock_paid_sale_inv key buyer env s price okey s' l :
  resolve_and_lock_paid_sale key buyer env s = Done ((price, okey), s', l) ->
  l = [] /\ agreed_terms s key buyer price okey /\ locked_for s s' key.
Proof.
  unfold resolve_and_lock_paid_sale, agreed_terms, locked_for. intros H. nrun H; guards.
  - split_and!; [done|left; eauto 10|left; eauto].
  - apply resolve_and_lock_listing_inv in H as (-> & li & Hl & [= -> ->] & -> & Hd).
    split_and!; [done| |right; eauto]. right. split; [|eauto]. naive_solver.
  - apply resolve_and_lock_listing_inv in H as (-> & li & Hl & [= -> ->] & -> & Hd).
    split_and!; [done| |right; eauto]. right. split; [|eauto]. naive_solver.
Qed.

Lemma locked_for_not_idle s s' key : locked_for s s' key -> sale_idle s' key = false.
Proof.
  unfold sale_idle. intros [(o & _ & ->)|(li & _ & ->)]; cbn; rewrite lookup_insert_eq; cbn.
  - apply andb_false_r.
  - done.
Qed.

Lemma locked_for_frame s s' key :
  locked_for s s' key -> allowlist_of s' = allowlist_of s /\ hos_extension s' = hos_extension s.
Proof. by intros [(o & _ & ->)|(li & _ & ->)]. Qed.

(** The promise a purchase returns: the token queries first, the transfer
    only when there is no token to ask. *)
Definition purchase_promise (s : TlaRegistry) (st : PendingBuy) : RegPromise :=
  match ft_balance_fanout (allowlist_of s) (pb_sub_account st) with
  | None => settle_transfer (hos_extension s) st
  | Some chain => PThen chain (Cb_on_buy_balances_checked st (allowlist_of s)) GAS_FOR_BUY_BALANCES_CB
  end.

(** A purchase that is accepted was of an unlocked, sellable name at the agreed
    price or more, locks the offer or listing it settles and nothing else, and
    returns the token queries first, the transfer directly only when no token is
    allow-listed. *)
Theorem buy_sub_account_locks tla_id name k env s p s' l :
  buy_sub_account tla_id name k env s = Done (p, s', l) ->
  let key := sub_account_key tla_id name in
  paused s = false /\ is_ed25519 k = true /\ sale_idle s key = true /\
  locked_for s s' key /\ sale_idle s' key = false /\
  exists account owner price okey,
    sellable s (block_timestamp env) tla_id key account owner /\
    agreed_terms s key (predecessor_account_id env) price okey /\ price <= attached_deposit env /\
    p = purchase_promise s (mkPendingBuy tla_id name (predecessor_account_id env) k price
                              (attached_deposit env) okey account).
Proof.
  cbv zeta. unfold buy_sub_account. intros H. nrun H.
  all: match goal with E : assert_sellable _ _ _ _ = _ |- _ =>
         apply assert_sellable_inv in E as (-> & -> & account & Hs) end.
  all: match goal with E : resolve_and_lock_sale _ _ _ _ _ = _ |- _ =>
         apply resolve_and_lock_sale_inv in E as (-> & Ht & Hd & Hl) end.
  all: pose proof (locked_for_not_idle _ _ _ Hl); guards.
  all: destruct Hs as (Ha & Hs); simplify_eq.
  all: destruct (locked_for_frame _ _ _ Hl) as [Ef1 Ef2].
  all: split_and!; try done.
  all: do 4 eexists; split_and!; [split; [exact Ha|exact Hs]|exact Ht|done|].
  all: unfold purchase_promise; cbn [pb_sub_account]; by rewrite <- Ef1, <- Ef2, ?G3.
Qed.

(** ** Settling a sale *)

(** [account] is owed [amount] more. *)
Definition credit (account : AccountId) (amount : Z) (s : TlaRegistry) : TlaRegistry :=
  s <| pending_refunds := <[account := get_pending_refund s account + amount]> (pending_refunds s) |>
    <| total_pending_refunds := total_pending_refunds s + amount |>.

Lemma pending_le_total s account :
  ledger_exact s -> 0 <= get_pending_refund s account <= total_pending_refunds s.
Proof.
  intros [Hp Ht]. rewrite Ht. unfold get_pending_refund.
  destruct (pending_refunds s !! account) as [v|] eqn:E; cbn.
  - split; [by apply (Hp account)|by eapply map_sum_lookup_le].
  - split; [done|by apply map_sum_nonneg].
Qed.

Lemma add_pending_refund_credits account amount env s :
  ledger_exact s -> 0 <= amount -> total_pending_refunds s + amount <= U128_MAX ->
  add_pending_refund account amount env s = Done (tt, credit account amount s, []).
Proof.
  intros Hs Ha Ht. pose proof (pending_le_total s account Hs) as Hb.
  unfold add_pending_refund. nexec. fold (get_pending_refund s account).
  rewrite (saturating_add_exact _ (get_pending_refund s account)) by lia.
  unfold credit, set_field, set_pending_refunds, set_total_pending_refunds. cbn.
  by rewrite saturating_add_exact by lia.
Qed.

Lemma credit_ledger account amount s :
  ledger_exact s -> 0 <= amount -> ledger_exact (credit account amount s).
Proof.
  intros Hs Ha. pose proof (pending_le_total s account Hs) as Hb. destruct Hs as [Hp Ht].
  split; cbn.
  - apply map_Forall_insert_2; [lia|done].
  - rewrite map_sum_insert. fold (get_pending_refund s account). lia.
Qed.

Lemma credit_pending account amount s a :
  get_pending_refund (credit account amount s) a =
    get_pending_refund s a + (if bool_decide (a = account) then amount else 0).
Proof.
  unfold get_pending_refund at 1. cbn. case_bool_decide as E.
  - subst a. by rewrite lookup_insert_eq.
  - rewrite lookup_insert_ne by congruence. fold (get_pending_refund s a). lia.
Qed.

Lemma refund_excess_credits payer attached charged env s :
  ledger_exact s -> charged <= attached ->
  total_pending_refunds s + (attached - charged) <= U128_MAX ->
  exists m, let s' := s <| pending_refunds := m |>
                        <| total_pending_refunds := total_pending_refunds s + (attached - charged) |> in
    refund_excess payer attached charged env s = Done (tt, s', []) /\ ledger_exact s' /\
    forall a, get_pending_refund s' a =
      get_pending_refund s a + (if bool_decide (a = payer) then attached - charged else 0).
Proof.
  intros Hs Hc Ht. unfold refund_excess. rewrite saturating_sub_exact by lia.
  destruct (Z.ltb_spec 0 (attached - charged)).
  - rewrite add_pending_refund_credits by (done || lia). eexists. split; [reflexivity|].
    split; [apply credit_ledger; [done|lia]|apply credit_pending].
  - replace (attached - charged) with 0 by lia. exists (pending_refunds s). cbv zeta.
    assert (E : s <| pending_refunds := pending_refunds s |>
      <| total_pending_refunds := total_pending_refunds s + 0 |> = s).
    { destruct s. unfold set_field, set_pending_refunds, set_total_pending_refunds. cbn.
      by rewrite Z.add_0_r. }
    rewrite E. split_and!; [done..|]. intros a. case_bool_decide; lia.
Qed.

(** What the registry owes others and calls its own. *)
Definition liabilities (s : TlaRegistry) : Z := total_revenue s + total_pending_refunds s.

(** Room for [amount] more in both totals. *)
Definition room_for (s : TlaRegistry) (amount : Z) : Prop :=
  ledger_exact s /\ total_revenue s + amount <= U128_MAX /\
  total_pending_refunds s + amount <= U128_MAX.

(** The name [key] is handed to [owner] and [wallet]; its sale is over. *)
Definition handed_over (key : string) (sub : SubAccountEntry) (owner wallet : AccountId)
    (s s' : TlaRegistry) : Prop :=
  sub_accounts s' = <[key := sub <| se_owner := owner |> <| se_main_wallet := wallet |>]> (sub_accounts s) /\
  listings s' = delete key (listings s) /\ accepted_offers s' = delete key (accepted_offers s).

(** The name [key] stays where it is, and the locks of its sale are open. *)
Definition sale_undone (key : string) (s s' : TlaRegistry) : Prop :=
  sub_accounts s' = sub_accounts s /\ total_revenue s' = total_revenue s /\
  listings s' = alter (fun l => l <| li_settling := false |>) key (listings s) /\
  accepted_offers s' = alter (fun o => o <| ao_settling := false |>) key (accepted_offers s) /\
  sale_idle s' key = true.

Lemma alter_unlocks (s : TlaRegistry) key :
  sale_idle (s <| listings ::= alter (fun l => l <| li_settling := false |>) key |>
               <| accepted_offers ::= alter (fun o => o <| ao_settling := false |>) key |>) key = true.
Proof.
  unfold sale_idle. cbn. rewrite !lookup_alter_eq.
  by destruct (listings s !! key), (accepted_offers s !! key).
Qed.

(** The state a failed settlement leaves. *)
Definition undo_sale (key : string) (buyer : AccountId) (deposit : Z) (s : TlaRegistry) : TlaRegistry :=
  credit buyer deposit s
    <| listings ::= alter (fun l => l <| li_settling := false |>) key |>
    <| accepted_offers ::= alter (fun o => o <| ao_settling := false |>) key |>.

Lemma undo_sale_spec key buyer deposit s :
  ledger_exact s -> 0 <= deposit ->
  liabilities (undo_sale key buyer deposit s) = liabilities s + deposit /\
  ledger_exact (undo_sale key buyer deposit s) /\ sale_undone key s (undo_sale key buyer deposit s) /\
  forall a, get_pending_refund (undo_sale key buyer deposit s) a =
    get_pending_refund s a + (if bool_decide (a = buyer) then deposit else 0).
Proof.
  intros Hl Hd. unfold liabilities, sale_undone.
  split_and!; try done; [cbn; lia|by apply credit_ledger|apply alter_unlocks|].
  intros a. apply (credit_pending buyer deposit s a).
Qed.

(** What a settlement leaves: the name and the money where the transfer's
    result says they belong. *)
Definition sale_outcome (key : string) (buyer : AccountId) (price deposit : Z)
    (swapped : CallResult bool) (s s' : TlaRegistry) : Prop :=
  liabilities s' = liabilities s + deposit /\ ledger_exact s' /\
  match swapped, sub_accounts s !! key with
  | Ok true, Some sub =>
      let cp := split_resale price (resale_commission_bps (fee_config s)) in
      handed_over key sub buyer buyer s s' /\ total_revenue s' = total_revenue s + cp.1 /\
      forall a, get_pending_refund s' a = get_pending_refund s a
        + (if bool_decide (a = se_owner sub) then cp.2 else 0)
        + (if bool_decide (a = buyer) then deposit - price else 0)
  | _, _ =>
      sale_undone key s s' /\
      forall a, get_pending_refund s' a = get_pending_refund s a
        + (if bool_decide (a = buyer) then deposit else 0)
  end.

Lemma on_sub_account_sold_runs tla_id name buyer price deposit swapped env s :
  predecessor_account_id env = current_account_id env ->
  0 <= price <= deposit -> room_for s deposit -> 0 <= resale_commission_bps (fee_config s) ->
  let key := sub_account_key tla_id name in
  exists s' l, on_sub_account_sold tla_id name buyer price deposit swapped env s = Done (tt, s', l) /\
    sale_outcome key buyer price deposit swapped s s'.
Proof.
  intros Hp Hd (Hl & Hr & Ht) Hb key. unfold on_sub_account_sold, sale_outcome. fold key.
  pose proof (undo_sale_spec key buyer deposit s Hl ltac:(lia)) as (U1 & U2 & U3 & U4).
  assert (Hadd := add_pending_refund_credits buyer deposit env s Hl ltac:(lia) Ht).
  nexec. rewrite bool_decide_true by done. cbn.
  destruct swapped as [[]|err]; cbn [swap_done negb].
  2-3: rewrite Hadd; unfold clear_settling; nexec; exists (undo_sale key buyer deposit s); eauto 10.
  nexec. destruct (sub_accounts s !! key) as [sub|] eqn:Es; cbn.
  2: rewrite Hadd; unfold clear_settling; nexec; exists (undo_sale key buyer deposit s); eauto 10.
  pose proof (pending_le_total s buyer Hl) as Hnn.
  nexec. destruct (split_resale price (resale_commission_bps (fee_config s))) as [c p] eqn:Ec.
  apply split_resale_parts in Ec as Hcp; [|lia|done].
  nexec.
  rewrite (add_pending_refund_credits (se_owner sub) p); [|done|lia|cbn; lia].
  match goal with |- context [(if 0 <? _ then _ else _) env ?x] => remember x as s1 eqn:Es1;
    change ((if 0 <? saturating_sub deposit price then _ else _) env s1)
      with (refund_excess buyer deposit price env s1) end.
  assert (Hl1 : ledger_exact s1) by (rewrite Es1; apply credit_ledger; [done|lia]).
  assert (Ht1 : total_pending_refunds s1 = total_pending_refunds s + p) by (by rewrite Es1).
  destruct (refund_excess_credits buyer deposit price env s1 Hl1) as (m & E & Hl2 & Hm);
    [lia|lia|]. rewrite E. do 2 eexists. split; [reflexivity|].
  assert (Hrev : total_revenue s1 = total_revenue s + c).
  { rewrite Es1. cbn. apply saturating_add_exact. lia. }
  assert (Hp1 : forall a, get_pending_refund s1 a = get_pending_refund s a
    + (if bool_decide (a = se_owner sub) then p else 0)).
  { intros a. rewrite Es1, credit_pending. done. }
  split; [|split; [exact Hl2|split; [|split]]].
  - unfold liabilities. cbn. rewrite Ht1, Hrev. lia.
  - unfold handed_over. cbn. by rewrite Es1.
  - exact Hrev.
  - intros a. rewrite <- Hp1. apply Hm.
Qed.

(** C19: on_sub_account_sold always succeeds and accounts for exactly the deposit:
    revenue and pending refunds grow by it together; on Ok(true) the commission, the
    seller's proceeds and the buyer's change are credited, the record goes to the
    buyer and the listing and offer are gone; on any other result the buyer is owed
    it all and the locks are open. *)
Theorem sale_settlement_conserves tla_id name buyer price deposit swapped env s :
  predecessor_account_id env = current_account_id env ->
  0 <= price <= deposit -> room_for s deposit -> 0 <= resale_commission_bps (fee_config s) ->
  exists s' l, on_sub_account_sold tla_id name buyer price deposit swapped env s = Done (tt, s', l) /\
    sale_outcome (sub_account_key tla_id name) buyer price deposit swapped s s'.
Proof. apply on_sub_account_sold_runs. Qed.

(** ** The settlement lock *)

(** The calls a user can make on [key] that a running settlement must stop. *)
Definition guarded (key : string) (c : Call) : Prop :=
  match c with
  | Call_list_sub_account t n _ _ | Call_unlist_sub_account t n
  | Call_accept_offer t n _ _ _ | Call_revoke_offer t n
  | Call_buy_sub_account t n _ | Call_buy_sub_account_paid t n _ _
  | Call_set_main_wallet t n _ | Call_reclaim_sweep_ft t n _ _ _ | Call_reclaim_finalize t n =>
      sub_account_key t n = key
  | _ => False
  end.

(** The calls that end a settlement of [key], or undo the rental behind it. *)
Definition settles (key : string) (c : Call) : Prop :=
  match c with
  | Call_on_sub_account_sold t n _ _ _ _ | Call_on_sub_account_sold_paid t n _ _ _ _
  | Call_admin_clear_settling t n | Call_on_reclaim_finalized t n _
  | Call_on_sub_account_created t n _ _ _ _ _ | Call_on_sub_account_created_paid t n _ _ _ _ _
  | Call_on_sub_account_re_rented t n _ _ _ => sub_account_key t n = key
  | Call_on_buy_balances_checked p _ | Call_on_buy_paid_balances_checked p _ _ =>
      sub_account_key (pb_tla_id p) (pb_name p) = key
  | Call_on_re_rent_balances_checked p _ => sub_account_key (pr_tla_id p) (pr_name p) = key
  | _ => False
  end.

(** What a settlement of [key] relies on: the listing and the offer it may be
    settling, the owner it pays and the wallet it hands over. *)
Definition settling_listing (s : TlaRegistry) (key : string) : option Listing :=
  listings s !! key ≫= fun l => if li_settling l then Some l else None.
Definition settling_offer (s : TlaRegistry) (key : string) : option AcceptedOffer :=
  accepted_offers s !! key ≫= fun o => if ao_settling o then Some o else None.
Definition title (s : TlaRegistry) (key : string) : option (AccountId * AccountId) :=
  (fun sub => (se_owner sub, se_main_wallet sub)) <$> sub_accounts s !! key.

Definition settlement (s : TlaRegistry) (key : string) :=
  (settling_listing s key, settling_offer s key, title s key).

Lemma not_idle_settling s key :
  sale_idle s key = false <-> is_Some (settling_listing s key) \/ is_Some (settling_offer s key).
Proof.
  unfold sale_idle, settling_listing, settling_offer, is_Some.
  destruct (listings s !! key) as [[? [] ?]|], (accepted_offers s !! key) as [[? ? [] ?]|]; cbn;
    naive_solver.
Qed.

Lemma guarded_blocked key c env s :
  guarded key c -> sale_idle s key = false -> is_done (exec c env s) = false.
Proof.
  intros Hg Hi. destruct (is_done (exec c env s)) eqn:E; [|done]. exfalso.
  apply is_done_inv in E as [[[u s'] l] E].
  destruct c; try done; cbn [guarded exec] in *; subst key;
    unfold list_sub_account, unlist_sub_account, accept_offer, revoke_offer, buy_sub_account,
      buy_sub_account_paid, set_main_wallet, reclaim_sweep_ft, reclaim_finalize, assert_listable in E;
    nrun E; congruence.
Qed.

Lemma title_update s k sub v key :
  sub_accounts s !! k = Some sub -> se_owner v = se_owner sub ->
  se_main_wallet v = se_main_wallet sub ->
  title (s <| sub_accounts ::= <[k := v]> |>) key = title s key.
Proof.
  intros Hk Ho Hw. unfold title. cbn. destruct (decide (k = key)) as [<-|Hne].
  - rewrite lookup_insert_eq, Hk. cbn. by rewrite Ho, Hw.
  - by rewrite lookup_insert_ne.
Qed.

Lemma settlement_frame s s' key :
  (listings s' !! key = listings s !! key) -> (accepted_offers s' !! key = accepted_offers s !! key) ->
  (sub_accounts s' !! key = sub_accounts s !! key) -> settlement s' key = settlement s key.
Proof. unfold settlement, settling_listing, settling_offer, title. by intros -> -> ->. Qed.

Ltac settlement_leaf :=
  first [ apply add_pending_refund_keeps; intros; done
        | cbn; intros <-; repeat case_match; apply settlement_frame; cbn;
          rewrite ?lookup_insert_ne, ?lookup_delete_ne, ?lookup_alter_ne by congruence; done ].

Lemma off_key_keeps key c x :
  ~ guarded key c -> ~ settles key c ->
  (match c with
   | Call_on_listing_verified t n _ _ _ _ | Call_on_offer_verified t n _ _ _ _ _
   | Call_schedule_retraction t n | Call_cancel_retraction t n | Call_renew_sub_account t n
   | Call_rent_sub_account t n _ _ | Call_rent_sub_account_paid t n _ _ => sub_account_key t n <> key
   | _ => True
   end) ->
  keeps (fun s => settlement s key = x) (exec c).
Proof.
  intros Hg Hs Hk. destruct c; cbn [exec guarded settles] in *; unfold_all; keeps_tac; settlement_leaf.
Qed.

Lemma rent_fresh t n k w env s u s' l :
  (rent_sub_account t n k w;; mret tt) env s = Done (u, s', l) ->
  sub_accounts s !! sub_account_key t n = None.
Proof.
  intros H. apply bind_inv in H as (?&?&?&?&H&_&_). unfold rent_sub_account in H. nrun H; by guards.
Qed.

Lemma rent_paid_fresh t n k w env s u s' l :
  (rent_sub_account_paid t n k w;; mret tt) env s = Done (u, s', l) ->
  sub_accounts s !! sub_account_key t n = None.
Proof.
  intros H. apply bind_inv in H as (?&?&?&?&H&_&_). unfold rent_sub_account_paid in H.
  nrun H; by guards.
Qed.

Lemma title_settlement s key k sub v :
  sub_accounts s !! k = Some sub -> se_owner v = se_owner sub ->
  se_main_wallet v = se_main_wallet sub ->
  settlement (s <| sub_accounts ::= <[k := v]> |>) key = settlement s key.
Proof. intros. unfold settlement. f_equal. by eapply title_update. Qed.

Lemma refund_settlement key account amount env s a s' l :
  add_pending_refund account amount env s = Done (a, s', l) -> settlement s' key = settlement s key.
Proof. unfold add_pending_refund. intros H. by nrun H. Qed.

Ltac title_leaf := by eapply title_settlement.

Lemma on_key_keeps key c env s s' l :
  exec c env s = Done (tt, s', l) -> ~ guarded key c -> ~ settles key c ->
  is_Some (title s key) -> settlement s' key = settlement s key.
Proof.
  intros H Hg Hs [own Ht].
  assert (Hoff := fun Hk => off_key_keeps key c _ Hg Hs Hk env s tt s' l H eq_refl).
  destruct c; cbn in Hoff; try (by apply Hoff);
    match type of Hoff with (?k <> _ -> _) => destruct (decide (k = key)) as [Ek|Hne] end;
    try (by apply Hoff); clear Hoff; cbn [exec] in H; rewrite <- Ek in *; clear Ek.
  - unfold schedule_retraction in H. nrun H. title_leaf.
  - unfold cancel_retraction in H. nrun H. title_leaf.
  - unfold on_listing_verified in H. nrun H; try done.
    unfold settlement, settling_listing. cbn. rewrite lookup_insert_eq.
    by destruct (listings s !! sub_account_key t n) as [[? [] ?]|].
  - unfold on_offer_verified in H. nrun H; try done.
    unfold settlement, settling_offer. cbn. rewrite lookup_insert_eq.
    by destruct (accepted_offers s !! sub_account_key t n) as [[? ? [] ?]|].
  - apply rent_fresh in H. unfold title in Ht. by rewrite H in Ht.
  - apply rent_paid_fresh in H. unfold title in Ht. by rewrite H in Ht.
  - unfold renew_sub_account in H. nrun H.
    all: try (apply (refund_settlement (sub_account_key t n)) in Hr; rewrite Hr).
    all: match goal with |- settlement (?a <| total_revenue ::= _ |>) ?k = _ =>
           change (settlement a k = settlement s k) end; title_leaf.
Qed.

(** The lock of [key] is taken and the name is rented. *)
Definition settling (key : string) (s : TlaRegistry) : Prop :=
  sale_idle s key = false /\ is_Some (title s key).

Lemma settlement_settling key s s' :
  settlement s' key = settlement s key -> settling key s -> settling key s'.
Proof.
  unfold settling, settlement. rewrite !not_idle_settling. by intros [= -> -> ->].
Qed.

(** C16: From a state where a sale of a rented name is settling, no history without
    one of the name's settling callbacks or the admin's clearing changes the
    settling listing or offer, the owner or the main wallet, and every guarded call
    on the name (list, unlist, offer, revoke, buy, set_main_wallet, reclaim) keeps
    failing. *)
Theorem settlement_lock_holds key s tr :
  settling key s -> Forall (fun x => ~ settles key x.2) tr ->
  settlement (run tr s) key = settlement s key /\ sale_idle (run tr s) key = false /\
  forall c env, guarded key c -> is_done (exec c env (run tr s)) = false.
Proof.
  intros Hs Htr.
  assert (Hrun : settlement (run tr s) key = settlement s key /\ settling key (run tr s)).
  { apply (run_invariant_cond exec (fun x => ~ settles key x.2)
      (fun s' => settlement s' key = settlement s key /\ settling key s')); [|done..].
    intros [env c] s1 Hns [E1 H1]. unfold step_state. cbn [fst snd] in *.
    destruct (exec c env s1) as [[[[] s2] l]|] eqn:E; [|done].
    assert (Hng : ~ guarded key c).
    { intros Hg. pose proof (guarded_blocked key c env s1 Hg (proj1 H1)) as Hb. by rewrite E in Hb. }
    pose proof (on_key_keeps key c env s1 s2 l E Hng Hns (proj2 H1)) as Ek.
    split; [congruence|by eapply settlement_settling]. }
  destruct Hrun as [E [Hi Ht]]. split_and!; [done..|].
  intros c env Hg. by apply guarded_blocked with key.
Qed.
End RegistrySale.

(** ** Witnesses *)
Lemma demo_empty_ledger rented listed revenue : ledger_exact (demo_registry_with rented listed ∅ 0 revenue).
Proof. split; [apply map_Forall_empty|done]. Qed.

Lemma buy_sub_account_locks_witness :
  exists p s' l, buy_sub_account "web.near" "bob" (demo_key 8)
      (registry_call "carol.near" (2 * 10 ^ 24) 1) demo_registry = Done (p, s', l) /\
    sale_idle s' demo_name = false.
Proof.
  destruct (is_done_inv (buy_sub_account "web.near" "bob" (demo_key 8)
    (registry_call "carol.near" (2 * 10 ^ 24) 1) demo_registry)) as [[[p s'] l] E]; [vm_eq|].
  destruct (buy_sub_account_locks _ _ _ _ _ _ _ _ E) as (_ & _ & _ & _ & H & _).
  exists p, s', l. split; [exact E|exact H].
Defined.

Lemma sale_settlement_conserves_witness :
  exists s' l, on_sub_account_sold "web.near" "bob" "carol.near" (10 ^ 24) (2 * 10 ^ 24) (Ok true)
      (registry_callback 2 []) demo_settling = Done (tt, s', l) /\
    liabilities s' = 2 * 10 ^ 24 /\ get_pending_refund s' "carol.near" = 10 ^ 24.
Proof.
  destruct (sale_settlement_conserves "web.near" "bob" "carol.near" (10 ^ 24) (2 * 10 ^ 24) (Ok true)
    (registry_callback 2 []) demo_settling) as (s' & l & E & H).
  - reflexivity.
  - split; by apply Z.leb_le.
  - split; [apply demo_empty_ledger|]. split; by apply Z.leb_le.
  - by apply Z.leb_le.
  - exists s', l. split; [exact E|]. destruct H as (H1 & _ & _ & _ & H2).
    split; [rewrite H1; vm_eq|rewrite (H2 "carol.near"); vm_eq].
Defined.

Lemma settlement_lock_holds_witness :
  is_done (exec (Call_set_main_wallet "web.near" "bob" "mallory.near")
    (registry_call "bob.near" 1 5)
    (run exec [(registry_call "bob.near" 1 3, Call_unlist_sub_account "web.near" "bob");
               (registry_call "dao.near" 0 4, Call_pause)] demo_settling)) = false.
Proof.
  destruct (settlement_lock_holds demo_name demo_settling
    [(registry_call "bob.near" 1 3, Call_unlist_sub_account "web.near" "bob");
     (registry_call "dao.near" 0 4, Call_pause)]) as (_ & _ & H).
  - split; [vm_eq|]. exists ("bob.near", "bob.near"). vm_eq.
  - constructor; [cbn; tauto|]. constructor; [cbn; tauto|constructor].
  - apply H. reflexivity.
Defined.
