(* ===== verification/RegistryNames.v ===== *)
(** * tla-registry: the life of a name

    Who may change the record of a name, and how: every method of the contract
    refines a small step relation on the record. What a rental charges and
    what its callbacks settle, when a name may be reclaimed and what is left
    of it, and the capacity of business TLAs. *)
From S2P Require Export RegistrySale.

Section RegistryNames.
Context `{HS : !Sdk}.
Notation run := (run exec).

(** ** The record of a name *)

(** The record a rental writes. *)
Definition new_entry (env : Env) (tla_id main_wallet : AccountId) : SubAccountEntry :=
  mkSubAccountEntry (predecessor_account_id env) tla_id main_wallet (block_timestamp env)
    (saturating_add U64_MAX (block_timestamp env) ONE_YEAR_NS) None.

(** The callbacks that undo the rental of a name: a mint that was not made, a
    parked wallet that still holds tokens or was not transferred. *)
Definition undoes (env : Env) (c : Call) : option string :=
  match c with
  | Call_on_sub_account_created t n _ _ _ _ r | Call_on_sub_account_created_paid t n _ _ _ _ r =>
      match r with
      | Ok MintOutcome_CreationFailed | Err _ => Some (sub_account_key t n)
      | _ => None
      end
  | Call_on_sub_account_re_rented t n _ _ _ =>
      match promise_results env with
      | [PromiseResult_Failed] => Some (sub_account_key t n)
      | _ => None
      end
  | Call_on_re_rent_balances_checked p al =>
      match ft_balances_clear env al with
      | BalanceGate_Blocked _ _ => Some (sub_account_key (pr_tla_id p) (pr_name p))
      | BalanceGate_Clear => None
      end
  | _ => None
  end.

(** One call's effect on the record of [key]: a change is made by the renter of
    a free name, by the owner, or by the settlement of what they started. *)
Inductive NameStep (env : Env) (s : TlaRegistry) (key : string)
  : Call -> option SubAccountEntry -> option SubAccountEntry -> Prop :=
| ns_same c e : NameStep env s key c e e
| ns_rented t n k w :
    paused s = false -> w <> key ->
    NameStep env s key (Call_rent_sub_account t n k w) None (Some (new_entry env t w))
| ns_rented_paid t n k w :
    paused s = false -> predecessor_account_id env ∈ payment_authorities s ->
    is_ed25519 k = true -> parked_names s !! key = None -> w <> key ->
    NameStep env s key (Call_rent_sub_account_paid t n k w) None (Some (new_entry env t w))
| ns_wallet t n sub w :
    attached_deposit env = 1 -> paused s = false -> se_owner sub = predecessor_account_id env ->
    w <> key -> sale_idle s key = true ->
    NameStep env s key (Call_set_main_wallet t n w)
      (Some sub) (Some (sub <| se_main_wallet := w |>))
| ns_renewed t n sub :
    paused s = false -> se_owner sub = predecessor_account_id env -> se_retraction_at sub = None ->
    block_timestamp env < saturating_add U64_MAX (se_expires_at sub) (grace_period_ns s) ->
    NameStep env s key (Call_renew_sub_account t n) (Some sub)
      (Some (sub <| se_expires_at := saturating_add U64_MAX
                      (Z.max (block_timestamp env) (se_expires_at sub)) ONE_YEAR_NS |>))
| ns_scheduled t n sub :
    attached_deposit env = 1 -> paused s = false -> se_owner sub = predecessor_account_id env ->
    se_retraction_at sub = None ->
    NameStep env s key (Call_schedule_retraction t n)
      (Some sub) (Some (sub <| se_retraction_at := Some (block_timestamp env) |>))
| ns_cancelled t n sub at_ :
    attached_deposit env = 1 -> paused s = false -> se_owner sub = predecessor_account_id env ->
    se_retraction_at sub = Some at_ ->
    block_timestamp env < saturating_add U64_MAX at_ (retraction_notice_ns (fee_config s)) ->
    NameStep env s key (Call_cancel_retraction t n)
      (Some sub) (Some (sub <| se_retraction_at := None |>))
| ns_sold t n buyer price deposit sub :
    predecessor_account_id env = current_account_id env ->
    NameStep env s key (Call_on_sub_account_sold t n buyer price deposit (Ok true))
      (Some sub) (Some (sub <| se_owner := buyer |> <| se_main_wallet := buyer |>))
| ns_sold_paid t n buyer operator price sub :
    predecessor_account_id env = current_account_id env ->
    NameStep env s key (Call_on_sub_account_sold_paid t n buyer operator price (Ok true))
      (Some sub) (Some (sub <| se_owner := operator |> <| se_main_wallet := buyer |>))
| ns_undone c e :
    predecessor_account_id env = current_account_id env -> undoes env c = Some key ->
    NameStep env s key c e None
| ns_reclaimed t n dest data e :
    predecessor_account_id env = current_account_id env ->
    promise_results env = [PromiseResult_Successful data] ->
    NameStep env s key (Call_on_reclaim_finalized t n dest) e None.

(** The methods that write the record of [k]. *)
Definition writes (c : Call) : option string :=
  match c with
  | Call_schedule_retraction t n | Call_cancel_retraction t n | Call_set_main_wallet t n _
  | Call_renew_sub_account t n | Call_rent_sub_account t n _ _ | Call_rent_sub_account_paid t n _ _
  | Call_on_sub_account_sold t n _ _ _ _ | Call_on_sub_account_sold_paid t n _ _ _ _
  | Call_on_sub_account_created t n _ _ _ _ _ | Call_on_sub_account_created_paid t n _ _ _ _ _
  | Call_on_sub_account_re_rented t n _ _ _ | Call_on_reclaim_finalized t n _ =>
      Some (sub_account_key t n)
  | Call_on_re_rent_balances_checked p _ => Some (sub_account_key (pr_tla_id p) (pr_name p))
  | _ => None
  end.

Lemma unwritten_keeps key c x :
  writes c <> Some key -> keeps (fun s => sub_accounts s !! key = x) (exec c).
Proof.
  intros Hw. destruct c; cbn [exec writes] in *; unfold_all; keeps_tac;
    first [ apply add_pending_refund_keeps; intros; done
          | cbn; intros <-; repeat case_match;
            rewrite ?lookup_insert_ne, ?lookup_delete_ne by congruence; done ].
Qed.

Lemma pending_subs account amount env s a s' l :
  add_pending_refund account amount env s = Done (a, s', l) ->
  sub_accounts s' = sub_accounts s /\ paused s' = paused s.
Proof. unfold add_pending_refund. intros H. by nrun H. Qed.

Lemma mother_default_subs user env s a s' l :
  ensure_mother_default user env s = Done (a, s', l) ->
  sub_accounts s' = sub_accounts s /\ parked_names s' = parked_names s.
Proof. unfold ensure_mother_default, increment_mother_use. intros H. by nrun H. Qed.

Lemma business_bump_subs t env s a s' l :
  business_count_check_and_bump t env s = Done (a, s', l) ->
  sub_accounts s' = sub_accounts s /\ parked_names s' = parked_names s.
Proof. unfold business_count_check_and_bump. intros H. by nrun H. Qed.

Ltac frame_subs :=
  repeat match goal with
  | E : ensure_mother_default _ _ _ = Done _ |- _ => apply mother_default_subs in E as [? ?]
  | E : business_count_check_and_bump _ _ _ = Done _ |- _ => apply business_bump_subs in E as [? ?]
  | E : add_pending_refund _ _ _ _ = Done _ |- _ => apply pending_subs in E as [? ?]
  end; cbn in *.

Lemma rent_writes t n k w env s p s' l :
  rent_sub_account t n k w env s = Done (p, s', l) ->
  let key := sub_account_key t n in
  paused s = false /\ sub_accounts s !! key = None /\ w <> key /\
  sub_accounts s' = <[key := new_entry env t w]> (sub_accounts s).
Proof.
  unfold rent_sub_account. intros H. nrun H; guards; frame_subs; split_and!; try done;
    unfold new_entry; congruence.
Qed.

Lemma rent_paid_writes t n k w env s p s' l :
  rent_sub_account_paid t n k w env s = Done (p, s', l) ->
  let key := sub_account_key t n in
  paused s = false /\ predecessor_account_id env ∈ payment_authorities s /\ is_ed25519 k = true /\
  sub_accounts s !! key = None /\ parked_names s !! key = None /\ w <> key /\
  sub_accounts s' = <[key := new_entry env t w]> (sub_accounts s).
Proof.
  unfold rent_sub_account_paid. intros H. nrun H; guards; guards; frame_subs;
    split_and!; try done; unfold new_entry; congruence.
Qed.

Lemma removing_keeps key c x :
  match c with
  | Call_on_sub_account_created _ _ _ _ _ _ _ | Call_on_sub_account_created_paid _ _ _ _ _ _ _
  | Call_on_sub_account_re_rented _ _ _ _ _ | Call_on_reclaim_finalized _ _ _
  | Call_on_re_rent_balances_checked _ _ => True
  | _ => False
  end ->
  keeps (fun s => sub_accounts s !! key = x \/ sub_accounts s !! key = None) (exec c).
Proof.
  intros Hc. destruct c; try done; cbn [exec]; unfold_all; keeps_tac;
    first [ apply add_pending_refund_keeps; intros; done
          | cbn; intros HI; repeat case_match; try done;
            match goal with |- context [delete ?k _ !! key] =>
              destruct (decide (k = key)) as [->|];
                [rewrite lookup_delete_eq; by right|by rewrite lookup_delete_ne]
            end ].
Qed.

Lemma removing_private c env s a s' l :
  match c with
  | Call_on_sub_account_created _ _ _ _ _ _ _ | Call_on_sub_account_created_paid _ _ _ _ _ _ _
  | Call_on_sub_account_re_rented _ _ _ _ _ | Call_on_reclaim_finalized _ _ _
  | Call_on_re_rent_balances_checked _ _ => True
  | _ => False
  end ->
  exec c env s = Done (a, s', l) -> predecessor_account_id env = current_account_id env.
Proof.
  intros Hc H. destruct c; try done; cbn [exec] in H;
    unfold on_sub_account_created, on_sub_account_created_paid, on_sub_account_re_rented,
      on_reclaim_finalized, on_re_rent_balances_checked in H;
    repeat match type of H with
    | (private_method _ ≫= _) _ _ = _ =>
        apply bind_inv in H as (? & ? & ? & ? & [? _]%private_inv & _ & _)
    | _ => apply bind_inv in H as (? & ? & ? & ? & H & _ & _)
    end; done.
Qed.

Ltac unchanged :=
  try match goal with E : sub_accounts _ !! _ = None |- _ => rewrite E end; apply ns_same.

Lemma minted_keeps key t n payer k rent attached x o :
  o <> MintOutcome_CreationFailed ->
  keeps (fun s => sub_accounts s !! key = x)
        (on_sub_account_created t n payer k rent attached (Ok o)) /\
  keeps (fun s => sub_accounts s !! key = x)
        (on_sub_account_created_paid t n payer k rent attached (Ok o)).
Proof.
  intros Ho. destruct o; try done; split; unfold_all; keeps_tac;
    first [by apply add_pending_refund_keeps; intros|done].
Qed.

(** A callback that may remove a record does so only when it undoes a rental or
    completes a reclaim. *)
Lemma removing_reason c env s s' l key :
  writes c = Some key -> exec c env s = Done (tt, s', l) ->
  match c with
  | Call_on_sub_account_created _ _ _ _ _ _ _ | Call_on_sub_account_created_paid _ _ _ _ _ _ _
  | Call_on_sub_account_re_rented _ _ _ _ _ | Call_on_re_rent_balances_checked _ _ =>
      sub_accounts s' !! key = sub_accounts s !! key \/ undoes env c = Some key
  | Call_on_reclaim_finalized _ _ _ =>
      sub_accounts s' !! key = sub_accounts s !! key \/
      exists data, promise_results env = [PromiseResult_Successful data]
  | _ => True
  end.
Proof.
  intros Hw H. destruct c; try done; cbn [exec writes undoes] in *.
  - apply bind_inv in H as (?&?&?&?&H&Hret&_); apply ret_inv in Hret as [= -> ->].
    unfold on_re_rent_balances_checked in H. nrun H; [by left|by right].
  - destruct r as [[]|]; try (by right); left; refine (proj1 (minted_keeps key t n payer k rent
      attached (sub_accounts s !! key) _ _) env s tt s' l H eq_refl); done.
  - destruct r as [[]|]; try (by right); left; refine (proj2 (minted_keeps key t n payer k rent
      attached (sub_accounts s !! key) _ _) env s tt s' l H eq_refl); done.
  - unfold on_sub_account_re_rented in H. nrun H; frame_subs; guards.
    all: match goal with E : promise_results _ = _ |- _ => rewrite E end.
    all: (by right) || (left; congruence).
  - unfold on_reclaim_finalized in H.
    apply bind_inv in H as (?&?&?&?&[_ Hx]%private_inv&H&_). simplify_eq.
    apply bind_inv in H as (?&?&?&?&Hx%modify_inv&H&_). simplify_eq.
    apply bind_inv in H as (?&?&?&?&Hx&H&_).
    apply promise_success_inv in Hx as [(data & Hd & ?)|[Hd ?]]; simplify_eq; [eauto|].
    cbn in H. nrun H. by left.
Qed.

Lemma exec_name_step c env s s' l key :
  exec c env s = Done (tt, s', l) ->
  NameStep env s key c (sub_accounts s !! key) (sub_accounts s' !! key).
Proof.
  intros H. destruct (decide (writes c = Some key)) as [Hw|Hw].
  2: { rewrite (unwritten_keeps key c (sub_accounts s !! key) Hw env s tt s' l H eq_refl).
       apply ns_same. }
  assert (Hrm := fun Hc => removing_keeps key c (sub_accounts s !! key) Hc env s tt s' l H
                             (or_introl eq_refl)).
  assert (Hpr := fun Hc => removing_private c env s tt s' l Hc H).
  assert (Hwhy := removing_reason c env s s' l key Hw H).
  destruct c; try done; injection Hw as Hw;
    try (destruct (Hrm I) as [->|E]; [apply ns_same|]; specialize (Hpr I);
         destruct Hwhy as [Hs|Hwhy]; [rewrite Hs; apply ns_same|rewrite E];
         first [by apply ns_undone|destruct Hwhy; by eapply ns_reclaimed]);
    clear Hrm Hpr Hwhy; cbn [exec] in H; rewrite <- Hw in *; clear Hw.
  - unfold schedule_retraction in H. nrun H. guards. cbn. rewrite lookup_insert_eq.
    match goal with E : sub_accounts s !! _ = Some _ |- _ => rewrite E end. by apply ns_scheduled.
  - unfold cancel_retraction in H. nrun H. guards. cbn. rewrite lookup_insert_eq.
    match goal with E : sub_accounts s !! _ = Some _ |- _ => rewrite E end.
    by eapply ns_cancelled.
  - destruct (swap_done r) eqn:Er; [destruct r as [[]|]; try done|];
    unfold on_sub_account_sold, clear_settling in H; rewrite ?Er in H; nrun H; frame_subs.
    all: rewrite ?lookup_insert_eq; try (by apply ns_sold).
    all: match goal with E : sub_accounts ?x = sub_accounts _ |- context [sub_accounts ?x] => rewrite E end.
    all: unchanged.
  - destruct (swap_done r) eqn:Er; [destruct r as [[]|]; try done|];
    unfold on_sub_account_sold_paid, clear_settling in H; rewrite ?Er in H; nrun H; frame_subs.
    all: rewrite ?lookup_insert_eq; first [by apply ns_sold_paid|unchanged].
  - apply bind_inv in H as (?&?&?&?&H&Hret&_); apply ret_inv in Hret as [= -> ->].
    apply rent_writes in H as (?&E&?&->). rewrite E, lookup_insert_eq. by apply ns_rented.
  - apply bind_inv in H as (?&?&?&?&H&Hret&_); apply ret_inv in Hret as [= -> ->].
    apply rent_paid_writes in H as (?&?&?&E&?&?&->).
    rewrite E, lookup_insert_eq. by apply ns_rented_paid.
  - unfold set_main_wallet in H. nrun H. guards. cbn. rewrite lookup_insert_eq.
    match goal with E : sub_accounts s !! _ = Some _ |- _ => rewrite E end. by apply ns_wallet.
  - unfold renew_sub_account in H. nrun H; guards; frame_subs.
    all: match goal with E : sub_accounts _ !! _ = Some _ |- _ => rewrite E end.
    all: rewrite ?lookup_insert_eq; try (by apply ns_renewed).
    match goal with E : sub_accounts _ = <[_:=_]> _ |- _ => rewrite E end.
    rewrite lookup_insert_eq. by apply ns_renewed.
Qed.

(** C17: Along every history, every call of the registry moves the record of each
    name by one step of the abstract relation: a free name is rented by its caller
    for one year, only a call that names it changes a record, its owner within the
    rules of each method; a sale hands it to the buyer when the swap happened, and
    it is removed only when a failed rental is undone or a reclaim completes. *)
Theorem exec_refines_name_step s tr env c key :
  let before := sub_accounts (run tr s) !! key in
  let after := sub_accounts (run (tr ++ [(env, c)]) s) !! key in
  NameStep env (run tr s) key c before after /\ (writes c <> Some key -> after = before).
Proof.
  cbv zeta. rewrite run_app. cbn. unfold step_state. cbn [fst snd].
  destruct (exec c env (run tr s)) as [[[[] s'] l]|] eqn:E; [|split; [apply ns_same|done]].
  split; [by eapply exec_name_step|]. intros Hw.
  exact (unwritten_keeps key c _ Hw env _ tt s' l E eq_refl).
Qed.

(** ** Reclaiming a name *)

(** The name's time is over: its TLA expired beyond grace, its business owner's
    retraction notice ran out, or its own rental expired beyond grace. *)
Definition time_is_up (s : TlaRegistry) (now : Z) (sub : SubAccountEntry) (tla : TlaEntry) : Prop :=
  (te_status tla = TlaStatus_Active /\ te_expires_at tla <= now /\
     saturating_add U64_MAX (te_expires_at tla) (grace_period_ns s) <= now) \/
  (exists r, se_retraction_at sub = Some r /\
     saturating_add U64_MAX r (retraction_notice_ns (fee_config s)) <= now) \/
  (se_expires_at sub <= now /\ saturating_add U64_MAX (se_expires_at sub) (grace_period_ns s) <= now).

Lemma time_lifecycle_reclaimable now expires grace :
  time_lifecycle now expires grace = Lifecycle_Reclaimable <->
  expires <= now /\ saturating_add U64_MAX expires grace <= now.
Proof.
  unfold time_lifecycle. destruct (Z.ltb_spec now expires); [split; [done|lia]|].
  destruct (Z.ltb_spec now (saturating_add U64_MAX expires grace)); split; (done || lia).
Qed.

Lemma effective_reclaimable s now sub tla :
  effective_sub_lifecycle now sub tla (retraction_notice_ns (fee_config s)) (grace_period_ns s)
    = Lifecycle_Reclaimable <-> time_is_up s now sub tla.
Proof.
  unfold effective_sub_lifecycle, time_is_up.
  assert (Ht : tla_lifecycle now tla (grace_period_ns s) = Lifecycle_Reclaimable <->
    te_status tla = TlaStatus_Active /\ te_expires_at tla <= now /\
     saturating_add U64_MAX (te_expires_at tla) (grace_period_ns s) <= now).
  { unfold tla_lifecycle. destruct (te_status tla); rewrite ?time_lifecycle_reclaimable; naive_solver. }
  rewrite <- Ht. case_bool_decide as Hd; [tauto|].
  destruct (se_retraction_at sub) as [r|].
  - destruct (Z.leb_spec (saturating_add U64_MAX r (retraction_notice_ns (fee_config s))) now).
    + split; [|done]. right. left. eauto.
    + unfold sub_lifecycle. rewrite time_lifecycle_reclaimable. naive_solver lia.
  - unfold sub_lifecycle. rewrite time_lifecycle_reclaimable. naive_solver.
Qed.

(** When [reclaim_*] accepts a name: only its own owner may still use it as a
    mother, and its time is up. *)
Definition reclaimable (s : TlaRegistry) (now : Z) (tla_id : AccountId) (key : string)
    (account destination : AccountId) : Prop :=
  account_parse key = Some account /\ exists sub tla,
    sub_accounts s !! key = Some sub /\ se_tla_id sub = tla_id /\ destination = se_main_wallet sub /\
    mother_uses s account <= (if bool_decide (mothers s !! se_owner sub = Some account) then 1 else 0) /\
    tlas s !! tla_id = Some tla /\ time_is_up s now sub tla.

Lemma resolve_reclaimable_ok tla_id key env s account destination :
  resolve_reclaimable tla_id key env s = Done (account, destination) <->
  reclaimable s (block_timestamp env) tla_id key account destination.
Proof.
  unfold resolve_reclaimable, reclaimable.
  destruct (account_parse key) as [a|]; [|naive_solver].
  destruct (sub_accounts s !! key) as [sub|]; [|naive_solver].
  case_bool_decide as Et; cbn [negb]; [|naive_solver].
  match goal with |- context [0 <? ?x] => remember x as ext eqn:Ee; destruct (Z.ltb_spec 0 ext) end.
  { split; [done|]. intros (Ha & sub' & tla & ? & _ & _ & Hm & _). simplify_eq.
    repeat case_bool_decide; unfold saturating_sub in *; lia. }
  destruct (tlas s !! tla_id) as [tla|]; [|naive_solver].
  destruct (decide (effective_sub_lifecycle (block_timestamp env) sub tla
    (retraction_notice_ns (fee_config s)) (grace_period_ns s) = Lifecycle_Reclaimable)) as [El|El];
    [rewrite (bool_decide_true _ El)|rewrite (bool_decide_false _ El)]; cbn [negb].
  - apply effective_reclaimable in El. split.
    + intros [= <- <-]. split; [done|]. exists sub, tla. split_and!; try done.
      subst. repeat case_bool_decide; unfold saturating_sub in *; lia.
    + naive_solver.
  - split; [done|]. intros (_ & sub' & tla' & ? & _ & _ & _ & ? & Hu). simplify_eq.
    by apply effective_reclaimable in Hu.
Qed.

(** What parks the wallet: the swap to the registry's key, or the delayed
    install of that key when the wallet has no signer yet. *)
Definition park_promise (s : TlaRegistry) (account tla_id : AccountId) (name : string)
    (destination : AccountId) : RegPromise :=
  let key := sub_account_key tla_id name in
  PThen (if bool_decide (is_Some (signer_pending s !! key))
         then ext_call tla_id (Msg_retry_install account (parked_signer_pubkey s)) 0 GAS_FOR_RETRY_INSTALL
         else ext_call (hos_extension s) (Msg_force_transfer account (parked_signer_pubkey s) None) 0
                GAS_FOR_HOS_FORCE_TRANSFER)
    (Cb_on_reclaim_finalized tla_id name destination) GAS_FOR_FINALIZE_CB.

Lemma park_wallet_runs account tla_id name destination env s :
  park_wallet account tla_id name destination env s =
    Done (park_promise s account tla_id name destination, s, []).
Proof. unfold park_wallet, park_promise. nexec. by case_bool_decide. Qed.

(** C28: reclaim_finalize starts only on an idle, not yet pending, reclaimable name
    and asks for its token balances first; on_balances_checked returns the parking
    promise exactly when the name is idle, its balances are clear and it is still
    reclaimable, and otherwise only clears the pending mark. *)
Theorem wallet_parked_only_when_reclaimable tla_id name destination allowlist env s :
  let key := sub_account_key tla_id name in
  (forall p s' l, reclaim_finalize tla_id name env s = Done (p, s', l) ->
     sale_idle s key = true /\ reclaim_pending s !! key = None /\ paused s = false /\
     s' = s <| reclaim_pending ::= <[key := true]> |> /\
     exists account dest, reclaimable s (block_timestamp env) tla_id key account dest /\
       p = match ft_balance_fanout (allowlist_of s) account with
           | None => park_promise s account tla_id name dest
           | Some chain => PThen chain (Cb_on_balances_checked tla_id name dest (allowlist_of s))
                             GAS_FOR_BALANCES_CB_TOTAL
           end) /\
  (predecessor_account_id env = current_account_id env ->
   exists r s' l, on_balances_checked tla_id name destination allowlist env s = Done (r, s', l) /\
     ((exists account dest, sale_idle s key = true /\ ft_balances_clear env allowlist = BalanceGate_Clear /\
         reclaimable s (block_timestamp env) tla_id key account dest /\ s' = s /\
         r = POV_Promise (park_promise s account tla_id name destination)) \/
      (r = POV_Value tt /\ s' = s <| reclaim_pending ::= delete key |> /\
       ~ (sale_idle s key = true /\ ft_balances_clear env allowlist = BalanceGate_Clear /\
          exists account dest, reclaimable s (block_timestamp env) tla_id key account dest)))).
Proof.
  cbv zeta. split.
  - unfold reclaim_finalize. intros p s' l H. nrun H; guards;
      (split_and!; try done; do 2 eexists; split; [by apply resolve_reclaimable_ok|]);
      match goal with E : ft_balance_fanout _ _ = _ |- _ =>
        change (allowlist_of _) with (allowlist_of s) in E; rewrite E end;
      unfold park_promise; cbn in *; rewrite ?bool_decide_true, ?bool_decide_false by done; done.
  - intros Hp. unfold on_balances_checked. nexec. rewrite bool_decide_true by done. cbn.
    set (key := sub_account_key tla_id name).
    destruct (sale_idle s key) eqn:Ei; cbn.
    2: { do 3 eexists. split; [reflexivity|]. right. split_and!; [done..|]. by intros [? _]. }
    destruct (ft_balances_clear env allowlist) as [|token reason] eqn:Eg; nexec.
    2: { do 3 eexists. split; [reflexivity|]. right. split_and!; [done..|]. by intros (_ & ? & _). }
    destruct (resolve_reclaimable tla_id key env s) as [[account dest]|f] eqn:Er; cbn.
    + apply resolve_reclaimable_ok in Er.
      exists (POV_Promise (park_promise s account tla_id name destination)), s, [].
      split; [unfold park_promise; fold key; by case_bool_decide|]. left. by exists account, dest.
    + do 3 eexists. split; [reflexivity|]. right. split_and!; [done..|].
      intros (_ & _ & account & dest & Hr). apply resolve_reclaimable_ok in Hr. congruence.
Qed.

Lemma business_decrement_frame t env s :
  exists m, business_count_decrement_if_business t env s =
    Done (tt, s <| business_sub_count := m |>, []).
Proof.
  unfold business_count_decrement_if_business, business_count_decrement. nexec.
  destruct (match tlas s !! t with Some _ => _ | None => _ end);
    [destruct (business_count s t =? 0); [|destruct (saturating_sub (business_count s t) 1 =? 0)]|].
  all: cbn; first [ by eexists
                  | exists (business_sub_count s); by destruct s ].
Qed.

(** The name [key] is gone from every table and parked under [tla_id]. *)
Definition released (s s' : TlaRegistry) (key : string) (tla_id : AccountId) (now : Z) : Prop :=
  sub_accounts s' = delete key (sub_accounts s) /\ listings s' = delete key (listings s) /\
  accepted_offers s' = delete key (accepted_offers s) /\
  signer_pending s' = delete key (signer_pending s) /\
  reclaim_pending s' = delete key (reclaim_pending s) /\
  parked_names s' = <[key := mkParkedEntry tla_id now]> (parked_names s) /\
  sub_account_count s' = saturating_sub (sub_account_count s) 1 /\
  pending_refunds s' = pending_refunds s /\ liabilities s' = liabilities s.

(** on_reclaim_finalized after a successful call removes the name from every table
    and parks it under its TLA; after a failed call it only clears the pending mark. *)
Theorem reclaim_releases_the_name tla_id name destination env s :
  predecessor_account_id env = current_account_id env ->
  let key := sub_account_key tla_id name in
  (promise_results env = [PromiseResult_Failed] ->
     on_reclaim_finalized tla_id name destination env s =
       Done (tt, s <| reclaim_pending ::= delete key |>,
             [Emit (Event_ReclaimFinalizeBlocked key EmptyString "park_failed")])) /\
  (forall data sub account, promise_results env = [PromiseResult_Successful data] ->
     sub_accounts s !! key = Some sub -> account_parse key = Some account ->
     exists s', on_reclaim_finalized tla_id name destination env s =
         Done (tt, s', [Emit (Event_SubAccountReclaimed key tla_id destination)]) /\
       released s s' key tla_id (block_timestamp env) /\
       let own_mother := bool_decide (mothers s !! se_owner sub = Some account) in
       mothers s' = (if own_mother then delete (se_owner sub) (mothers s) else mothers s) /\
       mother_uses s' account = (if own_mother then saturating_sub (mother_uses s account) 1
                                 else mother_uses s account)).
Proof.
  intros Hp key. unfold on_reclaim_finalized. fold key. split.
  - intros Hf. nexec. rewrite bool_decide_true by done. cbn. by rewrite Hf.
  - intros data sub account Hs Hsub Hacc. nexec. rewrite bool_decide_true by done. cbn.
    rewrite Hs. nexec. rewrite Hsub. nexec. rewrite Hacc. nexec.
    case_bool_decide as Em; cbn;
      repeat change (mother_uses (set_field _ _ _) account) with (mother_uses s account);
      [destruct (Z.eqb_spec (saturating_sub (mother_uses s account) 1) 0) as [E0|E0]|].
    all: match goal with |- context [business_count_decrement_if_business ?t ?e ?x] =>
           destruct (business_decrement_frame t e x) as [m ->] end.
    all: eexists; split; [reflexivity|]; split; [by unfold released, liabilities|]; split; [done|].
    all: unfold mother_uses in *; cbn.
    + by rewrite lookup_delete_eq, E0.
    + by rewrite lookup_insert_eq.
    + done.
Qed.

(** ** Renting a name *)

Lemma business_bump_inv t env s a s' l :
  business_count_check_and_bump t env s = Done (a, s', l) ->
  l = [] /\ business_count s t < effective_business_cap s t /\
  s' = s <| business_sub_count ::= <[t := saturating_add U32_MAX (business_count s t) 1]> |>.
Proof. unfold business_count_check_and_bump. intros H. nrun H. guards. split_and!; (done || lia). Qed.

Lemma mother_default_frame user env s a s' l :
  ensure_mother_default user env s = Done (a, s', l) ->
  exists m u, s' = s <| mothers := m |> <| mother_use_count := u |> /\ is_Some (m !! user).
Proof.
  unfold ensure_mother_default, increment_mother_use. intros H. nrun H; guards.
  - exists (mothers s), (mother_use_count s). split; [by destruct s|done].
  - do 2 eexists. split; [reflexivity|]. rewrite lookup_insert_eq. eauto.
  - exists (<[user := user]> (mothers s)), (mother_use_count s). split; [by destruct s|].
    rewrite lookup_insert_eq. eauto.
Qed.

(** What a rental promises: a mint through the TLA's manager for a fresh name,
    the transfer of the parked wallet for one that was reclaimed. *)
Definition rental_promise (s : TlaRegistry) (t : AccountId) (n : string) (k : PublicKey)
    (caller : AccountId) (rent attached : Z) : option RegPromise :=
  let key := sub_account_key t n in
  if bool_decide (parked_names s !! key = None) then
    Some (PThen (ext_call t (Msg_create_sub_account n k) (account_creation_deposit (fee_config s))
                   GAS_FOR_CREATE)
            (Cb_on_sub_account_created t n caller k rent attached) GAS_FOR_CALLBACK)
  else
    account ← account_parse key;
    let pending := mkPendingReRent t n caller k rent attached account in
    Some match ft_balance_fanout (allowlist_of s) account with
         | None => re_rent_transfer (hos_extension s) pending
         | Some chain => PThen chain (Cb_on_re_rent_balances_checked pending (allowlist_of s))
                           GAS_FOR_RERENT_BALANCES_CB
         end.

(** C29: A rental that is accepted was of a free, valid name under an accepting TLA
    (the licensee's, within capacity, for a business TLA) with the full price
    attached; it records the caller for one year, books no money yet, and promises
    the mint of a fresh name or the gated transfer of a parked one. *)
Theorem rent_sub_account_spec t n k w env s p s' l :
  rent_sub_account t n k w env s = Done (p, s', l) ->
  let key := sub_account_key t n in let caller := predecessor_account_id env in
  paused s = false /\ name_error n = None /\ sub_accounts s !! key = None /\ w <> key /\
  sub_accounts s' = <[key := new_entry env t w]> (sub_accounts s) /\
  liabilities s' = liabilities s /\ is_Some (mothers s' !! caller) /\
  exists tla, tlas s !! t = Some tla /\ te_status tla = TlaStatus_Active /\
    block_timestamp env < te_expires_at tla /\
    (te_tla_type tla = TlaType_Business ->
       te_licensee tla = Some caller /\ business_count s t < effective_business_cap s t /\
       business_count s' t = saturating_add U32_MAX (business_count s t) 1) /\
    let rent := calculate_rent tla t n (fee_config s) in
    (if bool_decide (parked_names s !! key = None)
     then saturating_add U128_MAX rent (account_creation_deposit (fee_config s)) else rent)
      <= attached_deposit env /\
    Some p = rental_promise s t n k caller rent (attached_deposit env).
Proof.
  intros H. cbv zeta. pose proof (rent_writes _ _ _ _ _ _ _ _ _ H) as (W1 & W2 & W3 & W4).
  unfold rent_sub_account in H. nrun H.
  all: repeat match goal with
    | E : ensure_mother_default _ _ _ = Done _ |- _ =>
        apply mother_default_frame in E as (m & u & -> & Hm)
    | E : business_count_check_and_bump _ _ _ = Done _ |- _ =>
        apply business_bump_inv in E as (-> & Hcap & ->)
    end.
  all: guards; unfold is_accepting_rentals in *; guards.
  all: split_and!; try done; eexists; split_and!; try done.
  all: try (intros _; subst; split_and!; [done|exact Hcap|]; unfold business_count; cbn;
            by rewrite lookup_insert_eq).
  all: unfold rental_promise, re_rent_transfer; cbn.
  all: first [rewrite bool_decide_true by (by apply eq_None_not_Some)
             |rewrite bool_decide_false by (by apply not_eq_None_Some)].
  all: try done.
  all: match goal with E : ft_balance_fanout _ _ = _, P : account_parse _ = _ |- _ =>
         change (allowlist_of _) with (allowlist_of s) in E; by rewrite P; cbn; rewrite E end.
Qed.

(** ** Settling a rental *)

Lemma settle_failed_mint_runs key t payer attached reason env s :
  room_for s attached -> 0 <= attached ->
  exists s', settle_failed_mint key t payer attached reason env s =
      Done (tt, s', [Emit (Event_RefundPending payer attached reason)]) /\
    ledger_exact s' /\ sub_accounts s' = delete key (sub_accounts s) /\
    total_revenue s' = total_revenue s /\ liabilities s' = liabilities s + attached /\
    sub_account_count s' = sub_account_count s /\ signer_pending s' = signer_pending s /\
    parked_names s' = parked_names s /\
    forall a, get_pending_refund s' a = get_pending_refund s a + (if bool_decide (a = payer) then attached else 0).
Proof.
  intros (Hl & Hr & Ht) Ha. unfold settle_failed_mint. nexec.
  match goal with |- context [business_count_decrement_if_business ?t ?e ?x] =>
    destruct (business_decrement_frame t e x) as [m ->] end.
  match goal with |- context [add_pending_refund payer attached env ?x] => set (s1 := x) end.
  assert (Hl1 : ledger_exact s1) by done.
  rewrite (add_pending_refund_credits payer attached env s1 Hl1) by (done || cbn; lia).
  eexists. split; [reflexivity|]. split_and!; try done.
  - by apply credit_ledger.
  - unfold liabilities. cbn. lia.
  - intros a. rewrite credit_pending. done.
Qed.

Ltac fold_refund :=
  match goal with |- context [(if 0 <? saturating_sub ?a ?c then add_pending_refund ?p _ else _) ?e ?x] =>
    change ((if 0 <? saturating_sub a c then add_pending_refund p (saturating_sub a c) else _) e x)
      with (refund_excess p a c e x)
  end.

(** [payer] paid [kept] and [spent] out of [attached], and is owed the rest. *)
Definition charged (s s' : TlaRegistry) (payer : AccountId) (attached kept spent : Z) : Prop :=
  ledger_exact s' /\ total_revenue s' = total_revenue s + kept /\
  liabilities s' = liabilities s + attached - spent /\
  forall a, get_pending_refund s' a = get_pending_refund s a
    + (if bool_decide (a = payer) then attached - (kept + spent) else 0).

Lemma record_rental_runs key payer rent attached env s sub :
  0 <= rent -> 0 <= account_creation_deposit (fee_config s) ->
  rent + account_creation_deposit (fee_config s) <= attached -> room_for s attached ->
  sub_accounts s !! key = Some sub ->
  exists m t, let s' := s <| sub_account_count := saturating_add U64_MAX (sub_account_count s) 1 |>
      <| total_revenue := total_revenue s + rent |> <| pending_refunds := m |>
      <| total_pending_refunds := t |> in
    record_rental key payer rent attached env s = Done (se_expires_at sub, s', []) /\
    charged s s' payer attached rent (account_creation_deposit (fee_config s)).
Proof.
  intros Hr Hd Ha (Hl & Hrev & Ht) Hsub. pose proof (pending_le_total s payer Hl) as Hb.
  unfold record_rental. nexec. fold_refund.
  rewrite (saturating_add_exact U128_MAX rent) by lia.
  match goal with |- context [refund_excess payer attached _ env ?x] =>
    assert (E1 : x = s <| sub_account_count := saturating_add U64_MAX (sub_account_count s) 1 |>
                       <| total_revenue := total_revenue s + rent |>) end.
  { unfold set_field, set_sub_account_count, set_total_revenue. cbn. by rewrite saturating_add_exact by lia. }
  rewrite E1. clear E1.
  match goal with |- context [refund_excess payer attached _ env ?x] => set (s1 := x) end.
  assert (Hl1 : ledger_exact s1) by done.
  destruct (refund_excess_credits payer attached (rent + account_creation_deposit (fee_config s)) env s1 Hl1)
    as (m & E & Hl2 & Hm); [lia|cbn; lia|]. rewrite E. cbn. rewrite Hsub.
  do 2 eexists. split; [reflexivity|]. split_and!; [exact Hl2|done|unfold liabilities; cbn; lia|exact Hm].
Qed.

(** What a mint's settlement leaves: the rental charged, or undone. *)
Definition mint_settled (key : string) (payer : AccountId) (k : PublicKey) (rent attached : Z)
    (outcome : CallResult MintOutcome) (s s' : TlaRegistry) : Prop :=
  match outcome with
  | Ok MintOutcome_Active | Ok MintOutcome_SignerPending =>
      charged s s' payer attached rent (account_creation_deposit (fee_config s)) /\
      sub_accounts s' = sub_accounts s /\
      sub_account_count s' = saturating_add U64_MAX (sub_account_count s) 1 /\
      signer_pending s' = match outcome with
                          | Ok MintOutcome_SignerPending => <[key := k]> (signer_pending s)
                          | _ => signer_pending s
                          end
  | _ =>
      charged s s' payer attached 0 0 /\ sub_accounts s' = delete key (sub_accounts s) /\
      sub_account_count s' = sub_account_count s /\ signer_pending s' = signer_pending s
  end.

Lemma on_sub_account_created_runs t n payer k rent attached outcome env s sub :
  predecessor_account_id env = current_account_id env ->
  let key := sub_account_key t n in let deposit := account_creation_deposit (fee_config s) in
  0 <= rent -> 0 <= deposit -> rent + deposit <= attached -> room_for s attached ->
  sub_accounts s !! key = Some sub ->
  exists s' l, on_sub_account_created t n payer k rent attached outcome env s = Done (tt, s', l) /\
    mint_settled key payer k rent attached outcome s s'.
Proof.
  intros Hp key deposit Hr Hd Ha Hroom Hsub. unfold on_sub_account_created. fold key.
  destruct (record_rental_runs key payer rent attached env s sub Hr Hd Ha Hroom Hsub)
    as (m & tot & E & Hch).
  destruct (settle_failed_mint_runs key t payer attached "sub-account creation failed" env s Hroom)
    as (s1 & F & F1 & F2 & F3 & F4 & F5 & F6 & _ & F8); [lia|].
  assert (Hf : charged s s1 payer attached 0 0).
  { split_and!; [done|lia|lia|]. intros a. rewrite F8. case_bool_decide; lia. }
  nexec. rewrite bool_decide_true by done. cbn.
  destruct outcome as [[]|err]; nexec; rewrite ?E, ?F; cbn; do 2 eexists; (split; [reflexivity|]);
    split_and!; done.
Qed.

(** The settlement of a mint, on its own: charged, or undone and refunded. *)
Theorem mint_settlement_conserves t n payer k rent attached outcome env s sub :
  predecessor_account_id env = current_account_id env ->
  0 <= rent -> 0 <= account_creation_deposit (fee_config s) ->
  rent + account_creation_deposit (fee_config s) <= attached -> room_for s attached ->
  sub_accounts s !! sub_account_key t n = Some sub ->
  exists s' l, on_sub_account_created t n payer k rent attached outcome env s = Done (tt, s', l) /\
    mint_settled (sub_account_key t n) payer k rent attached outcome s s'.
Proof. apply on_sub_account_created_runs. Qed.

(** on_sub_account_re_rented always succeeds and accounts for exactly the attached
    amount: the rent is kept and the change owed when the transfer call succeeded,
    and everything is owed back and the record removed when it failed. *)
Theorem re_rent_settlement_conserves t n payer rent attached env s r :
  predecessor_account_id env = current_account_id env -> promise_results env = [r] ->
  let key := sub_account_key t n in
  0 <= rent <= attached -> room_for s attached ->
  exists s' l, on_sub_account_re_rented t n payer rent attached env s = Done (tt, s', l) /\
    match r with
    | PromiseResult_Successful _ =>
        charged s s' payer attached rent 0 /\ sub_accounts s' = sub_accounts s /\
        parked_names s' = delete key (parked_names s)
    | PromiseResult_Failed =>
        charged s s' payer attached 0 0 /\ sub_accounts s' = delete key (sub_accounts s) /\
        parked_names s' = parked_names s
    end.
Proof.
  intros Hp Hres key Hr Hroom. unfold on_sub_account_re_rented. fold key.
  destruct (settle_failed_mint_runs key t payer attached "sub-account re-rent failed" env s Hroom)
    as (s1 & F & F1 & F2 & F3 & F4 & F5 & F6 & F7 & F8); [lia|].
  assert (Hf : charged s s1 payer attached 0 0).
  { split_and!; [done|lia|lia|]. intros a. rewrite F8. case_bool_decide; lia. }
  nexec. rewrite bool_decide_true by done. cbn. rewrite Hres. destruct r as [data|]; cbn.
  2: { rewrite F. do 2 eexists. split; [reflexivity|]. by split_and!. }
  nexec. fold_refund. destruct Hroom as (Hl & Hrev & Ht).
  match goal with |- context [refund_excess payer attached _ env ?x] => set (s2 := x) end.
  assert (Hl2 : ledger_exact s2) by done.
  destruct (refund_excess_credits payer attached rent env s2 Hl2) as (m & E & Hl3 & Hm);
    [lia|cbn; lia|]. rewrite E. cbn.
  assert (Hrv : total_revenue s2 = total_revenue s + rent) by (apply saturating_add_exact; lia).
  assert (Hch : charged s (s2 <| pending_refunds := m |>
    <| total_pending_refunds := total_pending_refunds s2 + (attached - rent) |>) payer attached rent 0).
  { split_and!; [done|done| |].
    - unfold liabilities in *. cbn [total_revenue set_field set_total_pending_refunds total_pending_refunds].
      change (total_revenue (s2 <| pending_refunds := m |>)) with (total_revenue s2). cbn in *. lia.
    - intros a. rewrite Z.add_0_r. apply Hm. }
  destruct (sub_accounts s !! key) as [sub|]; nexec; do 2 eexists; (split; [reflexivity|]);
    by split_and!.
Qed.
End RegistryNames.

(** ** Witnesses *)
Lemma reclaim_releases_the_name_witness :
  exists s', on_reclaim_finalized "web.near" "bob" "bob.near"
      (registry_callback (10 ^ 18) [PromiseResult_Successful [116]]) demo_registry
      = Done (tt, s', [Emit (Event_SubAccountReclaimed demo_name "web.near" "bob.near")]) /\
    released demo_registry s' demo_name "web.near" (10 ^ 18).
Proof.
  destruct (reclaim_releases_the_name "web.near" "bob" "bob.near"
    (registry_callback (10 ^ 18) [PromiseResult_Successful [116]]) demo_registry eq_refl) as [_ H].
  destruct (H [116] demo_sub demo_name) as (s' & E & Hr & _).
  - reflexivity.
  - vm_eq.
  - vm_eq.
  - exists s'. split; [exact E|exact Hr].
Defined.

Lemma rent_sub_account_spec_witness :
  exists p s' l, rent_sub_account "web.near" "alice" (demo_key 5) "alice.near"
      (registry_call "alice.near" (20 * 10 ^ 24) 5) demo_registry = Done (p, s', l) /\
    sub_accounts s' =
      <["alice.web.near" := new_entry (registry_call "alice.near" (20 * 10 ^ 24) 5) "web.near" "alice.near"]>
        (sub_accounts demo_registry).
Proof.
  destruct (is_done_inv (rent_sub_account "web.near" "alice" (demo_key 5) "alice.near"
    (registry_call "alice.near" (20 * 10 ^ 24) 5) demo_registry)) as [[[p s'] l] E]; [vm_eq|].
  destruct (rent_sub_account_spec _ _ _ _ _ _ _ _ _ E) as (_ & _ & _ & _ & H & _).
  exists p, s', l. split; [exact E|exact H].
Defined.

Lemma mint_settlement_conserves_witness :
  exists s' l, on_sub_account_created "web.near" "bob" "bob.near" (demo_key 7) 100
      (ONE_NEAR + 100) (Err PromiseError_Failed) (registry_callback 2 []) demo_registry
      = Done (tt, s', l) /\
    mint_settled demo_name "bob.near" (demo_key 7) 100 (ONE_NEAR + 100) (Err PromiseError_Failed)
      demo_registry s'.
Proof.
  apply (mint_settlement_conserves "web.near" "bob" "bob.near" (demo_key 7) 100 (ONE_NEAR + 100)
    (Err PromiseError_Failed) (registry_callback 2 []) demo_registry demo_sub).
  - reflexivity.
  - by apply Z.leb_le.
  - by apply Z.leb_le.
  - by apply Z.leb_le.
  - split; [apply demo_empty_ledger|]. split; by apply Z.leb_le.
  - vm_eq.
Defined.

Lemma re_rent_settlement_conserves_witness :
  exists s' l, on_sub_account_re_rented "web.near" "bob" "bob.near" 100 150
      (registry_callback 2 [PromiseResult_Failed]) demo_registry = Done (tt, s', l) /\
    charged demo_registry s' "bob.near" 150 0 0.
Proof.
  destruct (re_rent_settlement_conserves "web.near" "bob" "bob.near" 100 150
    (registry_callback 2 [PromiseResult_Failed]) demo_registry PromiseResult_Failed)
    as (s' & l & E & H & _).
  - reflexivity.
  - reflexivity.
  - split; by apply Z.leb_le.
  - split; [apply demo_empty_ledger|]. split; by apply Z.leb_le.
  - exists s', l. split; [exact E|exact H].
Defined.
