(* ===== verification/RegistryWorld.v ===== *)
(** * tla-registry: the registry and its promises in flight

    A NEAR contract does not wait for the promises it schedules: between a call
    and its callback anybody can call it. This file runs the registry together
    with the continuations it has in flight and the balance of its account, so
    that what holds between a call and its callback can be stated: which locks
    are released, and that every chain of callbacks ends. *)
From S2P Require Export RegistryNames.

(** ** The promise a call returns *)
Section World.
Context `{HS : !Sdk}.

(** The method behind a call, with the promise it returns. *)
Definition call_promise (c : Call) : RegM (option RegPromise) :=
  match c with
  | Call_claim_refund => returning Some claim_refund
  | Call_list_sub_account t n p k => returning Some (list_sub_account t n p k)
  | Call_accept_offer t n b p k => returning Some (accept_offer t n b p k)
  | Call_buy_sub_account t n k => returning Some (buy_sub_account t n k)
  | Call_buy_sub_account_paid t n b k => returning promise_of (buy_sub_account_paid t n b k)
  | Call_on_buy_balances_checked p al => returning promise_of (on_buy_balances_checked p al)
  | Call_on_buy_paid_balances_checked p al o =>
      returning promise_of (on_buy_paid_balances_checked p al o)
  | Call_rent_sub_account t n k w => returning Some (rent_sub_account t n k w)
  | Call_rent_sub_account_paid t n k w => returning Some (rent_sub_account_paid t n k w)
  | Call_retry_signer_install t n => returning Some (retry_signer_install t n)
  | Call_on_re_rent_balances_checked p al => returning promise_of (on_re_rent_balances_checked p al)
  | Call_reclaim_sweep_ft t n ft nonce bh => returning Some (reclaim_sweep_ft t n ft nonce bh)
  | Call_reclaim_finalize t n => returning Some (reclaim_finalize t n)
  | Call_on_balances_checked t n d al => returning promise_of (on_balances_checked t n d al)
  | _ => returning (fun _ => None) (exec c)
  end.

Lemma call_promise_exec c env s p s' l :
  call_promise c env s = Done (p, s', l) -> exec c env s = Done (tt, s', l).
Proof.
  destruct c; cbn [call_promise]; intros ([] & Hm & _)%returning_inv; cbn [exec] in *;
    first [exact Hm|by eapply ignoring_value].
Qed.

(** ** Promises in flight *)

(** A continuation the registry waits for, and the deposit its promise carries. *)
Record Flight := mkFlight { fl_callback : Callback; fl_deposit : Z }.

Definition flight_of (p : option RegPromise) : list Flight :=
  match p with
  | Some (PThen q cb _) => [mkFlight cb (promise_deposit q)]
  | _ => []
  end.
Definition sent (p : option RegPromise) : Z := from_option promise_deposit 0 p.

(** What the awaited promise reports. *)
Inductive Reply :=
| Reply_results (results : list PromiseResult)
| Reply_minted (outcome : CallResult MintOutcome)
| Reply_swapped (swapped : CallResult bool)
| Reply_signer (signer : CallResult (option string)).

(** The call that resumes a continuation; [None] where the reply does not fit
    it: a continuation of one promise gets one result. *)
Definition resume (cb : Callback) (r : Reply) : option Call :=
  match cb, r with
  | Cb_on_claim_refund_settled a x, Reply_results [_] => Some (Call_on_claim_refund_settled a x)
  | Cb_on_sub_account_created t n p k rent attached, Reply_minted o =>
      Some (Call_on_sub_account_created t n p k rent attached o)
  | Cb_on_sub_account_created_paid t n p k rent attached, Reply_minted o =>
      Some (Call_on_sub_account_created_paid t n p k rent attached o)
  | Cb_on_sub_account_re_rented t n p rent attached, Reply_results [_] =>
      Some (Call_on_sub_account_re_rented t n p rent attached)
  | Cb_on_re_rent_balances_checked p al, Reply_results _ =>
      Some (Call_on_re_rent_balances_checked p al)
  | Cb_on_retry_signer_settled key, Reply_results [_] => Some (Call_on_retry_signer_settled key)
  | Cb_on_listing_verified t n price k seller, Reply_signer x =>
      Some (Call_on_listing_verified t n price k seller x)
  | Cb_on_offer_verified t n buyer price k seller, Reply_signer x =>
      Some (Call_on_offer_verified t n buyer price k seller x)
  | Cb_on_sub_account_sold t n buyer price deposit, Reply_swapped x =>
      Some (Call_on_sub_account_sold t n buyer price deposit x)
  | Cb_on_sub_account_sold_paid t n buyer operator price, Reply_swapped x =>
      Some (Call_on_sub_account_sold_paid t n buyer operator price x)
  | Cb_on_buy_balances_checked p al, Reply_results _ => Some (Call_on_buy_balances_checked p al)
  | Cb_on_buy_paid_balances_checked p al o, Reply_results _ =>
      Some (Call_on_buy_paid_balances_checked p al o)
  | Cb_on_balances_checked t n d al, Reply_results _ => Some (Call_on_balances_checked t n d al)
  | Cb_on_reclaim_finalized t n d, Reply_results [_] => Some (Call_on_reclaim_finalized t n d)
  | _, _ => None
  end.

(** The deposit of a promise that failed comes back: the runtime returns it
    with a failed receipt, and tla-manager sends it back when the account was
    not created. *)
Definition returned (f : Flight) (r : Reply) : Z :=
  match fl_callback f, r with
  | Cb_on_claim_refund_settled _ _, Reply_results [PromiseResult_Failed]
  | Cb_on_sub_account_created _ _ _ _ _ _, Reply_minted (Ok MintOutcome_CreationFailed | Err _)
  | Cb_on_sub_account_created_paid _ _ _ _ _ _, Reply_minted (Ok MintOutcome_CreationFailed | Err _) =>
      fl_deposit f
  | _, _ => 0
  end.

(** ** The registry at work *)
Record World := mkWorld { reg : TlaRegistry; balance : Z; flights : list Flight }.

(** Somebody calls, the reply to the [i]th flight arrives, or the account is
    credited from outside (the share of the gas a contract earns, a transfer). *)
Inductive Happening :=
| Hp_call (env : Env) (c : Call)
| Hp_reply (i : nat) (env : Env) (r : Reply)
| Hp_income (amount : Z).

Definition call_env (w : World) (env : Env) : Env :=
  mkEnv (predecessor_account_id env) (current_account_id env) (attached_deposit env)
    (block_timestamp env) (balance w + attached_deposit env) (storage_byte_cost env)
    (storage_usage env) [].
Definition results_of (r : Reply) : list PromiseResult :=
  match r with Reply_results rs => rs | _ => [] end.
Definition reply_env (w : World) (env : Env) (r : Reply) : Env :=
  mkEnv (current_account_id env) (current_account_id env) 0 (block_timestamp env) (balance w)
    (storage_byte_cost env) (storage_usage env) (results_of r).

Definition wstep (w : World) (h : Happening) : World :=
  match h with
  | Hp_call env c =>
      if bool_decide (predecessor_account_id env = current_account_id env) then w
      else match call_promise c (call_env w env) (reg w) with
           | Done (p, s', _) =>
               mkWorld s' (balance w + attached_deposit env - sent p) (flight_of p ++ flights w)
           | Fail _ => w
           end
  | Hp_reply i env r =>
      match flights w !! i with
      | Some f =>
          match resume (fl_callback f) r with
          | Some c =>
              let rest := delete i (flights w) in
              let back := balance w + returned f r in
              match call_promise c (reply_env w env r) (reg w) with
              | Done (p, s', _) => mkWorld s' (back - sent p) (flight_of p ++ rest)
              | Fail _ => mkWorld (reg w) back rest
              end
          | None => w
          end
      | None => w
      end
  | Hp_income amount => mkWorld (reg w) (balance w + amount) (flights w)
  end.

Definition wrun (tr : list Happening) (w : World) : World := foldl wstep w tr.

(** [P] holds of every happening of the history, in the world it meets. *)
Fixpoint all_along (P : World -> Happening -> Prop) (tr : list Happening) (w : World) : Prop :=
  match tr with
  | [] => True
  | h :: tr => P w h /\ all_along P tr (wstep w h)
  end.

Lemma wrun_invariant (P : World -> Happening -> Prop) (I : World -> Prop) tr w :
  (forall w h, P w h -> I w -> I (wstep w h)) -> I w -> all_along P tr w -> I (wrun tr w).
Proof.
  intros HI. revert w. induction tr as [|h tr IH]; intros w Hw; [done|].
  intros [Hh Htr]. cbn. apply IH; [by apply HI|done].
Qed.

(** Decides [all_along] where a boolean decides its condition. *)
Fixpoint all_alongb (P : World -> Happening -> bool) (tr : list Happening) (w : World) : bool :=
  match tr with
  | [] => true
  | h :: tr => P w h && all_alongb P tr (wstep w h)
  end.

Lemma all_alongb_sound (Pb : World -> Happening -> bool) (P : World -> Happening -> Prop) tr w :
  (forall w h, Pb w h = true -> P w h) -> all_alongb Pb tr w = true -> all_along P tr w.
Proof.
  intros HP. revert w. induction tr as [|h tr IH]; intros w; [done|].
  intros [Hh Htr]%andb_true_iff. split; [by apply HP|by apply IH].
Qed.

(** Every step of the world is a step of the contract, or none. *)
Lemma wstep_cases w h (I : World -> Prop) :
  I w ->
  (forall env c p s' l, h = Hp_call env c ->
     predecessor_account_id env <> current_account_id env ->
     call_promise c (call_env w env) (reg w) = Done (p, s', l) ->
     I (mkWorld s' (balance w + attached_deposit env - sent p) (flight_of p ++ flights w))) ->
  (forall i env r f c p s' l, h = Hp_reply i env r -> flights w !! i = Some f ->
     resume (fl_callback f) r = Some c ->
     call_promise c (reply_env w env r) (reg w) = Done (p, s', l) ->
     I (mkWorld s' (balance w + returned f r - sent p) (flight_of p ++ delete i (flights w)))) ->
  (forall i env r f c x, h = Hp_reply i env r -> flights w !! i = Some f ->
     resume (fl_callback f) r = Some c ->
     call_promise c (reply_env w env r) (reg w) = Fail x ->
     I (mkWorld (reg w) (balance w + returned f r) (delete i (flights w)))) ->
  (forall amount, h = Hp_income amount -> I (mkWorld (reg w) (balance w + amount) (flights w))) ->
  I (wstep w h).
Proof.
  intros Hw H1 H2 H3 H4. destruct h as [env c|i env r|amount]; cbn.
  - case_bool_decide; [done|]. destruct (call_promise _ _ _) as [[[p s'] l]|] eqn:E; [|done].
    by eapply H1.
  - destruct (flights w !! i) as [f|] eqn:Ef; [|done].
    destruct (resume (fl_callback f) r) as [c|] eqn:Ec; [|done].
    destruct (call_promise _ _ _) as [[[p s'] l]|] eqn:E; [by eapply H2|by eapply H3].
  - by apply H4.
Qed.
(** ** Callbacks run

    [runs env J m]: in this receipt [m] succeeds in every state where [J]
    holds, and [J] holds after it. *)
Definition runs {A} (env : Env) (J : TlaRegistry -> Prop) (m : RegM A) : Prop :=
  forall s, J s -> exists a s' l, m env s = Done (a, s', l) /\ J s'.

Lemma runs_bind {A B} env J (m : RegM A) (k : A -> RegM B) :
  runs env J m -> (forall a, runs env J (k a)) -> runs env J (m ≫= k).
Proof.
  intros Hm Hk s Hs. destruct (Hm s Hs) as (a & s1 & l1 & E1 & H1).
  destruct (Hk a s1 H1) as (b & s2 & l2 & E2 & H2).
  exists b, s2, (l1 ++ l2). unfold mbind, NearM_bind. by rewrite E1, E2.
Qed.

Lemma runs_private name env J :
  predecessor_account_id env = current_account_id env -> runs env J (private_method name).
Proof.
  intros H s Hs. unfold private_method, require. rewrite bool_decide_true by done. by do 3 eexists.
Qed.

Lemma runs_promise_success x env J :
  promise_results env = [x] -> runs env J is_promise_success.
Proof. intros H s Hs. unfold is_promise_success. rewrite H. destruct x; by do 3 eexists. Qed.

Lemma runs_rented_until key env :
  runs env (fun s => is_Some (sub_accounts s !! key)) (rented_until key).
Proof. intros s [sub Hs]. unfold rented_until. nexec. rewrite Hs. do 3 eexists. by split. Qed.

Ltac runs_step :=
  lazymatch goal with
  | |- runs _ _ (mbind _ _) => apply runs_bind; [|intros ?]
  | |- runs _ _ (private_method _) => by apply runs_private
  | |- runs _ _ is_promise_success => by eapply runs_promise_success
  | |- runs _ _ (rented_until _) => by apply runs_rented_until
  | |- runs _ _ (if ?b then _ else _) => destruct b
  | |- runs _ _ (match ?x with _ => _ end) => destruct x
  | |- runs _ _ (let _ := _ in _) => cbv zeta
  | |- runs _ _ ((fun _ => _) _) => cbv beta
  | |- runs _ _ _ =>
      first [ intros ? ?; do 3 eexists; split; [reflexivity|done]
            | progress autounfold with near_unfold ]
  end.

(** The mint a continuation waits for. *)
Definition mint_of (cb : Callback) : option string :=
  match cb with
  | Cb_on_sub_account_created t n _ _ _ _ | Cb_on_sub_account_created_paid t n _ _ _ _ =>
      Some (sub_account_key t n)
  | _ => None
  end.

(** The record a call cannot do without: that of an account that was created. *)
Definition needs (c : Call) : option string :=
  match c with
  | Call_on_sub_account_created t n _ _ _ _ (Ok (MintOutcome_Active | MintOutcome_SignerPending))
  | Call_on_sub_account_created_paid t n _ _ _ _ (Ok (MintOutcome_Active | MintOutcome_SignerPending)) =>
      Some (sub_account_key t n)
  | _ => None
  end.

Definition has_needed (c : Call) (s : TlaRegistry) : Prop :=
  from_option (fun key => is_Some (sub_accounts s !! key)) True (needs c).

(** Every callback succeeds, whatever the awaited promise reported, provided
    the record of a wallet that was created is still there. *)
Lemma callback_runs w env f r c s :
  resume (fl_callback f) r = Some c -> has_needed c s ->
  exists p s' l, call_promise c (reply_env w env r) s = Done (p, s', l).
Proof.
  intros Hc Hs.
  assert (Hr : runs (reply_env w env r) (has_needed c) (call_promise c) ->
    exists p s' l, call_promise c (reply_env w env r) s = Done (p, s', l)).
  { intros Hr. destruct (Hr s Hs) as (p & s' & l & E & _). eauto. }
  apply Hr. clear Hr Hs.
  destruct f as [[] dep], r as [results|outcome|swapped|signer]; try done;
    try (destruct results as [|x [|]]; try done); try destruct outcome as [[]|];
    injection Hc as <-; unfold has_needed;
    cbn [fl_callback needs from_option call_promise exec]; unfold returning; unfold_all;
    unfold add_pending_refund; repeat runs_step.
Qed.

(** ** Chains of callbacks end *)

(** The replies a continuation may still lead to. *)
Definition weight (f : Flight) : nat :=
  match fl_callback f with
  | Cb_on_buy_balances_checked _ _ | Cb_on_buy_paid_balances_checked _ _ _
  | Cb_on_re_rent_balances_checked _ _ | Cb_on_balances_checked _ _ _ _ => 2
  | _ => 1
  end.
Definition total_weight (fs : list Flight) : nat := sum_list_with weight fs.

Lemma weight_bounds f : (1 <= weight f <= 2)%nat.
Proof. destruct f as [cb dep]. unfold weight. destruct cb; cbn; lia. Qed.

(** A reply that resumes a flight. *)
Definition answers (w : World) (h : Happening) : Prop :=
  exists i env r f c, h = Hp_reply i env r /\ flights w !! i = Some f /\
    resume (fl_callback f) r = Some c.

Lemma resumed_weight f r c env s p s' l :
  resume (fl_callback f) r = Some c -> call_promise c env s = Done (p, s', l) ->
  (total_weight (flight_of p) < weight f)%nat.
Proof.
  intros Hc H. destruct f as [[] dep], r as [results|outcome|swapped|signer]; try done;
    try (destruct results as [|x [|]]; try done); injection Hc as <-;
    cbn [call_promise] in H; unfold returning in H;
    apply bind_inv in H as (? & ? & ? & ? & H & Hret & _);
    apply ret_inv in Hret as [= -> -> ->]; try (cbn; lia);
    unfold on_re_rent_balances_checked, on_buy_balances_checked, on_buy_paid_balances_checked,
      on_balances_checked, abort_sale in H; nrun H; cbn; lia.
Qed.

Lemma total_weight_delete fs i f :
  fs !! i = Some f -> total_weight fs = (weight f + total_weight (delete i fs))%nat.
Proof.
  intros H. unfold total_weight.
  rewrite (delete_Permutation fs i f H) at 1. done.
Qed.

Lemma answer_weight w h : answers w h -> (total_weight (flights (wstep w h)) < total_weight (flights w))%nat.
Proof.
  intros (i & env & r & f & c & -> & Hf & Hc). cbn. rewrite Hf, Hc.
  rewrite (total_weight_delete _ _ _ Hf).
  destruct (call_promise c _ (reg w)) as [[[p s'] l]|] eqn:E; cbn.
  - pose proof (resumed_weight f r c _ _ _ _ _ Hc E) as Hw.
    unfold total_weight in *. rewrite sum_list_with_app. lia.
  - pose proof (weight_bounds f). unfold total_weight. lia.
Qed.

(** C21: Answering what is in flight terminates: each promise chain of the registry
    takes at most two replies, and a state where no reply is possible has nothing in
    flight. *)
Theorem settlements_terminate w :
  (forall tr, all_along answers tr w -> (length tr <= 2 * length (flights w))%nat) /\
  (forall tr, all_along answers tr w ->
     (forall h, ~ answers (wrun tr w) h) -> flights (wrun tr w) = []).
Proof.
  split.
  - intros tr Htr. transitivity (total_weight (flights w)).
    + revert w Htr. induction tr as [|h tr IH]; intros w; [cbn; lia|]. intros [Hh Htr].
      pose proof (answer_weight w h Hh). specialize (IH _ Htr). cbn. lia.
    + clear Htr. induction (flights w) as [|f fs IH]; [done|].
      cbn in *. pose proof (weight_bounds f).
      unfold total_weight in *. lia.
  - intros tr _ Hno. destruct (flights (wrun tr w)) as [|f fs] eqn:E; [done|]. exfalso.
    assert (Hr : exists r c, resume (fl_callback f) r = Some c).
    { destruct f as [[] dep]; cbn;
        [exists (Reply_results [PromiseResult_Failed])|exists (Reply_minted (Err PromiseError_Failed))
        |exists (Reply_minted (Err PromiseError_Failed))|exists (Reply_results [PromiseResult_Failed])
        |exists (Reply_results [])|exists (Reply_results [PromiseResult_Failed])
        |exists (Reply_signer (Err PromiseError_Failed))|exists (Reply_signer (Err PromiseError_Failed))
        |exists (Reply_swapped (Err PromiseError_Failed))|exists (Reply_swapped (Err PromiseError_Failed))
        |exists (Reply_results [])|exists (Reply_results [])|exists (Reply_results [])
        |exists (Reply_results [PromiseResult_Failed])]; by eexists. }
    destruct Hr as (r & c & Hc).
    apply (Hno (Hp_reply 0 (mkEnv EmptyString EmptyString 0 0 0 0 0 []) r)).
    do 5 eexists. split_and!; [done|by rewrite E|done].
Qed.

(** ** Locks and the flights that hold them *)

(** The name whose sale, or whose reclaim, a continuation settles. *)
Definition sale_of (cb : Callback) : option string :=
  match cb with
  | Cb_on_sub_account_sold t n _ _ _ | Cb_on_sub_account_sold_paid t n _ _ _ =>
      Some (sub_account_key t n)
  | Cb_on_buy_balances_checked p _ | Cb_on_buy_paid_balances_checked p _ _ =>
      Some (sub_account_key (pb_tla_id p) (pb_name p))
  | _ => None
  end.
Definition reclaim_of (cb : Callback) : option string :=
  match cb with
  | Cb_on_balances_checked t n _ _ | Cb_on_reclaim_finalized t n _ => Some (sub_account_key t n)
  | _ => None
  end.

Definition sale_locked (s : TlaRegistry) (key : string) : Prop := sale_idle s key = false.
Definition reclaim_locked (s : TlaRegistry) (key : string) : Prop :=
  is_Some (reclaim_pending s !! key).

(** Every lock has a continuation in flight whose callback opens it. *)
Definition locks_held (w : World) : Prop :=
  (forall key, sale_locked (reg w) key ->
     Exists (fun f => sale_of (fl_callback f) = Some key) (flights w)) /\
  (forall key, reclaim_locked (reg w) key ->
     Exists (fun f => reclaim_of (fl_callback f) = Some key) (flights w)).

(** The methods that take a lock, and the callbacks that release it. *)
Definition takes_sale (c : Call) : option string :=
  match c with
  | Call_buy_sub_account t n _ | Call_buy_sub_account_paid t n _ _ => Some (sub_account_key t n)
  | _ => None
  end.
Definition takes_reclaim (c : Call) : option string :=
  match c with Call_reclaim_finalize t n => Some (sub_account_key t n) | _ => None end.

Lemma sale_idle_update s ls os key :
  sale_idle (s <| listings := ls |> <| accepted_offers := os |>) key =
    negb (from_option li_settling false (ls !! key)) &&
    negb (from_option ao_settling false (os !! key)).
Proof. unfold sale_idle. cbn. by destruct (ls !! key), (os !! key). Qed.

Lemma sale_idle_from s key :
  sale_idle s key = negb (from_option li_settling false (listings s !! key)) &&
    negb (from_option ao_settling false (accepted_offers s !! key)).
Proof. unfold sale_idle. by destruct (listings s !! key), (accepted_offers s !! key). Qed.

Lemma clear_idle s k key :
  sale_idle s key = true ->
  sale_idle (s <| listings ::= alter (fun l => l <| li_settling := false |>) k |>
               <| accepted_offers ::= alter (fun o => o <| ao_settling := false |>) k |>) key = true.
Proof.
  intros Hi. destruct (decide (k = key)) as [->|Hne]; [apply alter_unlocks|].
  unfold sale_idle in *. cbn. by rewrite !lookup_alter_ne.
Qed.

Lemma idle_keeps key c :
  takes_sale c <> Some key -> keeps (fun s => sale_idle s key = true) (exec c).
Proof.
  intros Ht. destruct c; cbn [exec takes_sale] in *; unfold_all; keeps_tac;
    first [ apply add_pending_refund_keeps; intros; done
          | by apply clear_idle
          | cbn; rewrite ?sale_idle_from; cbn; intros Hi; repeat case_match;
            rewrite ?lookup_insert, ?lookup_delete, ?lookup_alter;
            repeat case_decide; simplify_eq;
            rewrite ?andb_true_iff, ?negb_true_iff in *; destruct_and?; simpl; try done;
            congruence ].
Qed.

Lemma reclaim_keeps key c :
  takes_reclaim c <> Some key -> keeps (fun s => reclaim_pending s !! key = None) (exec c).
Proof.
  intros Ht. destruct c; cbn [exec takes_reclaim] in *; unfold_all; keeps_tac;
    first [ apply add_pending_refund_keeps; intros; done
          | cbn; intros Hi; repeat case_match; try done;
            rewrite ?lookup_insert, ?lookup_delete; repeat case_decide; simplify_eq; done ].
Qed.

(** The continuations, which only the contract itself may call. *)
Definition is_callback (c : Call) : bool :=
  match c with
  | Call_on_claim_refund_settled _ _ | Call_on_listing_verified _ _ _ _ _ _
  | Call_on_offer_verified _ _ _ _ _ _ _ | Call_on_sub_account_sold _ _ _ _ _ _
  | Call_on_sub_account_sold_paid _ _ _ _ _ _ | Call_on_buy_balances_checked _ _
  | Call_on_buy_paid_balances_checked _ _ _ | Call_on_retry_signer_settled _
  | Call_on_re_rent_balances_checked _ _ | Call_on_sub_account_created _ _ _ _ _ _ _
  | Call_on_sub_account_created_paid _ _ _ _ _ _ _ | Call_on_sub_account_re_rented _ _ _ _ _
  | Call_on_balances_checked _ _ _ _ | Call_on_reclaim_finalized _ _ _ => true
  | _ => false
  end.

Lemma callback_private c env s p s' l :
  is_callback c = true -> call_promise c env s = Done (p, s', l) ->
  predecessor_account_id env = current_account_id env.
Proof.
  intros Hc H. destruct c; try done; cbn [call_promise exec] in H;
    apply returning_inv in H as (? & H & _);
    unfold on_claim_refund_settled, on_listing_verified, on_offer_verified, on_sub_account_sold,
      on_sub_account_sold_paid, on_buy_balances_checked, on_buy_paid_balances_checked,
      on_retry_signer_settled, on_re_rent_balances_checked, on_sub_account_created,
      on_sub_account_created_paid, on_sub_account_re_rented, on_balances_checked,
      on_reclaim_finalized in H;
    apply bind_inv in H as (? & ? & ? & ? & H & _ & _); by apply private_inv in H as [? _].
Qed.

Lemma resume_callback f r c : resume (fl_callback f) r = Some c -> is_callback c = true.
Proof.
  destruct f as [[] dep], r as [results|outcome|swapped|signer]; try done;
    try (destruct results as [|? [|]]; try done); by intros [= <-].
Qed.

Definition holds (name_of : Callback -> option string) (key : string) (fs : list Flight) : Prop :=
  Exists (fun f => name_of (fl_callback f) = Some key) fs.

Lemma sale_taken c key env s p s' l :
  takes_sale c = Some key -> call_promise c env s = Done (p, s', l) ->
  holds sale_of key (flight_of p).
Proof.
  intros Ht H. destruct c; try done; injection Ht as <-; cbn [call_promise] in H;
    apply returning_inv in H as (a & H & ->); unfold buy_sub_account, buy_sub_account_paid in H;
    nrun H; by constructor.
Qed.

Lemma reclaim_taken c key env s p s' l :
  takes_reclaim c = Some key -> call_promise c env s = Done (p, s', l) ->
  holds reclaim_of key (flight_of p).
Proof.
  intros Ht H. destruct c; try done; injection Ht as <-; cbn [call_promise] in H;
    apply returning_inv in H as (a & H & ->); unfold reclaim_finalize in H;
    nrun H; by constructor.
Qed.

(** A callback of a sale, or of a reclaim, opens its lock or passes it on. *)
Lemma sale_released f r c key env s p s' l :
  resume (fl_callback f) r = Some c -> sale_of (fl_callback f) = Some key ->
  call_promise c env s = Done (p, s', l) ->
  sale_idle s' key = true \/ holds sale_of key (flight_of p).
Proof.
  intros Hc Hk H. destruct f as [[] dep], r as [results|outcome|swapped|signer]; try done;
    injection Hc as <-; injection Hk as <-; cbn [call_promise exec] in H;
    apply returning_inv in H as (a & H & ->);
    unfold on_sub_account_sold, on_sub_account_sold_paid, on_buy_balances_checked,
      on_buy_paid_balances_checked, abort_sale, clear_settling in H;
    nrun H; first [by right; constructor|left].
  all: first [apply alter_unlocks|unfold sale_idle; cbn; by rewrite !lookup_delete_eq].
Qed.

Lemma reclaim_released f r c key env s p s' l :
  resume (fl_callback f) r = Some c -> reclaim_of (fl_callback f) = Some key ->
  call_promise c env s = Done (p, s', l) ->
  reclaim_pending s' !! key = None \/ holds reclaim_of key (flight_of p).
Proof.
  intros Hc Hk H. destruct f as [[] dep], r as [results|outcome|swapped|signer]; try done;
    try (destruct results as [|x [|]]; try done);
    injection Hc as <-; injection Hk as <-; cbn [call_promise exec] in H;
    apply returning_inv in H as (a & H & ->); unfold on_balances_checked in H.
  1,2,3: nrun H; first [by right; constructor|left; cbn; by rewrite lookup_delete_eq].
  left. unfold on_reclaim_finalized in H.
  apply bind_inv in H as (?&?&?&?&[_ Hx]%private_inv&H&_). simplify_eq.
  apply bind_inv in H as (?&?&?&?&Hx%modify_inv&H&_). simplify_eq.
  match type of H with ?m _ _ = _ =>
    assert (Hk : keeps (fun s => reclaim_pending s !! sub_account_key tla_id name = None) m) end.
  { unfold decrement_mother_use, business_count_decrement_if_business, business_count_decrement.
    keeps_tac; cbn; intros; repeat case_match; done. }
  eapply Hk; [exact H|]. cbn. apply lookup_delete_eq.
Qed.

Lemma holds_delete name_of key fs i f :
  fs !! i = Some f -> name_of (fl_callback f) <> Some key ->
  holds name_of key fs -> holds name_of key (delete i fs).
Proof.
  intros Hf Hne H. unfold holds in *. rewrite (delete_Permutation fs i f Hf) in H.
  by apply Exists_cons in H as [?|?].
Qed.

Lemma failing_reply w i env r f c x :
  flights w !! i = Some f -> resume (fl_callback f) r = Some c ->
  call_promise c (reply_env w env r) (reg w) = Fail x -> is_Some (mint_of (fl_callback f)).
Proof.
  intros _ Hc E. destruct (needs c) as [key|] eqn:En.
  - destruct f as [[] dep], r as [results|outcome|swapped|signer]; try done;
      try (destruct results as [|? [|]]; try done);
      injection Hc as <-; cbn in *; try done; eauto.
  - destruct (callback_runs w env f r c (reg w) Hc) as (p & s' & l & E');
      [by unfold has_needed; rewrite En|congruence].
Qed.

(** A lock that only a call with a continuation takes, and that the
    continuation opens or passes on, is held by a flight whenever it is taken. *)
Section lock.
Variable locked : TlaRegistry -> string -> Prop.
Variable name_of : Callback -> option string.
Hypothesis locked_taken : forall c key env s p s' l,
  call_promise c env s = Done (p, s', l) -> locked s' key ->
  locked s key \/ holds name_of key (flight_of p).
Hypothesis locked_released : forall f r c key env s p s' l,
  resume (fl_callback f) r = Some c -> name_of (fl_callback f) = Some key ->
  call_promise c env s = Done (p, s', l) -> locked s' key -> holds name_of key (flight_of p).
Hypothesis mints_lock_nothing : forall cb, is_Some (mint_of cb) -> name_of cb = None.

Definition lock_held (w : World) : Prop :=
  forall key, locked (reg w) key -> holds name_of key (flights w).

Lemma lock_held_step w h : lock_held w -> lock_held (wstep w h).
Proof.
  intros Hw. apply (wstep_cases w h lock_held); [done|..].
  - intros env c p s' l _ _ E key Hk. apply Exists_app.
    destruct (locked_taken _ _ _ _ _ _ _ E Hk) as [?|?]; [right; by apply Hw|by left].
  - intros i env r f c p s' l _ Hf Hc E key Hk. cbn in *. apply Exists_app.
    destruct (decide (name_of (fl_callback f) = Some key)) as [Hn|Hn].
    + left. by eapply locked_released.
    + destruct (locked_taken _ _ _ _ _ _ _ E Hk) as [?|?]; [right|by left].
      eapply holds_delete; [done..|by apply Hw].
  - intros i env r f c x _ Hf Hc E key Hk. cbn in *.
    eapply holds_delete; [done| |by apply Hw].
    by rewrite (mints_lock_nothing _ (failing_reply _ _ _ _ _ _ _ Hf Hc E)).
  - intros amount _ key Hk. by apply Hw.
Qed.
End lock.

Lemma sale_lock_held_step w h :
  lock_held sale_locked sale_of w -> lock_held sale_locked sale_of (wstep w h).
Proof.
  apply lock_held_step.
  - intros c key env s p s' l E Hk. destruct (decide (takes_sale c = Some key)) as [Ht|Ht].
    + right. by eapply sale_taken.
    + left. unfold sale_locked in *. apply call_promise_exec in E.
      destruct (sale_idle s key) eqn:Ei; [|done].
      by rewrite (idle_keeps key c Ht env s tt s' l E Ei) in Hk.
  - intros f r c key env s p s' l Hc Hn E Hk. unfold sale_locked in Hk.
    destruct (sale_released _ _ _ _ _ _ _ _ _ Hc Hn E) as [Hi|?]; [by rewrite Hi in Hk|done].
  - by intros [] [? ?].
Qed.

Lemma reclaim_lock_held_step w h :
  lock_held reclaim_locked reclaim_of w -> lock_held reclaim_locked reclaim_of (wstep w h).
Proof.
  apply lock_held_step; unfold reclaim_locked.
  - intros c key env s p s' l E Hk. destruct (decide (takes_reclaim c = Some key)) as [Ht|Ht].
    + right. by eapply reclaim_taken.
    + left. apply call_promise_exec in E.
      destruct (reclaim_pending s !! key) eqn:Ei; [done|].
      rewrite (reclaim_keeps key c Ht env s tt s' l E Ei) in Hk. by destruct Hk.
  - intros f r c key env s p s' l Hc Hn E Hk.
    destruct (reclaim_released _ _ _ _ _ _ _ _ _ Hc Hn E) as [Hi|?]; [|done].
    rewrite Hi in Hk. by destruct Hk.
  - by intros [] [? ?].
Qed.

(** C7: Every settling lock of a sale and every pending mark of a reclaim has, after
    any history of calls and replies in any order, a continuation in flight whose
    callback opens it; once nothing is in flight no name is locked. *)
Theorem no_lock_is_stuck w tr :
  locks_held w -> locks_held (wrun tr w) /\
  (flights (wrun tr w) = [] ->
   forall key, sale_idle (reg (wrun tr w)) key = true /\
     reclaim_pending (reg (wrun tr w)) !! key = None).
Proof.
  intros Hw. assert (H : locks_held (wrun tr w)).
  { unfold wrun. revert w Hw. induction tr as [|h tr IH]; intros w Hw; [done|]. apply IH.
    destruct Hw as [H1 H2].
    split; [by apply sale_lock_held_step|by apply reclaim_lock_held_step]. }
  split; [done|]. intros Hf key. destruct H as [H1 H2]. rewrite Hf in *. split.
  - destruct (sale_idle (reg (wrun tr w)) key) eqn:E; [done|].
    by apply H1, Exists_nil in E.
  - destruct (reclaim_pending (reg (wrun tr w)) !! key) eqn:E; [|done].
    exfalso. eapply Exists_nil, H2. by eexists.
Qed.
End World.

(** ** Witnesses *)

(** carol buys, the token answers that the wallet holds nothing, and the wallet's
    TLA that it has swapped its owner. *)
Definition demo_sale : list Happening :=
  [Hp_call (registry_call "carol.near" (2 * 10 ^ 24) 1) (Call_buy_sub_account "web.near" "bob" (demo_key 8));
   Hp_reply 0 (registry_callback 2 []) (Reply_results [PromiseResult_Successful [34; 48; 34]]);
   Hp_reply 0 (registry_callback 3 []) (Reply_swapped (Ok true))].

Lemma demo_is_unlocked : locks_held (mkWorld demo_registry 0 []).
Proof.
  split; intros key H; exfalso; revert H.
  - unfold sale_locked, sale_idle. cbn. rewrite lookup_empty, andb_true_r.
    destruct (decide (key = "bob.web.near"%string)) as [->|Hne];
      [by rewrite lookup_insert_eq|by rewrite lookup_insert_ne].
  - unfold reclaim_locked. cbn. rewrite lookup_empty. by intros [? ?].
Qed.

Lemma no_lock_is_stuck_witness :
  let w := wrun demo_sale (mkWorld demo_registry 0 []) in
  sale_idle (reg w) "bob.web.near" = true /\ reclaim_pending (reg w) !! "bob.web.near"%string = None.
Proof.
  assert (Hf : flights (wrun demo_sale (mkWorld demo_registry 0 [])) = []) by vm_eq.
  exact (proj2 (no_lock_is_stuck _ demo_sale demo_is_unlocked) Hf "bob.web.near"%string).
Defined.

(** Between the two steps the name is locked. *)
Lemma demo_sale_locks :
  sale_idle (reg (wrun (take 1 demo_sale) (mkWorld demo_registry 0 []))) "bob.web.near" = false.
Proof. vm_eq. Qed.
