(* ===== verification/RegistrySolvency.v ===== *)
(** * tla-registry: every deposit is accounted for

    The registry holds other people's money twice over: refunds it owes, and
    deposits whose promise chain is still in flight. Together with its own
    revenue they never exceed what its account was paid: whatever the replies,
    and whoever calls in between. *)
From S2P Require Export RegistryWorld.

Section Solvency.
Context `{HS : !Sdk}.

(** What the registry holds for the chain of a flight. *)
Definition owed (f : Flight) : Z :=
  match fl_callback f with
  | Cb_on_sub_account_created _ _ _ _ _ attached
  | Cb_on_sub_account_created_paid _ _ _ _ _ attached => attached - fl_deposit f
  | Cb_on_sub_account_re_rented _ _ _ _ attached => attached
  | Cb_on_re_rent_balances_checked p _ => pr_attached p
  | Cb_on_sub_account_sold _ _ _ _ deposit => deposit
  | Cb_on_buy_balances_checked p _ => pb_deposit p
  | _ => 0
  end.
Definition in_flight (fs : list Flight) : Z := foldr (fun f acc => owed f + acc) 0 fs.

(** Revenue, refunds and deposits in flight. *)
Definition held (w : World) : Z := liabilities (reg w) + in_flight (flights w).

Definition fees_ok (c : FeeConfig) : Prop :=
  0 <= tla_allocation_fee c /\ 0 <= rent_tier_5 c /\ 0 <= rent_tier_8 c /\ 0 <= rent_tier_10 c /\
  0 <= rent_tier_12plus c /\ 0 <= sub_fee_per_account c /\ 0 <= account_creation_deposit c /\
  0 <= resale_commission_bps c.

Definition prices_where (P : Z -> Prop) (s : TlaRegistry) : Prop :=
  map_Forall (fun _ l => P (li_price l)) (listings s) /\
  map_Forall (fun _ o => P (ao_price o)) (accepted_offers s).
Definition prices_ok : TlaRegistry -> Prop := prices_where (fun x => 0 <= x).

(** What was checked of a flight when it left. *)
Definition flight_ok (cfg : FeeConfig) (f : Flight) : Prop :=
  match fl_callback f with
  | Cb_on_claim_refund_settled _ x => 0 <= x /\ fl_deposit f = x
  | Cb_on_sub_account_created _ _ _ _ rent attached =>
      0 <= rent /\ 0 <= fl_deposit f <= account_creation_deposit cfg /\
      rent + fl_deposit f <= attached <= U128_MAX
  | Cb_on_sub_account_created_paid _ _ _ _ _ attached =>
      0 <= fl_deposit f <= account_creation_deposit cfg /\ fl_deposit f <= attached
  | Cb_on_sub_account_re_rented _ _ _ rent attached => 0 <= rent <= attached
  | Cb_on_re_rent_balances_checked p _ => 0 <= pr_rent p <= pr_attached p
  | Cb_on_sub_account_sold _ _ _ price deposit => 0 <= price <= deposit /\ deposit <= U128_MAX
  | Cb_on_buy_balances_checked p _ =>
      0 <= pb_price p <= pb_deposit p /\ pb_deposit p <= U128_MAX
  | Cb_on_listing_verified _ _ price _ _ | Cb_on_offer_verified _ _ _ price _ _ => 0 <= price
  | _ => True
  end.

(** The registry's books are in order. *)
Definition books_ok (s : TlaRegistry) : Prop :=
  ledger_exact s /\ 0 <= total_revenue s /\ fees_ok (fee_config s) /\ prices_ok s.

(** Amounts a caller passes are unsigned. *)
Definition call_ok (c : Call) : Prop :=
  match c with
  | Call_update_fee_config cfg => fees_ok cfg
  | Call_withdraw x _ => 0 <= x
  | Call_list_sub_account _ _ price _ | Call_accept_offer _ _ _ price _ => 0 <= price
  | _ => True
  end.

(** *** Amounts *)
Lemma base_rent_nonneg cfg len : fees_ok cfg -> 0 <= base_rent len cfg.
Proof. intros (?&?&?&?&?&?&?&?). unfold base_rent. repeat case_match; lia. Qed.

Lemma calculate_rent_nonneg tla t n cfg : fees_ok cfg -> 0 <= calculate_rent tla t n cfg.
Proof.
  intros Hc. pose proof (base_rent_nonneg cfg (total_name_length t n) Hc) as Hb.
  unfold calculate_rent, sub_account_rent, saturating_mul.
  assert (0 <= U128_MAX) by (unfold_max; lia).
  case_match; [destruct Hc; tauto|].
  destruct (te_premium_category tla); cbn [multiplier]; apply Z.div_pos; lia.
Qed.

Lemma add_pending_refund_le a x env s u s' l :
  add_pending_refund a x env s = Done (u, s', l) -> 0 <= x ->
  total_revenue s' = total_revenue s /\ liabilities s' <= liabilities s + x /\
  fee_config s' = fee_config s /\ sub_accounts s' = sub_accounts s.
Proof.
  unfold add_pending_refund. intros H Hx. nrun H. unfold liabilities. cbn.
  split_and!; [done| |done|done]. sat.
Qed.

Lemma fanout_deposit al a p : ft_balance_fanout al a = Some p -> promise_deposit p = 0.
Proof.
  unfold ft_balance_fanout. destruct al as [|ft rest]; [done|]. intros [= <-].
  assert (H : forall (q : RegPromise), promise_deposit q = 0 ->
    promise_deposit (foldl (fun chain ft => PAnd chain (ft_balance_query ft a)) q rest) = 0).
  { induction rest as [|x rest IH]; intros q Hq; [done|]. apply IH. cbn. lia. }
  by apply H.
Qed.

(** *** The calls that move money *)
Definition moves_money (c : Call) : bool :=
  match c with
  | Call_claim_refund | Call_withdraw _ _ | Call_buy_sub_account _ _ _ | Call_activate_tla _
  | Call_rent_sub_account _ _ _ _ | Call_rent_sub_account_paid _ _ _ _ | Call_renew_tla _
  | Call_renew_sub_account _ _ | Call_reclaim_sweep_ft _ _ _ _ _ => true
  | _ => false
  end.

Lemma quiet_keeps c x :
  moves_money c = false -> is_callback c = false -> keeps (fun s => liabilities s = x) (exec c).
Proof.
  intros H1 H2. destruct c; try done; cbn [exec]; unfold_all; keeps_tac; cbn; intros; repeat case_match; done.
Qed.

Lemma quiet_revenue c :
  moves_money c = false -> is_callback c = false -> keeps (fun s => 0 <= total_revenue s) (exec c).
Proof.
  intros H1 H2. destruct c; try done; cbn [exec]; unfold_all; keeps_tac; cbn; intros; repeat case_match; done.
Qed.

Lemma quiet_flights c env s p s' l :
  moves_money c = false -> is_callback c = false -> call_promise c env s = Done (p, s', l) ->
  call_ok c ->
  in_flight (flight_of p) = 0 /\ sent p = 0 /\ forall cfg, Forall (flight_ok cfg) (flight_of p).
Proof.
  intros H1 H2 H Hok. destruct c; try done; cbn [call_promise] in H;
    apply returning_inv in H as (ret & H & ->); try (split_and!; [done|done|by constructor]);
    unfold list_sub_account, accept_offer, buy_sub_account_paid, retry_signer_install,
      reclaim_finalize in H; nrun H; cbn;
    repeat match goal with E : ft_balance_fanout _ _ = Some _ |- _ =>
      apply fanout_deposit in E; rewrite ?E end;
    (split_and!; [done|done|intros; repeat constructor; cbn; done]).
Qed.

Ltac add_le :=
  repeat match goal with
  | E : add_pending_refund _ _ _ _ = Done _ |- _ =>
      apply add_pending_refund_le in E as (? & ? & ? & ?); [|sat]
  end.

Lemma claim_accounts env s p s' l :
  claim_refund env s = Done (p, s', l) -> ledger_exact s ->
  liabilities s' + in_flight (flight_of (Some p)) + sent (Some p) <= liabilities s /\
  total_revenue s' = total_revenue s /\ Forall (flight_ok (fee_config s)) (flight_of (Some p)).
Proof.
  intros H Hl. pose proof (pending_le_total s (predecessor_account_id env) Hl) as Hb.
  unfold claim_refund in H. nrun H. unfold get_pending_refund in Hb. unfold liabilities. cbn.
  split_and!; [sat|done|]. constructor; [|constructor]. cbn. lia.
Qed.

Ltac frames :=
  repeat match goal with
  | E : ensure_mother_default _ _ _ = Done _ |- _ =>
      apply mother_default_frame in E as (? & ? & -> & _)
  | E : business_count_check_and_bump _ _ _ = Done _ |- _ => apply business_bump_inv in E as (_ & _ & ->)
  | E : ft_balance_fanout _ _ = Some _ |- _ => apply fanout_deposit in E
  end.

Lemma rent_accounts t n k w env s p s' l :
  rent_sub_account t n k w env s = Done (p, s', l) -> fees_ok (fee_config s) ->
  attached_deposit env < U128_MAX ->
  liabilities s' + in_flight (flight_of (Some p)) + sent (Some p) <= liabilities s + attached_deposit env /\
  total_revenue s' = total_revenue s /\ Forall (flight_ok (fee_config s)) (flight_of (Some p)).
Proof.
  intros H Hf Ha. unfold rent_sub_account in H.
  assert (Hrent := fun e => calculate_rent_nonneg e t n (fee_config s) Hf).
  destruct Hf as (_&_&_&_&_&_&Hd&_).
  nrun H; guards; frames; unfold liabilities, owed in *; cbn in *; unfold set_field in *; cbn in *;
    (split_and!; [try lia|done|repeat constructor; cbn]);
    try match goal with |- context [calculate_rent ?e t n _] => pose proof (Hrent e) end; sat.
Qed.

Lemma rent_paid_accounts t n k w env s p s' l :
  rent_sub_account_paid t n k w env s = Done (p, s', l) -> fees_ok (fee_config s) ->
  liabilities s' + in_flight (flight_of (Some p)) + sent (Some p) <= liabilities s + attached_deposit env /\
  total_revenue s' = total_revenue s /\ Forall (flight_ok (fee_config s)) (flight_of (Some p)).
Proof.
  intros H Hf. unfold rent_sub_account_paid in H. destruct Hf as (_&_&_&_&_&_&Hd&_).
  nrun H; guards; frames; unfold liabilities, owed in *; cbn in *; unfold set_field in *; cbn in *;
    (split_and!; [try lia|done|repeat constructor; cbn; lia]).
Qed.

Lemma buy_accounts t n k env s p s' l :
  buy_sub_account t n k env s = Done (p, s', l) -> prices_ok s -> attached_deposit env < U128_MAX ->
  liabilities s' + in_flight (flight_of (Some p)) + sent (Some p) <= liabilities s + attached_deposit env /\
  total_revenue s' = total_revenue s /\ Forall (flight_ok (fee_config s)) (flight_of (Some p)).
Proof.
  intros H [Hl Ho] Ha. unfold buy_sub_account in H.
  unfold assert_sellable, resolve_and_lock_sale, resolve_and_lock_listing in H.
  nrun H; guards; frames; unfold liabilities, owed in *; cbn in *;
    repeat match goal with
    | E : listings s !! _ = Some _ |- _ => pose proof (Hl _ _ E); clear E
    | E : accepted_offers s !! _ = Some _ |- _ => pose proof (Ho _ _ E); clear E
    end;
    (split_and!; [try lia|done|repeat constructor; cbn in *; lia]).
Qed.

(** Withdrawals, activations and renewals book what they take. *)
Lemma booking_accounts c env s s' l :
  match c with
  | Call_withdraw _ _ | Call_activate_tla _ | Call_renew_tla _ | Call_renew_sub_account _ _ => True
  | _ => False
  end ->
  exec c env s = Done (tt, s', l) -> books_ok s -> call_ok c -> 0 <= attached_deposit env < U128_MAX ->
  liabilities s' <= liabilities s + attached_deposit env /\ 0 <= total_revenue s'.
Proof.
  intros Hc H (Hl & Hr & Hf & _) Hok Ha.
  assert (Hrent := fun e t n => calculate_rent_nonneg e t n (fee_config s) Hf).
  assert (Hbase := fun len => base_rent_nonneg (fee_config s) len Hf).
  destruct Hf as (Hal&_). assert (0 <= U128_MAX) by (unfold_max; lia).
  destruct c; try done; cbn [exec call_ok] in *;
    unfold withdraw, activate_tla, renew_tla, renew_sub_account in H; nrun H; guards; add_le;
    try match goal with
    | _ : context [calculate_rent ?e ?t ?n _] |- _ => pose proof (Hrent e t n)
    | _ : context [base_rent ?x _] |- _ => pose proof (Hbase x)
    end; unfold liabilities in *; cbn in *; sat.
Qed.

Lemma sweep_accounts t n ft nonce bh env s p s' l :
  reclaim_sweep_ft t n ft nonce bh env s = Done (p, s', l) ->
  liabilities s' + sent (Some p) <= liabilities s + attached_deposit env /\
  total_revenue s' = total_revenue s /\ flight_of (Some p) = [].
Proof.
  intros H. unfold reclaim_sweep_ft in H. nrun H; guards; add_le; unfold liabilities in *; cbn in *;
    (split_and!; [sat|congruence|done]).
Qed.

Lemma user_accounts c env s p s' l :
  call_promise c env s = Done (p, s', l) -> is_callback c = false ->
  0 <= attached_deposit env < U128_MAX -> books_ok s -> call_ok c ->
  liabilities s' + in_flight (flight_of p) + sent p <= liabilities s + attached_deposit env /\
  0 <= total_revenue s' /\ Forall (flight_ok (fee_config s)) (flight_of p).
Proof.
  intros H Hc Ha Hb Hok. pose proof Hb as (Hl & Hr & Hf & Hp).
  destruct (moves_money c) eqn:Em.
  2: { destruct (quiet_flights c env s p s' l Em Hc H Hok) as (-> & -> & Hfl).
       apply call_promise_exec in H.
       rewrite (quiet_keeps c (liabilities s) Em Hc env s tt s' l H eq_refl).
       split_and!; [lia|by apply (quiet_revenue c Em Hc env s tt s' l H)|apply Hfl]. }
  assert (Hbook : match c with
    | Call_withdraw _ _ | Call_activate_tla _ | Call_renew_tla _ | Call_renew_sub_account _ _ => True
    | _ => False end -> p = None ->
    liabilities s' + in_flight (flight_of p) + sent p <= liabilities s + attached_deposit env /\
    0 <= total_revenue s' /\ Forall (flight_ok (fee_config s)) (flight_of p)).
  { intros Hk ->. apply call_promise_exec in H.
    destruct (booking_accounts c env s s' l Hk H Hb Hok Ha). cbn. split_and!; [lia|done|constructor]. }
  destruct c; try done; cbn [call_promise] in H; apply returning_inv in H as (ret & H & Ep);
    try (by apply Hbook); subst p; clear Hbook.
  - destruct (claim_accounts _ _ _ _ _ H Hl) as (? & -> & ?). split_and!; [lia|done|done].
  - destruct (buy_accounts _ _ _ _ _ _ _ _ H Hp ltac:(lia)) as (? & -> & ?). by split_and!.
  - destruct (rent_accounts _ _ _ _ _ _ _ _ _ H Hf ltac:(lia)) as (? & -> & ?). by split_and!.
  - destruct (rent_paid_accounts _ _ _ _ _ _ _ _ _ H Hf) as (? & -> & ?). by split_and!.
  - destruct (sweep_accounts _ _ _ _ _ _ _ _ _ _ H) as (? & -> & ->). cbn in *.
    split_and!; [lia|done|constructor].
Qed.

(** *** The replies *)
Lemma settle_failed_accounts key t payer attached reason env s u s' l :
  settle_failed_mint key t payer attached reason env s = Done (u, s', l) -> 0 <= attached ->
  liabilities s' <= liabilities s + attached /\ total_revenue s' = total_revenue s.
Proof.
  intros H Ha. unfold settle_failed_mint in H. nrun H.
  match goal with E : business_count_decrement_if_business ?t ?e ?x = _ |- _ =>
    destruct (business_decrement_frame t e x) as [m Em]; rewrite Em in E; simplify_eq end.
  add_le. unfold liabilities in *. cbn in *. split; [lia|congruence].
Qed.

Lemma charged_accounts payer attached charged env s u s' l :
  refund_excess payer attached charged env s = Done (u, s', l) ->
  liabilities s' <= liabilities s + saturating_sub attached charged /\
  total_revenue s' = total_revenue s /\ sub_accounts s' = sub_accounts s.
Proof. intros H. nrun H; add_le; guards; [done|split_and!; [sat|done|done]]. Qed.

Lemma created_accounts key payer rent attached dep env s e s' l :
  record_rental key payer rent attached env s = Done (e, s', l) ->
  0 <= total_revenue s -> 0 <= rent -> 0 <= dep <= account_creation_deposit (fee_config s) ->
  rent + dep <= attached <= U128_MAX ->
  liabilities s' <= liabilities s + (attached - dep) /\ 0 <= total_revenue s'.
Proof.
  intros H Hr Hrent Hd Ha. unfold record_rental, rented_until, count_sub_account in H.
  assert (0 <= U128_MAX) by (unfold_max; lia).
  nrun H; guards; add_le; unfold liabilities in *; cbn in *; sat.
Qed.

Lemma created_paid_accounts key payer attached dep env s e s' l :
  record_paid_rental key payer attached env s = Done (e, s', l) ->
  0 <= dep <= account_creation_deposit (fee_config s) -> dep <= attached ->
  liabilities s' <= liabilities s + (attached - dep) /\ total_revenue s' = total_revenue s.
Proof.
  intros H Hd Ha. unfold record_paid_rental, rented_until, count_sub_account in H.
  nrun H; guards; add_le; unfold liabilities in *; cbn in *; split; try done; sat.
Qed.

Lemma sold_accounts t n buyer price deposit swapped env s u s' l :
  on_sub_account_sold t n buyer price deposit swapped env s = Done (u, s', l) ->
  0 <= price <= deposit -> deposit <= U128_MAX -> 0 <= resale_commission_bps (fee_config s) ->
  0 <= total_revenue s ->
  liabilities s' <= liabilities s + deposit /\ 0 <= total_revenue s'.
Proof.
  intros H Hp Hd Hb Hr. unfold on_sub_account_sold, clear_settling in H.
  assert (0 <= U128_MAX) by (unfold_max; lia).
  nrun H; guards; try match goal with E : split_resale _ _ = (_, _) |- _ =>
    apply split_resale_parts in E as Hsplit; [|lia|done] end;
    add_le; unfold liabilities in *; cbn in *; sat.
Qed.

Lemma re_rented_accounts t n payer rent attached env s u s' l :
  on_sub_account_re_rented t n payer rent attached env s = Done (u, s', l) ->
  0 <= rent <= attached -> 0 <= total_revenue s ->
  liabilities s' <= liabilities s + attached /\ 0 <= total_revenue s'.
Proof.
  intros H Ha Hr. unfold on_sub_account_re_rented, count_sub_account in H.
  assert (0 <= U128_MAX) by (unfold_max; lia).
  nrun H; guards; try match goal with E : settle_failed_mint _ _ _ _ _ _ _ = _ |- _ =>
      apply settle_failed_accounts in E as [? ?]; [|lia] end;
    add_le; unfold liabilities in *; cbn in *; sat.
Qed.

Lemma checked_accounts c env s p s' l :
  call_promise c env s = Done (p, s', l) ->
  match c with
  | Call_on_re_rent_balances_checked q _ =>
      0 <= pr_rent q <= pr_attached q ->
      liabilities s' + in_flight (flight_of p) + sent p <= liabilities s + pr_attached q /\
      total_revenue s' = total_revenue s /\ forall cfg, Forall (flight_ok cfg) (flight_of p)
  | Call_on_buy_balances_checked q _ =>
      0 <= pb_price q <= pb_deposit q /\ pb_deposit q <= U128_MAX ->
      liabilities s' + in_flight (flight_of p) + sent p <= liabilities s + pb_deposit q /\
      total_revenue s' = total_revenue s /\ forall cfg, Forall (flight_ok cfg) (flight_of p)
  | Call_on_buy_paid_balances_checked _ _ _ | Call_on_balances_checked _ _ _ _ =>
      liabilities s' = liabilities s /\ total_revenue s' = total_revenue s /\
      in_flight (flight_of p) = 0 /\ sent p = 0 /\ forall cfg, Forall (flight_ok cfg) (flight_of p)
  | _ => True
  end.
Proof.
  intros H. destruct c; try done; cbn [call_promise] in H; apply returning_inv in H as (ret & H & ->).
  - intros [Hp Hd]. unfold on_buy_balances_checked, abort_sale, clear_settling in H.
    nrun H; add_le; unfold liabilities, owed in *; cbn in *; unfold owed; cbn;
      (split_and!; [lia|try done; congruence|intros; repeat constructor; cbn; lia]).
  - unfold on_buy_paid_balances_checked, clear_settling in H.
    nrun H; split_and!; try done; intros; repeat constructor; done.
  - intros Hp. unfold on_re_rent_balances_checked in H.
    nrun H; try match goal with E : settle_failed_mint _ _ _ _ _ _ _ = _ |- _ =>
      apply settle_failed_accounts in E as [? ?]; [|lia] end;
      unfold liabilities, owed in *; cbn in *; unfold owed; cbn;
      (split_and!; [lia|try done|intros; repeat constructor; cbn; lia]).
  - unfold on_balances_checked in H.
    nrun H; split_and!; try done; intros; repeat constructor; done.
Qed.

Lemma quiet_callback c env s p s' l :
  call_promise c env s = Done (p, s', l) ->
  match c with
  | Call_on_retry_signer_settled _ | Call_on_listing_verified _ _ _ _ _ _
  | Call_on_offer_verified _ _ _ _ _ _ _ | Call_on_sub_account_sold_paid _ _ _ _ _ _
  | Call_on_reclaim_finalized _ _ _ =>
      liabilities s' = liabilities s /\ total_revenue s' = total_revenue s /\ p = None
  | _ => True
  end.
Proof.
  intros H. assert (Hk : match c with
    | Call_on_retry_signer_settled _ | Call_on_listing_verified _ _ _ _ _ _
    | Call_on_offer_verified _ _ _ _ _ _ _ | Call_on_sub_account_sold_paid _ _ _ _ _ _
    | Call_on_reclaim_finalized _ _ _ =>
        keeps (fun s1 => liabilities s1 = liabilities s /\ total_revenue s1 = total_revenue s) (exec c)
    | _ => True
    end).
  { destruct c; try done; cbn [exec]; unfold_all; keeps_tac; cbn; intros; repeat case_match; done. }
  destruct c; try done; cbn [call_promise] in H; apply returning_inv in H as ([] & H & ->);
    (destruct (Hk env s tt s' l H (conj eq_refl eq_refl)); done).
Qed.

Lemma reply_accounts w env f r c s p s' l :
  resume (fl_callback f) r = Some c ->
  call_promise c (reply_env w env r) s = Done (p, s', l) ->
  books_ok s -> flight_ok (fee_config s) f ->
  liabilities s' + in_flight (flight_of p) + sent p <= liabilities s + owed f + returned f r /\
  0 <= total_revenue s' /\ Forall (flight_ok (fee_config s)) (flight_of p).
Proof.
  intros Hc H (_ & Hr & Hf & _) Hok. pose proof (checked_accounts c _ _ _ _ _ H) as Hch.
  pose proof (quiet_callback c _ _ _ _ _ H) as Hq.
  destruct Hf as (_&_&_&_&_&_&_&Hbps).
  destruct f as [[] dep], r as [results|outcome|swapped|signer]; try done;
    try (destruct results as [|x [|]]; try done); injection Hc as <-;
    unfold owed, returned; cbn [fl_callback fl_deposit] in *; unfold flight_ok in Hok;
    cbn [fl_callback fl_deposit] in Hok;
    try (destruct (Hch ltac:(tauto)) as (? & -> & ?); split_and!; [lia|done|auto]; fail);
    try (destruct Hch as (-> & -> & -> & -> & ?); split_and!; [lia|done|auto]; fail);
    try (destruct Hq as (-> & -> & ->); cbn; split_and!; [lia|done|constructor]; fail);
    clear Hch Hq; cbn [call_promise exec] in H; apply returning_inv in H as (ret & H & ->);
    cbn [flight_of sent from_option in_flight foldr].
  - unfold on_claim_refund_settled in H. nrun H; add_le; guards; unfold liabilities in *; cbn in *;
      (split_and!; [lia|lia|constructor]).
  - unfold on_sub_account_created in H. destruct Hok as (Hrent & Hdep & Hatt). destruct outcome as [[]|].
    all: nrun H; try match goal with E : settle_failed_mint _ _ _ _ _ _ _ = _ |- _ =>
        apply settle_failed_accounts in E as [? E']; [rewrite E'; split_and!; [lia|lia|constructor]|lia] end.
    all: match goal with E : record_rental _ _ _ _ _ _ = _ |- _ =>
        eapply (created_accounts _ _ _ _ dep) in E as [? ?]; [|done..] end.
    all: split_and!; [unfold liabilities in *; cbn in *; lia|done|constructor].
  - unfold on_sub_account_created_paid in H. destruct Hok as (Hdep & Hatt). destruct outcome as [[]|].
    all: nrun H; try match goal with E : settle_failed_mint _ _ _ _ _ _ _ = _ |- _ =>
        apply settle_failed_accounts in E as [? E']; [rewrite E'; split_and!; [lia|lia|constructor]|lia] end.
    all: match goal with E : record_paid_rental _ _ _ _ _ = _ |- _ =>
        eapply (created_paid_accounts _ _ _ dep) in E as [? ?]; [|done..] end.
    all: split_and!; [unfold liabilities in *; cbn in *; lia|cbn in *; lia|constructor].
  - apply re_rented_accounts in H as [? ?]; [|done..]. split_and!; [lia|done|constructor].
  - apply sold_accounts in H as [? ?]; [|tauto..]. split_and!; [lia|done|constructor].
Qed.

(** ** The invariant *)
Lemma fee_config_keeps c cfg :
  (match c with Call_update_fee_config _ => False | _ => True end) ->
  keeps (fun s => fee_config s = cfg) (exec c).
Proof.
  intros Hc. destruct c; try done; cbn [exec]; unfold_all; keeps_tac;
    first [apply add_pending_refund_keeps; intros; done | cbn; intros; repeat case_match; done].
Qed.

Section prices.
Variable P : Z -> Prop.

Definition price_where (c : Call) : Prop :=
  match c with
  | Call_on_listing_verified _ _ price _ _ _ | Call_on_offer_verified _ _ _ price _ _ _ => P price
  | _ => True
  end.

Lemma clear_settling_prices key : keeps (prices_where P) (clear_settling key).
Proof.
  apply keeps_modify. intros s [Hl Ho]. split; cbn; intros k v Hk;
    apply lookup_alter_Some in Hk as [(_ & y & Hy & ->)|[_ Hy]]; cbn;
    first [exact (Hl _ _ Hy)|exact (Ho _ _ Hy)].
Qed.

Lemma lock_listing_prices key d : keeps (prices_where P) (resolve_and_lock_listing key d).
Proof.
  intros env s a s' l H [Hl Ho]. unfold resolve_and_lock_listing in H.
  nrun H; (split; [|done]); cbn; (apply map_Forall_insert_2; [cbn; by eapply Hl|done]).
Qed.

Lemma lock_sale_prices key buyer d : keeps (prices_where P) (resolve_and_lock_sale key buyer d).
Proof.
  intros env s a s' l H [Hl Ho]. unfold resolve_and_lock_sale in H.
  nrun H; try (by eapply lock_listing_prices).
  split; [done|]. cbn. apply map_Forall_insert_2; [cbn; by eapply Ho|done].
Qed.

Lemma lock_paid_sale_prices key buyer : keeps (prices_where P) (resolve_and_lock_paid_sale key buyer).
Proof.
  intros env s a s' l H [Hl Ho]. unfold resolve_and_lock_paid_sale in H.
  nrun H; try (by eapply lock_listing_prices).
  split; [done|]. cbn. apply map_Forall_insert_2; [cbn; by eapply Ho|done].
Qed.

#[local] Hint Resolve clear_settling_prices lock_sale_prices lock_paid_sale_prices : keeps.

Lemma prices_keeps c : price_where c -> keeps (prices_where P) (exec c).
Proof.
  intros Hc. destruct c; cbn [exec price_where] in *;
    unfold buy_sub_account, buy_sub_account_paid, assert_sellable, on_sub_account_sold,
      on_sub_account_sold_paid, on_buy_balances_checked, on_buy_paid_balances_checked, abort_sale,
      admin_clear_settling;
    keeps_tac; unfold_all; keeps_tac;
    first [ apply add_pending_refund_keeps; intros; done
          | cbn; intros [Hl Ho]; repeat case_match; try done; split; cbn;
            first [done|by apply map_Forall_delete|by apply map_Forall_insert_2] ].
Qed.
End prices.

Definition price_ok : Call -> Prop := price_where (fun x => 0 <= x).

Definition no_mint_in_flight (w : World) : Prop :=
  Forall (fun f => mint_of (fl_callback f) = None) (flights w).

(** Deposits are unsigned and far below the [u128] ceiling, as the supply of
    NEAR is; the creation deposit is not lowered while a mint is in flight. *)
Definition genuine (w : World) (h : Happening) : Prop :=
  match h with
  | Hp_call env c =>
      0 <= attached_deposit env /\ balance w + attached_deposit env < U128_MAX /\ call_ok c /\
      match c with
      | Call_update_fee_config cfg =>
          account_creation_deposit (fee_config (reg w)) <= account_creation_deposit cfg \/
          no_mint_in_flight w
      | _ => True
      end
  | Hp_reply i _ r =>
      match flights w !! i with Some f => balance w + returned f r < U128_MAX | None => True end
  | Hp_income amount => 0 <= amount /\ balance w + amount < U128_MAX
  end.

Definition solvent (w : World) : Prop :=
  books_ok (reg w) /\ Forall (flight_ok (fee_config (reg w))) (flights w) /\ held w <= balance w.

Lemma owed_nonneg cfg f : flight_ok cfg f -> 0 <= owed f.
Proof. destruct f as [[] dep]; unfold flight_ok, owed; cbn; lia. Qed.

Lemma in_flight_cons f fs : in_flight (f :: fs) = owed f + in_flight fs.
Proof. done. Qed.

Lemma in_flight_nonneg cfg fs : Forall (flight_ok cfg) fs -> 0 <= in_flight fs.
Proof.
  induction 1 as [|f fs Hf _ IH]; [done|]. rewrite in_flight_cons.
  pose proof (owed_nonneg _ _ Hf). lia.
Qed.

Lemma in_flight_app fs1 fs2 : in_flight (fs1 ++ fs2) = in_flight fs1 + in_flight fs2.
Proof.
  induction fs1 as [|f fs1 IH]; [done|]. rewrite <- app_comm_cons, !in_flight_cons. lia.
Qed.

Lemma in_flight_delete fs i f : fs !! i = Some f -> in_flight fs = owed f + in_flight (delete i fs).
Proof.
  revert i. induction fs as [|g fs IH]; intros [|i] Hi; try done.
  - by injection Hi as ->.
  - change (delete (S i) (g :: fs)) with (g :: delete i fs).
    rewrite !in_flight_cons, (IH i Hi). lia.
Qed.

Lemma flight_ok_mono cfg cfg' f :
  account_creation_deposit cfg <= account_creation_deposit cfg' \/ mint_of (fl_callback f) = None ->
  flight_ok cfg f -> flight_ok cfg' f.
Proof. destruct f as [[] dep]; unfold flight_ok; cbn; intros [?|?] ?; try done; lia. Qed.

Lemma sent_nonneg c env s p s' l :
  call_promise c env s = Done (p, s', l) -> books_ok s -> 0 <= sent p.
Proof.
  intros H (Hl & _ & Hf & _). pose proof (pending_le_total s (predecessor_account_id env) Hl) as Hb.
  destruct Hf as (_&_&_&_&_&_&Hd&_). unfold get_pending_refund in Hb.
  destruct c; cbn [call_promise] in H; apply returning_inv in H as (ret & H & ->); try done;
    unfold claim_refund, list_sub_account, accept_offer, buy_sub_account, buy_sub_account_paid,
      on_buy_balances_checked, on_buy_paid_balances_checked, rent_sub_account, rent_sub_account_paid,
      retry_signer_install, on_re_rent_balances_checked, reclaim_sweep_ft, reclaim_finalize,
      on_balances_checked, abort_sale in H;
    nrun H; frames; cbn in *; try done; unfold set_field in *; cbn in *; try lia.
Qed.

(** The books stay in order under a call whose amounts are. *)
Lemma books_step c env s s' l :
  exec c env s = Done (tt, s', l) -> books_ok s -> amounts_ok c -> price_ok c -> call_ok c ->
  0 <= total_revenue s' -> total_pending_refunds s' < U128_MAX -> books_ok s'.
Proof.
  intros H (Hl & Hr & Hf & Hp) Ham Hpr Hok Hr' Ht.
  split_and!; [eapply exec_ledger; [done..|lia]|done| |by eapply (prices_keeps _ c)].
  assert (Hc : (exists cfg, c = Call_update_fee_config cfg) \/
               match c with Call_update_fee_config _ => False | _ => True end)
    by (destruct c; eauto).
  destruct Hc as [[cfg ->]|Hc].
  - cbn in H. unfold update_fee_config in H. by nrun H.
  - by rewrite (fee_config_keeps c (fee_config s) Hc env s tt s' l H eq_refl).
Qed.

Lemma reply_call_ok f r c cfg :
  resume (fl_callback f) r = Some c -> flight_ok cfg f -> amounts_ok c /\ price_ok c /\ call_ok c.
Proof.
  intros Hc Hf. destruct f as [[] dep], r as [results|outcome|swapped|signer]; try done;
    try (destruct results as [|x [|]]; try done); injection Hc as <-;
    unfold flight_ok in Hf; cbn in *; (split_and!; (done || lia)).
Qed.

Lemma user_amounts_ok c : is_callback c = false -> call_ok c -> amounts_ok c /\ price_ok c.
Proof. by destruct c. Qed.

Lemma flights_step s s' c env l fs :
  exec c env s = Done (tt, s', l) ->
  (match c with
   | Call_update_fee_config cfg =>
       account_creation_deposit (fee_config s) <= account_creation_deposit cfg \/
       Forall (fun f => mint_of (fl_callback f) = None) fs
   | _ => True
   end) ->
  Forall (flight_ok (fee_config s)) fs -> Forall (flight_ok (fee_config s')) fs.
Proof.
  intros H Hc Hfs.
  assert (Hd : (exists cfg, c = Call_update_fee_config cfg) \/
               match c with Call_update_fee_config _ => False | _ => True end)
    by (destruct c; eauto).
  destruct Hd as [[cfg ->]|Hd].
  - cbn in H. unfold update_fee_config in H. nrun H. destruct Hc as [Hc|Hc].
    + revert Hfs. apply Forall_impl. intros f. apply flight_ok_mono. by left.
    + apply Forall_forall. intros f Hf. rewrite Forall_forall in Hfs, Hc.
      eapply flight_ok_mono; [right; by apply Hc|by apply Hfs].
  - by rewrite (fee_config_keeps c (fee_config s) Hd env s tt s' l H eq_refl).
Qed.

(** What one accepted call leaves solvent, given its accounting. *)
Lemma solvent_call c env s p s' l fs money :
  call_promise c env s = Done (p, s', l) -> books_ok s -> Forall (flight_ok (fee_config s)) fs ->
  amounts_ok c -> price_ok c -> call_ok c ->
  (match c with
   | Call_update_fee_config cfg =>
       account_creation_deposit (fee_config s) <= account_creation_deposit cfg \/
       Forall (fun f => mint_of (fl_callback f) = None) fs
   | _ => True
   end) ->
  0 <= total_revenue s' -> Forall (flight_ok (fee_config s)) (flight_of p) ->
  liabilities s' + in_flight (flight_of p) + sent p + in_flight fs <= money -> money < U128_MAX ->
  solvent (mkWorld s' (money - sent p) (flight_of p ++ fs)).
Proof.
  intros H Hb Hfs Ham Hpr Hok Hcfg Hr Hnew Hacc Hmax.
  pose proof (sent_nonneg _ _ _ _ _ _ H Hb) as Hsent.
  pose proof (in_flight_nonneg _ _ Hfs) as H1. pose proof (in_flight_nonneg _ _ Hnew) as H2.
  assert (Hq : flight_of p = [] \/ match c with Call_update_fee_config _ => False | _ => True end).
  { destruct c; try (by right). left. cbn [call_promise] in H. by apply returning_inv in H as (? & _ & ->). }
  apply call_promise_exec in H. unfold liabilities in *.
  split_and!; cbn.
  - eapply books_step; [done..|lia].
  - apply Forall_app. split.
    + destruct Hq as [->|Hq]; [constructor|]. eapply flights_step; [exact H| |exact Hnew]. by destruct c.
    + by eapply flights_step.
  - unfold held, liabilities. cbn. rewrite in_flight_app. lia.
Qed.

Lemma solvent_step w h : genuine w h -> solvent w -> solvent (wstep w h).
Proof.
  intros Hg (Hb & Hfl & Hh). pose proof (in_flight_nonneg _ _ Hfl) as Hnn. unfold held in Hh.
  assert (Hpos : 0 <= liabilities (reg w)).
  { pose proof (pending_le_total (reg w) EmptyString (proj1 Hb)). unfold liabilities.
    pose proof (proj1 (proj2 Hb)). lia. }
  apply (wstep_cases w h solvent); [done|..].
  - intros env c p s' l -> Hp E. destruct Hg as (Ha & Hmax & Hok & Hcfg).
    assert (Hc : is_callback c = false).
    { destruct (is_callback c) eqn:Ec; [|done]. by apply callback_private in E. }
    destruct (user_accounts c _ _ _ _ _ E Hc) as (Hacc & Hr' & Hnew); [cbn; lia|done|done|].
    destruct (user_amounts_ok c Hc Hok) as [Ham Hpr]. cbn in Hacc.
    eapply solvent_call; [done..|lia|lia].
  - intros i env r f c p s' l -> Hf Hc E. cbn in Hg. rewrite Hf in Hg.
    rewrite (in_flight_delete _ _ _ Hf) in Hh.
    pose proof (Forall_lookup_1 _ _ _ _ Hfl Hf) as Hof.
    destruct (reply_accounts w env f r c _ _ _ _ Hc E Hb Hof) as (Hacc & Hr' & Hnew).
    destruct (reply_call_ok f r c _ Hc Hof) as (Ham & Hpr & Hok).
    eapply solvent_call; [done| |by apply Forall_delete|done..| |done|done|lia|lia]; [done|].
    destruct c; try done. apply resume_callback in Hc. done.
  - intros i env r f c x -> Hf Hc _. rewrite (in_flight_delete _ _ _ Hf) in Hh.
    pose proof (owed_nonneg _ _ (Forall_lookup_1 _ _ _ _ Hfl Hf)) as Ho.
    assert (0 <= returned f r).
    { pose proof (Forall_lookup_1 _ _ _ _ Hfl Hf) as Hof. destruct f as [[] dep];
        unfold returned, flight_ok in *; cbn in *; repeat case_match; lia. }
    split_and!; cbn; [done|by apply Forall_delete|]. unfold held. cbn [reg balance flights]. lia.
  - intros amount ->. destruct Hg as [? ?]. split_and!; cbn; [done|done|]. unfold held. cbn [reg balance flights]. lia.
Qed.

(** C3: Along every history of calls, replies and payments that interleave in any
    order, with the amounts the runtime can pass and no change of the creation
    deposit while a mint is in flight, the registry's revenue, the refunds it owes
    and the deposits of the promise chains still in flight together never exceed the
    balance of its account; the refund ledger stays exact and every account's refund
    is covered. *)
Theorem registry_stays_solvent tr w :
  solvent w -> all_along genuine tr w ->
  held (wrun tr w) <= balance (wrun tr w) /\ ledger_exact (reg (wrun tr w)) /\
  (forall a, 0 <= get_pending_refund (reg (wrun tr w)) a <= balance (wrun tr w)) /\
  Forall (fun f => 0 <= owed f) (flights (wrun tr w)).
Proof.
  intros Hw Htr.
  destruct (wrun_invariant genuine solvent tr w solvent_step Hw Htr) as (Hb & Hfl & Hh).
  pose proof (in_flight_nonneg _ _ Hfl) as Hnn. unfold held, liabilities in *.
  destruct Hb as (Hl & Hr & _). split_and!; [done|done| |].
  - intros a. pose proof (pending_le_total _ a Hl). lia.
  - revert Hfl. apply Forall_impl. intros f. apply owed_nonneg.
Qed.

Lemma new_is_solvent env admin ext signer parked grace s x :
  new env admin ext signer parked grace = Done s -> 0 <= x -> solvent (mkWorld s x []).
Proof.
  intros H Hx. unfold new in H. repeat case_match; try done. injection H as <-.
  split_and!; cbn; [|constructor|unfold held, liabilities; cbn; lia].
  split_and!; cbn; [split; [apply map_Forall_empty|done]|done| |split; apply map_Forall_empty].
  by repeat split; apply Z.leb_le.
Qed.
End Solvency.

(** ** Witnesses *)

(** The demo registry with 50 NEAR of its own. *)
Definition demo_world : World := mkWorld demo_registry (50 * ONE_NEAR) [].

Lemma demo_world_solvent : solvent demo_world.
Proof.
  split; [|split; [constructor|by apply Z.leb_le]]. cbn. split; [apply demo_empty_ledger|].
  split; [by apply Z.leb_le|]. split; [by repeat split; apply Z.leb_le|].
  split; [|apply map_Forall_empty]. cbn. intros k v Hk.
  by apply lookup_singleton_Some in Hk as [_ <-].
Qed.

(** carol buys, dave rents, and both chains fail; dave's callback comes first. *)
Definition demo_history : list Happening :=
  [Hp_call (registry_call "carol.near" (2 * 10 ^ 24) 1) (Call_buy_sub_account "web.near" "bob" (demo_key 8));
   Hp_call (registry_call "dave.near" (100 * ONE_NEAR) 2)
     (Call_rent_sub_account "web.near" "dave" (demo_key 9) "dave.near");
   Hp_reply 0 (registry_callback 3 []) (Reply_minted (Err PromiseError_Failed));
   Hp_reply 0 (registry_callback 4 []) (Reply_results [PromiseResult_Failed]);
   Hp_call (registry_call "dave.near" 0 5) Call_claim_refund].

(** Decides that a history is genuine, for calls that pass no amounts. *)
Definition genuineb (w : World) (h : Happening) : bool :=
  match h with
  | Hp_call env c =>
      (0 <=? attached_deposit env) && (balance w + attached_deposit env <? U128_MAX) &&
      match c with
      | Call_update_fee_config _ | Call_withdraw _ _ | Call_list_sub_account _ _ _ _
      | Call_accept_offer _ _ _ _ _ => false
      | _ => true
      end
  | Hp_reply i _ r =>
      match flights w !! i with Some f => balance w + returned f r <? U128_MAX | None => true end
  | Hp_income amount => (0 <=? amount) && (balance w + amount <? U128_MAX)
  end.

Lemma genuineb_sound w h : genuineb w h = true -> genuine w h.
Proof.
  destruct h as [env c|i env r|amount]; cbn.
  - intros [[H1%Z.leb_le H2%Z.ltb_lt]%andb_true_iff H3]%andb_true_iff.
    by destruct c.
  - destruct (flights w !! i); [apply Z.ltb_lt|done].
  - by intros [H1%Z.leb_le H2%Z.ltb_lt]%andb_true_iff.
Qed.

Lemma registry_stays_solvent_witness :
  let w := wrun demo_history demo_world in
  held w <= balance w /\ get_pending_refund (reg w) "carol.near" = 2 * 10 ^ 24.
Proof.
  destruct (registry_stays_solvent demo_history demo_world) as (H & _).
  - apply demo_world_solvent.
  - apply (all_alongb_sound genuineb); [apply genuineb_sound|]. vm_eq.
  - split; [exact H|vm_eq].
Defined.

(** The condition on the creation deposit is needed: an admin who lowers it
    while a mint is in flight makes the registry owe what it has sent away. *)
Definition lowered_deposit : FeeConfig :=
  mkFeeConfig (1000 * ONE_NEAR) (50 * ONE_NEAR) (20 * ONE_NEAR) (10 * ONE_NEAR) (5 * ONE_NEAR)
    (ONE_NEAR / 2) 1 1000 (7 * 24 * 60 * 60 * 1000000000) 0.

Lemma lowering_the_deposit_breaks_solvency :
  let w := wrun
    [Hp_call (registry_call "dave.near" (7 * ONE_NEAR + 51 * (ONE_NEAR / 100)) 2)
       (Call_rent_sub_account "web.near" "dave" (demo_key 9) "dave.near");
     Hp_call (registry_call "dao.near" 0 3) (Call_update_fee_config lowered_deposit);
     Hp_reply 0 (registry_callback 4 []) (Reply_minted (Ok MintOutcome_Active))]
    (mkWorld demo_registry 0 []) in
  flights w = [] /\ (balance w <? held w) = true.
Proof. cbv zeta. split; vm_eq. Qed.
