(* ===== verification/RegistryCounts.v ===== *)
(** * tla-registry: the counters are exact

    The registry counts names three times over: the records it keeps, the
    [sub_account_count] it reports, and the sub-accounts of each business TLA.
    A rental is recorded before its wallet exists and counted when its callback
    settles, so the counters only agree together with the promises in flight. *)
From S2P Require Export RegistryWorld.

Section Counts.
Context `{HS : !Sdk}.

(** ** What a call books *)
Definition names (s : TlaRegistry) : gmap string AccountId := se_tla_id <$> sub_accounts s.
Definition is_business (s : TlaRegistry) (t : AccountId) : bool :=
  match tlas s !! t with Some e => bool_decide (te_tla_type e = TlaType_Business) | None => false end.
Definition names_of (t : AccountId) (m : gmap string AccountId) : Z :=
  Z.of_nat (size (filter (fun p => p.2 = t) m)).

Inductive Entry :=
| Kept
| Rented (key : string) (t : AccountId)
| Settled
| Undone (key : string) (t : AccountId)
| Reclaimed (key : string) (t : AccountId).

Definition entry_of (c : Call) (env : Env) (s : TlaRegistry) : Entry :=
  match c with
  | Call_rent_sub_account t n _ _ | Call_rent_sub_account_paid t n _ _ =>
      Rented (sub_account_key t n) t
  | Call_on_sub_account_created t n _ _ _ _ o | Call_on_sub_account_created_paid t n _ _ _ _ o =>
      match o with
      | Ok (MintOutcome_Active | MintOutcome_SignerPending) => Settled
      | _ => Undone (sub_account_key t n) t
      end
  | Call_on_sub_account_re_rented t n _ _ _ =>
      match promise_results env with
      | [PromiseResult_Failed] => Undone (sub_account_key t n) t
      | _ => Settled
      end
  | Call_on_re_rent_balances_checked p al =>
      match ft_balances_clear env al with
      | BalanceGate_Blocked _ _ => Undone (sub_account_key (pr_tla_id p) (pr_name p)) (pr_tla_id p)
      | BalanceGate_Clear => Kept
      end
  | Call_on_reclaim_finalized t n _ =>
      match promise_results env, sub_accounts s !! sub_account_key t n with
      | [PromiseResult_Successful _], Some _ => Reclaimed (sub_account_key t n) t
      | _, _ => Kept
      end
  | _ => Kept
  end.

(** [business_count_decrement_if_business] on one count. *)
Definition less_one (x : Z) : Z := if x =? 0 then x else saturating_sub x 1.

Definition same_but (t : AccountId) (f : Z -> Z) (s s' : TlaRegistry) : Prop :=
  forall t', business_count s' t' =
    (if bool_decide (t' = t) && is_business s t then f (business_count s t') else business_count s t').

Definition booked (e : Entry) (s s' : TlaRegistry) : Prop :=
  match e with
  | Kept =>
      names s' = names s /\ sub_account_count s' = sub_account_count s /\
      (forall t, business_count s' t = business_count s t)
  | Settled =>
      names s' = names s /\ sub_account_count s' = saturating_add U64_MAX (sub_account_count s) 1 /\
      (forall t, business_count s' t = business_count s t)
  | Rented key t =>
      names s !! key = None /\ is_Some (tlas s !! t) /\ names s' = <[key := t]> (names s) /\
      sub_account_count s' = sub_account_count s /\
      (is_business s t = true -> business_count s t < effective_business_cap s t) /\
      same_but t (fun x => saturating_add U32_MAX x 1) s s'
  | Undone key t =>
      names s' = delete key (names s) /\ sub_account_count s' = sub_account_count s /\
      same_but t less_one s s'
  | Reclaimed key t =>
      names s' = delete key (names s) /\
      sub_account_count s' = saturating_sub (sub_account_count s) 1 /\
      same_but t less_one s s'
  end.

Arguments booked : simpl never.

Lemma same_but_bump s t m u :
  is_business s t = true ->
  same_but t (fun x => saturating_add U32_MAX x 1) s
    (s <| mothers := m |> <| mother_use_count := u |>
       <| business_sub_count ::= <[t := saturating_add U32_MAX (business_count s t) 1]> |>).
Proof.
  intros Hb t'. rewrite Hb, andb_true_r. unfold business_count. cbn.
  case_bool_decide as D; [subst; by rewrite lookup_insert_eq|by rewrite lookup_insert_ne].
Qed.

Lemma business_decrement_counts t env s a s' l :
  business_count_decrement_if_business t env s = Done (a, s', l) ->
  (exists m, s' = s <| business_sub_count := m |>) /\ same_but t less_one s s'.
Proof.
  intros H. destruct (business_decrement_frame t env s) as [m E].
  rewrite E in H. simplify_eq. split; [by eexists|].
  apply (f_equal (fun r => match r with Done (_, x, _) => business_sub_count x | Fail _ => ∅ end)) in E.
  cbn in E. rewrite <- E. clear E m.
  intros t'. unfold business_count, business_count_decrement_if_business, business_count_decrement. cbn.
  nexec. fold (is_business s t).
  destruct (is_business s t); rewrite ?andb_true_r, ?andb_false_r; [|done]. nexec. unfold less_one.
  fold (business_count s t) (business_count s t').
  destruct (business_count s t =? 0) eqn:E0; nexec.
  { case_bool_decide; [subst t'; by rewrite E0|done]. }
  destruct (saturating_sub (business_count s t) 1 =? 0) eqn:E1; cbn;
    (case_bool_decide; [subst t'; rewrite E0|]);
    rewrite ?lookup_delete_eq, ?lookup_insert_eq, ?lookup_delete_ne, ?lookup_insert_ne by done; cbn;
    guards; (done || lia).
Qed.

(** The calls that add or remove a name, or count one. *)
Definition books (c : Call) : bool :=
  match c with
  | Call_rent_sub_account _ _ _ _ | Call_rent_sub_account_paid _ _ _ _
  | Call_on_sub_account_created _ _ _ _ _ _ _ | Call_on_sub_account_created_paid _ _ _ _ _ _ _
  | Call_on_sub_account_re_rented _ _ _ _ _ | Call_on_re_rent_balances_checked _ _
  | Call_on_reclaim_finalized _ _ _ => true
  | _ => false
  end.

Lemma unbooked_counts c x y :
  books c = false ->
  keeps (fun s => sub_account_count s = x /\ business_sub_count s = y) (exec c).
Proof.
  intros Hc. destruct c; try done; cbn [exec]; unfold_all; keeps_tac;
    first [apply add_pending_refund_keeps; intros; done | cbn; intros; repeat case_match; done].
Qed.

Lemma names_lookup s key : names s !! key = se_tla_id <$> sub_accounts s !! key.
Proof. apply lookup_fmap. Qed.

Lemma unbooked_names c env s s' l :
  books c = false -> exec c env s = Done (tt, s', l) -> names s' = names s.
Proof.
  intros Hc H. apply map_eq. intros key. rewrite !names_lookup.
  destruct (exec_name_step c env s s' l key H); try done.
  by destruct c.
Qed.

Lemma unbooked c env s s' l :
  books c = false -> exec c env s = Done (tt, s', l) -> booked Kept s s'.
Proof.
  intros Hc H. destruct (unbooked_counts c _ _ Hc env s tt s' l H (conj eq_refl eq_refl)) as [H1 H2].
  split_and!; [by eapply unbooked_names|done|]. intros t. unfold business_count. by rewrite H2.
Qed.

(** What [Rented] says of the counters, once the record is written. *)
Definition admitted (t : AccountId) (s s' : TlaRegistry) : Prop :=
  is_Some (tlas s !! t) /\ sub_account_count s' = sub_account_count s /\
  (is_business s t = true -> business_count s t < effective_business_cap s t) /\
  same_but t (fun x => saturating_add U32_MAX x 1) s s'.

Lemma admitted_business t e s m u :
  tlas s !! t = Some e -> te_tla_type e = TlaType_Business ->
  let s1 := s <| mothers := m |> <| mother_use_count := u |> in
  business_count s1 t < effective_business_cap s1 t ->
  admitted t s
    (s1 <| business_sub_count ::= <[t := saturating_add U32_MAX (business_count s1 t) 1]> |>).
Proof.
  intros He Hb s1 Hcap. split_and!; [by eexists|done..|].
  apply (same_but_bump s t m u). unfold is_business. by rewrite He, bool_decide_true.
Qed.

Lemma admitted_open t e s m u :
  tlas s !! t = Some e -> te_tla_type e <> TlaType_Business ->
  admitted t s (s <| mothers := m |> <| mother_use_count := u |>).
Proof.
  intros He Hb. assert (E : is_business s t = false) by (unfold is_business; by rewrite He, bool_decide_false).
  split_and!; [by eexists|done|by rewrite E|]. intros t'. by rewrite E, andb_false_r.
Qed.

Lemma admitted_record t s s' f : admitted t s s' -> admitted t s (s' <| sub_accounts ::= f |>).
Proof. done. Qed.

Ltac admits :=
  repeat match goal with
  | E : ensure_mother_default _ _ _ = Done _ |- _ =>
      apply mother_default_frame in E as (? & ? & -> & _)
  | E : business_count_check_and_bump _ _ _ = Done _ |- _ =>
      apply business_bump_inv in E as (-> & ? & ->)
  end;
  guards; apply admitted_record; first [by eapply admitted_business|by eapply admitted_open].

Lemma rent_books t n k w env s p s' l :
  rent_sub_account t n k w env s = Done (p, s', l) -> booked (Rented (sub_account_key t n) t) s s'.
Proof.
  intros H. pose proof (rent_writes _ _ _ _ _ _ _ _ _ H) as (_ & E & _ & W).
  assert (Hn : names s' = <[sub_account_key t n := t]> (names s)) by (unfold names; by rewrite W, fmap_insert).
  assert (Ha : admitted t s s') by (clear W E Hn; unfold rent_sub_account in H; nrun H; admits).
  destruct Ha as (?&?&?&?). unfold booked. rewrite names_lookup, E. by split_and!.
Qed.

Lemma rent_paid_books t n k w env s p s' l :
  rent_sub_account_paid t n k w env s = Done (p, s', l) ->
  booked (Rented (sub_account_key t n) t) s s'.
Proof.
  intros H. pose proof (rent_paid_writes _ _ _ _ _ _ _ _ _ H) as (_ & _ & _ & E & _ & _ & W).
  assert (Hn : names s' = <[sub_account_key t n := t]> (names s)) by (unfold names; by rewrite W, fmap_insert).
  assert (Ha : admitted t s s') by (clear W E Hn; unfold rent_sub_account_paid in H; nrun H; admits).
  destruct Ha as (?&?&?&?). unfold booked. rewrite names_lookup, E. by split_and!.
Qed.

Lemma pending_books account amount env s a s' l :
  add_pending_refund account amount env s = Done (a, s', l) -> booked Kept s s'.
Proof. unfold add_pending_refund. intros H. nrun H. done. Qed.

Lemma failed_mint_books key t payer attached reason env s a s' l :
  settle_failed_mint key t payer attached reason env s = Done (a, s', l) ->
  booked (Undone key t) s s'.
Proof.
  unfold settle_failed_mint. intros H. nrun H.
  match goal with
  | E : business_count_decrement_if_business _ _ _ = _, P : add_pending_refund _ _ _ _ = _ |- _ =>
      apply business_decrement_counts in E as [[m Em] Hm]; apply pending_books in P as (P1 & P2 & P3)
  end. subst.
  split_and!; [rewrite P1; unfold names; cbn; apply fmap_delete|by rewrite P2|].
  intros t'. rewrite P3. apply Hm.
Qed.

Lemma booked_kept_trans e s s1 s' :
  match e with Rented _ _ => False | _ => True end ->
  booked e s s1 -> booked Kept s1 s' -> booked e s s'.
Proof.
  intros He H (H1 & H2 & H3).
  destruct e; try done; destruct H as (K1 & K2 & K3); split_and!; try congruence;
    intros t'; rewrite H3; apply K3.
Qed.

Ltac settles :=
  first
    [ by repeat split
    | match goal with
      | P : add_pending_refund _ _ _ _ = Done (_, ?x, _) |- booked ?e ?s _ =>
          apply pending_books in P; cut (booked e s x); [exact id|];
          eapply booked_kept_trans; [done| |exact P]; by repeat split
      end ].

Lemma mint_books t n payer k rent attached o env s s' l :
  (on_sub_account_created t n payer k rent attached o env s = Done (tt, s', l) \/
   on_sub_account_created_paid t n payer k rent attached o env s = Done (tt, s', l)) ->
  booked (entry_of (Call_on_sub_account_created t n payer k rent attached o) env s) s s'.
Proof.
  intros [H|H]; unfold on_sub_account_created, on_sub_account_created_paid in H;
    destruct o as [[]|]; cbn [entry_of];
    apply bind_inv in H as (?&?&?&?&[_ Hx]%private_inv&H&_); simplify_eq;
    try (by eapply failed_mint_books).
  all: unfold record_rental, record_paid_rental, count_sub_account in H; nrun H; settles.
Qed.

Lemma re_rent_books t n payer rent attached env s s' l :
  on_sub_account_re_rented t n payer rent attached env s = Done (tt, s', l) ->
  booked (entry_of (Call_on_sub_account_re_rented t n payer rent attached) env s) s s'.
Proof.
  unfold on_sub_account_re_rented. cbn [entry_of]. intros H.
  apply bind_inv in H as (?&?&?&?&[_ Hx]%private_inv&H&_); simplify_eq.
  apply bind_inv in H as (?&?&?&?&Hx&H&_).
  apply promise_success_inv in Hx as [(data & -> & ?)|[-> ?]]; simplify_eq; cbn in H.
  - nrun H; settles.
  - by eapply failed_mint_books.
Qed.

Lemma re_rent_gate_books p al env s r s' l :
  on_re_rent_balances_checked p al env s = Done (r, s', l) ->
  booked (entry_of (Call_on_re_rent_balances_checked p al) env s) s s'.
Proof.
  unfold on_re_rent_balances_checked. cbn [entry_of]. intros H. nrun H; [done|].
  by eapply failed_mint_books.
Qed.

Lemma removed_books key t env s s1 x s' l :
  business_count_decrement_if_business t env s1 = Done (x, s', l) ->
  sub_accounts s1 = delete key (sub_accounts s) ->
  sub_account_count s1 = saturating_sub (sub_account_count s) 1 ->
  business_sub_count s1 = business_sub_count s -> tlas s1 = tlas s ->
  booked (Reclaimed key t) s s'.
Proof.
  intros [[m ->] Hm]%business_decrement_counts Hn Hc Hb Ht. split_and!.
  - unfold names. cbn. rewrite Hn. apply fmap_delete.
  - done.
  - intros t'. rewrite (Hm t'). unfold business_count, is_business. by rewrite Hb, Ht.
Qed.

Lemma reclaim_books t n d env s s' l :
  on_reclaim_finalized t n d env s = Done (tt, s', l) ->
  booked (entry_of (Call_on_reclaim_finalized t n d) env s) s s'.
Proof.
  unfold on_reclaim_finalized. cbn [entry_of]. intros H.
  apply bind_inv in H as (?&?&?&?&[_ Hx]%private_inv&H&_); simplify_eq.
  apply bind_inv in H as (?&?&?&?&Hx%modify_inv&H&_); simplify_eq.
  apply bind_inv in H as (?&?&?&?&Hx&H&_).
  apply promise_success_inv in Hx as [(data & -> & ?)|[-> ?]]; simplify_eq; cbn in H; [|by nrun H].
  unfold decrement_mother_use in H. nrun H; try done;
    match goal with E : business_count_decrement_if_business _ _ _ = Done (_, ?y, _) |- booked ?e ?s _ =>
      cut (booked e s y); [exact id|]; eapply removed_books; [exact E|..] end;
    cbn; repeat case_match; done.
Qed.

(** Every call books its entry. *)
Lemma exec_books c env s s' l :
  exec c env s = Done (tt, s', l) -> booked (entry_of c env s) s s'.
Proof.
  intros H. destruct (books c) eqn:Ec.
  2: { destruct c; try done; exact (unbooked _ _ _ _ _ Ec H). }
  destruct c; try done; cbn [exec] in H;
    try (apply bind_inv in H as (?&?&?&?&H&Hret&_); apply ret_inv in Hret as [= -> ->]).
  - by eapply rent_books.
  - by eapply rent_paid_books.
  - by eapply re_rent_gate_books.
  - exact (mint_books _ _ _ _ _ _ _ _ _ _ _ (or_introl H)).
  - exact (mint_books _ _ _ _ _ _ _ _ _ _ _ (or_intror H)).
  - by eapply re_rent_books.
  - by eapply reclaim_books.
Qed.

(** *** The type of a TLA never changes, and no TLA is forgotten *)
Definition writes_tla (c : Call) : bool :=
  match c with
  | Call_register_tla _ _ _ _ | Call_suspend_tla _ | Call_unsuspend_tla _ | Call_activate_open_tla _
  | Call_activate_tla _ | Call_renew_tla _ => true
  | _ => false
  end.

Lemma tlas_keep c x : writes_tla c = false -> keeps (fun s => tlas s = x) (exec c).
Proof.
  intros Hc. destruct c; try done; cbn [exec]; unfold_all; keeps_tac;
    first [apply add_pending_refund_keeps; intros; done | cbn; intros; repeat case_match; done].
Qed.

Lemma add_pending_refund_tlas account amount env s a s' l :
  add_pending_refund account amount env s = Done (a, s', l) -> tlas s' = tlas s.
Proof. unfold add_pending_refund. intros H. by nrun H. Qed.

Lemma exec_types c env s s' l t e :
  exec c env s = Done (tt, s', l) -> tlas s !! t = Some e ->
  exists e', tlas s' !! t = Some e' /\ te_tla_type e' = te_tla_type e.
Proof.
  intros H He. destruct (writes_tla c) eqn:Ec.
  2: { exists e. by rewrite (tlas_keep c _ Ec env s tt s' l H eq_refl). }
  assert (Hk : exists k x, tlas s' = <[k := x]> (tlas s) /\
    forall y, tlas s !! k = Some y -> te_tla_type x = te_tla_type y).
  { destruct c; try done; cbn [exec] in H;
      unfold register_tla, suspend_tla, unsuspend_tla, activate_open_tla, activate_tla, renew_tla in H;
      nrun H; guards;
      repeat match goal with
      | P : add_pending_refund _ _ _ _ = _ |- _ =>
          apply add_pending_refund_tlas in P; cbn in P; rewrite ?P
      end; do 2 eexists; (split; [reflexivity|]); intros; cbn; congruence. }
  destruct Hk as (k & x & -> & Hx). destruct (decide (k = t)) as [->|Hne].
  - rewrite lookup_insert_eq. eauto.
  - rewrite lookup_insert_ne by done. eauto.
Qed.

(** ** The names that flights settle *)

(** The rental ([true]) or reclaim ([false]) of a name that a flight settles. *)
Definition claim (f : Flight) : option (bool * string * AccountId) :=
  match fl_callback f with
  | Cb_on_sub_account_created t n _ _ _ _ | Cb_on_sub_account_created_paid t n _ _ _ _
  | Cb_on_sub_account_re_rented t n _ _ _ => Some (true, sub_account_key t n, t)
  | Cb_on_re_rent_balances_checked p _ =>
      Some (true, sub_account_key (pr_tla_id p) (pr_name p), pr_tla_id p)
  | Cb_on_balances_checked t n _ _ | Cb_on_reclaim_finalized t n _ =>
      Some (false, sub_account_key t n, t)
  | _ => None
  end.
Definition claims (fs : list Flight) : list (bool * string * AccountId) := omap claim fs.
Definition rentals (fs : list Flight) : Z :=
  Z.of_nat (length (filter (fun x => x.1.1 = true) (claims fs))).
Definition claimed (b : bool) (key : string) (fs : list Flight) : Prop :=
  exists t, (b, key, t) ∈ claims fs.

(** What a user's call sends claims, and what a callback passes on. *)
Definition call_claims (c : Call) : list (bool * string * AccountId) :=
  match c with
  | Call_rent_sub_account t n _ _ | Call_rent_sub_account_paid t n _ _ =>
      [(true, sub_account_key t n, t)]
  | Call_reclaim_finalize t n => [(false, sub_account_key t n, t)]
  | _ => []
  end.

Lemma user_claims c env s p s' l :
  is_callback c = false -> call_promise c env s = Done (p, s', l) ->
  claims (flight_of p) = call_claims c.
Proof.
  intros Hc H. destruct c; try done; cbn [call_promise] in H;
    apply returning_inv in H as (? & H & ->); try done;
    unfold claim_refund, list_sub_account, accept_offer, buy_sub_account, buy_sub_account_paid,
      rent_sub_account, rent_sub_account_paid, retry_signer_install, reclaim_sweep_ft,
      reclaim_finalize in H; nrun H; try done; by case_match.
Qed.

Lemma reply_claims w env f r c s p s' l :
  resume (fl_callback f) r = Some c -> call_promise c (reply_env w env r) s = Done (p, s', l) ->
  let e := entry_of c (reply_env w env r) s in
  match claim f with
  | None => e = Kept /\ claims (flight_of p) = []
  | Some (b, key, t) =>
      (claims (flight_of p) = [(b, key, t)] /\ e = Kept /\ reclaim_pending s' = reclaim_pending s) \/
      (claims (flight_of p) = [] /\
       if b then e = Settled \/ e = Undone key t else e = Kept \/ e = Reclaimed key t)
  end.
Proof.
  intros Hc H. destruct f as [[] dep], r as [results|outcome|swapped|signer]; try done;
    cbn [resume fl_callback] in Hc;
    try (destruct results as [|x [|]]; try done; []); injection Hc as <-;
    cbn [call_promise] in H; apply returning_inv in H as (? & H & ->);
    cbn [claim fl_callback entry_of reply_env results_of promise_results]; cbv zeta; try done;
    try (by right; split; [done|]; repeat case_match; auto).
  - unfold on_re_rent_balances_checked in H. nrun H; [by left|right; auto].
  - unfold on_buy_balances_checked, abort_sale in H. nrun H; done.
  - unfold on_buy_paid_balances_checked, abort_sale in H. nrun H; done.
  - unfold on_balances_checked in H. nrun H; (by left) || (right; auto).
Qed.

(** *** Reclaim marks *)
Definition clears (c : Call) : option string :=
  match c with
  | Call_admin_clear_reclaim_pending t n | Call_on_balances_checked t n _ _
  | Call_on_reclaim_finalized t n _ => Some (sub_account_key t n)
  | _ => None
  end.

Lemma mark_stays key c :
  clears c <> Some key -> keeps (fun s => is_Some (reclaim_pending s !! key)) (exec c).
Proof.
  intros Ht. destruct c; cbn [exec clears] in *; unfold_all; keeps_tac;
    first [ apply add_pending_refund_keeps; intros; done
          | cbn; intros Hi; repeat case_match; try done;
            rewrite ?lookup_insert, ?lookup_delete; repeat case_decide; simplify_eq; done ].
Qed.

Lemma reclaim_starts t n env s p s' l :
  reclaim_finalize t n env s = Done (p, s', l) ->
  let key := sub_account_key t n in
  reclaim_pending s !! key = None /\ reclaim_pending s' = <[key := true]> (reclaim_pending s) /\
  names s !! key = Some t.
Proof.
  unfold reclaim_finalize. intros H. nrun H; guards.
  all: match goal with R : resolve_reclaimable _ _ _ _ = Done _ |- _ =>
    apply resolve_reclaimable_ok in R as (_ & sub & tla & Es & <- & _) end.
  all: rewrite names_lookup, Es; done.
Qed.

(** *** Counting names *)
Lemma names_of_insert t' key t m :
  m !! key = None -> names_of t' (<[key := t]> m) = names_of t' m + (if bool_decide (t' = t) then 1 else 0).
Proof.
  intros Hk. unfold names_of. case_bool_decide as D.
  - subst. rewrite map_filter_insert_True by done.
    rewrite map_size_insert_None by (apply map_lookup_filter_None; by left). lia.
  - rewrite map_filter_insert_False by (cbn; congruence). rewrite delete_id by done. lia.
Qed.

Lemma names_of_delete t' key t m :
  m !! key = Some t -> names_of t' (delete key m) = names_of t' m - (if bool_decide (t' = t) then 1 else 0).
Proof.
  intros Hk. rewrite <- (insert_id m key t Hk) at 2. rewrite <- (insert_delete_eq m).
  rewrite names_of_insert by apply lookup_delete_eq. lia.
Qed.

Lemma claims_bound (cs : list (bool * string * AccountId)) (m : gmap string AccountId) :
  NoDup ((fun x => x.1.2) <$> cs) -> (forall b key t, (b, key, t) ∈ cs -> m !! key = Some t) ->
  (length cs <= size m)%nat.
Proof.
  intros Hn Hm. rewrite <- (length_fmap (fun x => x.1.2) cs).
  rewrite <- (size_dom (D := gset string) m).
  rewrite <- (size_list_to_set (C := gset string) _ Hn).
  apply subseteq_size. intros key [[[b k] t] [-> Hx]]%elem_of_list_to_set%list_elem_of_fmap.
  apply elem_of_dom. eexists. by eapply Hm.
Qed.

(** ** The invariant *)

(** The capacities fit the width of their counter. *)
Definition caps_ok (s : TlaRegistry) : Prop :=
  business_max_subs (fee_config s) <= U32_MAX /\
  map_Forall (fun _ cap => cap <= U32_MAX) (business_sub_cap_override s).
Definition cap_ok (c : Call) : Prop :=
  match c with
  | Call_update_fee_config cfg => business_max_subs cfg <= U32_MAX
  | Call_set_business_sub_cap _ (Some cap) => cap <= U32_MAX
  | _ => True
  end.

Lemma exec_caps c : cap_ok c -> keeps caps_ok (exec c).
Proof.
  intros Hc. destruct c; cbn [exec cap_ok] in *; unfold_all; keeps_tac;
    first [ apply add_pending_refund_keeps; intros; done
          | intros [H1 H2]; split; cbn; repeat case_match; try done;
            first [by apply map_Forall_insert_2|by apply map_Forall_delete] ].
Qed.

Lemma cap_bound s t : caps_ok s -> effective_business_cap s t <= U32_MAX.
Proof.
  intros [H1 H2]. unfold effective_business_cap. destruct (_ !! t) as [cap|] eqn:E; [|done].
  by apply (H2 t).
Qed.

(** The counters, with [n] rentals under way. *)
Definition counted (s : TlaRegistry) (n : Z) : Prop :=
  (forall key t, names s !! key = Some t -> is_Some (tlas s !! t)) /\
  (forall t, business_count s t = if is_business s t then names_of t (names s) else 0) /\
  sub_account_count s + n = Z.of_nat (size (sub_accounts s)).

Definition rentals_after (e : Entry) (s : TlaRegistry) (n n' : Z) : Prop :=
  match e with
  | Kept => n' = n
  | Rented _ _ => n' = n + 1
  | Settled => n' = n - 1 /\ 0 < n
  | Undone key t => n' = n - 1 /\ names s !! key = Some t
  | Reclaimed key t => n' = n /\ names s !! key = Some t /\ n < Z.of_nat (size (sub_accounts s))
  end.

Lemma size_names s : size (names s) = size (sub_accounts s).
Proof. apply map_size_fmap. Qed.

(** A call changes no type, so a business TLA stays one, and a TLA that becomes
    known has no names yet. *)
Lemma business_stays c env s s' l n t :
  exec c env s = Done (tt, s', l) -> counted s n ->
  is_business s' t = is_business s t \/
  (is_business s t = false /\ names_of t (names s) = 0 /\ tlas s !! t = None).
Proof.
  intros H (Hr & _). destruct (tlas s !! t) as [e|] eqn:E.
  - left. destruct (exec_types _ _ _ _ _ _ _ H E) as (e' & E' & Ht).
    unfold is_business. by rewrite E, E', Ht.
  - right. split_and!; [unfold is_business; by rewrite E| |done].
    assert (Hf : filter (fun p => p.2 = t) (names s) = ∅).
    { apply map_empty_filter_2. intros key t' Hk Ht. cbn in Ht. subst.
      destruct (Hr _ _ Hk). congruence. }
    unfold names_of. by rewrite Hf.
Qed.

Lemma size_delete_name (m : gmap string AccountId) key t :
  m !! key = Some t -> Z.of_nat (size (delete key m)) = Z.of_nat (size m) - 1.
Proof.
  intros Hk. rewrite <- (insert_id m key t Hk) at 2. rewrite <- (insert_delete_eq m).
  rewrite map_size_insert_None by apply lookup_delete_eq. lia.
Qed.

Lemma names_of_pos key t m : m !! key = Some t -> 0 < names_of t m.
Proof.
  intros Hk. pose proof (names_of_delete t key t m Hk) as H. rewrite bool_decide_true in H by done.
  unfold names_of in *. lia.
Qed.

Lemma counted_removed s s' key t :
  names s !! key = Some t -> same_but t less_one s s' ->
  (forall t, business_count s t = if is_business s t then names_of t (names s) else 0) ->
  (forall t, is_business s' t = is_business s t \/
     (is_business s t = false /\ names_of t (names s) = 0 /\ tlas s !! t = None)) ->
  forall t', business_count s' t' = if is_business s' t' then names_of t' (delete key (names s)) else 0.
Proof.
  intros Hk Eb Hc Hbs t'. rewrite (Eb t'), Hc, (names_of_delete t' key t) by done.
  pose proof (names_of_pos _ _ _ Hk) as Hpos. unfold less_one, saturating_sub.
  case_bool_decide as D; [subst t'|]; destruct (Hbs t') as [->|(E & Hz & E')] || destruct (Hbs t) as [->|(E & Hz & E')];
    cbn [andb]; rewrite ?E, ?Hz; try lia.
  - destruct (is_business s t); [|done].
    destruct (Z.eqb_spec (names_of t (names s)) 0); lia.
  - case_match; lia.
  - case_match; lia.
Qed.

Lemma counted_step c env s s' l n n' :
  exec c env s = Done (tt, s', l) -> counted s n -> caps_ok s ->
  Z.of_nat (size (sub_accounts s)) <= U64_MAX -> 0 <= n ->
  rentals_after (entry_of c env s) s n n' -> counted s' n'.
Proof.
  intros H Hs Hcap Hsize Hn Ha. pose proof (exec_books _ _ _ _ _ H) as Hb.
  assert (Hbs := fun t => business_stays _ _ _ _ _ _ t H Hs).
  assert (Hreg : forall key t, names s !! key = Some t -> is_Some (tlas s' !! t)).
  { intros key t Hk. destruct (proj1 Hs _ _ Hk) as [e He].
    destruct (exec_types _ _ _ _ _ _ _ H He) as (e' & ? & _). by eexists. }
  destruct Hs as (Hr & Hc & Hsz). rewrite <- size_names in *.
  assert (Hpos : 0 <= sub_account_count s + n) by lia.
  destruct (entry_of c env s) as [|key t| |key t|key t]; cbn [rentals_after] in Ha;
    unfold booked in Hb; unfold counted; rewrite <- size_names.
  - destruct Hb as (En & Ec & Eb). rewrite En, Ec, Ha. split_and!; [done| |done].
    intros t. rewrite Eb, Hc. destruct (Hbs t) as [->|(-> & -> & _)]; [done|by case_match].
  - destruct Hb as (Hk & Ht & En & Ec & Hlt & Eb). rewrite En, Ec. split_and!.
    + intros k t'. destruct (decide (k = key)) as [->|]; [rewrite lookup_insert_eq|
        rewrite lookup_insert_ne by done; apply Hreg].
      intros [= <-]. destruct Ht as [e He].
      destruct (exec_types _ _ _ _ _ _ _ H He) as (e' & ? & _). by eexists.
    + intros t'. rewrite (Eb t'), Hc, names_of_insert by done.
      destruct (Hbs t') as [->|(E & Hz & E')].
      * case_bool_decide as D; cbn [andb]; [subst t'|case_match; lia].
        destruct (is_business s t) eqn:Eb'; [|done]. rewrite saturating_add_exact; [lia|].
        specialize (Hlt eq_refl). rewrite Hc, Eb' in Hlt. pose proof (cap_bound s t Hcap). lia.
      * rewrite bool_decide_false by (intros ->; rewrite E' in Ht; by destruct Ht).
        cbn [andb]. rewrite E, Hz. by case_match.
    + rewrite map_size_insert_None by done. lia.
  - destruct Hb as (En & Ec & Eb). rewrite En, Ec. split_and!; [done| |].
    + intros t. rewrite Eb, Hc. destruct (Hbs t) as [->|(-> & -> & _)]; [done|by case_match].
    + rewrite saturating_add_exact by lia. lia.
  - destruct Hb as (En & Ec & Eb). destruct Ha as [-> Hk]. rewrite En, Ec. split_and!.
    + intros k t' [_ ?]%lookup_delete_Some. by eapply Hreg.
    + eapply counted_removed; [done..|exact Hbs].
    + rewrite (size_delete_name _ _ t) by done. lia.
  - destruct Hb as (En & Ec & Eb). destruct Ha as (-> & Hk & Hlt). rewrite <- size_names in Hlt. rewrite En, Ec. split_and!.
    + intros k t' [_ ?]%lookup_delete_Some. by eapply Hreg.
    + eapply counted_removed; [done..|exact Hbs].
    + rewrite (size_delete_name _ _ t) by done. unfold saturating_sub. lia.
Qed.

(** Names under settlement are claimed once, are recorded under the TLA that
    claims them, and their reclaim is marked. *)
Definition keys_of (fs : list Flight) : list string := (fun x => x.1.2) <$> claims fs.
Definition claims_ok (s : TlaRegistry) (fs : list Flight) : Prop :=
  NoDup (keys_of fs) /\
  forall b key t, (b, key, t) ∈ claims fs ->
    names s !! key = Some t /\ (b = false -> is_Some (reclaim_pending s !! key)).

Definition counts_ok (w : World) : Prop :=
  counted (reg w) (rentals (flights w)) /\ claims_ok (reg w) (flights w) /\ caps_ok (reg w).

(** A name is not reclaimed while its rental is under way, and the mark of a
    reclaim is not cleared before its callback; there are fewer than [2^64]
    names and capacities are [u32]. *)
Definition undisturbed (w : World) (h : Happening) : Prop :=
  Z.of_nat (size (sub_accounts (reg w))) <= U64_MAX /\
  match h with
  | Hp_call _ (Call_reclaim_finalize t n) => ~ claimed true (sub_account_key t n) (flights w)
  | Hp_call _ (Call_admin_clear_reclaim_pending t n) =>
      ~ claimed false (sub_account_key t n) (flights w)
  | Hp_call _ c => cap_ok c
  | _ => True
  end.

Lemma claims_app fs1 fs2 : claims (fs1 ++ fs2) = claims fs1 ++ claims fs2.
Proof. apply omap_app. Qed.

Lemma rentals_app fs1 fs2 : rentals (fs1 ++ fs2) = rentals fs1 + rentals fs2.
Proof. unfold rentals. rewrite claims_app, list.filter_app, length_app. lia. Qed.

Lemma claims_delete fs i f :
  fs !! i = Some f -> claims fs ≡ₚ match claim f with Some x => [x] | None => [] end ++ claims (delete i fs).
Proof.
  intros Hf. unfold claims. rewrite (delete_Permutation fs i f Hf) at 1. cbn. by destruct (claim f).
Qed.

Lemma rentals_bound s fs : claims_ok s fs -> (rentals fs <= Z.of_nat (size (sub_accounts s))).
Proof.
  intros [Hn Hc]. rewrite <- size_names. unfold rentals.
  pose proof (claims_bound (claims fs) (names s) Hn (fun b k t H => proj1 (Hc b k t H))).
  pose proof (list.length_filter (fun x : bool * string * AccountId => x.1.1 = true) (claims fs)). lia.
Qed.

(** What a step must keep for the flights that stay. *)
Definition settled_elsewhere (s s' : TlaRegistry) (fs : list Flight) : Prop :=
  forall b key t, (b, key, t) ∈ claims fs ->
    names s' !! key = names s !! key /\
    (b = false -> is_Some (reclaim_pending s !! key) -> is_Some (reclaim_pending s' !! key)).

Lemma claims_ok_step s s' fs new :
  claims_ok s fs -> settled_elsewhere s s' fs ->
  NoDup ((fun x => x.1.2) <$> new) ->
  (forall b key t, (b, key, t) ∈ new -> key ∉ keys_of fs /\ names s' !! key = Some t /\
     (b = false -> is_Some (reclaim_pending s' !! key))) ->
  forall fs', claims fs' = new ++ claims fs -> claims_ok s' fs'.
Proof.
  intros [Hn Hc] Hs Hnew Hok fs' E. unfold claims_ok, keys_of. rewrite E, fmap_app. split.
  - apply list.NoDup_app. split_and!; [done| |done].
    intros key [[[b k] t] [-> Hx]]%list_elem_of_fmap. cbn. by apply (Hok b k t).
  - intros b key t [Hx|Hx]%elem_of_app; [by apply Hok|].
    destruct (Hc _ _ _ Hx) as [H1 H2], (Hs _ _ _ Hx) as [H3 H4]. rewrite H3. naive_solver.
Qed.

Lemma claims_ok_perm s fs fs' : claims fs ≡ₚ claims fs' -> claims_ok s fs -> claims_ok s fs'.
Proof.
  intros Hp [Hn Hc]. unfold claims_ok, keys_of in *. split; [by rewrite <- Hp|].
  intros b key t. rewrite <- Hp. apply Hc.
Qed.

Lemma rentals_perm fs fs' : claims fs ≡ₚ claims fs' -> rentals fs = rentals fs'.
Proof. unfold rentals. by intros ->. Qed.

Definition entry_key (e : Entry) : option string :=
  match e with
  | Kept | Settled => None
  | Rented key _ | Undone key _ | Reclaimed key _ => Some key
  end.

Lemma booked_elsewhere e s s' key :
  booked e s s' -> entry_key e <> Some key -> names s' !! key = names s !! key.
Proof.
  unfold booked. destruct e; cbn; intros Hb Hk; destruct_and?;
    match goal with E : names s' = _ |- _ => rewrite E end;
    rewrite ?lookup_insert_ne, ?lookup_delete_ne by congruence; done.
Qed.

(** A callback that clears a mark, or books a name, settles a claim on it. *)
Lemma reply_clears f r c key :
  resume (fl_callback f) r = Some c -> clears c = Some key -> exists b t, claim f = Some (b, key, t).
Proof.
  intros Hc Hk. destruct f as [[] dep], r as [results|outcome|swapped|signer]; try done;
    cbn [resume fl_callback] in Hc; try (destruct results as [|x [|]]; try done; []);
    injection Hc as <-; try done; injection Hk as <-; do 2 eexists; reflexivity.
Qed.

(** Every reply is settled: a callback never fails. *)
Lemma reply_settles w i env f r c :
  counts_ok w -> flights w !! i = Some f -> resume (fl_callback f) r = Some c ->
  exists p s' l, call_promise c (reply_env w env r) (reg w) = Done (p, s', l).
Proof.
  intros (_ & [_ Hc] & _) Hf Hr. apply (callback_runs w env f r c _ Hr). unfold has_needed.
  destruct (needs c) as [key|] eqn:En; [|done]. cbn.
  assert (Hcl : exists b t, claim f = Some (b, key, t)).
  { destruct f as [[] dep], r as [results|outcome|swapped|signer]; try done;
      cbn [resume fl_callback] in Hr; try (destruct results as [|x [|]]; try done; []);
      injection Hr as <-; try done; cbn in En; repeat case_match; try done; injection En as <-;
      do 2 eexists; reflexivity. }
  destruct Hcl as (b & t & Ecl).
  assert (Hin : (b, key, t) ∈ claims (flights w)).
  { rewrite (claims_delete _ _ _ Hf), Ecl. cbn. by left. }
  destruct (Hc _ _ _ Hin) as [Hn _]. rewrite names_lookup in Hn.
  by apply fmap_Some in Hn as (sub & -> & _).
Qed.

Lemma keys_elem key fs : key ∈ keys_of fs <-> exists b, claimed b key fs.
Proof.
  unfold keys_of, claimed. rewrite list_elem_of_fmap. split.
  - intros [[[b k] t] [-> H]]. eauto.
  - intros (b & t & H). by exists (b, key, t).
Qed.

(** A user's call rents a name, starts a reclaim, or leaves the names alone. *)
Lemma user_kinds c env s :
  is_callback c = false ->
  (exists key t, call_claims c = [(true, key, t)] /\ entry_of c env s = Rented key t /\ clears c = None) \/
  (exists t n, c = Call_reclaim_finalize t n) \/
  (call_claims c = [] /\ entry_of c env s = Kept).
Proof. intros Hc. destruct c; try done; try (by right; right); eauto 10. Qed.

Lemma rentals_cons fs fs' b key t :
  claims fs' ≡ₚ (b, key, t) :: claims fs -> rentals fs' = rentals fs + (if b then 1 else 0).
Proof. unfold rentals. intros ->. rewrite list.filter_cons. by destruct b; cbn; case_decide; cbn; lia. Qed.

Lemma rentals_same fs fs' : claims fs' = claims fs -> rentals fs' = rentals fs.
Proof. unfold rentals. by intros ->. Qed.

Lemma rentals_nonneg fs : 0 <= rentals fs.
Proof. unfold rentals. lia. Qed.

Lemma single_claim (P : bool -> string -> AccountId -> Prop) b key t :
  P b key t -> forall b' key' t', (b', key', t') ∈ [(b, key, t)] -> P b' key' t'.
Proof. intros H b' key' t' [= -> -> ->]%list_elem_of_singleton. done. Qed.

(** A call settles its own name only. *)
Lemma settles_elsewhere c env s s' l fs :
  exec c env s = Done (tt, s', l) ->
  (forall key, clears c = Some key -> ~ claimed false key fs) ->
  (forall key, entry_key (entry_of c env s) = Some key -> key ∉ keys_of fs) ->
  settled_elsewhere s s' fs.
Proof.
  intros H Hcl Hk b key t Hin. split.
  - apply (booked_elsewhere (entry_of c env s)); [by eapply exec_books|].
    intros E. apply (Hk _ E). apply keys_elem. eexists. by eexists.
  - intros -> Hm. refine (mark_stays key c _ env s tt s' l H Hm). intros E.
    apply (Hcl _ E). by eexists.
Qed.

Lemma user_step w env c p s' l :
  undisturbed w (Hp_call env c) -> counts_ok w -> is_callback c = false ->
  call_promise c (call_env w env) (reg w) = Done (p, s', l) ->
  forall b, counts_ok (mkWorld s' b (flight_of p ++ flights w)).
Proof.
  intros [Hsize Hu] (Hcnt & Hcl & Hcap) Hc H b. pose proof (user_claims _ _ _ _ _ _ Hc H) as Hp.
  assert (Hcap' : cap_ok c) by (by destruct c).
  pose proof H as E. apply call_promise_exec in E. pose proof (exec_books _ _ _ _ _ E) as Hb.
  assert (Hfs : claims (flight_of p ++ flights w) = call_claims c ++ claims (flights w))
    by (by rewrite claims_app, Hp).
  pose proof (rentals_nonneg (flights w)) as Hnn.
  destruct (user_kinds c (call_env w env) (reg w) Hc) as [(key & t & Ec & Ee & Ecl)|[(t & n & ->)|[Ec Ee]]].
  - rewrite Ec in Hfs. rewrite Ee in Hb. destruct Hb as (Hk & Ht & En & _).
    assert (Hfresh : key ∉ keys_of (flights w)).
    { intros [b' [t' Hin]]%keys_elem. destruct (proj2 Hcl _ _ _ Hin). congruence. }
    split; [|split; [|by eapply exec_caps]]; cbn [reg flights].
    + eapply counted_step; [exact E|done..|]. rewrite Ee. apply (rentals_cons _ _ true key t). by rewrite Hfs.
    + refine (claims_ok_step _ _ _ _ Hcl _ _ _ _ Hfs); [|apply NoDup_singleton|].
      * eapply settles_elsewhere; [exact E|by rewrite Ecl|]. rewrite Ee. cbn. by intros k [= <-].
      * apply single_claim. split_and!; [done|by rewrite En, lookup_insert_eq|done].
  - cbn [call_promise] in H. apply returning_inv in H as (q & H & _).
    apply reclaim_starts in H as (Hm & Hm' & Hn).
    split; [|split; [|by eapply exec_caps]]; cbn [reg flights].
    + eapply counted_step; [exact E|done..|]. cbn. rewrite (rentals_cons (flights w) _ false (sub_account_key t n) t) by (by rewrite Hfs). lia.
    + refine (claims_ok_step _ _ _ _ Hcl _ _ _ _ Hfs); [|apply NoDup_singleton|].
      * eapply settles_elsewhere; [exact E|done|done].
      * apply single_claim. split_and!.
        -- intros [[] Hin]%keys_elem; [by apply Hu|]. destruct Hin as [t' Hin].
           destruct (proj2 Hcl _ _ _ Hin) as [_ Hx]. destruct (Hx eq_refl). congruence.
        -- by rewrite (proj1 Hb).
        -- intros _. rewrite Hm', lookup_insert_eq. by eexists.
  - rewrite Ec in Hfs. rewrite Ee in Hb.
    split; [|split; [|by eapply exec_caps]]; cbn [reg flights].
    + eapply counted_step; [exact E|done..|]. rewrite Ee. by apply rentals_same.
    + refine (claims_ok_step _ _ _ _ Hcl _ _ _ _ Hfs); [|apply NoDup_nil_2|].
      * eapply settles_elsewhere; [exact E| |by rewrite Ee].
        intros k Hk. destruct c; try done. by injection Hk as <-.
      * intros b' key t Hin. by apply not_elem_of_nil in Hin.
Qed.

Lemma claims_ok_cons s fs rest b key t :
  claims_ok s fs -> claims fs ≡ₚ (b, key, t) :: claims rest ->
  claims_ok s rest /\ key ∉ keys_of rest /\ names s !! key = Some t /\
  (b = false -> rentals fs < Z.of_nat (size (sub_accounts s))).
Proof.
  intros [Hn Hc] Hp. unfold claims_ok, keys_of in *. rewrite Hp in Hn. cbn in Hn.
  apply list.NoDup_cons in Hn as [Hk Hn].
  assert (Hc' : forall b' k t', (b', k, t') ∈ (b, key, t) :: claims rest ->
    names s !! k = Some t' /\ (b' = false -> is_Some (reclaim_pending s !! k))).
  { intros b' k t'. rewrite <- Hp. apply Hc. }
  split_and!; [done| |done| |].
  - intros b' k t' Hin. apply Hc'. by right.
  - by apply (Hc' b key t); left.
  - intros ->. rewrite (rentals_cons _ _ _ _ _ Hp), <- size_names. unfold rentals.
    pose proof (claims_bound ((false, key, t) :: claims rest) (names s)) as Hb.
    pose proof (list.length_filter (fun x : bool * string * AccountId => x.1.1 = true) (claims rest)).
    cbn in Hb. specialize (Hb ltac:(by apply list.NoDup_cons) (fun b' k t' H => proj1 (Hc' b' k t' H))). lia.
Qed.

(** The reply to a flight settles its claim, or passes it on. *)
Lemma reply_step w i env f r c p s' l :
  Z.of_nat (size (sub_accounts (reg w))) <= U64_MAX -> counts_ok w ->
  flights w !! i = Some f -> resume (fl_callback f) r = Some c ->
  call_promise c (reply_env w env r) (reg w) = Done (p, s', l) ->
  forall b, counts_ok (mkWorld s' b (flight_of p ++ delete i (flights w))).
Proof.
  intros Hsize (Hcnt & Hcl & Hcap) Hf Hc H b.
  pose proof (reply_claims w env f r c _ _ _ _ Hc H) as Hk. cbv zeta in Hk.
  pose proof (claims_delete _ _ _ Hf) as Hperm. pose proof (rentals_nonneg (flights w)) as Hnn.
  assert (Hcap' : caps_ok s').
  { eapply exec_caps; [|by eapply call_promise_exec|done].
    pose proof (resume_callback _ _ _ Hc). by destruct c. }
  set (rest := delete i (flights w)) in *. pose proof H as E. apply call_promise_exec in E.
  assert (Hclears := fun key => reply_clears f r c key Hc).
  destruct (claim f) as [[[rental key] t]|] eqn:Ef; cbn [app] in Hperm.
  - destruct (claims_ok_cons _ _ _ _ _ _ Hcl Hperm) as (Hrest & Hfresh & Hn & Hroom).
    assert (Hother : forall k, clears c = Some k -> ~ claimed false k rest).
    { intros k (b' & t' & ?)%Hclears [t0 Hin]. simplify_eq. apply Hfresh, keys_elem. do 2 eexists. exact Hin. }
    pose proof (rentals_cons _ _ _ _ _ Hperm) as Hrent. pose proof (rentals_nonneg rest).
    split; [|split; [|done]]; cbn [reg flights].
    + eapply counted_step; [exact E|done..|].
      destruct Hk as [(Ep & -> & _)|(Ep & Ee)].
      { apply rentals_perm. by rewrite claims_app, Ep, Hperm. }
      rewrite (rentals_same rest (flight_of p ++ rest)) by (by rewrite claims_app, Ep).
      destruct rental; destruct Ee as [-> | ->]; cbn; split_and?; try done; try lia; auto.
    + destruct Hk as [(Ep & Ee & Em)|(Ep & Ee)].
      * apply (claims_ok_perm _ (flights w)); [by rewrite claims_app, Ep, Hperm|].
        pose proof (exec_books _ _ _ _ _ E) as Hb. rewrite Ee in Hb. destruct Hb as (En & _).
        unfold claims_ok. by rewrite En, Em.
      * assert (Hfs : claims (flight_of p ++ rest) = [] ++ claims rest) by (by rewrite claims_app, Ep).
        refine (claims_ok_step _ _ _ _ Hrest _ _ _ _ Hfs); [|apply NoDup_nil_2|].
        -- eapply settles_elsewhere; [exact E|done|]. destruct rental; destruct Ee as [-> | ->]; cbn;
             by intros k ?; simplify_eq.
        -- intros b' k t' Hin. by apply not_elem_of_nil in Hin.
  - destruct Hk as [Ee Ep]. assert (Hfs : claims (flight_of p ++ rest) = [] ++ claims rest)
      by (by rewrite claims_app, Ep).
    split; [|split; [|done]]; cbn [reg flights].
    + eapply counted_step; [exact E|done..|]. rewrite Ee. cbn.
      rewrite (rentals_same rest) by done. symmetry. by apply rentals_perm.
    + refine (claims_ok_step _ _ _ _ (claims_ok_perm _ _ _ Hperm Hcl) _ _ _ _ Hfs); [|apply NoDup_nil_2|].
      * eapply settles_elsewhere; [exact E| |by rewrite Ee].
        intros k (b' & t' & ?)%Hclears. done.
      * intros b' key t Hin. by apply not_elem_of_nil in Hin.
Qed.

Lemma counts_step w h : undisturbed w h -> counts_ok w -> counts_ok (wstep w h).
Proof.
  intros Hu Hw. apply (wstep_cases w h counts_ok); [done|..].
  - intros env c p s' l -> Hp E. eapply user_step; [exact Hu|done| |exact E].
    destruct (is_callback c) eqn:Ec; [|done]. by apply callback_private in E.
  - intros i env r f c p s' l -> Hf Hc E. destruct Hu as [Hsize _]. by eapply reply_step.
  - intros i env r f c x -> Hf Hc E.
    destruct (reply_settles w i env f r c Hw Hf Hc) as (? & ? & ? & E'). congruence.
  - done.
Qed.

(** C9: After every interleaving of calls and replies in which no name is reclaimed
    while its rental is under way and the admin clears no mark of a reclaim still in
    flight (with fewer than 2^64 names and u32 capacities), the name counter plus
    the rentals in flight is the number of records, the counter of every business
    TLA is the number of its names, every record belongs to a registered TLA, and no
    two rentals or reclaims in flight are of the same name (a sale can be in flight
    next to a re-rental). *)
Theorem names_are_counted tr w :
  counts_ok w -> all_along undisturbed tr w ->
  let s := reg (wrun tr w) in
  sub_account_count s + rentals (flights (wrun tr w)) = Z.of_nat (size (sub_accounts s)) /\
  (forall t e, tlas s !! t = Some e -> te_tla_type e = TlaType_Business ->
     business_count s t = names_of t (names s)) /\
  (forall key sub, sub_accounts s !! key = Some sub -> is_Some (tlas s !! se_tla_id sub)) /\
  NoDup (keys_of (flights (wrun tr w))).
Proof.
  intros Hw Htr.
  destruct (wrun_invariant undisturbed counts_ok tr w counts_step Hw Htr) as ((Hr & Hb & Hc) & [Hn _] & _).
  split_and!; [done| | |done].
  - intros t e He Ht. rewrite Hb. unfold is_business. by rewrite He, bool_decide_true.
  - intros key sub Hs. apply (Hr key). by rewrite names_lookup, Hs.
Qed.

(** C20: In every interleaving of calls and replies in which no name is reclaimed
    while its rental is under way and the admin clears no mark of a reclaim still in
    flight, no callback of the registry ever fails, whatever the remote contract
    replies: each one in flight settles. *)
Theorem callbacks_never_fail tr w i env f r c :
  counts_ok w -> all_along undisturbed tr w ->
  flights (wrun tr w) !! i = Some f -> resume (fl_callback f) r = Some c ->
  exists p s' l, call_promise c (reply_env (wrun tr w) env r) (reg (wrun tr w)) = Done (p, s', l).
Proof.
  intros Hw Htr. eapply reply_settles. exact (wrun_invariant _ _ tr w counts_step Hw Htr).
Qed.

Lemma new_is_counted env admin ext signer parked grace s x :
  new env admin ext signer parked grace = Done s -> counts_ok (mkWorld s x []).
Proof.
  intros H. unfold new in H. repeat case_match; try done. injection H as <-. split; [|split].
  - split_and!; cbn; [|intros t; unfold business_count, is_business; cbn; by rewrite !lookup_empty|done].
    intros key t. unfold names. cbn. by rewrite lookup_fmap, lookup_empty.
  - split; [apply NoDup_nil_2|]. intros b key t Hin. by apply not_elem_of_nil in Hin.
  - split; [by apply Z.leb_le|apply map_Forall_empty].
Qed.
End Counts.

(** ** Witnesses *)

Lemma demo_is_counted : counts_ok (mkWorld demo_registry 0 []).
Proof.
  split; [|split].
  - split_and!.
    + intros key t. rewrite names_lookup. cbn [reg]. intros Hk.
      apply fmap_Some in Hk as (sub & Hk & ->). cbn in Hk.
      apply lookup_singleton_Some in Hk as [<- <-]. by eexists.
    + intros t. unfold business_count, is_business. cbn. rewrite lookup_empty. cbn.
      destruct (decide (t = "web.near")) as [->|Hne];
        [by rewrite lookup_singleton_eq|by rewrite lookup_singleton_ne].
    + cbn [flights reg]. vm_eq.
  - split; [apply NoDup_nil_2|]. intros b key t Hin. by apply not_elem_of_nil in Hin.
  - split; [by apply Z.leb_le|apply map_Forall_empty].
Qed.

(** dave rents a second name; bob's listing is bought meanwhile; the wallet of
    the new name is created. *)
Definition demo_rental : list Happening :=
  [Hp_call (registry_call "dave.near" (100 * ONE_NEAR) 2)
     (Call_rent_sub_account "web.near" "dave" (demo_key 9) "dave.near");
   Hp_call (registry_call "carol.near" (2 * 10 ^ 24) 3) (Call_buy_sub_account "web.near" "bob" (demo_key 8));
   Hp_reply 1 (registry_callback 4 []) (Reply_minted (Ok MintOutcome_Active))].

(** Decides that a history disturbs no settlement, for calls that start no
    reclaim and set no capacity. *)
Definition undisturbedb (w : World) (h : Happening) : bool :=
  (Z.of_nat (size (sub_accounts (reg w))) <=? U64_MAX) &&
  match h with
  | Hp_call _ (Call_reclaim_finalize _ _ | Call_admin_clear_reclaim_pending _ _
      | Call_update_fee_config _ | Call_set_business_sub_cap _ _) => false
  | _ => true
  end.

Lemma undisturbedb_sound w h : undisturbedb w h = true -> undisturbed w h.
Proof.
  intros [Hs%Z.leb_le Hh]%andb_true_iff. split; [done|]. by destruct h as [? []| |].
Qed.

Lemma demo_rental_undisturbed n :
  (n <= 3)%nat -> all_along undisturbed (take n demo_rental) (mkWorld demo_registry 0 []).
Proof.
  intros Hn. apply (all_alongb_sound undisturbedb); [apply undisturbedb_sound|].
  destruct n as [|[|[|[|]]]]; [vm_eq..|lia].
Qed.

Lemma names_are_counted_witness :
  let s := reg (wrun demo_rental (mkWorld demo_registry 0 [])) in
  sub_account_count s = 2 /\ Z.of_nat (size (sub_accounts s)) = 2.
Proof.
  destruct (names_are_counted demo_rental _ demo_is_counted (demo_rental_undisturbed 3 ltac:(lia))) as (H & _).
  assert (E : rentals (flights (wrun demo_rental (mkWorld demo_registry 0 []))) = 0) by vm_eq.
  assert (Ec : sub_account_count (reg (wrun demo_rental (mkWorld demo_registry 0 []))) = 2) by vm_eq.
  revert H E Ec. cbv zeta. generalize (wrun demo_rental (mkWorld demo_registry 0 [])).
  intros w H E Ec. lia.
Defined.

Definition demo_mint : Flight :=
  mkFlight (Cb_on_sub_account_created "web.near" "dave" "dave.near" (demo_key 9) (75 * 10 ^ 23)
              (100 * ONE_NEAR)) (10 ^ 22).

Lemma callbacks_never_fail_witness :
  let w := wrun (take 2 demo_rental) (mkWorld demo_registry 0 []) in
  exists p s' l, call_promise
    (Call_on_sub_account_created "web.near" "dave" "dave.near" (demo_key 9) (75 * 10 ^ 23)
       (100 * ONE_NEAR) (Ok MintOutcome_SignerPending))
    (reply_env w (registry_callback 4 []) (Reply_minted (Ok MintOutcome_SignerPending))) (reg w)
    = Done (p, s', l).
Proof.
  cbv zeta.
  assert (Hf : flights (wrun (take 2 demo_rental) (mkWorld demo_registry 0 [])) !! 1%nat = Some demo_mint)
    by vm_eq.
  apply (callbacks_never_fail (take 2 demo_rental) _ 1 _ demo_mint
           (Reply_minted (Ok MintOutcome_SignerPending)) _ demo_is_counted
           (demo_rental_undisturbed 2 ltac:(lia)) Hf eq_refl).
Defined.

(** The conditions are needed. With no retraction notice, the licensee of a
    business TLA can retract a name whose mint is still under way, and anybody
    reclaim it: hos-extension answers a swap it did not make. The mint's callback
    then fails, and what the renter attached is neither booked nor owed to him. *)
Definition hasty_config : FeeConfig :=
  mkFeeConfig (1000 * ONE_NEAR) (50 * ONE_NEAR) (20 * ONE_NEAR) (10 * ONE_NEAR) (5 * ONE_NEAR)
    (ONE_NEAR / 2) (ONE_NEAR / 100) 1000 0 0.

Definition hasty_registry : TlaRegistry :=
  demo_registry_with ∅ ∅ ∅ 0 0
    <| tlas := {["web.near" := mkTlaEntry TlaType_Business TlaStatus_Active (Some "dave.near")
                                 PremiumCategory_Standard 0 (10 ^ 18)]} |>
    <| ft_allowlist := ∅ |> <| fee_config := hasty_config |>.

Lemma reclaimed_during_its_mint :
  let w := wrun
    [Hp_call (registry_call "dave.near" (100 * ONE_NEAR) 2)
       (Call_rent_sub_account "web.near" "dave" (demo_key 9) "dave.near");
     Hp_call (registry_call "dave.near" 1 3) (Call_schedule_retraction "web.near" "dave");
     Hp_call (registry_call "eve.near" 0 4) (Call_reclaim_finalize "web.near" "dave");
     Hp_reply 0 (registry_callback 5 []) (Reply_results [PromiseResult_Successful []]);
     Hp_reply 0 (registry_callback 6 []) (Reply_minted (Ok MintOutcome_Active))]
    (mkWorld hasty_registry 0 []) in
  flights w = [] /\ sub_accounts (reg w) !! "dave.web.near"%string = None /\
  (total_revenue (reg w), total_pending_refunds (reg w), balance w) =
    (0, 0, 100 * ONE_NEAR - ONE_NEAR / 100 + 1).
Proof. cbv zeta. split_and!; vm_eq. Qed.
