(* ===== verification/RegistryTitles.v ===== *)
(** * tla-registry: what it orders done to a wallet, and for whom

    The registry keeps the titles and other contracts the wallets. This file
    reads off the promises of the registry what they order done to a wallet and
    off its continuations whose errand they are on, and says what each call does
    to the standing of a name: its owner, whether its signer is still to be
    installed, whether its wallet is parked. File [SystemWorld] runs the registry
    against the wallets with these. *)
From S2P Require Export RegistryCounts.

(** For each name, who last rented it and the key he named. *)
Notation Asks := (gmap string (AccountId * PublicKey)) (only parsing).

Section Titles.
Context `{HS : !Sdk}.

(** ** Orders *)

(** hos-extension is to give [wallet] the key [k]; the tla-manager of [tla] is to
    create [name] or to install the signer of a wallet it has created. *)
Inductive Order :=
| Ord_transfer (extension wallet : AccountId) (k : PublicKey) (expected : option PublicKey)
| Ord_mint (tla : AccountId) (name : string) (k : PublicKey) (funding : Z)
| Ord_install (tla wallet : AccountId) (k : PublicKey).

Definition order_in (receiver : AccountId) (m : Msg) (deposit : Z) : option Order :=
  match m with
  | Msg_force_transfer w k e => Some (Ord_transfer receiver w k e)
  | Msg_create_sub_account n k => Some (Ord_mint receiver n k deposit)
  | Msg_retry_install w k => Some (Ord_install receiver w k)
  | _ => None
  end.

Definition order_of (p : option RegPromise) : option Order :=
  match p with
  | Some (PThen (PBatch receiver [PA_function_call m deposit _]) _ _) => order_in receiver m deposit
  | _ => None
  end.

(** ** Errands *)

(** What a continuation is waiting for, with the account that is to own the name
    where there is one. A gate waits for balances and orders nothing yet. *)
Inductive Errand :=
| Er_sale_gate (buyer : AccountId) | Er_sale (buyer : AccountId)
| Er_mint (renter : AccountId)
| Er_re_rent_gate (renter : AccountId) | Er_re_rent (renter : AccountId)
| Er_reclaim_gate | Er_reclaim
| Er_retry.
#[global] Instance Errand_eq_dec : EqDecision Errand.
Proof. solve_decision. Defined.

Definition errand (cb : Callback) : option (string * Errand) :=
  match cb with
  | Cb_on_buy_balances_checked p _ =>
      Some (sub_account_key (pb_tla_id p) (pb_name p), Er_sale_gate (pb_buyer p))
  | Cb_on_buy_paid_balances_checked p _ operator =>
      Some (sub_account_key (pb_tla_id p) (pb_name p), Er_sale_gate operator)
  | Cb_on_sub_account_sold t n buyer _ _ => Some (sub_account_key t n, Er_sale buyer)
  | Cb_on_sub_account_sold_paid t n _ operator _ => Some (sub_account_key t n, Er_sale operator)
  | Cb_on_sub_account_created t n payer _ _ _ | Cb_on_sub_account_created_paid t n payer _ _ _ =>
      Some (sub_account_key t n, Er_mint payer)
  | Cb_on_re_rent_balances_checked p _ =>
      Some (sub_account_key (pr_tla_id p) (pr_name p), Er_re_rent_gate (pr_payer p))
  | Cb_on_sub_account_re_rented t n payer _ _ => Some (sub_account_key t n, Er_re_rent payer)
  | Cb_on_balances_checked t n _ _ => Some (sub_account_key t n, Er_reclaim_gate)
  | Cb_on_reclaim_finalized t n _ => Some (sub_account_key t n, Er_reclaim)
  | Cb_on_retry_signer_settled key => Some (key, Er_retry)
  | _ => None
  end.

(** The name a continuation settles: every errand but a retried installation. *)
Definition settles_name (cb : Callback) : option string :=
  match errand cb with
  | Some (_, Er_retry) | None => None
  | Some (key, _) => Some key
  end.

(** What the promise of a continuation orders. *)
Definition cargo_ok (s : TlaRegistry) (cb : Callback) (o : option Order) : Prop :=
  match cb with
  | Cb_on_buy_balances_checked p _ | Cb_on_buy_paid_balances_checked p _ _ =>
      pb_sub_account p = sub_account_key (pb_tla_id p) (pb_name p) /\ o = None
  | Cb_on_re_rent_balances_checked p _ =>
      pr_sub_account p = sub_account_key (pr_tla_id p) (pr_name p) /\ o = None
  | Cb_on_sub_account_sold t n _ _ _ | Cb_on_sub_account_sold_paid t n _ _ _ =>
      exists k e, o = Some (Ord_transfer (hos_extension s) (sub_account_key t n) k (Some e))
  | Cb_on_sub_account_re_rented t n _ _ _ =>
      exists k, o = Some (Ord_transfer (hos_extension s) (sub_account_key t n) k None)
  | Cb_on_sub_account_created t n _ _ _ _ | Cb_on_sub_account_created_paid t n _ _ _ _ =>
      exists k d, o = Some (Ord_mint t n k d) /\ is_Some (tlas s !! t)
  | Cb_on_reclaim_finalized t n _ => exists k, is_Some (tlas s !! t) /\
      (o = Some (Ord_transfer (hos_extension s) (sub_account_key t n) k None) \/
       o = Some (Ord_install t (sub_account_key t n) k))
  | Cb_on_retry_signer_settled key => exists t k, o = Some (Ord_install t key k)
  | _ => o = None
  end.

(** ** The standing of a name *)
Record Standing := mkStanding { st_owner : option AccountId; st_pending : bool; st_parked : bool }.
#[global] Instance Standing_eq_dec : EqDecision Standing.
Proof. solve_decision. Defined.

Definition standing (s : TlaRegistry) (key : string) : Standing :=
  mkStanding (se_owner <$> sub_accounts s !! key) (bool_decide (is_Some (signer_pending s !! key)))
    (bool_decide (is_Some (parked_names s !! key))).

(** The calls that may change the standing of a name. *)
Definition touches (c : Call) : option string :=
  match c with
  | Call_rent_sub_account t n _ _ | Call_rent_sub_account_paid t n _ _
  | Call_on_sub_account_sold t n _ _ _ _ | Call_on_sub_account_sold_paid t n _ _ _ _
  | Call_on_sub_account_created t n _ _ _ _ _ | Call_on_sub_account_created_paid t n _ _ _ _ _
  | Call_on_sub_account_re_rented t n _ _ _ | Call_on_reclaim_finalized t n _ =>
      Some (sub_account_key t n)
  | Call_on_re_rent_balances_checked p _ => Some (sub_account_key (pr_tla_id p) (pr_name p))
  | Call_on_retry_signer_settled key => Some key
  | _ => None
  end.

Lemma untouched_owner key c env s s' l :
  touches c <> Some key -> exec c env s = Done (tt, s', l) ->
  se_owner <$> sub_accounts s' !! key = se_owner <$> sub_accounts s !! key.
Proof.
  intros Hc H. destruct (decide (writes c = Some key)) as [Hw|Hw].
  2: { by rewrite (unwritten_keeps key c _ Hw env s tt s' l H eq_refl). }
  destruct (exec_name_step c env s s' l key H) as [| | | | | | | | |c e Hp Hu|]; try done.
  destruct c; try done; cbn [undoes touches] in *; repeat case_match; congruence.
Qed.

Lemma untouched_rest key c x y :
  touches c <> Some key ->
  keeps (fun s => signer_pending s !! key = x /\ parked_names s !! key = y) (exec c).
Proof.
  intros Hc. destruct c; cbn [exec touches] in *; unfold_all; keeps_tac;
    first [ apply add_pending_refund_keeps; intros; done
          | cbn; intros [? ?]; repeat case_match;
            rewrite ?lookup_insert_ne, ?lookup_delete_ne by congruence; done ].
Qed.

Lemma untouched key c env s s' l :
  touches c <> Some key -> exec c env s = Done (tt, s', l) -> standing s' key = standing s key.
Proof.
  intros Hc H. unfold standing. rewrite (untouched_owner key c env s s' l Hc H).
  by destruct (untouched_rest key c _ _ Hc env s tt s' l H (conj eq_refl eq_refl)) as [-> ->].
Qed.

(** ** What a call launches *)

(** A continuation on an errand about [key], with its order. *)
Definition launches (s : TlaRegistry) (p : option RegPromise) (key : string) (e : Errand) : Prop :=
  exists f, flight_of p = [f] /\ errand (fl_callback f) = Some (key, e) /\
    cargo_ok s (fl_callback f) (order_of p).

Lemma fanout_no_order al a chain cb g :
  ft_balance_fanout al a = Some chain -> order_of (Some (PThen chain cb g)) = None.
Proof.
  destruct al as [|t [|t' al]]; cbn; intros [= <-]; [done..|].
  assert (H : forall l q, (exists x y, q = PAnd x y) -> exists x y,
    foldl (fun chain ft => PAnd chain (ft_balance_query ft a)) q l = PAnd x y).
  { intros l. induction l as [|t'' l IH]; intros q (x & y & ->); [by do 2 eexists|]. cbn.
    apply IH. by do 2 eexists. }
  destruct (H al (PAnd (ft_balance_query t a) (ft_balance_query t' a))) as (x & y & E);
    [by do 2 eexists|]. by rewrite E.
Qed.

Lemma fanout_launches s al a chain cb g key e :
  ft_balance_fanout al a = Some chain -> errand cb = Some (key, e) -> cargo_ok s cb None ->
  launches s (Some (PThen chain cb g)) key e.
Proof.
  intros Hc He Ho. eexists. split; [reflexivity|]. split; [done|].
  by rewrite (fanout_no_order _ _ _ cb g Hc).
Qed.

Ltac parsed :=
  repeat match goal with
  | H : account_parse _ = Some _ |- _ => apply account_parse_id in H; subst
  end.

Ltac launch_tac :=
  first [ eapply fanout_launches; [eassumption|reflexivity|by cbn]
        | eexists; split; [reflexivity|]; split; [reflexivity|]; cbn; eauto 10 ].

Context `{HL : !SdkLaws}.

Ltac frame_rental :=
  repeat match goal with
  | E : ensure_mother_default _ _ _ = Done _ |- _ =>
      apply mother_default_frame in E as (? & ? & -> & _)
  | E : business_count_check_and_bump _ _ _ = Done _ |- _ =>
      apply business_bump_inv in E as (-> & _ & ->)
  end; cbn in *.

Lemma rent_titles t n k w env s p s' l :
  rent_sub_account t n k w env s = Done (p, s', l) ->
  let key := sub_account_key t n in let renter := predecessor_account_id env in
  st_owner (standing s key) = None /\
  standing s' key = mkStanding (Some renter) (st_pending (standing s key)) (st_parked (standing s key)) /\
  if st_parked (standing s key)
  then launches s (Some p) key (Er_re_rent_gate renter) \/ launches s (Some p) key (Er_re_rent renter)
  else launches s (Some p) key (Er_mint renter).
Proof.
  unfold rent_sub_account, standing. cbv zeta. intros H. nrun H; guards; frame_rental.
  all: rewrite ?lookup_insert_eq; parsed.
  all: repeat match goal with
    | E : is_Some ?x |- context [bool_decide (is_Some ?x)] => rewrite (bool_decide_true _ E)
    | E : ~ is_Some ?x |- context [bool_decide (is_Some ?x)] => rewrite (bool_decide_false _ E)
    | E : ?x = None |- context [?x] => rewrite E
    end; cbn.
  all: (split; [done|]); (split; [done|]).
  all: first [launch_tac|left; launch_tac|right; launch_tac].
Qed.

Lemma rent_paid_titles t n k w env s p s' l :
  rent_sub_account_paid t n k w env s = Done (p, s', l) ->
  let key := sub_account_key t n in let renter := predecessor_account_id env in
  st_owner (standing s key) = None /\ st_parked (standing s key) = false /\
  standing s' key = mkStanding (Some renter) (st_pending (standing s key)) false /\
  launches s (Some p) key (Er_mint renter).
Proof.
  unfold rent_sub_account_paid, standing. cbv zeta. intros H. nrun H; guards; guards; frame_rental.
  all: rewrite ?lookup_insert_eq; parsed.
  all: repeat match goal with E : ?x = None |- context [?x] => rewrite E end; cbn.
  all: split_and!; [done|done|done|]; launch_tac.
Qed.

(** Either rental of a name nobody owns, for its caller. *)
Lemma rental_launches c env s p s' l key :
  is_callback c = false -> touches c = Some key -> call_promise c env s = Done (p, s', l) ->
  let renter := predecessor_account_id env in
  exists e, launches s p key e /\ st_owner (standing s key) = None /\
    standing s' key = mkStanding (Some renter) (st_pending (standing s key)) (st_parked (standing s key)) /\
    match e with
    | Er_mint r => r = renter /\ st_parked (standing s key) = false
    | Er_re_rent_gate r | Er_re_rent r => r = renter /\ st_parked (standing s key) = true
    | _ => False
    end.
Proof.
  cbv zeta. intros Hc Ht H. destruct c; try done; injection Ht as <-; cbn [call_promise] in H;
    apply returning_inv in H as (q & H & ->).
  - apply rent_titles in H as (Ho & Hst & Hp).
    destruct (st_parked (standing s _)) eqn:Epk; [destruct Hp as [Hp|Hp]|];
      eexists; (split; [exact Hp|]); by rewrite ?Epk.
  - apply rent_paid_titles in H as (Ho & Hpk & Hst & Hp). eexists. split; [exact Hp|]. by rewrite Hpk.
Qed.

(** A purchase starts on a name that is rented, has its signer and is idle. *)
Lemma buy_titles c key env s p s' l :
  takes_sale c = Some key -> call_promise c env s = Done (p, s', l) ->
  st_pending (standing s key) = false /\ is_Some (st_owner (standing s key)) /\
  sale_idle s key = true /\ sale_locked s' key /\
  (launches s p key (Er_sale_gate (predecessor_account_id env)) \/
   launches s p key (Er_sale (predecessor_account_id env))).
Proof.
  intros Hc H. destruct c; try done; injection Hc as <-; cbn [call_promise] in H;
    apply returning_inv in H as (q & H & ->); unfold buy_sub_account, buy_sub_account_paid in H;
    nrun H; guards.
  all: match goal with E : assert_sellable _ _ _ _ = _ |- _ =>
         apply assert_sellable_inv in E as (-> & -> & account & _ & _ & Hp & sub & _ & Hs & _) end.
  all: match goal with
       | E : resolve_and_lock_sale _ _ _ _ _ = _ |- _ =>
           apply resolve_and_lock_sale_inv in E as (-> & _ & _ & Hl)
       | E : resolve_and_lock_paid_sale _ _ _ _ = _ |- _ =>
           apply resolve_and_lock_paid_sale_inv in E as (-> & _ & Hl)
       end.
  all: pose proof (locked_for_not_idle _ _ _ Hl); destruct (locked_for_frame _ _ _ Hl) as [_ Ef].
  all: unfold standing; cbn; rewrite Hp, Hs; split_and!; [done|by eexists|done|done|]; parsed.
  all: rewrite ?Ef; first [left; launch_tac|right; launch_tac].
Qed.

(** The reclaim of a name parks its wallet: by a swap where the signer is
    installed, by installing the parked key where it is not. *)
Definition parks (s : TlaRegistry) (p : option RegPromise) (key : string) : Prop :=
  launches s p key Er_reclaim /\
  forall x w k e, order_of p = Some (Ord_transfer x w k e) -> st_pending (standing s key) = false.

Ltac park_tac :=
  split; [launch_tac|]; unfold standing; cbn; intros; guards;
  first [done|apply bool_decide_false; assumption].

Lemma reclaimable_titles s now t key a d :
  reclaimable s now t key a d ->
  a = key /\ is_Some (st_owner (standing s key)) /\ exists tla, tlas s !! t = Some tla.
Proof.
  intros (Ha & sub & tla & Hs & _ & _ & _ & Ht & _). split_and!.
  - by apply account_parse_id.
  - unfold standing. cbn. rewrite Hs. by eexists.
  - by exists tla.
Qed.

Lemma reclaim_titles t n env s p s' l :
  reclaim_finalize t n env s = Done (p, s', l) ->
  let key := sub_account_key t n in
  is_Some (st_owner (standing s key)) /\ sale_idle s key = true /\
  reclaim_pending s !! key = None /\ reclaim_locked s' key /\
  (launches s (Some p) key Er_reclaim_gate \/ parks s (Some p) key).
Proof.
  unfold reclaim_finalize. cbv zeta. intros H. nrun H; guards.
  all: match goal with R : resolve_reclaimable _ _ _ _ = Done _ |- _ =>
         apply resolve_reclaimable_ok, reclaimable_titles in R as (-> & Ho & tla & Ht) end.
  all: split_and!; [done|done|done|unfold reclaim_locked; cbn; rewrite lookup_insert_eq; by eexists|].
  all: first [left; launch_tac|right; park_tac].
Qed.

Lemma retry_titles t n env s p s' l :
  retry_signer_install t n env s = Done (p, s', l) ->
  let key := sub_account_key t n in
  st_pending (standing s key) = true /\
  st_owner (standing s key) = Some (predecessor_account_id env) /\
  exists f k, flight_of (Some p) = [f] /\ fl_callback f = Cb_on_retry_signer_settled key /\
    order_of (Some p) = Some (Ord_install t key k).
Proof.
  unfold retry_signer_install, standing. cbv zeta. intros H. nrun H; guards; parsed.
  cbn. repeat match goal with E : _ !! _ = Some _ |- _ => rewrite E end; cbn.
  split_and!; [done|congruence|]. by do 2 eexists.
Qed.

(** ** What a callback settles *)

(** The awaited promise did what it was to do. *)
Definition worked (r : Reply) : bool :=
  match r with
  | Reply_swapped (Ok true) | Reply_minted (Ok MintOutcome_Active)
  | Reply_results [PromiseResult_Successful _] => true
  | _ => false
  end.

Definition st_disowned (st : Standing) : Standing := mkStanding None (st_pending st) (st_parked st).

(** The standing of the name when the continuation is answered. *)
Definition settled (e : Errand) (r : Reply) (st : Standing) : Standing :=
  match e with
  | Er_sale buyer => if worked r then mkStanding (Some buyer) (st_pending st) (st_parked st) else st
  | Er_mint _ =>
      match r with
      | Reply_minted (Ok MintOutcome_Active) => st
      | Reply_minted (Ok MintOutcome_SignerPending) => mkStanding (st_owner st) true (st_parked st)
      | _ => st_disowned st
      end
  | Er_re_rent _ =>
      if worked r then mkStanding (st_owner st) (st_pending st) false else st_disowned st
  | Er_reclaim => if worked r then mkStanding None false true else st
  | Er_retry => if worked r then mkStanding (st_owner st) false (st_parked st) else st
  | _ => st
  end.

Definition is_gate (e : Errand) : bool :=
  match e with Er_sale_gate _ | Er_re_rent_gate _ | Er_reclaim_gate => true | _ => false end.

Lemma refund_titles account amount env s a s' l :
  add_pending_refund account amount env s = Done (a, s', l) ->
  sub_accounts s' = sub_accounts s /\ signer_pending s' = signer_pending s /\
  parked_names s' = parked_names s.
Proof. unfold add_pending_refund. intros H. by nrun H. Qed.

Lemma failed_mint_standing key t payer attached reason env s a s' l :
  settle_failed_mint key t payer attached reason env s = Done (a, s', l) ->
  standing s' key = st_disowned (standing s key).
Proof.
  unfold settle_failed_mint. intros H. nrun H.
  match goal with
  | E : business_count_decrement_if_business _ ?e ?x = _, P : add_pending_refund _ _ _ _ = _ |- _ =>
      apply refund_titles in P as (P1 & P2 & P3);
      destruct (business_decrement_frame t e x) as [m Em]; rewrite Em in E; simplify_eq
  end.
  unfold standing. rewrite P1, P2, P3. cbn. by rewrite lookup_delete_eq.
Qed.

Ltac standing_tac :=
  repeat match goal with
  | P : add_pending_refund _ _ _ _ = Done _ |- _ => apply refund_titles in P as (? & ? & ?)
  | P : settle_failed_mint _ _ _ _ _ _ _ = Done _ |- standing _ ?key = _ =>
      apply (failed_mint_standing key) in P; rewrite P
  end; unfold standing, st_disowned in *; cbn in *;
  try match goal with
  | H : is_Some (_ <$> ?x), E : ?x = None |- _ => rewrite E in H; by destruct H
  end;
  repeat match goal with
  | E : sub_accounts _ = _ |- _ => rewrite E
  | E : signer_pending _ = _ |- _ => rewrite E
  | E : parked_names _ = _ |- _ => rewrite E
  end; cbn; rewrite ?lookup_insert_eq, ?lookup_delete_eq, ?bool_decide_true, ?bool_decide_false by done;
  first [done|congruence].

(** An errand that is no gate is settled by its reply and launches nothing. *)
Lemma settle_titles w env f r c key e s p s' l :
  resume (fl_callback f) r = Some c -> errand (fl_callback f) = Some (key, e) -> is_gate e = false ->
  call_promise c (reply_env w env r) s = Done (p, s', l) ->
  (e <> Er_retry -> is_Some (st_owner (standing s key))) ->
  flight_of p = [] /\ standing s' key = settled e r (standing s key).
Proof.
  intros Hc He Hg H Ho. destruct f as [[] dep], r as [results|outcome|swapped|signer]; try done;
    cbn [resume fl_callback] in Hc; try (destruct results as [|x [|]]; try done; []);
    injection Hc as <-; injection He as <- <-; try done;
    cbn [call_promise] in H; apply returning_inv in H as (? & H & ->); (split; [done|]); cbn [exec] in H;
    try specialize (Ho ltac:(discriminate)).
  - unfold on_sub_account_created, record_rental, count_sub_account in H.
    destruct outcome as [[]|]; nrun H; standing_tac.
  - unfold on_sub_account_created_paid, record_paid_rental, count_sub_account in H.
    destruct outcome as [[]|]; nrun H; standing_tac.
  - unfold on_sub_account_re_rented, count_sub_account in H. destruct x; nrun H; standing_tac.
  - unfold on_retry_signer_settled in H. destruct x; nrun H; standing_tac.
  - unfold on_sub_account_sold, clear_settling in H.
    destruct swapped as [[]|]; nrun H; standing_tac.
  - unfold on_sub_account_sold_paid, clear_settling in H.
    destruct swapped as [[]|]; nrun H; standing_tac.
  - destruct x; unfold on_reclaim_finalized, decrement_mother_use in H; nrun H; try standing_tac.
    all: match goal with E : business_count_decrement_if_business ?t ?e ?x = _ |- _ =>
      destruct (business_decrement_frame t e x) as [m Em]; rewrite Em in E; simplify_eq end.
    all: repeat case_match; standing_tac.
Qed.

(** A gate ends the errand, a re-rental's by giving the name up, or launches the
    next leg of it for the same account. *)
Lemma gate_titles w env f r c key e s p s' l :
  resume (fl_callback f) r = Some c -> errand (fl_callback f) = Some (key, e) -> is_gate e = true ->
  cargo_ok s (fl_callback f) None -> call_promise c (reply_env w env r) s = Done (p, s', l) ->
  (flight_of p = [] /\
   standing s' key = (if e is Er_re_rent_gate _ then st_disowned (standing s key) else standing s key)) \/
  (s' = s /\
   match e with
   | Er_sale_gate buyer => launches s p key (Er_sale buyer)
   | Er_re_rent_gate renter => launches s p key (Er_re_rent renter)
   | _ => parks s p key
   end).
Proof.
  intros Hc He Hg Ho H. destruct f as [[] dep], r as [results|outcome|swapped|signer]; try done;
    injection He as <- <-; try done; clear Hg; injection Hc as <-;
    cbn [call_promise] in H; apply returning_inv in H as (? & H & ->); cbn in Ho.
  - unfold on_re_rent_balances_checked in H. destruct Ho as [Ho _]. nrun H.
    + right. split; [done|]. unfold re_rent_transfer. rewrite Ho. launch_tac.
    + left. split; [done|]. standing_tac.
  - unfold on_buy_balances_checked, abort_sale, clear_settling in H. destruct Ho as [Ho _]. nrun H.
    + right. split; [done|]. unfold settle_transfer. rewrite Ho. launch_tac.
    + left. split; [done|]. standing_tac.
  - unfold on_buy_paid_balances_checked, clear_settling in H. destruct Ho as [Ho _]. nrun H.
    + right. split; [done|]. unfold settle_transfer_paid. rewrite Ho. launch_tac.
    + left. split; [done|]. standing_tac.
  - unfold on_balances_checked in H. nrun H; try (left; split; [done|]; standing_tac).
    all: match goal with R : resolve_reclaimable _ _ _ _ = Done _ |- _ =>
      apply resolve_reclaimable_ok, reclaimable_titles in R as (-> & Ho & tla & Ht) end.
    all: right; split; [done|]; park_tac.
Qed.

(** ** What stays *)
Definition retries (c : Call) : option string :=
  match c with Call_retry_signer_install t n => Some (sub_account_key t n) | _ => None end.

(** Every other call of a user sends nobody on an errand. *)
Lemma quiet_launch c env s p s' l :
  is_callback c = false -> touches c = None -> takes_sale c = None -> takes_reclaim c = None ->
  retries c = None -> call_promise c env s = Done (p, s', l) ->
  Forall (fun f => errand (fl_callback f) = None /\ cargo_ok s (fl_callback f) (order_of p)) (flight_of p).
Proof.
  intros H1 H2 H3 H4 H5 H. destruct c; try done; cbn [call_promise] in H;
    apply returning_inv in H as (? & H & ->); try (by constructor);
    unfold claim_refund, list_sub_account, accept_offer, reclaim_sweep_ft in H; nrun H;
    by repeat constructor.
Qed.

Lemma stray_launch f r c env s p s' l :
  resume (fl_callback f) r = Some c -> errand (fl_callback f) = None ->
  call_promise c env s = Done (p, s', l) -> flight_of p = [].
Proof.
  intros Hc He H. destruct f as [[] dep], r as [results|outcome|swapped|signer]; try done;
    cbn [resume fl_callback] in Hc; try (destruct results as [|x [|]]; try done; []);
    injection Hc as <-; cbn [call_promise] in H; by apply returning_inv in H as (? & _ & ->).
Qed.

Lemma resume_touches f r c key :
  resume (fl_callback f) r = Some c -> touches c = Some key ->
  exists e, errand (fl_callback f) = Some (key, e).
Proof.
  intros Hc Hk. destruct f as [[] dep], r as [results|outcome|swapped|signer]; try done;
    cbn [resume fl_callback] in Hc; try (destruct results as [|x [|]]; try done; []);
    injection Hc as <-; try done; injection Hk as <-; by eexists.
Qed.

Lemma resume_settles f r c key :
  resume (fl_callback f) r = Some c -> settles key c \/ clears c = Some key ->
  settles_name (fl_callback f) = Some key.
Proof.
  intros Hc Hk. destruct f as [[] dep], r as [results|outcome|swapped|signer]; try done;
    cbn [resume fl_callback] in Hc; try (destruct results as [|x [|]]; try done; []);
    injection Hc as <-; destruct Hk as [Hk|Hk]; try done; cbn in *; unfold settles_name; cbn; congruence.
Qed.

(** A lock holds through every call but those that settle its sale. *)
Lemma lock_stays key c env s s' l :
  exec c env s = Done (tt, s', l) -> ~ settles key c -> is_Some (st_owner (standing s key)) ->
  sale_locked s key -> sale_locked s' key.
Proof.
  intros H Hs Ho Hl.
  assert (Ht : is_Some (title s key)).
  { unfold title, standing in *. cbn in Ho. by destruct (sub_accounts s !! key); destruct Ho. }
  assert (Hg : ~ guarded key c).
  { intros Hg. pose proof (guarded_blocked key c env s Hg Hl) as Hb. by rewrite H in Hb. }
  pose proof (on_key_keeps key c env s s' l H Hg Hs Ht) as E.
  exact (proj1 (settlement_settling _ _ _ E (conj Hl Ht))).
Qed.

Lemma extension_stays c x : keeps (fun s => hos_extension s = x) (exec c).
Proof.
  destruct c; cbn [exec]; unfold_all; keeps_tac;
    first [apply add_pending_refund_keeps; intros; done | cbn; intros; repeat case_match; done].
Qed.

Lemma cargo_stays c env s s' l cb o :
  exec c env s = Done (tt, s', l) -> cargo_ok s cb o -> cargo_ok s' cb o.
Proof.
  intros H. pose proof (extension_stays c _ env s tt s' l H eq_refl) as Hx.
  assert (Ht : forall t, is_Some (tlas s !! t) -> is_Some (tlas s' !! t)).
  { intros t [e He]. destruct (exec_types _ _ _ _ _ _ _ H He) as (e' & ? & _). by eexists. }
  destruct cb; cbn; rewrite ?Hx; naive_solver.
Qed.

(** Only an admin's registration makes a TLA known. *)
Definition registers (c : Call) : option AccountId :=
  match c with Call_register_tla t _ _ _ => Some t | _ => None end.

Lemma known_tla c env s s' l t :
  exec c env s = Done (tt, s', l) -> is_Some (tlas s' !! t) ->
  is_Some (tlas s !! t) \/ registers c = Some t.
Proof.
  intros H. destruct (writes_tla c) eqn:Ec.
  2: { rewrite (tlas_keep c _ Ec env s tt s' l H eq_refl). by left. }
  assert (Hk : exists k x, tlas s' = <[k := x]> (tlas s) /\
    (is_Some (tlas s !! k) \/ registers c = Some k)).
  { destruct c; try done; cbn [exec] in H;
      unfold register_tla, suspend_tla, unsuspend_tla, activate_open_tla, activate_tla, renew_tla in H;
      nrun H; guards;
      repeat match goal with
      | P : add_pending_refund _ _ _ _ = _ |- _ =>
          apply add_pending_refund_tlas in P; cbn in P; rewrite ?P
      end; do 2 eexists; (split; [reflexivity|]); first [by right|left; by eexists]. }
  destruct Hk as (k & x & -> & Hk). destruct (decide (k = t)) as [->|Hne].
  - by intros _.
  - rewrite lookup_insert_ne by done. by left.
Qed.

(** ** Whose key an order carries *)

(** The key an order puts into a wallet, and the one a continuation keeps for
    later: a gate for the order behind it, a mint in case its signer stays pending. *)
Definition ordered_key (o : option Order) : option PublicKey :=
  match o with
  | Some (Ord_transfer _ _ k _) | Some (Ord_mint _ _ k _) | Some (Ord_install _ _ k) => Some k
  | None => None
  end.
Definition carried_key (cb : Callback) : option PublicKey :=
  match cb with
  | Cb_on_buy_balances_checked p _ | Cb_on_buy_paid_balances_checked p _ _ => Some (pb_new_owner_key p)
  | Cb_on_re_rent_balances_checked p _ => Some (pr_owner_key p)
  | Cb_on_sub_account_created _ _ _ k _ _ | Cb_on_sub_account_created_paid _ _ _ k _ _ => Some k
  | _ => None
  end.

(** No other key than [k] is ordered or kept. *)
Definition keyed (k : option PublicKey) (cb : Callback) (o : option Order) : Prop :=
  forall k', ordered_key o = Some k' \/ carried_key cb = Some k' -> k = Some k'.

(** The name and the key a caller names when he rents or buys. *)
Definition names_key (c : Call) : option (string * PublicKey) :=
  match c with
  | Call_rent_sub_account t n k _ | Call_rent_sub_account_paid t n k _
  | Call_buy_sub_account t n k | Call_buy_sub_account_paid t n _ k => Some (sub_account_key t n, k)
  | _ => None
  end.

Definition remember (env : Env) (c : Call) (N : Asks) : Asks :=
  match c with
  | Call_rent_sub_account t n k _ | Call_rent_sub_account_paid t n k _ =>
      <[sub_account_key t n := (predecessor_account_id env, k)]> N
  | _ => N
  end.

(** The key a call is to have put into a wallet: the one its caller names; the
    registry's own for a reclaim; for a retried installation the one the renter of
    the name has named. *)
Definition asks_for (s : TlaRegistry) (N : Asks) (c : Call) : option PublicKey :=
  match c with
  | Call_reclaim_finalize _ _ => Some (parked_signer_pubkey s)
  | Call_retry_signer_install t n => snd <$> N !! sub_account_key t n
  | _ => snd <$> names_key c
  end.

Lemma fanout_keyed k al a chain cb g :
  ft_balance_fanout al a = Some chain -> (forall k', carried_key cb = Some k' -> k = Some k') ->
  Forall (fun f => keyed k (fl_callback f) (order_of (Some (PThen chain cb g))))
    (flight_of (Some (PThen chain cb g))).
Proof.
  intros Hc Hk. rewrite (fanout_no_order _ _ _ cb g Hc). apply Forall_singleton.
  intros k' [?|?]; [done|by apply Hk].
Qed.

Ltac keyed_tac :=
  first [ eapply (fanout_keyed _ _ _ _ _ 0); [eassumption|cbn; congruence]
        | apply Forall_singleton; intros k' [Hk'|Hk']; cbn in Hk' |- *; congruence ].

(** What a user's call sends carries the key it asks for. *)
Lemma launch_keyed c env s N p s' l :
  is_callback c = false ->
  (forall key k, signer_pending s !! key = Some k -> snd <$> N !! key = Some k) ->
  call_promise c env s = Done (p, s', l) ->
  Forall (fun f => keyed (asks_for s N c) (fl_callback f) (order_of p)) (flight_of p).
Proof.
  intros Hc HN H. destruct (touches c) as [key|] eqn:E1.
  { destruct c; try done; cbn [call_promise] in H; apply returning_inv in H as (q & H & ->);
      unfold rent_sub_account, rent_sub_account_paid, re_rent_transfer in H; nrun H; keyed_tac. }
  destruct (takes_sale c) as [key|] eqn:E2.
  { destruct c; try done; cbn [call_promise] in H; apply returning_inv in H as (q & H & ->);
      unfold buy_sub_account, buy_sub_account_paid, settle_transfer, settle_transfer_paid in H;
      nrun H; keyed_tac. }
  destruct (takes_reclaim c) as [key|] eqn:E3.
  { destruct c; try done; cbn [call_promise] in H; apply returning_inv in H as (q & H & ->);
      unfold reclaim_finalize in H; nrun H; keyed_tac. }
  destruct (retries c) as [key|] eqn:E4.
  { destruct c; try done; cbn [call_promise] in H; apply returning_inv in H as (q & H & ->);
      unfold retry_signer_install in H; nrun H; cbn [asks_for].
    all: match goal with E : signer_pending _ !! _ = Some _ |- _ => rewrite (HN _ _ E) end; keyed_tac. }
  eapply list.Forall_impl; [by apply (quiet_launch c env s p s' l)|].
  intros f [He Ho] k' Hk. destruct (fl_callback f); try done; cbn in Ho; rewrite Ho in Hk; by destruct Hk.
Qed.

(** What follows a gate carries the key the gate kept, or the parked key. *)
Lemma gate_keyed w env f r c key e k s p s' l :
  resume (fl_callback f) r = Some c -> errand (fl_callback f) = Some (key, e) -> is_gate e = true ->
  keyed k (fl_callback f) None -> call_promise c (reply_env w env r) s = Done (p, s', l) ->
  Forall (fun f' => keyed (if e is Er_reclaim_gate then Some (parked_signer_pubkey s) else k)
                      (fl_callback f') (order_of p)) (flight_of p).
Proof.
  intros Hc He Hg Hk H. destruct f as [[] dep], r as [results|outcome|swapped|signer]; try done;
    injection He as <- <-; try done; clear Hg; injection Hc as <-;
    cbn [call_promise] in H; apply returning_inv in H as (? & H & ->);
    unfold on_re_rent_balances_checked, on_buy_balances_checked, on_buy_paid_balances_checked,
      on_balances_checked, abort_sale, re_rent_transfer, settle_transfer, settle_transfer_paid in H; nrun H;
    try (by constructor); try keyed_tac;
    apply Forall_singleton; intros k' [[= <-]|[=]]; apply Hk; by right.
Qed.

(** A pending key is only ever set by the callback of the mint that left it. *)
Definition leaves_pending (c : Call) : option (string * PublicKey) :=
  match c with
  | Call_on_sub_account_created t n _ k _ _ _ | Call_on_sub_account_created_paid t n _ k _ _ _ =>
      Some (sub_account_key t n, k)
  | _ => None
  end.

Lemma pending_from key k c :
  leaves_pending c <> Some (key, k) -> keeps (fun s => signer_pending s !! key <> Some k) (exec c).
Proof.
  intros Hc. destruct c; cbn [exec leaves_pending] in *; unfold_all; keeps_tac;
    first [ apply add_pending_refund_keeps; intros; done
          | cbn; intros; repeat case_match; done
          | cbn; intros ? [? ?]%lookup_delete_Some; done
          | cbn; intros ? [[<- <-]|[? ?]]%lookup_insert_Some; done ].
Qed.

Lemma pending_stays c env s s' l key k :
  exec c env s = Done (tt, s', l) -> signer_pending s' !! key = Some k ->
  signer_pending s !! key = Some k \/ leaves_pending c = Some (key, k).
Proof.
  intros H Hk. destruct (decide (leaves_pending c = Some (key, k))) as [?|Hc]; [by right|left].
  destruct (decide (signer_pending s !! key = Some k)) as [?|Hn]; [done|].
  by destruct (pending_from key k c Hc env s tt s' l H Hn).
Qed.

Lemma resume_pending f r c key k :
  resume (fl_callback f) r = Some c -> leaves_pending c = Some (key, k) ->
  carried_key (fl_callback f) = Some k /\ exists renter, errand (fl_callback f) = Some (key, Er_mint renter).
Proof.
  intros Hc Hk. destruct f as [[] dep], r as [results|outcome|swapped|signer]; try done;
    cbn [resume fl_callback] in Hc; try (destruct results as [|x [|]]; try done; []);
    injection Hc as <-; try done; injection Hk as <- <-; by eauto.
Qed.

(** A mint is launched by a rental only. *)
Lemma mint_launch c env s p s' l f key r :
  is_callback c = false -> call_promise c env s = Done (p, s', l) -> flight_of p = [f] ->
  errand (fl_callback f) = Some (key, Er_mint r) ->
  r = predecessor_account_id env /\ touches c = Some key.
Proof.
  intros Hc H Hf He. destruct (touches c) as [key'|] eqn:E1.
  { destruct (rental_launches c env s p s' l key' Hc E1 H) as (e & (f' & Hf' & He' & _) & _ & _ & Hr).
    rewrite Hf in Hf'. injection Hf' as <-. rewrite He in He'. injection He' as <- <-. naive_solver. }
  destruct (takes_sale c) as [key'|] eqn:E2.
  { destruct (buy_titles c key' env s p s' l E2 H) as (_ & _ & _ & _ & [Hl|Hl]);
      destruct Hl as (f' & Hf' & He' & _); congruence. }
  destruct (takes_reclaim c) as [key'|] eqn:E3.
  { destruct c; try done; cbn [call_promise] in H; apply returning_inv in H as (q & H & ->).
    destruct (reclaim_titles _ _ _ _ _ _ _ H) as (_ & _ & _ & _ & [Hl|[Hl _]]);
      destruct Hl as (f' & Hf' & He' & _); congruence. }
  destruct (retries c) as [key'|] eqn:E4.
  { destruct c; try done; cbn [call_promise] in H; apply returning_inv in H as (q & H & ->).
    destruct (retry_titles _ _ _ _ _ _ _ H) as (_ & _ & f' & k & Hf' & Hcb & _).
    rewrite Hf in Hf'. injection Hf' as <-. by rewrite Hcb in He. }
  pose proof (quiet_launch c env s p s' l Hc E1 E2 E3 E4 H) as Hq. rewrite Hf in Hq.
  apply Forall_singleton in Hq as [Hq _]. congruence.
Qed.
End Titles.

#[global] Arguments standing : simpl never.
