(* ===== verification/SystemWorld.v ===== *)
(** * The registry and the wallets, with everything in flight

    The registry keeps the title of a name and the other contracts the key of
    its wallet. This file runs the registry against an interface of the wallets
    ([Wallets], [WalletsLaws]; file [Deployment] provides it from the models of
    the other four contracts): a promise of the registry is executed some time
    after it was sent, its callback runs some time after that, and anything may
    happen in between. The question is whether title and key still agree. *)
From S2P Require Export RegistryTitles.

(** ** What the registry needs of the wallets *)

(** [transfer] is a [force_transfer] of hos-extension run to its answer, [mint] a
    [create_sub_account] of a tla-manager, [install] a [retry_install];
    [move] is everything else that happens to the wallets, and [recovering] the
    wallet whose recovery it completes. The circumstances are what the outcome
    depends on besides the wallets: block times, what third parties answer. *)
Class Wallets := {
  Estate : Type;
  WalletKey : Type;
  Circumstance : Type;
  Move : Type;
  extension : AccountId;
  managed : AccountId -> bool;
  key_of : Estate -> AccountId -> option WalletKey;
  as_key : PublicKey -> option WalletKey;
  transfer : Circumstance -> AccountId -> PublicKey -> option PublicKey -> Estate ->
    CallResult bool * Estate;
  mint : Circumstance -> AccountId -> string -> PublicKey -> Z -> Estate ->
    CallResult MintOutcome * Estate;
  install : Circumstance -> AccountId -> AccountId -> PublicKey -> Estate ->
    CallResult unit * Estate;
  move : Move -> Estate -> Estate;
  recovering : Move -> Estate -> option AccountId
}.

Section interface.
Context `{!Wallets}.

(** The key of [w] becomes [k], and no other key changes. *)
Definition key_set (S S' : Estate) (w : AccountId) (k : PublicKey) : Prop :=
  is_Some (as_key k) /\ forall v, key_of S' v = if decide (v = w) then as_key k else key_of S v.
Definition keys_kept (S S' : Estate) : Prop := forall v, key_of S' v = key_of S v.
End interface.

(** What the wallets promise: a transfer that reports [true] has changed the key
    of a wallet that had one, a mint that reports [Active] and an installation
    that succeeds have given a key to a wallet that had none, a recovery changes
    the key of a wallet that has one, and nothing else changes a key. *)
Class WalletsLaws `{!Wallets} := {
  in_order : Estate -> Prop;
  transfer_law x w k e S a S' : in_order S -> transfer x w k e S = (a, S') ->
    in_order S' /\ (if swap_done a then is_Some (key_of S w) /\ key_set S S' w k else keys_kept S S');
  mint_law x t n k d S o S' : in_order S -> managed t = true -> mint x t n k d S = (o, S') ->
    in_order S' /\
    (if worked (Reply_minted o)
     then key_of S (sub_account_key t n) = None /\ key_set S S' (sub_account_key t n) k
     else keys_kept S S');
  install_law x t w k S a S' : in_order S -> managed t = true -> install x t w k S = (a, S') ->
    in_order S' /\ (if is_ok a then key_of S w = None /\ key_set S S' w k else keys_kept S S');
  move_law m S : in_order S -> in_order (move m S) /\
    (forall v, recovering m S <> Some v -> key_of (move m S) v = key_of S v) /\
    (forall v, is_Some (key_of S v) <-> is_Some (key_of (move m S) v))
}.

(** ** The registry and the wallets at work *)
Section SystemWorld.
Context `{HS : !Sdk} `{HW : !Wallets}.

(** On whose behalf a key was put into a wallet: an account, or the registry,
    which parks reclaimed wallets. *)
Inductive Holder := Held (by_ : AccountId) | Parked.
#[global] Instance Holder_eq_dec : EqDecision Holder.
Proof. solve_decision. Defined.

(** The last time the registry had a key put into a wallet: for whom, which key
    that one had asked for, and whether a recovery has replaced it since. The key
    asked for is not read off the order: that the order put in this very key is a
    theorem. *)
Record Grant := mkGrant { gr_for : Holder; gr_key : option PublicKey; gr_recovered : bool }.

(** A promise in flight: the continuation, what it orders, for whom, the key that
    one asked for, and what was answered once it has been executed. *)
Record Shipment := mkShipment {
  sh_flight : Flight;
  sh_order : option Order;
  sh_for : Holder;
  sh_key : option PublicKey;
  sh_answer : option Reply
}.
Definition sh_callback (f : Shipment) : Callback := fl_callback (sh_flight f).

Record Net := mkNet {
  n_reg : TlaRegistry;
  n_balance : Z;
  n_shipments : list Shipment;
  n_wallets : Estate;
  n_grants : gmap string Grant;
  n_asks : Asks
}.

(** The registry with its promises in flight, as file [RegistryWorld] runs it. *)
Definition registry_world (w : Net) : World :=
  mkWorld (n_reg w) (n_balance w) (sh_flight <$> n_shipments w).

(** Somebody calls the registry; the [i]th promise is executed, answering [r]
    where it is not the wallets that answer; the callback of the [i]th promise
    runs; something else happens to the wallets; the registry is credited. *)
Inductive Occurrence :=
| Oc_call (env : Env) (c : Call)
| Oc_execute (i : nat) (x : Circumstance) (r : Reply)
| Oc_resume (i : nat) (env : Env)
| Oc_wallets (m : Move)
| Oc_income (amount : Z).

(** The promises a call sends, for the account that made it, or for the
    registry when they reclaim. *)
Definition on_behalf (env : Env) (c : Call) : Holder :=
  match c with
  | Call_reclaim_finalize _ _ => Parked
  | _ => Held (predecessor_account_id env)
  end.
Definition ship (who : Holder) (key : option PublicKey) (p : option RegPromise) : list Shipment :=
  (fun f => mkShipment f (order_of p) who key None) <$> flight_of p.

(** The key asked for when a callback goes on with an errand: still the one its
    caller named; a reclaim parks the wallet with the parked key of that moment. *)
Definition key_by_now (s : TlaRegistry) (who : Holder) (key : option PublicKey) : option PublicKey :=
  match who with Parked => Some (parked_signer_pubkey s) | Held _ => key end.

(** The reply of a transfer: a sale reads what it says, a re-rental and a reclaim
    only whether it succeeded. *)
Definition result_of {A} (data : A -> list Z) (r : CallResult A) : PromiseResult :=
  match r with Ok a => PromiseResult_Successful (data a) | Err _ => PromiseResult_Failed end.
Definition bool_json (b : bool) : list Z := as_bytes_str (if b then "true" else "false").
Definition swap_reply (cb : Callback) (r : CallResult bool) : Reply :=
  match cb with
  | Cb_on_sub_account_sold _ _ _ _ _ | Cb_on_sub_account_sold_paid _ _ _ _ _ => Reply_swapped r
  | _ => Reply_results [result_of bool_json r]
  end.

(** Executes an order: the reply, the wallets after it, and the key it put in. *)
Definition carry_out (x : Circumstance) (r : Reply) (f : Shipment) (S : Estate)
    : Reply * Estate * option (AccountId * PublicKey) :=
  match sh_order f with
  | Some (Ord_transfer receiver w k e) =>
      if bool_decide (receiver = extension) then
        let '(a, S') := transfer x w k e S in
        (swap_reply (sh_callback f) a, S', if swap_done a then Some (w, k) else None)
      else (r, S, None)
  | Some (Ord_mint t n k d) =>
      if managed t then
        let '(o, S') := mint x t n k d S in
        (Reply_minted o, S', if worked (Reply_minted o) then Some (sub_account_key t n, k) else None)
      else (r, S, None)
  | Some (Ord_install t w k) =>
      if managed t then
        let '(a, S') := install x t w k S in
        (Reply_results [result_of (fun _ => []) a], S', if is_ok a then Some (w, k) else None)
      else (r, S, None)
  | None => (r, S, None)
  end.

Definition answered (f : Shipment) (r : Reply) : Shipment :=
  mkShipment (sh_flight f) (sh_order f) (sh_for f) (sh_key f) (Some r).

Definition granted (f : Shipment) (put : option (AccountId * PublicKey)) (G : gmap string Grant)
    : gmap string Grant :=
  match put with Some (w, _) => <[w := mkGrant (sh_for f) (sh_key f) false]> G | None => G end.
Definition recovered (w : option AccountId) (G : gmap string Grant) : gmap string Grant :=
  match w with
  | Some w => alter (fun g => mkGrant (gr_for g) (gr_key g) true) w G
  | None => G
  end.

Definition nstep (w : Net) (h : Occurrence) : Net :=
  match h with
  | Oc_call env c =>
      if bool_decide (predecessor_account_id env = current_account_id env) then w
      else match call_promise c (call_env (registry_world w) env) (n_reg w) with
           | Done (p, s', _) =>
               mkNet s' (n_balance w + attached_deposit env - sent p)
                 (ship (on_behalf env c) (asks_for (n_reg w) (n_asks w) c) p ++ n_shipments w)
                 (n_wallets w) (n_grants w) (remember env c (n_asks w))
           | Fail _ => w
           end
  | Oc_execute i x r =>
      match n_shipments w !! i with
      | Some f =>
          if bool_decide (sh_answer f = None) then
            let '(a, S', put) := carry_out x r f (n_wallets w) in
            match resume (sh_callback f) a with
            | Some _ =>
                mkNet (n_reg w) (n_balance w) (<[i := answered f a]> (n_shipments w)) S'
                  (granted f put (n_grants w)) (n_asks w)
            | None => w
            end
          else w
      | None => w
      end
  | Oc_resume i env =>
      match n_shipments w !! i with
      | Some f =>
          match sh_answer f with
          | Some r =>
              match resume (sh_callback f) r with
              | Some c =>
                  let rest := delete i (n_shipments w) in
                  let back := n_balance w + returned (sh_flight f) r in
                  match call_promise c (reply_env (registry_world w) env r) (n_reg w) with
                  | Done (p, s', _) =>
                      mkNet s' (back - sent p)
                        (ship (sh_for f) (key_by_now (n_reg w) (sh_for f) (sh_key f)) p ++ rest)
                        (n_wallets w) (n_grants w) (n_asks w)
                  | Fail _ => mkNet (n_reg w) back rest (n_wallets w) (n_grants w) (n_asks w)
                  end
              | None => w
              end
          | None => w
          end
      | None => w
      end
  | Oc_wallets m =>
      mkNet (n_reg w) (n_balance w) (n_shipments w) (move m (n_wallets w))
        (recovered (recovering m (n_wallets w)) (n_grants w)) (n_asks w)
  | Oc_income amount =>
      mkNet (n_reg w) (n_balance w + amount) (n_shipments w) (n_wallets w) (n_grants w) (n_asks w)
  end.

Definition nrun (tr : list Occurrence) (w : Net) : Net := foldl nstep w tr.

Fixpoint always (P : Net -> Occurrence -> Prop) (tr : list Occurrence) (w : Net) : Prop :=
  match tr with
  | [] => True
  | h :: tr => P w h /\ always P tr (nstep w h)
  end.

Lemma nrun_invariant (P : Net -> Occurrence -> Prop) (I : Net -> Prop) tr w :
  (forall w h, P w h -> I w -> I (nstep w h)) -> I w -> always P tr w -> I (nrun tr w).
Proof.
  intros HI. revert w. induction tr as [|h tr IH]; intros w Hw; [done|].
  intros [Hh Htr]. cbn. apply IH; [by apply HI|done].
Qed.

(** What holds at every step taken from the state reached by then. *)
Lemma always_prefix (P : Net -> Occurrence -> Prop) tr w :
  (forall tr1 h tr2, tr = tr1 ++ h :: tr2 -> P (nrun tr1 w) h) -> always P tr w.
Proof.
  revert w. induction tr as [|h tr IH]; intros w HP; cbn; [done|]. split.
  - exact (HP [] h tr eq_refl).
  - apply IH. intros tr1 h' tr2 ->. exact (HP (h :: tr1) h' tr2 eq_refl).
Qed.

Lemma always_and (P Q : Net -> Occurrence -> Prop) tr w :
  always P tr w -> always Q tr w -> always (fun w h => P w h /\ Q w h) tr w.
Proof. revert w. induction tr as [|h tr IH]; intros w; cbn; [done|]. intros [? ?] [? ?]. auto. Qed.

(** ** Who asked for a key *)
Definition accepts (w : Net) (env : Env) (c : Call) : Prop :=
  predecessor_account_id env <> current_account_id env /\
  exists a, call_promise c (call_env (registry_world w) env) (n_reg w) = Done a.

(** In the history [tr] from [w], [h] asked for the key [k] in the wallet [key]: the
    account named it in a rental or purchase of that name that was accepted; the
    registry, in that [k] was its parked key at some time. *)
Definition asked (tr : list Occurrence) (w : Net) (key : string) (h : Holder) (k : PublicKey) : Prop :=
  match h with
  | Held o => exists tr1 env c tr2, tr = tr1 ++ Oc_call env c :: tr2 /\
      accepts (nrun tr1 w) env c /\ predecessor_account_id env = o /\ names_key c = Some (key, k)
  | Parked => exists tr1 tr2, tr = tr1 ++ tr2 /\ parked_signer_pubkey (n_reg (nrun tr1 w)) = k
  end.

(** ** The registry's part is a run of its own world *)
Definition registry_happening (w : Net) (h : Occurrence) : list Happening :=
  match h with
  | Oc_call env c => [Hp_call env c]
  | Oc_resume i env =>
      match n_shipments w !! i ≫= sh_answer with Some r => [Hp_reply i env r] | None => [] end
  | Oc_income amount => [Hp_income amount]
  | Oc_execute _ _ _ | Oc_wallets _ => []
  end.
Fixpoint registry_history (tr : list Occurrence) (w : Net) : list Happening :=
  match tr with
  | [] => []
  | h :: tr => registry_happening w h ++ registry_history tr (nstep w h)
  end.

Lemma ship_flights who k p : sh_flight <$> ship who k p = flight_of p.
Proof. unfold ship. rewrite <- list_fmap_compose. apply list_fmap_id. Qed.

Lemma nstep_registry w h :
  registry_world (nstep w h) = wrun (registry_happening w h) (registry_world w).
Proof.
  destruct h as [env c|i x r|i env|m|amount]; cbn; try done.
  - case_bool_decide; [done|]. destruct (call_promise _ _ _) as [[[p s'] l]|]; [|done].
    unfold registry_world. cbn. by rewrite fmap_app, ship_flights.
  - destruct (n_shipments w !! i) as [f|] eqn:Ef; [|done]. case_bool_decide; [|done].
    destruct (carry_out x r f (n_wallets w)) as [[a S'] put]. destruct (resume _ _); [|done].
    unfold registry_world. cbn. rewrite list_fmap_insert. cbn. f_equal. apply list_insert_id.
    by rewrite list_lookup_fmap, Ef.
  - destruct (n_shipments w !! i) as [f|] eqn:Ef; cbn; [|done].
    destruct (sh_answer f) as [r|] eqn:Er; cbn; [|done].
    rewrite list_lookup_fmap, Ef. cbn. unfold sh_callback. destruct (resume _ r) as [c|]; [|done].
    destruct (call_promise _ _ _) as [[[p s'] l]|]; unfold registry_world; cbn.
    + by rewrite fmap_app, ship_flights, list_fmap_delete.
    + by rewrite list_fmap_delete.
Qed.

Lemma wrun_app tr1 tr2 w : wrun (tr1 ++ tr2) w = wrun tr2 (wrun tr1 w).
Proof. apply foldl_app. Qed.

Lemma nrun_registry tr w :
  registry_world (nrun tr w) = wrun (registry_history tr w) (registry_world w).
Proof.
  revert w. induction tr as [|h tr IH]; intros w; [done|].
  change (nrun (h :: tr) w) with (nrun tr (nstep w h)).
  by rewrite IH, nstep_registry, <- wrun_app.
Qed.
End SystemWorld.
