(* ===== verification/SystemTitles.v ===== *)
(** * For whom a wallet holds its key

    The invariant of file [SystemWorld] that follows a name through every errand
    in flight about it, step by step: while nothing is in flight about the name its
    wallet holds a key put there for the owner the registry records. Which key that
    is, and what follows over whole histories, is file [SystemKeys]'s. *)
From S2P Require Export SystemWorld.

Section SystemTitles.
Context `{HS : !Sdk} `{HL : !SdkLaws} `{HW : !Wallets}.

(** ** The invariant *)
Definition done_with (f : Shipment) : bool := from_option worked false (sh_answer f).
Definition who (G : gmap string Grant) (key : string) : option Holder := gr_for <$> G !! key.

Definition sh_errand (f : Shipment) : option (string * Errand) := errand (sh_callback f).
Definition sh_settles (f : Shipment) : option string := settles_name (sh_callback f).
(** The names being settled, and those whose retried installation was made. *)
Definition settling_names (fs : list Shipment) : list string := omap sh_settles fs.
Definition installed (f : Shipment) : option string :=
  match sh_errand f with Some (key, Er_retry) => if done_with f then Some key else None | _ => None end.

Definition swaps (f : Shipment) : Prop :=
  exists x w k e, sh_order f = Some (Ord_transfer x w k e).

(** What an errand in flight says of its name, whose standing is [st] and whose
    wallet holds a key put there for [h]. *)
Definition errand_ok (st : Standing) (h : option Holder) (locked marked : Prop) (f : Shipment)
    (e : Errand) : Prop :=
  match e with
  | Er_sale_gate b =>
      locked /\ st_pending st = false /\ sh_for f = Held b /\
      exists o, st_owner st = Some o /\ h = Some (Held o)
  | Er_sale b =>
      locked /\ st_pending st = false /\ sh_for f = Held b /\
      exists o, st_owner st = Some o /\ h = Some (Held (if done_with f then b else o))
  | Er_mint r =>
      st_pending st = false /\ st_parked st = false /\ sh_for f = Held r /\ st_owner st = Some r /\
      h = (if done_with f then Some (Held r) else None)
  | Er_re_rent_gate r =>
      st_pending st = false /\ st_parked st = true /\ sh_for f = Held r /\ st_owner st = Some r /\
      h = Some Parked
  | Er_re_rent r =>
      st_pending st = false /\ st_parked st = true /\ sh_for f = Held r /\ st_owner st = Some r /\
      h = Some (if done_with f then Held r else Parked)
  | Er_reclaim_gate =>
      marked /\ sh_for f = Parked /\
      exists o, st_owner st = Some o /\ (st_pending st = true \/ h = Some (Held o))
  | Er_reclaim =>
      marked /\ sh_for f = Parked /\ (swaps f -> st_pending st = false) /\
      exists o, st_owner st = Some o /\
        if done_with f then h = Some Parked else st_pending st = true \/ h = Some (Held o)
  | Er_retry =>
      if done_with f then st_pending st = true /\ exists o, st_owner st = Some o /\ h = Some (Held o)
      else sh_answer f = None -> h = None ->
        st_pending st = true /\ exists o, st_owner st = Some o /\ sh_for f = Held o
  end.

(** The wallets answer what the shipment orders. *)
Definition served (o : option Order) : Prop :=
  match o with
  | Some (Ord_transfer x _ _ _) => x = extension
  | Some (Ord_mint t _ _ _) => managed t = true
  | _ => True
  end.

Definition on_course (s : TlaRegistry) (G : gmap string Grant) (f : Shipment) : Prop :=
  forall key e, sh_errand f = Some (key, e) ->
    errand_ok (standing s key) (who G key) (sale_locked s key) (reclaim_locked s key) f e.

Definition shipment_ok (s : TlaRegistry) (G : gmap string Grant) (f : Shipment) : Prop :=
  cargo_ok s (sh_callback f) (sh_order f) /\ served (sh_order f) /\
  (forall r, sh_answer f = Some r -> is_Some (resume (sh_callback f) r)) /\ on_course s G f.

(** A name that is not being settled: its key was put there for its owner, a
    parked one's for the registry, and a name that is neither has none. *)
Definition name_ok (s : TlaRegistry) (G : gmap string Grant) (busy : Prop) (key : string) : Prop :=
  let st := standing s key in
  (st_pending st = true -> is_Some (st_owner st)) /\
  match st_owner st with
  | Some o => st_pending st = false -> ~ busy -> who G key = Some (Held o)
  | None => who G key = if st_parked st then Some Parked else None
  end.

Record titles_ok (s : TlaRegistry) (G : gmap string Grant) (fs : list Shipment) : Prop := {
  t_shipments : Forall (shipment_ok s G) fs;
  t_once : NoDup (settling_names fs);
  t_installed : NoDup (omap installed fs);
  t_names key : name_ok s G (key ∈ settling_names fs) key
}.

Lemma settling_app fs1 fs2 : settling_names (fs1 ++ fs2) = settling_names fs1 ++ settling_names fs2.
Proof. apply omap_app. Qed.

Lemma titles_perm s G fs fs' : fs ≡ₚ fs' -> titles_ok s G fs -> titles_ok s G fs'.
Proof.
  intros Hp [H1 H2 H3 H4]. split.
  - by rewrite <- Hp.
  - unfold settling_names in *. by rewrite <- Hp.
  - by rewrite <- Hp.
  - intros key. destruct (H4 key) as [Hpend Hname]. split; [done|].
    destruct (st_owner _); [|done]. intros Hf Hb. apply Hname; [done|].
    unfold settling_names in *. by rewrite Hp.
Qed.

(** *** One step

    Everything that happens concerns one name: what was about other names is as
    it was, and what is left in flight about this one must fit its new standing. *)
Lemma titles_step key s s' G G' old new fs :
  titles_ok s G (old ++ fs) ->
  (forall k, k <> key -> standing s' k = standing s k /\ who G' k = who G k) ->
  (forall cb o, cargo_ok s cb o -> cargo_ok s' cb o) ->
  (forall k, k ∈ settling_names fs -> is_Some (st_owner (standing s k)) ->
     (sale_locked s k -> sale_locked s' k) /\ (reclaim_locked s k -> reclaim_locked s' k)) ->
  Forall (shipment_ok s' G') new ->
  (forall f e, f ∈ fs -> sh_errand f = Some (key, e) ->
     errand_ok (standing s key) (who G key) (sale_locked s key) (reclaim_locked s key) f e ->
     errand_ok (standing s' key) (who G' key) (sale_locked s' key) (reclaim_locked s' key) f e) ->
  NoDup (settling_names (new ++ fs)) -> NoDup (omap installed (new ++ fs)) ->
  name_ok s' G' (key ∈ settling_names (new ++ fs)) key ->
  (forall k, k <> key -> k ∈ settling_names (old ++ fs) -> k ∈ settling_names (new ++ fs)) ->
  titles_ok s' G' (new ++ fs).
Proof.
  intros [H1 _ _ H4] Hother Hcargo Hlocks Hnew Hkey Hn1 Hn2 Hname Hsub.
  apply Forall_app in H1 as [_ H1]. split; [|done|done|].
  - apply Forall_app. split; [done|]. apply list.Forall_forall. intros f Hf.
    rewrite list.Forall_forall in H1. destruct (H1 f Hf) as (Hc & Hs & Ha & Hcourse).
    split_and!; [by apply Hcargo|done|done|]. intros k e He. specialize (Hcourse k e He).
    destruct (decide (k = key)) as [->|Hne]; [by eapply Hkey|].
    destruct (Hother k Hne) as [-> ->].
    destruct (decide (e = Er_retry)) as [->|Hr]; [exact Hcourse|].
    assert (Hk : k ∈ settling_names fs).
    { apply list_elem_of_omap. exists f. split; [done|]. unfold sh_settles, settles_name.
      unfold sh_errand in He. rewrite He. by destruct e. }
    assert (Ho : is_Some (st_owner (standing s k))) by (destruct e; cbn in Hcourse; naive_solver).
    destruct (Hlocks k Hk Ho) as [Hl Hm]. destruct e; cbn in *; naive_solver.
  - intros k. destruct (decide (k = key)) as [->|Hne]; [done|].
    unfold name_ok in *. destruct (Hother k Hne) as [-> ->]. destruct (H4 k) as [Hp Hk]. split; [done|].
    destruct (st_owner (standing s k)); [|done]. intros Hf Hb. apply Hk; [done|]. intros Hin.
    apply Hb. by apply Hsub.
Qed.

(** *** What a call leaves alone *)
Lemma elem_settling f fs key e :
  f ∈ fs -> sh_errand f = Some (key, e) -> e <> Er_retry -> key ∈ settling_names fs.
Proof.
  intros Hf He Hr. apply list_elem_of_omap. exists f. split; [done|].
  unfold sh_settles, settles_name. unfold sh_errand in He. rewrite He. by destruct e.
Qed.

Lemma calls_leave_locks c env s s' l fs :
  exec c env s = Done (tt, s', l) ->
  (forall k, k ∈ settling_names fs -> ~ settles k c /\ clears c <> Some k) ->
  forall k, k ∈ settling_names fs -> is_Some (st_owner (standing s k)) ->
    (sale_locked s k -> sale_locked s' k) /\ (reclaim_locked s k -> reclaim_locked s' k).
Proof.
  intros H Hfs k Hk Ho. destruct (Hfs k Hk) as [Hs Hc]. split.
  - by apply (lock_stays k c env s s' l).
  - exact (mark_stays k c Hc env s tt s' l H).
Qed.

Lemma titles_frame c env s s' l G fs :
  titles_ok s G fs -> exec c env s = Done (tt, s', l) -> touches c = None ->
  (forall k, k ∈ settling_names fs -> ~ settles k c /\ clears c <> Some k) ->
  titles_ok s' G fs.
Proof.
  intros Ht H Hc Hfs.
  assert (Hst : forall k, standing s' k = standing s k).
  { intros k. apply (untouched k c env s s' l); [by rewrite Hc|done]. }
  pose proof (calls_leave_locks c env s s' l fs H Hfs) as Hlocks.
  refine (titles_step EmptyString s s' G G [] [] fs Ht _ _ Hlocks _ _ _ _ _ _).
  - by intros k _.
  - intros cb o. by eapply cargo_stays.
  - constructor.
  - intros f e Hf He Hok. rewrite Hst. destruct (decide (e = Er_retry)) as [->|Hr]; [exact Hok|].
    assert (Ho : is_Some (st_owner (standing s EmptyString))) by (destruct e; cbn in Hok; naive_solver).
    destruct (Hlocks EmptyString (elem_settling f fs _ _ Hf He Hr) Ho) as [Hl Hm].
    destruct e; cbn in *; naive_solver.
  - apply Ht.
  - apply Ht.
  - unfold name_ok. rewrite Hst. apply (t_names _ _ _ Ht).
  - done.
Qed.

Lemma cargo_served s cb o :
  hos_extension s = extension -> (forall t, is_Some (tlas s !! t) -> managed t = true) ->
  (forall key, cb <> Cb_on_retry_signer_settled key) -> cargo_ok s cb o -> served o.
Proof.
  intros Hx Ht Hr Hc. destruct cb; cbn in Hc; rewrite ?Hx in Hc; try (by subst); naive_solver.
Qed.

Definition fresh_shipment (h : Holder) (wanted : option PublicKey) (p : option RegPromise) (f : Flight)
    : Shipment :=
  mkShipment f (order_of p) h wanted None.

Lemma ship_launch s p key e h wanted :
  launches s p key e -> exists f, ship h wanted p = [fresh_shipment h wanted p f] /\
    errand (fl_callback f) = Some (key, e) /\ cargo_ok s (fl_callback f) (order_of p).
Proof. intros (f & Hf & He & Hc). exists f. unfold ship. by rewrite Hf. Qed.

Lemma busy_owned s G fs key :
  titles_ok s G fs -> key ∈ settling_names fs -> is_Some (st_owner (standing s key)).
Proof.
  intros Ht (f & Hf & Hk)%list_elem_of_omap. pose proof (t_shipments _ _ _ Ht) as H.
  rewrite list.Forall_forall in H. destruct (H f Hf) as (_ & _ & _ & Hc).
  unfold sh_settles, settles_name in Hk. destruct (errand (sh_callback f)) as [[k e]|] eqn:E; [|done].
  specialize (Hc k e E). destruct e; simplify_eq; cbn in Hc; naive_solver.
Qed.

Lemma titles_launch s G fs f :
  titles_ok s G fs -> shipment_ok s G f -> sh_answer f = None ->
  (forall key, sh_settles f = Some key -> key ∉ settling_names fs) -> titles_ok s G (f :: fs).
Proof.
  intros [H1 H2 H3 H4] Hf Ha Hfresh.
  assert (Hi : installed f = None).
  { unfold installed, done_with. rewrite Ha. by destruct (sh_errand f) as [[? []]|]. }
  split.
  - by constructor.
  - unfold settling_names in *. cbn. destruct (sh_settles f) as [key|] eqn:E; [|done].
    apply list.NoDup_cons. split; [by apply Hfresh|done].
  - cbn. by rewrite Hi.
  - intros key. destruct (H4 key) as [Hp Hn]. split; [done|]. destruct (st_owner _); [|done].
    intros Hf' Hb. apply Hn; [done|]. intros Hin. apply Hb. unfold settling_names. cbn.
    destruct (sh_settles f); [by right|done].
Qed.

(** *** A user's call *)

(** A purchase or a reclaim of the name, or the clearing of its lock. *)
Definition disturbs (c : Call) : option string :=
  match c with
  | Call_buy_sub_account t n _ | Call_buy_sub_account_paid t n _ _ | Call_reclaim_finalize t n
  | Call_admin_clear_settling t n | Call_admin_clear_reclaim_pending t n => Some (sub_account_key t n)
  | _ => None
  end.

Lemma user_leaves_locks c fs :
  is_callback c = false -> (forall key, disturbs c = Some key -> key ∉ settling_names fs) ->
  forall k, k ∈ settling_names fs -> ~ settles k c /\ clears c <> Some k.
Proof.
  intros Hc Hd k Hk. split; intros Hs; destruct c; try done; cbn in *; simplify_eq;
    by eapply Hd.
Qed.

Lemma titles_rent c env s s' l p G fs key e wanted :
  titles_ok s G fs -> exec c env s = Done (tt, s', l) -> touches c = Some key ->
  (forall k, k ∈ settling_names fs -> ~ settles k c /\ clears c <> Some k) ->
  let renter := predecessor_account_id env in
  st_owner (standing s key) = None ->
  standing s' key = mkStanding (Some renter) (st_pending (standing s key)) (st_parked (standing s key)) ->
  match e with
  | Er_mint r => r = renter /\ st_parked (standing s key) = false
  | Er_re_rent_gate r | Er_re_rent r => r = renter /\ st_parked (standing s key) = true
  | _ => False
  end ->
  launches s p key e -> (forall f, flight_of p = [f] -> served (order_of p)) ->
  titles_ok s' G (ship (Held renter) wanted p ++ fs).
Proof.
  cbv zeta. intros Ht H Htouch Hfs Ho Hst He Hp Hserved.
  destruct (t_names _ _ _ Ht key) as [Hpend Hname]. rewrite Ho in Hpend, Hname.
  assert (Hpf : st_pending (standing s key) = false).
  { destruct (st_pending (standing s key)); [by destruct (Hpend eq_refl)|done]. }
  assert (Hidle : key ∉ settling_names fs).
  { intros Hin. destruct (busy_owned _ _ _ _ Ht Hin). congruence. }
  pose proof Hp as (f0 & Hf0 & _). specialize (Hserved f0 Hf0).
  destruct (ship_launch s p key e (Held (predecessor_account_id env)) wanted Hp) as (f & -> & Hef & Hc).
  assert (Hset : sh_settles (fresh_shipment (Held (predecessor_account_id env)) wanted p f) = Some key).
  { unfold sh_settles, settles_name, sh_callback. cbn. rewrite Hef. by destruct e. }
  assert (Hinst : installed (fresh_shipment (Held (predecessor_account_id env)) wanted p f) = None).
  { unfold installed, sh_errand, sh_callback. cbn. rewrite Hef. by destruct e. }
  refine (titles_step key s s' G G [] [_] fs Ht _ _ (calls_leave_locks c env s s' l fs H Hfs) _ _ _ _ _ _).
  - intros k Hk. split; [|done]. apply (untouched k c env s s' l); [congruence|done].
  - intros cb o. by eapply cargo_stays.
  - apply Forall_singleton. split_and!; [by eapply cargo_stays|done|done|].
    intros k e' He'. unfold sh_errand, sh_callback in He'. cbn in He'. rewrite Hef in He'.
    injection He' as <- <-. rewrite Hst, Hpf.
    destruct e; try done; destruct He as [-> Hpk]; rewrite Hpk in *; by split_and!.
  - intros g e' Hg He' Hok.
    destruct (decide (e' = Er_retry)) as [->|Hr];
      [|by destruct (Hidle (elem_settling g fs key e' Hg He' Hr))].
    cbn in *. rewrite Ho in Hok. destruct (done_with g); [naive_solver|].
    intros Ha Hn. destruct (Hok Ha Hn) as (_ & o & ? & _). done.
  - unfold settling_names. cbn. rewrite Hset. apply list.NoDup_cons. split; [done|apply Ht].
  - cbn. rewrite Hinst. apply Ht.
  - split; rewrite Hst, Hpf; cbn; [done|]. intros _ Hb. destruct Hb.
    unfold settling_names. cbn. rewrite Hset. by left.
  - intros k _ Hk. unfold settling_names. cbn. rewrite Hset. by right.
Qed.

(** A purchase, a reclaim or a retried installation starts on a standing it does
    not change. *)
Lemma titles_start c env s s' l p G fs key e h wanted :
  titles_ok s G fs -> exec c env s = Done (tt, s', l) -> touches c = None ->
  (forall k, k ∈ settling_names fs -> ~ settles k c /\ clears c <> Some k) ->
  launches s p key e -> (forall f, flight_of p = [f] -> served (order_of p)) ->
  (e <> Er_retry -> key ∉ settling_names fs) ->
  (forall f, sh_for f = h -> sh_answer f = None -> sh_order f = order_of p ->
     errand_ok (standing s key) (who G key) (sale_locked s' key) (reclaim_locked s' key) f e) ->
  titles_ok s' G (ship h wanted p ++ fs).
Proof.
  intros Ht H Htouch Hfs Hp Hserved Hfresh Hok. pose proof Hp as (f0 & Hf0 & _).
  specialize (Hserved f0 Hf0). destruct (ship_launch s p key e h wanted Hp) as (f & -> & He & Hc).
  apply titles_launch.
  - by eapply titles_frame.
  - split_and!; [by eapply cargo_stays|done|done|]. intros k e' He'.
    unfold sh_errand, sh_callback in He'. cbn in He'. rewrite He in He'. injection He' as <- <-.
    rewrite (untouched key c env s s' l) by (congruence || done). by apply Hok.
  - done.
  - intros k Hk. unfold sh_settles, settles_name, sh_callback in Hk. cbn in Hk. rewrite He in Hk.
    destruct (decide (e = Er_retry)) as [->|Hr]; [done|]. specialize (Hfresh Hr).
    by destruct e; simplify_eq.
Qed.

Lemma launch_served s p key e f :
  hos_extension s = extension -> (forall t, is_Some (tlas s !! t) -> managed t = true) ->
  launches s p key e -> e <> Er_retry -> flight_of p = [f] -> served (order_of p).
Proof.
  intros Hx Hm (f' & Hf' & He & Hc) Hr Hf. rewrite Hf in Hf'. injection Hf' as <-.
  eapply cargo_served; [done|done| |exact Hc]. intros k E. rewrite E in He. by simplify_eq/=.
Qed.

Lemma named_holder s G fs key :
  titles_ok s G fs -> is_Some (st_owner (standing s key)) -> key ∉ settling_names fs ->
  exists o, st_owner (standing s key) = Some o /\
    (st_pending (standing s key) = true \/ who G key = Some (Held o)).
Proof.
  intros Ht [o Ho] Hb. exists o. split; [done|]. destruct (t_names _ _ _ Ht key) as [_ Hn].
  rewrite Ho in Hn. destruct (st_pending _); [by left|right; by apply Hn].
Qed.

(** A call that sends the order of an errand, with what it promises at that time. *)
Lemma buy_call_titles c env s p s' l G fs key wanted :
  takes_sale c = Some key -> hos_extension s = extension ->
  (forall t, is_Some (tlas s !! t) -> managed t = true) -> key ∉ settling_names fs ->
  (forall k, k ∈ settling_names fs -> ~ settles k c /\ clears c <> Some k) ->
  titles_ok s G fs -> call_promise c env s = Done (p, s', l) ->
  titles_ok s' G (ship (Held (predecessor_account_id env)) wanted p ++ fs).
Proof.
  intros Hc Hx Hm Hb Hl Ht H. pose proof H as E. apply call_promise_exec in E.
  assert (Htouch : touches c = None) by (by destruct c).
  destruct (buy_titles c key env s p s' l Hc H) as (Hpf & Hown & Hi & Hlock & Hp).
  destruct (named_holder _ _ _ _ Ht Hown Hb) as (o & Ho & Hh).
  destruct Hp as [Hp|Hp]; (eapply titles_start; [exact Ht|exact E|exact Htouch|exact Hl|exact Hp| |done|]);
    try (intros f; by apply (launch_served s p key _ f Hx Hm Hp));
    intros f Hf Ha _; cbn; unfold done_with; rewrite ?Ha; (split_and!; [done..|]);
    exists o; (split; [done|]); by destruct Hh; [congruence|].
Qed.

Lemma reclaim_call_titles t n env s p s' l G fs wanted :
  hos_extension s = extension -> (forall t, is_Some (tlas s !! t) -> managed t = true) ->
  sub_account_key t n ∉ settling_names fs -> titles_ok s G fs ->
  call_promise (Call_reclaim_finalize t n) env s = Done (p, s', l) -> titles_ok s' G (ship Parked wanted p ++ fs).
Proof.
  intros Hx Hm Hb Ht H. pose proof H as E. apply call_promise_exec in E. cbn [call_promise] in H.
  apply returning_inv in H as (q & H & ->).
  destruct (reclaim_titles _ _ _ _ _ _ _ H) as (Hown & Hi & _ & Hmark & Hp).
  destruct (named_holder _ _ _ _ Ht Hown Hb) as (o & Ho & Hh).
  destruct Hp as [Hp|[Hp Hsw]]; (eapply titles_start; [exact Ht|exact E|done|by intros k' _; split; [intros []|]|exact Hp| |done|]);
    try (intros f; by apply (launch_served s _ _ _ f Hx Hm Hp));
    intros f Hf Ha Hord; cbn; unfold done_with; rewrite ?Ha; (split_and!; [done|done|..]);
    try (exists o; by split).
  intros (x & w & k & e & Hs). rewrite Hs in Hord. by eapply Hsw.
Qed.

Lemma retry_call_titles t n env s p s' l G fs wanted :
  titles_ok s G fs -> call_promise (Call_retry_signer_install t n) env s = Done (p, s', l) ->
  titles_ok s' G (ship (Held (predecessor_account_id env)) wanted p ++ fs).
Proof.
  intros Ht H. pose proof H as E. apply call_promise_exec in E. cbn [call_promise] in H.
  apply returning_inv in H as (q & H & ->).
  destruct (retry_titles _ _ _ _ _ _ _ H) as (Hpend & Ho & f0 & k & Hf & Hcb & Hord).
  eapply titles_start; [exact Ht|exact E|done|by intros k' _; split; [intros []|]| | |done|].
  - exists f0. split; [exact Hf|]. rewrite Hcb. split; [reflexivity|]. rewrite Hord. by do 2 eexists.
  - intros f _. by rewrite Hord.
  - intros f Hfor Ha _. cbn. unfold done_with. rewrite Ha. cbn. intros _ _. split; [done|].
    by exists (predecessor_account_id env).
Qed.

Lemma quiet_call_titles c env s p s' l G fs h wanted :
  is_callback c = false -> hos_extension s = extension ->
  (forall t, is_Some (tlas s !! t) -> managed t = true) ->
  touches c = None -> takes_sale c = None -> takes_reclaim c = None -> retries c = None ->
  (forall k, k ∈ settling_names fs -> ~ settles k c /\ clears c <> Some k) ->
  titles_ok s G fs -> call_promise c env s = Done (p, s', l) -> titles_ok s' G (ship h wanted p ++ fs).
Proof.
  intros Hc Hx Hm Etouch Esale Erec Eretry Hl Ht H. pose proof H as E. apply call_promise_exec in E.
  pose proof (quiet_launch c env s p s' l Hc Etouch Esale Erec Eretry H) as Hq.
  pose proof (titles_frame c env s s' l G fs Ht E Etouch Hl) as Ht'.
  unfold ship. destruct p as [[| |q cb g]|]; try exact Ht'. cbn.
  apply Forall_singleton in Hq as [He Hcargo]. cbn in He.
  apply titles_launch; [done| |done|].
  - split_and!; [by eapply cargo_stays| |done|].
    + eapply cargo_served; [exact Hx|exact Hm| |exact Hcargo]. intros k Ek. cbn in Ek. by rewrite Ek in He.
    + intros k e He'. unfold sh_errand, sh_callback in He'. cbn in He'. congruence.
  - intros k Hk. unfold sh_settles, settles_name, sh_callback in Hk. cbn in Hk. by rewrite He in Hk.
Qed.

Lemma call_titles c env s p s' l G fs wanted :
  is_callback c = false -> hos_extension s = extension ->
  (forall t, is_Some (tlas s !! t) -> managed t = true) ->
  (forall key, disturbs c = Some key -> key ∉ settling_names fs) ->
  titles_ok s G fs -> call_promise c env s = Done (p, s', l) ->
  titles_ok s' G (ship (on_behalf env c) wanted p ++ fs).
Proof.
  intros Hc Hx Hm Hd Ht H. pose proof H as E. apply call_promise_exec in E.
  pose proof (user_leaves_locks c fs Hc Hd) as Hl.
  destruct (touches c) as [key|] eqn:Etouch.
  { destruct (rental_launches c env s p s' l key Hc Etouch H) as (e & Hp & Ho & Hst & He).
    assert (on_behalf env c = Held (predecessor_account_id env)) as -> by (by destruct c).
    eapply titles_rent; try done.
    intros f. apply (launch_served s p key e f Hx Hm Hp). by destruct e. }
  destruct (takes_sale c) as [key|] eqn:Esale.
  { assert (on_behalf env c = Held (predecessor_account_id env)) as -> by (by destruct c).
    eapply buy_call_titles; try done. apply Hd. by destruct c. }
  destruct (takes_reclaim c) as [key|] eqn:Erec.
  { destruct c; try done. eapply reclaim_call_titles; try done. by apply Hd. }
  destruct (retries c) as [key|] eqn:Eretry.
  { destruct c; try done. by eapply retry_call_titles. }
  by eapply quiet_call_titles.
Qed.

(** *** A callback *)
Lemma titles_drop s G f fs : sh_errand f = None -> titles_ok s G (f :: fs) -> titles_ok s G fs.
Proof.
  intros He [H1 H2 H3 H4].
  assert (Hs : sh_settles f = None) by (unfold sh_settles, settles_name; unfold sh_errand in He; by rewrite He).
  assert (Hi : installed f = None) by (unfold installed; by rewrite He).
  apply list.Forall_cons in H1 as [_ H1]. unfold settling_names in *. cbn in H2, H3, H4.
  rewrite Hs in H2, H4. rewrite Hi in H3. by split.
Qed.

Lemma reply_leaves_locks f r c s G fs :
  titles_ok s G (f :: fs) -> resume (sh_callback f) r = Some c ->
  forall k, k ∈ settling_names fs -> ~ settles k c /\ clears c <> Some k.
Proof.
  intros Ht Hc k Hk. assert (Hn : sh_settles f <> Some k).
  { intros E. pose proof (t_once _ _ _ Ht) as Hn. unfold settling_names in Hn. cbn in Hn.
    rewrite E in Hn. by apply list.NoDup_cons in Hn as [? _]. }
  split; intros Hs; apply Hn; eapply resume_settles; try exact Hc; auto.
Qed.

Lemma not_busy_after f fs key e s G :
  titles_ok s G (f :: fs) -> sh_errand f = Some (key, e) -> e <> Er_retry -> key ∉ settling_names fs.
Proof.
  intros Ht He Hr. pose proof (t_once _ _ _ Ht) as Hn. unfold settling_names in Hn. cbn in Hn.
  assert (Hs : sh_settles f = Some key).
  { unfold sh_settles, settles_name. unfold sh_errand in He. rewrite He. by destruct e. }
  rewrite Hs in Hn. by apply list.NoDup_cons in Hn as [? _].
Qed.

(** The errand ends: what is left about the name are retried installations, or
    anything where the errand was one of those. *)
Lemma titles_end key e f r c env s s' l G fs :
  titles_ok s G (f :: fs) -> sh_errand f = Some (key, e) -> resume (sh_callback f) r = Some c ->
  exec c env s = Done (tt, s', l) ->
  (forall g e', g ∈ fs -> sh_errand g = Some (key, e') -> e' = Er_retry \/ e = Er_retry ->
     errand_ok (standing s key) (who G key) (sale_locked s key) (reclaim_locked s key) g e' ->
     errand_ok (standing s' key) (who G key) (sale_locked s key) (reclaim_locked s key) g e') ->
  name_ok s' G (key ∈ settling_names fs) key -> titles_ok s' G fs.
Proof.
  intros Ht He Hc H Hrest Hname.
  pose proof (calls_leave_locks c env s s' l fs H (reply_leaves_locks f r c s G fs Ht Hc)) as Hlocks.
  pose proof Ht as [H1 H2 H3 H4]. unfold settling_names in H2. cbn in H2, H3.
  refine (titles_step key s s' G G [f] [] fs Ht _ _ Hlocks _ _ _ _ Hname _).
  - intros k Hk. split; [|done]. apply (untouched k c env s s' l); [|done]. intros Hkc.
    destruct (resume_touches _ _ _ _ Hc Hkc) as [e' E]. unfold sh_errand, sh_callback in *. congruence.
  - intros cb o. by eapply cargo_stays.
  - constructor.
  - intros g e' Hg He' Hok.
    assert (Hor : e' = Er_retry \/ e = Er_retry).
    { destruct (decide (e' = Er_retry)); [by left|]. destruct (decide (e = Er_retry)); [by right|].
      destruct (not_busy_after f fs key e s G); [done..|]. by eapply elem_settling. }
    specialize (Hrest g e' Hg He' Hor Hok). destruct (decide (e' = Er_retry)) as [->|Hr]; [exact Hrest|].
    assert (Ho : is_Some (st_owner (standing s key))) by (destruct e'; cbn in Hok; naive_solver).
    destruct (Hlocks key (elem_settling g fs _ _ Hg He' Hr) Ho) as [Hl Hm].
    destruct e'; cbn in *; naive_solver.
  - cbn. by destruct (sh_settles f); [apply list.NoDup_cons in H2 as [_ ?]|].
  - cbn. by destruct (installed f); [apply list.NoDup_cons in H3 as [_ ?]|].
  - intros k Hk. unfold settling_names. cbn. destruct (sh_settles f) as [k'|] eqn:E; [|done].
    unfold sh_settles, settles_name in E. unfold sh_errand in He. rewrite He in E.
    assert (k' = key) as -> by (destruct e; congruence).
    by intros [?|?]%elem_of_cons.
Qed.

Lemma answered_done f r : sh_answer f = Some r -> done_with f = worked r.
Proof. unfold done_with. by intros ->. Qed.

(** Once the signer is installed, or the wallet parked, nothing hangs on a retried
    installation still in flight. *)
Lemma retry_moot st st' h (L M L' M' : Prop) g :
  st_pending st = false \/ h = Some Parked -> errand_ok st h L M g Er_retry ->
  errand_ok st' h L' M' g Er_retry.
Proof.
  cbn. intros Hst. destruct (done_with g).
  - intros (Hp & o & _ & ->). destruct Hst; congruence.
  - intros Hok Ha Hh. destruct (Hok Ha Hh) as [Hp _]. destruct Hst; congruence.
Qed.

Lemma settled_rest e f r st h (L M L' M' : Prop) g :
  errand_ok st h L M f e -> sh_answer f = Some r -> is_gate e = false -> e <> Er_retry ->
  errand_ok st h L' M' g Er_retry -> errand_ok (settled e r st) h L' M' g Er_retry.
Proof.
  intros He Ha Hg Hr Hok. pose proof (answered_done f r Ha) as Hd.
  destruct (decide (settled e r st = st)) as [->|Hne]; [done|].
  apply (retry_moot st _ h L' M'); [|done].
  destruct e; try done; cbn in He; rewrite ?Hd in He; try (left; tauto).
  cbn in Hne. destruct (worked r); [right; by destruct He as (_ & _ & _ & ? & _ & ?)|done].
Qed.

Lemma mint_reply f r key renter :
  is_Some (resume (sh_callback f) r) -> sh_errand f = Some (key, Er_mint renter) ->
  exists o, r = Reply_minted o.
Proof.
  unfold sh_errand. intros [c Hc] He. destruct (sh_callback f), r; try done; by eexists.
Qed.

(** The standing an errand leaves fits the key it leaves. *)
Lemma settled_name e f r st h (L M : Prop) :
  (forall renter, e = Er_mint renter -> exists o, r = Reply_minted o) ->
  errand_ok st h L M f e -> sh_answer f = Some r -> is_gate e = false -> e <> Er_retry ->
  let st' := settled e r st in
  (st_pending st' = true -> is_Some (st_owner st')) /\
  match st_owner st' with
  | Some o => st_pending st' = false -> h = Some (Held o)
  | None => h = if st_parked st' then Some Parked else None
  end.
Proof.
  intros Hfit He Ha Hg Hr. pose proof (answered_done f r Ha) as Hd.
  destruct e; try done; cbn in He; rewrite ?Hd in He; cbn; clear Hd Ha.
  - destruct He as (_ & Hp & _ & o & Ho & ->). destruct (worked r); cbn; rewrite ?Hp, ?Ho; done.
  - destruct He as (Hp & Hpk & _ & Ho & Hh).
    destruct (Hfit renter eq_refl) as [o ->].
    destruct o as [[]|]; cbn in *; rewrite ?Hp, ?Hpk, ?Ho, Hh; by split.
  - destruct He as (Hp & Hpk & _ & Ho & ->). destruct (worked r); cbn; by rewrite ?Hp, ?Hpk, ?Ho.
  - destruct He as (_ & _ & _ & o & Ho & Hh). destruct (worked r); cbn; [done|]. rewrite Ho.
    split; [by eexists|]. intros Hp. by destruct Hh; [congruence|].
Qed.

Lemma course_of s G f fs key e :
  titles_ok s G (f :: fs) -> sh_errand f = Some (key, e) ->
  errand_ok (standing s key) (who G key) (sale_locked s key) (reclaim_locked s key) f e.
Proof. intros [H _ _ _] He. apply list.Forall_cons in H as [(_ & _ & _ & Hc) _]. by apply Hc. Qed.

Lemma name_after_retry s G f fs key :
  titles_ok s G (f :: fs) -> sh_errand f = Some (key, Er_retry) ->
  name_ok s G (key ∈ settling_names fs) key.
Proof.
  intros Ht He. pose proof (t_names _ _ _ Ht key) as H. unfold settling_names in *. cbn in H.
  assert (Hs : sh_settles f = None) by (unfold sh_settles, settles_name; unfold sh_errand in He; by rewrite He).
  by rewrite Hs in H.
Qed.

(** The retried installation was made: nothing else in flight disagrees. *)
Lemma retried_rest st h (L M : Prop) o g e :
  st_pending st = true -> st_owner st = Some o -> h = Some (Held o) ->
  (e = Er_retry -> done_with g = false) ->
  errand_ok st h L M g e -> errand_ok (mkStanding (st_owner st) false (st_parked st)) h L M g e.
Proof.
  intros Hp Ho -> Hg Hok. destruct e; cbn in *; rewrite ?Hp in Hok.
  1-5: by destruct_and?.
  - destruct Hok as (? & ? & o' & ? & _). simplify_eq. eauto 10.
  - destruct Hok as (? & ? & _ & o' & ? & Hd). rewrite Ho. split_and!; [done..|]. exists o.
    split; [done|]. destruct (done_with g); [done|by right].
  - by rewrite Hg.
Qed.

Lemma retry_resumes f r c env s s' l G fs key :
  titles_ok s G (f :: fs) -> sh_answer f = Some r -> resume (sh_callback f) r = Some c ->
  exec c env s = Done (tt, s', l) -> sh_errand f = Some (key, Er_retry) ->
  standing s' key = settled Er_retry r (standing s key) -> titles_ok s' G fs.
Proof.
  intros Ht Ha Hc E He Hst. pose proof (course_of _ _ _ _ _ _ Ht He) as Hok.
  pose proof (answered_done f r Ha) as Hd. pose proof (name_after_retry _ _ _ _ _ Ht He) as Hname.
  apply (titles_end key Er_retry f r c env s s' l G fs Ht He Hc E); cbn in Hst, Hok; rewrite Hd in Hok.
  - intros g e' Hg He' _ Hog. rewrite Hst. destruct (worked r); [|done].
    destruct Hok as (Hp & o & Ho & Hh). apply (retried_rest _ _ _ _ o g e' Hp Ho Hh); [|done].
    intros ->. destruct (done_with g) eqn:Eg; [|done]. exfalso.
    pose proof (t_installed _ _ _ Ht) as Hn. cbn in Hn. unfold installed in Hn at 1.
    rewrite He, Hd in Hn. apply list.NoDup_cons in Hn as [Hn _]. apply Hn.
    apply list_elem_of_omap. exists g. split; [done|]. unfold installed. by rewrite He', Eg.
  - unfold name_ok in *. rewrite Hst. destruct (worked r); [|done]. cbn.
    destruct Hok as (Hp & o & Ho & Hh). by rewrite Ho.
Qed.

Lemma gate_cargo s cb o key e : errand cb = Some (key, e) -> is_gate e = true -> cargo_ok s cb o -> o = None.
Proof. intros He Hg Hc. destruct cb; simplify_eq/=; naive_solver. Qed.

(** What a gate that blocks leaves of its name. *)
Lemma gate_blocked s s' G key f e b :
  errand_ok (standing s key) (who G key) (sale_locked s key) (reclaim_locked s key) f e ->
  is_gate e = true ->
  standing s' key = (if e is Er_re_rent_gate _ then st_disowned (standing s key) else standing s key) ->
  name_ok s' G b key.
Proof.
  intros Hok Hg Hst. unfold name_ok. rewrite Hst. destruct e; try done; cbn in Hok |- *.
  - destruct Hok as (_ & -> & _ & o & -> & Hh). done.
  - destruct Hok as (-> & -> & _ & _ & Hh). by split.
  - destruct Hok as (_ & _ & o & -> & Hh). split; [by eexists|]. intros Hpf _.
    by destruct Hh; [congruence|].
Qed.

(** The errand that follows a gate that opens. *)
Lemma gate_opens s p key e f h (L M : Prop) :
  errand_ok (standing s key) h L M f e -> is_gate e = true ->
  match e with
  | Er_sale_gate b => launches s p key (Er_sale b)
  | Er_re_rent_gate r => launches s p key (Er_re_rent r)
  | _ => parks s p key
  end ->
  exists e', launches s p key e' /\ e' <> Er_retry /\
    forall f', sh_for f' = sh_for f -> sh_answer f' = None -> sh_order f' = order_of p ->
      errand_ok (standing s key) h L M f' e'.
Proof.
  intros Hok Hg Hp. destruct e; try done.
  - exists (Er_sale buyer). split_and!; [done..|]. intros f' Hf Ha _. cbn in *. unfold done_with.
    by rewrite Ha, Hf.
  - exists (Er_re_rent renter). split_and!; [done..|]. intros f' Hf Ha _. cbn in *. unfold done_with.
    by rewrite Ha, Hf.
  - destruct Hp as [Hp Hsw]. exists Er_reclaim. split_and!; [done..|]. intros f' Hf Ha Ho. cbn in *.
    unfold done_with. rewrite Ha, Hf. cbn. destruct Hok as (? & ? & ?). split_and!; try done.
    intros (x & v & k & ex & Hs). rewrite Hs in Ho. by eapply Hsw.
Qed.

(** One settlement of a name takes over from another. *)
Lemma titles_handover s G f fs p key e e' wanted :
  titles_ok s G (f :: fs) -> sh_errand f = Some (key, e) -> e <> Er_retry -> e' <> Er_retry ->
  launches s p key e' -> served (order_of p) ->
  (forall f', sh_for f' = sh_for f -> sh_answer f' = None -> sh_order f' = order_of p ->
     errand_ok (standing s key) (who G key) (sale_locked s key) (reclaim_locked s key) f' e') ->
  titles_ok s G (ship (sh_for f) wanted p ++ fs).
Proof.
  intros Ht He Hr Hr' Hl Hsv Hnew.
  destruct (ship_launch s p key e' (sh_for f) wanted Hl) as (f' & -> & He' & Hc').
  assert (Hset : settling_names (fresh_shipment (sh_for f) wanted p f' :: fs) = key :: settling_names fs).
  { unfold settling_names. cbn. unfold sh_settles at 1, settles_name, sh_callback. cbn. rewrite He'.
    by destruct e'. }
  assert (Hold : settling_names (f :: fs) = key :: settling_names fs).
  { unfold settling_names. cbn. unfold sh_settles at 1, settles_name. unfold sh_errand in He.
    rewrite He. by destruct e. }
  refine (titles_step key s s G G [f] [_] fs Ht _ _ _ _ _ _ _ _ _); try done.
  - apply Forall_singleton. split_and!; try done. intros k e1 He1. unfold sh_errand, sh_callback in He1.
    cbn in He1. rewrite He' in He1. injection He1 as <- <-. by apply Hnew.
  - cbn [app]. rewrite Hset, <- Hold. apply Ht.
  - cbn. unfold installed at 1, sh_errand, sh_callback. cbn. rewrite He'.
    pose proof (t_installed _ _ _ Ht) as Hn. cbn in Hn. unfold installed in Hn at 1. rewrite He in Hn.
    destruct e'; try done; by destruct e.
  - cbn [app]. rewrite Hset, <- Hold. apply (t_names _ _ _ Ht).
  - intros k _. cbn [app]. by rewrite Hset, <- Hold.
Qed.

Lemma gate_resumes w env f r c s p s' l G fs key e wanted :
  titles_ok s G (f :: fs) -> resume (sh_callback f) r = Some c ->
  call_promise c (reply_env w env r) s = Done (p, s', l) ->
  hos_extension s = extension -> (forall t, is_Some (tlas s !! t) -> managed t = true) ->
  sh_errand f = Some (key, e) -> is_gate e = true -> titles_ok s' G (ship (sh_for f) wanted p ++ fs).
Proof.
  intros Ht Hc H Hx Hm He Hg. pose proof H as E. apply call_promise_exec in E.
  pose proof (course_of _ _ _ _ _ _ Ht He) as Hok.
  assert (Hr : e <> Er_retry) by (by intros ->).
  assert (Hcargo : cargo_ok s (sh_callback f) None).
  { pose proof (t_shipments _ _ _ Ht) as H1. apply list.Forall_cons in H1 as [(Ho & _) _].
    by rewrite (gate_cargo _ _ _ _ _ He Hg Ho) in Ho. }
  destruct (gate_titles w env (sh_flight f) r c key e s p s' l Hc He Hg Hcargo H) as [[Hp Hst]|[-> Hp]].
  - unfold ship. rewrite Hp. apply (titles_end key e f r c (reply_env w env r) s s' l G fs Ht He Hc E).
    + intros g e' Hgin He' [->|]; [|done]. rewrite Hst. destruct e; try done.
      apply retry_moot. left. by destruct Hok.
    + by eapply gate_blocked.
  - destruct (gate_opens s p key e f _ _ _ Hok Hg Hp) as (e' & Hl & Hr' & Hnew).
    eapply titles_handover; try done.
    destruct Hl as (f0 & Hf0 & ?). eapply launch_served; [done|done|by exists f0|done|done].
Qed.

Lemma resume_titles w env f r c s p s' l G fs wanted :
  titles_ok s G (f :: fs) -> sh_answer f = Some r -> resume (sh_callback f) r = Some c ->
  call_promise c (reply_env w env r) s = Done (p, s', l) ->
  hos_extension s = extension -> (forall t, is_Some (tlas s !! t) -> managed t = true) ->
  titles_ok s' G (ship (sh_for f) wanted p ++ fs).
Proof.
  intros Ht Ha Hc H Hx Hm. pose proof H as E. apply call_promise_exec in E.
  destruct (sh_errand f) as [[key e]|] eqn:He.
  2: { unfold ship. rewrite (stray_launch _ _ _ _ _ _ _ _ Hc He H).
    apply (titles_frame c (reply_env w env r) s s' l); [by eapply titles_drop|exact E| |by eapply reply_leaves_locks].
    destruct (touches c) as [k|] eqn:Ek; [|done].
    destruct (resume_touches _ _ _ _ Hc Ek) as [e' E']. unfold sh_errand, sh_callback in *. congruence. }
  pose proof (course_of _ _ _ _ _ _ Ht He) as Hok.
  assert (Howned : e <> Er_retry -> is_Some (st_owner (standing s key))).
  { intros Hr. destruct e; cbn in Hok; naive_solver. }
  destruct (is_gate e) eqn:Eg.
  { by eapply gate_resumes. }
  destruct (settle_titles w env (sh_flight f) r c key e s p s' l Hc He Eg H Howned) as [Hp Hst].
  unfold ship. rewrite Hp. cbn.
  destruct (decide (e = Er_retry)) as [->|Hr].
  - by eapply retry_resumes.
  - apply (titles_end key e f r c (reply_env w env r) s s' l G fs Ht He Hc E).
    + intros g e' Hg He' Hor Hog. destruct Hor as [->|]; [|done]. rewrite Hst. by eapply settled_rest.
    + destruct (settled_name e f r _ _ _ _
        (fun renter (Ee : e = Er_mint renter) => mint_reply f r key renter ltac:(by eexists) ltac:(congruence))
        Hok Ha Eg Hr) as [H1 H2]. split; rewrite Hst; [exact H1|].
      destruct (st_owner (settled e r (standing s key))); [|exact H2]. intros Hpf _. by apply H2.
Qed.

(** *** An order is carried out *)

(** Every key in a wallet is the one asked for when the registry last had one put
    there, unless a recovery has replaced it since. *)
Definition grants_ok (G : gmap string Grant) (S : Estate) : Prop :=
  forall v, match G !! v with
  | Some g => is_Some (key_of S v) /\ is_Some (gr_key g) /\
      (gr_recovered g = false -> key_of S v = gr_key g ≫= as_key)
  | None => key_of S v = None
  end.

Lemma keyless G S v : grants_ok G S -> key_of S v = None -> who G v = None.
Proof.
  intros H Hv. specialize (H v). unfold who. destruct (G !! v) as [g|]; [|done].
  destruct H as [[k Hk] _]. congruence.
Qed.

Lemma grants_kept G S S' : grants_ok G S -> keys_kept S S' -> grants_ok G S'.
Proof. intros H Hk v. specialize (H v). by rewrite (Hk v). Qed.

Lemma grants_set G S S' h v k :
  grants_ok G S -> key_set S S' v k -> grants_ok (<[v := mkGrant h (Some k) false]> G) S'.
Proof.
  intros H [Hk Hs] u. rewrite (Hs u). destruct (decide (u = v)) as [->|Hne].
  - rewrite lookup_insert_eq. cbn. split_and!; [done|by eexists|done].
  - rewrite lookup_insert_ne by done. apply H.
Qed.

Context `{HWL : !WalletsLaws}.

(** What carrying out an order does: it puts a key into the wallet of the name, or
    changes no key and the reply says so. *)
Definition carried (f : Shipment) (a : Reply) (S S' : Estate) (put : option (AccountId * PublicKey))
    : Prop :=
  match put with
  | Some (v, k) => worked a = true /\ key_set S S' v k /\
      exists e, sh_errand f = Some (v, e) /\ is_gate e = false /\ ((swaps f /\ e <> Er_retry) \/ key_of S v = None)
  | None => keys_kept S S' /\ (is_Some (sh_order f) -> worked a = false)
  end.

(** A re-rental's and a reclaim's transfer is not answered [false], and an account
    that runs no tla-manager does not answer an installation with success: the
    registry would take either for done. *)
Definition no_false_answer (f : Shipment) (x : Circumstance) (r : Reply) (S : Estate) : Prop :=
  match sh_order f with
  | Some (Ord_transfer _ w k None) => (transfer x w k None S).1 <> Ok false
  | Some (Ord_install t _ _) => managed t = false -> worked r = false
  | _ => True
  end.

Lemma carry_out_law s x r f S a S' put :
  in_order S -> cargo_ok s (sh_callback f) (sh_order f) -> served (sh_order f) -> no_false_answer f x r S ->
  carry_out x r f S = (a, S', put) -> in_order S' /\ carried f a S S' put.
Proof.
  intros HS' Hc Hsv Hn. unfold carry_out, carried, sh_errand. unfold no_false_answer in Hn. intros H.
  destruct (sh_order f) as [[y w k ex|t n k d|t w k]|] eqn:Eo; cbn in Hsv.
  - rewrite bool_decide_true in H by done. destruct (transfer x w k ex S) as [b S1] eqn:E.
    injection H as <- <- <-. destruct (transfer_law _ _ _ _ _ _ _ HS' E) as [Hi Hl]. split; [done|].
    assert (Hsw : swaps f) by (by do 4 eexists).
    destruct (swap_done b) eqn:Eb.
    + destruct Hl as [_ Hl]. split; [by destruct b as [[]|], (sh_callback f)|]. split; [done|].
      destruct (sh_callback f); cbn in Hc; try done; destruct_and?; naive_solver.
    + split; [done|]. intros _. destruct (sh_callback f); cbn in Hc |- *; try (by destruct b as [[]|]);
        destruct ex; try naive_solver; destruct b as [[]|]; try done;
        exfalso; apply Hn; by rewrite E.
  - rewrite Hsv in H. destruct (mint x t n k d S) as [o S1] eqn:E. injection H as <- <- <-.
    destruct (mint_law _ _ _ _ _ _ _ _ HS' Hsv E) as [Hi Hl]. split; [done|].
    destruct o as [[]|]; cbn in Hl |- *; try (by split).
    destruct Hl as [Hk Hl]. split_and!; [done|done|].
    destruct (sh_callback f); cbn in Hc; try done; destruct_and?; naive_solver.
  - destruct (managed t) eqn:Hm; [|injection H as <- <- <-; split; [done|]; by split; [|intros _; apply Hn]].
    destruct (install x t w k S) as [b S1] eqn:E. injection H as <- <- <-.
    destruct (install_law _ _ _ _ _ _ _ HS' Hm E) as [Hi Hl]. split; [done|].
    destruct (is_ok b) eqn:Eb; [|split; [done|]; by destruct b].
    destruct Hl as [Hk Hl]. split_and!; [by destruct b|done|].
    destruct (sh_callback f); cbn in Hc; try done; destruct_and?; naive_solver.
  - injection H as <- <- <-. split; [done|]. split; [done|]. by intros [? ?].
Qed.

Lemma retry_granted st h h' (L M : Prop) g :
  st_pending st = false \/ h = None -> errand_ok st h L M g Er_retry ->
  errand_ok st (Some h') L M g Er_retry.
Proof.
  cbn. intros Hst. destruct (done_with g); [|done]. intros (Hp & o & _ & ->). destruct Hst; congruence.
Qed.

Lemma retry_granted_rest st h' (L M : Prop) g e :
  st_pending st = true -> errand_ok st None L M g e -> errand_ok st (Some h') L M g e.
Proof.
  intros Hp Hok. destruct e; cbn in *; rewrite ?Hp in *; try (by destruct_and?).
  - destruct Hok as (? & ? & o & ? & _). eauto 10.
  - destruct Hok as (? & ? & ? & o & ? & Hd). split_and!; [done..|]. exists o. split; [done|].
    destruct (done_with g); [done|by left].
  - destruct (done_with g); [|done]. by destruct Hok as (_ & o & _ & ?).
Qed.

(** The errand whose order put a key in. *)
Lemma errand_granted st h (L M : Prop) f a e :
  errand_ok st h L M f e -> sh_answer f = None -> worked a = true -> is_gate e = false ->
  (swaps f /\ e <> Er_retry) \/ h = None ->
  errand_ok st (Some (sh_for f)) L M (answered f a) e /\ is_Some (st_owner st) /\
  (if decide (e = Er_retry) then st_pending st = true /\ h = None
   else st_pending st = false \/ h = None).
Proof.
  intros Hok Ha Hw Hg Hh. assert (Hd : done_with f = false) by (unfold done_with; by rewrite Ha).
  destruct (decide (e = Er_retry)) as [->|Hr].
  { destruct Hh as [[_ ?]| ->]; [done|]. cbn in Hok. rewrite Hd in Hok. destruct (Hok Ha eq_refl) as (Hp & o & Ho & Hf).
    cbn. unfold done_with. cbn. rewrite Hw, Hp, Ho, Hf. split_and!; eauto. }
  destruct e; try done; cbn in *; rewrite Hd in Hok; unfold done_with; cbn; rewrite ?Hw.
  - destruct Hok as (? & Hp & -> & o & -> & _). split_and!; eauto.
  - destruct Hok as (Hp & ? & -> & -> & _). split_and!; eauto.
  - destruct Hok as (Hp & ? & -> & -> & _). split_and!; eauto.
  - destruct Hok as (? & -> & Hsw & o & -> & _). split_and!; eauto.
    destruct Hh as [[Hs _]|Hh]; [left; by apply Hsw|by right].
Qed.

(** A shipment that has been answered is about the name it was about. *)
Lemma answered_errand f a : sh_errand (answered f a) = sh_errand f.
Proof. done. Qed.
Lemma answered_settling f a fs : settling_names (answered f a :: fs) = settling_names (f :: fs).
Proof. done. Qed.
Lemma unanswered_installed f : sh_answer f = None -> installed f = None.
Proof.
  intros Ha. unfold installed, done_with. rewrite Ha. by destruct (sh_errand f) as [[? []]|].
Qed.

(** The key of a name is installed by one retry at most: it was pending, without a
    key. *)
Lemma granted_once s G f fs a v e :
  titles_ok s G (f :: fs) -> sh_errand f = Some (v, e) -> sh_answer f = None -> worked a = true ->
  (e = Er_retry -> who G v = None) -> NoDup (omap installed (answered f a :: fs)).
Proof.
  intros Ht He Ha Hw Hn. pose proof (t_installed _ _ _ Ht) as H3. cbn in H3.
  rewrite (unanswered_installed f Ha) in H3. cbn. unfold installed at 1. rewrite answered_errand, He.
  assert (Hd : done_with (answered f a) = true) by exact Hw. rewrite Hd.
  destruct (decide (e = Er_retry)) as [->|Hr]; [|by destruct e].
  apply list.NoDup_cons. split; [|done]. intros (g & Hgin & Hgi)%list_elem_of_omap.
  unfold installed in Hgi. destruct (sh_errand g) as [[u []]|] eqn:Eg; try done.
  destruct (done_with g) eqn:Ed; [|done]. injection Hgi as ->.
  pose proof (t_shipments _ _ _ Ht) as H1. rewrite list.Forall_forall in H1.
  destruct (H1 g ltac:(by right)) as (_ & _ & _ & Hcg).
  specialize (Hcg v Er_retry Eg). cbn in Hcg. rewrite Ed in Hcg.
  destruct Hcg as (_ & o & _ & Hh). by rewrite (Hn eq_refl) in Hh.
Qed.

Lemma granted_titles s G f fs a v e :
  titles_ok s G (f :: fs) -> sh_answer f = None -> worked a = true -> is_Some (resume (sh_callback f) a) ->
  sh_errand f = Some (v, e) -> is_gate e = false -> (swaps f /\ e <> Er_retry) \/ who G v = None ->
  titles_ok s (<[v := mkGrant (sh_for f) (sh_key f) false]> G) (answered f a :: fs).
Proof.
  intros Ht Ha Hw Hres He Hg Hh. pose proof Ht as [H1 H2 H3 H4].
  apply list.Forall_cons in H1 as [(Hcargo & Hsv & _ & Hcourse) _].
  destruct (errand_granted _ _ _ _ f a e (Hcourse v e He) Ha Hw Hg Hh) as (Hok & [o Ho] & Hst).
  assert (Hwho : who (<[v := mkGrant (sh_for f) (sh_key f) false]> G) v = Some (sh_for f)).
  { unfold who. by rewrite lookup_insert_eq. }
  refine (titles_step v s s G _ [f] [answered f a] fs Ht _ _ _ _ _ _ _ _ _); try done.
  - intros u Hu. split; [done|]. unfold who. by rewrite lookup_insert_ne.
  - apply Forall_singleton. split_and!; [done|done|by intros ? [= <-]|].
    intros u e' He'. rewrite answered_errand, He in He'. injection He' as <- <-. by rewrite Hwho.
  - intros g e' Hgin He' Hog. rewrite Hwho. destruct (decide (e = Er_retry)) as [->|Hr].
    + destruct Hst as [Hp Hnone]. rewrite Hnone in Hog. by apply retry_granted_rest.
    + assert (e' = Er_retry) as ->; [|by eapply retry_granted].
      destruct (decide (e' = Er_retry)); [done|]. destruct (not_busy_after f fs v e s G); [done..|].
      by eapply elem_settling.
  - eapply granted_once; [done|exact He|done|done|]. intros ->. by destruct Hst.
  - cbn [app]. rewrite answered_settling. unfold name_ok. destruct (H4 v) as [Hp _]. split; [done|].
    rewrite Ho. intros Hpf Hb. exfalso.
    destruct (decide (e = Er_retry)) as [->|Hr]; [destruct Hst; congruence|].
    apply Hb. eapply elem_settling; [by left|exact He|done].
Qed.

(** An order that failed leaves the errand where it was. *)
Lemma errand_refused st h (L M : Prop) f a e :
  errand_ok st h L M f e -> sh_answer f = None -> is_gate e = true \/ worked a = false ->
  errand_ok st h L M (answered f a) e.
Proof.
  intros Hok Ha Hor. assert (Hd : done_with f = false) by (unfold done_with; by rewrite Ha).
  destruct Hor as [Hg|Hwf]; [by destruct e|].
  assert (Hd' : done_with (answered f a) = false) by exact Hwf.
  destruct e; cbn in *; rewrite ?Hd in Hok; rewrite ?Hd'; done.
Qed.

Lemma ordered_errand s f key e :
  cargo_ok s (sh_callback f) (sh_order f) -> sh_errand f = Some (key, e) -> is_gate e = false ->
  is_Some (sh_order f).
Proof.
  intros Hc He Hg. unfold sh_errand in He. destruct (sh_callback f); try done; cbn in Hc; simplify_eq/=;
    naive_solver.
Qed.

Lemma refused_titles s G f fs a :
  titles_ok s G (f :: fs) -> sh_answer f = None -> is_Some (resume (sh_callback f) a) ->
  (is_Some (sh_order f) -> worked a = false) -> titles_ok s G (answered f a :: fs).
Proof.
  intros [H1 H2 H3 H4] Ha Hres Hw.
  apply list.Forall_cons in H1 as [(Hcargo & Hsv & _ & Hcourse) H1].
  cbn in H3. rewrite (unanswered_installed f Ha) in H3.
  assert (Hor : forall key e, sh_errand f = Some (key, e) -> is_gate e = true \/ worked a = false).
  { intros key e He. destruct (is_gate e) eqn:Eg; [by left|]. right. by eapply Hw, ordered_errand. }
  split; [|by rewrite answered_settling| |done].
  - apply list.Forall_cons. split; [|done]. split_and!; [done|done|by intros ? [= <-]|].
    intros key e He. rewrite answered_errand in He. apply errand_refused; [by apply Hcourse|done|by eapply Hor].
  - cbn. unfold installed at 1. rewrite answered_errand.
    destruct (sh_errand f) as [[key []]|] eqn:He; try done. unfold done_with. cbn.
    by destruct (Hor key Er_retry eq_refl) as [?| ->].
Qed.

(** The key put in is the one ordered. *)
Lemma carry_out_key x r f S a S' v k :
  carry_out x r f S = (a, S', Some (v, k)) -> ordered_key (sh_order f) = Some k.
Proof.
  unfold carry_out. destruct (sh_order f) as [[y w k' ex|t n k' d|t w k']|]; [..|done];
    (case_match; [|done]); case_match; intros [= _ _ Hp]; case_match; by simplify_eq/=.
Qed.

Lemma execute_titles s G f fs x r S a S' put :
  titles_ok s G (f :: fs) -> grants_ok G S -> in_order S -> sh_answer f = None ->
  keyed (sh_key f) (sh_callback f) (sh_order f) ->
  no_false_answer f x r S -> carry_out x r f S = (a, S', put) -> is_Some (resume (sh_callback f) a) ->
  titles_ok s (granted f put G) (answered f a :: fs) /\
  grants_ok (granted f put G) S' /\ in_order S'.
Proof.
  intros Ht HG Hin Ha Hkeyed Hn E Hres. pose proof (t_shipments _ _ _ Ht) as H1.
  apply list.Forall_cons in H1 as [(Hcargo & Hsv & _ & _) _].
  destruct (carry_out_law s x r f S a S' put Hin Hcargo Hsv Hn E) as [Hin' Hput].
  destruct put as [[v k]|]; cbn [granted].
  - destruct Hput as (Hw & Hkey & e & He & Hg & Hh).
    assert (Hasked : sh_key f = Some k) by (apply Hkeyed; left; by eapply carry_out_key).
    split; [|split; [rewrite Hasked; by apply (grants_set G S)|done]]. eapply granted_titles; try done.
    destruct Hh as [?|Hh]; [by left|right; by eapply keyless].
  - destruct Hput as [Hk Hw]. split; [by apply refused_titles|split; [by eapply grants_kept|done]].
Qed.
End SystemTitles.
