(* ===== verification/SystemKeys.v ===== *)
(** * Whose key is in a wallet

    File [SystemTitles] follows on whose behalf a wallet holds its key. This file
    follows which key it is: the one named in the rental or purchase that the order
    goes back to, or the registry's parked key, whatever state and promises it has
    passed through on the way. With that, and over any history: a wallet obeys the
    key which the owner on record asked for. *)
From S2P Require Export SystemTitles.

Section SystemKeys.
Context `{HS : !Sdk} `{HL : !SdkLaws} `{HW : !Wallets} `{HWL : !WalletsLaws}.

(** ** The keys in flight *)

(** An order carries the key asked for, and so does a continuation that keeps one;
    a mint in flight was asked for by the name's last renter, with the key he named;
    so was a pending signer, and he still owns the name. *)
Record keys_ok (s : TlaRegistry) (N : Asks) (fs : list Shipment) : Prop := {
  y_keyed : Forall (fun f => keyed (sh_key f) (sh_callback f) (sh_order f)) fs;
  y_mint : Forall (fun f => forall key r, sh_errand f = Some (key, Er_mint r) ->
    exists k, N !! key = Some (r, k) /\ sh_key f = Some k) fs;
  y_pending key k : signer_pending s !! key = Some k ->
    exists o, N !! key = Some (o, k) /\ st_owner (standing s key) = Some o
}.

Lemma keys_perm s N fs fs' : fs ≡ₚ fs' -> keys_ok s N fs -> keys_ok s N fs'.
Proof. intros Hp [H1 H2 H3]. split; [by rewrite <- Hp|by rewrite <- Hp|done]. Qed.

Lemma keys_answered s N f a fs : keys_ok s N (f :: fs) -> keys_ok s N (answered f a :: fs).
Proof.
  intros [H1 H2 H3]. apply list.Forall_cons in H1 as [H1 H1']. apply list.Forall_cons in H2 as [H2 H2'].
  split; [by constructor|by constructor|done].
Qed.

Lemma errand_in_course s G fs f key e :
  titles_ok s G fs -> f ∈ fs -> sh_errand f = Some (key, e) ->
  errand_ok (standing s key) (who G key) (sale_locked s key) (reclaim_locked s key) f e.
Proof.
  intros [H _ _ _] Hf He. rewrite list.Forall_forall in H. destruct (H f Hf) as (_ & _ & _ & Hc).
  by apply Hc.
Qed.

(** *** A user's call *)
Lemma remembered env c (N : Asks) key : touches c <> Some key -> remember env c N !! key = N !! key.
Proof. intros Hc. destruct c; try done; cbn in *; rewrite lookup_insert_ne; congruence. Qed.

Lemma user_leaves_no_pending c key k : is_callback c = false -> leaves_pending c <> Some (key, k).
Proof. by destruct c. Qed.

Lemma touched_unowned c env s p s' l key :
  is_callback c = false -> touches c = Some key -> call_promise c env s = Done (p, s', l) ->
  st_owner (standing s key) = None.
Proof. intros Hc Ht H. by destruct (rental_launches c env s p s' l key Hc Ht H) as (e & _ & ? & _). Qed.

Lemma shipped_keyed s N fs key k :
  keys_ok s N fs -> signer_pending s !! key = Some k -> snd <$> N !! key = Some k.
Proof. intros H Hk. by destruct (y_pending _ _ _ H key k Hk) as (o & -> & _). Qed.

Lemma call_keys c env s p s' l G N fs :
  is_callback c = false -> titles_ok s G fs -> keys_ok s N fs ->
  call_promise c env s = Done (p, s', l) ->
  keys_ok s' (remember env c N) (ship (on_behalf env c) (asks_for s N c) p ++ fs).
Proof.
  intros Hc Ht Hk H. pose proof H as E. apply call_promise_exec in E. pose proof Hk as [H1 H2 H3]. split.
  - apply Forall_app. split; [|done]. unfold ship. apply list.Forall_fmap.
    by apply (launch_keyed c env s N p s' l Hc (fun key k => shipped_keyed s N fs key k Hk)).
  - apply Forall_app. split.
    + unfold ship. apply list.Forall_fmap, list.Forall_forall. intros f Hf key r He.
      assert (Hf1 : flight_of p = [f]).
      { destruct p as [[| |? ? ?]|]; cbn in Hf |- *;
          first [by apply not_elem_of_nil in Hf|by apply list_elem_of_singleton in Hf as ->]. }
      destruct (mint_launch c env s p s' l f key r Hc H Hf1 He) as [-> Htouch].
      destruct c; try done; injection Htouch as <-; cbn; eexists; by rewrite lookup_insert_eq.
    + apply list.Forall_forall. rewrite list.Forall_forall in H2. intros f Hf key r He.
      rewrite remembered; [by apply H2|]. intros Htouch.
      pose proof (touched_unowned c env s p s' l key Hc Htouch H) as Hn.
      pose proof (errand_in_course s G fs f key _ Ht Hf He) as (_ & _ & _ & Ho & _). congruence.
  - intros key k Hp'. destruct (pending_stays c env s s' l key k E Hp') as [Hp|Hp];
      [|by destruct (user_leaves_no_pending c key k Hc)].
    destruct (H3 key k Hp) as (o & HN & Ho). exists o.
    assert (Hne : touches c <> Some key).
    { intros Htouch. pose proof (touched_unowned c env s p s' l key Hc Htouch H). congruence. }
    rewrite remembered by done. split; [done|]. by rewrite (untouched key c env s s' l Hne E).
Qed.

(** *** A callback *)

(** While a signer is pending its name keeps its owner. *)
Lemma settled_pending e r st h (L M : Prop) f o :
  errand_ok st h L M f e -> st_pending st = true -> st_owner st = Some o ->
  st_pending (settled e r st) = true -> st_owner (settled e r st) = Some o.
Proof.
  intros He Hp Ho Hs. destruct e; cbn in *; try done; try (destruct_and?; congruence);
    by destruct (worked r).
Qed.

Lemma pending_flag s key k : signer_pending s !! key = Some k -> st_pending (standing s key) = true.
Proof. intros H. unfold standing. cbn. rewrite H. by apply bool_decide_true. Qed.

(** The standing a callback leaves where it touches the name at all. *)
Lemma resume_standing w env f r c s p s' l G fs key :
  titles_ok s G (f :: fs) -> resume (sh_callback f) r = Some c ->
  call_promise c (reply_env w env r) s = Done (p, s', l) ->
  standing s' key = standing s key \/
  exists e, sh_errand f = Some (key, e) /\
    standing s' key = (if e is Er_re_rent_gate _ then st_disowned (standing s key)
                       else settled e r (standing s key)).
Proof.
  intros Ht Hc H. pose proof H as E. apply call_promise_exec in E.
  destruct (decide (touches c = Some key)) as [Htouch|Hne];
    [|left; by apply (untouched key c (reply_env w env r) s s' l)].
  destruct (resume_touches _ _ _ _ Hc Htouch) as [e He].
  pose proof (course_of _ _ _ _ _ _ Ht He) as Hok. destruct (is_gate e) eqn:Eg.
  - assert (Hcargo : cargo_ok s (sh_callback f) None).
    { pose proof (t_shipments _ _ _ Ht) as H1. apply list.Forall_cons in H1 as [(Ho & _) _].
      by rewrite (gate_cargo _ _ _ _ _ He Eg Ho) in Ho. }
    destruct (gate_titles w env (sh_flight f) r c key e s p s' l Hc He Eg Hcargo H) as [[_ Hst]|[-> _]];
      [|by left].
    destruct e; try done; try (by left). right. by eexists.
  - right. exists e. split; [exact He|].
    assert (Howned : e <> Er_retry -> is_Some (st_owner (standing s key))).
    { intros Hr. destruct e; cbn in Hok; naive_solver. }
    destruct (settle_titles w env (sh_flight f) r c key e s p s' l Hc He Eg H Howned) as [_ ->].
    by destruct e.
Qed.

(** A pending signer that a callback leaves was there before, with its owner, or is
    the one of the mint it settles. *)
Lemma resume_pendings w env f r c s p s' l G N fs key k :
  titles_ok s G (f :: fs) -> keys_ok s N (f :: fs) -> resume (sh_callback f) r = Some c ->
  call_promise c (reply_env w env r) s = Done (p, s', l) -> signer_pending s' !! key = Some k ->
  exists o, N !! key = Some (o, k) /\ st_owner (standing s' key) = Some o.
Proof.
  intros Ht [Hk1 Hk2 Hk3] Hc H Hp'. pose proof H as E. apply call_promise_exec in E.
  pose proof (pending_flag _ _ _ Hp') as Hflag.
  pose proof (resume_standing w env f r c s p s' l G fs key Ht Hc H) as Hst.
  destruct (pending_stays c (reply_env w env r) s s' l key k E Hp') as [Hp|Hp].
  - destruct (Hk3 key k Hp) as (o & HN & Ho). exists o. split; [done|].
    destruct Hst as [->|(e & He & Hst)]; [done|]. pose proof (course_of _ _ _ _ _ _ Ht He) as Hok.
    pose proof (pending_flag _ _ _ Hp) as Hflag0. rewrite Hst in Hflag |- *.
    destruct e; try (by eapply settled_pending). cbn in Hok. destruct_and?. congruence.
  - destruct (resume_pending _ _ _ _ _ Hc Hp) as [Hcb [r0 He]].
    apply list.Forall_cons in Hk1 as [Hk1 _]. apply list.Forall_cons in Hk2 as [Hk2 _].
    destruct (Hk2 key r0 He) as (k' & HN & Hkey). pose proof (Hk1 k (or_intror Hcb)) as Hk.
    assert (k' = k) as -> by congruence. exists r0. split; [done|].
    pose proof (course_of _ _ _ _ _ _ Ht He) as (Hpf & _ & _ & Ho & _).
    destruct Hst as [Hst|(e & He' & Hst)]; [by rewrite Hst|].
    assert (e = Er_mint r0) as -> by (unfold sh_errand, sh_callback in *; congruence).
    rewrite Hst in Hflag |- *.
    cbn in *. destruct r as [|[[]|]| |]; cbn in *; congruence.
Qed.

Lemma key_by_now_gate s f e st h (L M : Prop) :
  errand_ok st h L M f e -> is_gate e = true ->
  key_by_now s (sh_for f) (sh_key f) = if e is Er_reclaim_gate then Some (parked_signer_pubkey s) else sh_key f.
Proof.
  intros Hok Hg. destruct e; try done; cbn in Hok.
  - by destruct Hok as (_ & _ & -> & _).
  - by destruct Hok as (_ & _ & -> & _).
  - by destruct Hok as (_ & -> & _).
Qed.

(** A callback that sends something on is a gate's. *)
Lemma resume_ships w env f r c s p s' l G fs :
  titles_ok s G (f :: fs) -> resume (sh_callback f) r = Some c ->
  call_promise c (reply_env w env r) s = Done (p, s', l) -> flight_of p <> [] ->
  exists key e, sh_errand f = Some (key, e) /\ is_gate e = true.
Proof.
  intros Ht Hc H Hp. destruct (sh_errand f) as [[key e]|] eqn:He.
  2: { destruct Hp. by eapply stray_launch. }
  exists key, e. split; [done|]. destruct (is_gate e) eqn:Eg; [done|].
  pose proof (course_of _ _ _ _ _ _ Ht He) as Hok.
  assert (Howned : e <> Er_retry -> is_Some (st_owner (standing s key))).
  { intros Hr. destruct e; cbn in Hok; naive_solver. }
  destruct Hp. by destruct (settle_titles w env (sh_flight f) r c key e s p s' l Hc He Eg H Howned) as [-> _].
Qed.

(** What a gate sends on is about its name and is no mint. *)
Lemma gate_ships w env f r c s p s' l G fs key e :
  titles_ok s G (f :: fs) -> resume (sh_callback f) r = Some c ->
  call_promise c (reply_env w env r) s = Done (p, s', l) -> sh_errand f = Some (key, e) -> is_gate e = true ->
  Forall (fun f' => exists e', errand (fl_callback f') = Some (key, e') /\ forall x, e' <> Er_mint x) (flight_of p).
Proof.
  intros Ht Hc H He Eg.
  assert (Hcargo : cargo_ok s (sh_callback f) None).
  { pose proof (t_shipments _ _ _ Ht) as H1. apply list.Forall_cons in H1 as [(Ho & _) _].
    by rewrite (gate_cargo _ _ _ _ _ He Eg Ho) in Ho. }
  destruct (gate_titles w env (sh_flight f) r c key e s p s' l Hc He Eg Hcargo H) as [[-> _]|[_ Hp]];
    [by constructor|].
  assert (Hl : exists e', launches s p key e' /\ forall x, e' <> Er_mint x).
  { destruct e; try done; [by eexists|by eexists|]. destruct Hp as [Hp _]. by eexists. }
  destruct Hl as (e' & (f' & -> & He' & _) & Hne). apply Forall_singleton. by exists e'.
Qed.

Lemma resume_keys w env f r c s p s' l G N fs :
  titles_ok s G (f :: fs) -> keys_ok s N (f :: fs) -> resume (sh_callback f) r = Some c ->
  call_promise c (reply_env w env r) s = Done (p, s', l) ->
  keys_ok s' N (ship (sh_for f) (key_by_now s (sh_for f) (sh_key f)) p ++ fs).
Proof.
  intros Ht Hk Hc H. pose proof Hk as [Hk1 Hk2 Hk3].
  apply list.Forall_cons in Hk1 as [Hk1 Hk1']. apply list.Forall_cons in Hk2 as [_ Hk2'].
  split; [| |intros key k; by eapply resume_pendings].
  all: apply Forall_app; split; [|done]; unfold ship.
  all: destruct (decide (flight_of p = [])) as [->|Hp]; [by constructor|].
  all: destruct (resume_ships w env f r c s p s' l G fs Ht Hc H Hp) as (key & e & He & Eg).
  - apply list.Forall_fmap. pose proof (course_of _ _ _ _ _ _ Ht He) as Hok.
    rewrite (key_by_now_gate s f e _ _ _ _ Hok Eg).
    apply (gate_keyed w env (sh_flight f) r c key e (sh_key f) s p s' l Hc He Eg); [|exact H].
    intros k' [?|?]; [done|]. apply Hk1. by right.
  - apply list.Forall_fmap. eapply list.Forall_impl; [by eapply gate_ships|].
    intros f' (e' & He' & Hne) key' x He''. unfold sh_errand, sh_callback in He''. cbn in He''.
    rewrite He' in He''. injection He'' as <- ->. by destruct (Hne x).
Qed.

(** ** Any history *)
Record net_ok (w : Net) : Prop := {
  k_titles : titles_ok (n_reg w) (n_grants w) (n_shipments w);
  k_grants : grants_ok (n_grants w) (n_wallets w);
  k_tlas t : is_Some (tlas (n_reg w) !! t) -> managed t = true;
  k_extension : hos_extension (n_reg w) = extension;
  k_wallets : in_order (n_wallets w);
  k_keys : keys_ok (n_reg w) (n_asks w) (n_shipments w)
}.

(** What the registry's guards do not stop: a purchase in the middle of a rental or
    a reclaim, a reclaim in the middle of a rental, and the clearing of a lock by
    an admin. A purchase or a reclaim in the middle of a sale, and a second
    reclaim, are refused. *)
Definition collides (c : Call) (e : Errand) : bool :=
  match c, e with
  | (Call_buy_sub_account _ _ _ | Call_buy_sub_account_paid _ _ _ _), (Er_sale_gate _ | Er_sale _) => false
  | Call_reclaim_finalize _ _, (Er_sale_gate _ | Er_sale _ | Er_reclaim_gate | Er_reclaim) => false
  | _, Er_retry => false
  | _, _ => true
  end.

(** None of that happens to a name; every account an admin registers as a TLA runs
    tla-manager; and nothing is answered that the registry would wrongly take for a
    transfer or an installation done. *)
Definition orderly (w : Net) (h : Occurrence) : Prop :=
  match h with
  | Oc_call env c =>
      (forall key f e, disturbs c = Some key -> f ∈ n_shipments w -> sh_errand f = Some (key, e) ->
         collides c e = false) /\
      (forall t, registers c = Some t -> managed t = true)
  | Oc_execute i x r =>
      forall f, n_shipments w !! i = Some f -> sh_answer f = None -> no_false_answer f x r (n_wallets w)
  | _ => True
  end.

Lemma pick_shipment (fs : list Shipment) i f : fs !! i = Some f -> fs ≡ₚ f :: delete i fs.
Proof. apply delete_Permutation. Qed.

Lemma put_shipment (fs : list Shipment) i f g :
  fs !! i = Some f -> <[i := g]> fs ≡ₚ g :: delete i fs.
Proof.
  intros Hf. rewrite insert_take_drop by (by eapply lookup_lt_Some).
  rewrite delete_take_drop. symmetry. apply Permutation_middle.
Qed.

Lemma needed_record s G f fs r c :
  titles_ok s G (f :: fs) -> resume (sh_callback f) r = Some c -> has_needed c s.
Proof.
  intros Ht Hc. unfold has_needed. destruct (needs c) as [key|] eqn:En; [|done]. cbn.
  assert (He : exists renter, sh_errand f = Some (key, Er_mint renter)).
  { unfold sh_errand. destruct (sh_callback f), r as [results|o|b|x]; try done;
      cbn [resume] in Hc; try (destruct results as [|? [|]]; try done; []);
      injection Hc as <-; try done; destruct o as [[]|]; try done; injection En as <-; by eexists. }
  destruct He as [renter He]. pose proof (course_of _ _ _ _ _ _ Ht He) as (_ & _ & _ & Ho & _).
  unfold standing in Ho. cbn in Ho. by destruct (sub_accounts s !! key).
Qed.

Lemma settling_shipment fs key :
  key ∈ settling_names fs ->
  exists f e, f ∈ fs /\ sh_settles f = Some key /\ sh_errand f = Some (key, e) /\ e <> Er_retry.
Proof.
  intros (f & Hf & Hs)%list_elem_of_omap. exists f. pose proof Hs as Hs'.
  unfold sh_settles, settles_name, sh_errand in *. rewrite Hs.
  destruct (errand _) as [[k e]|]; [|done]. exists e. by destruct e; simplify_eq.
Qed.

(** The guards stop the rest. *)
Lemma undisturbed c env s p s' l G fs key :
  titles_ok s G fs -> call_promise c env s = Done (p, s', l) -> disturbs c = Some key ->
  (forall f e, f ∈ fs -> sh_errand f = Some (key, e) -> collides c e = false) ->
  key ∉ settling_names fs.
Proof.
  intros Ht H Hd Hc (f & e & Hf & _ & He & Hr)%settling_shipment. specialize (Hc f e Hf He).
  assert (Hcourse : errand_ok (standing s key) (who G key) (sale_locked s key) (reclaim_locked s key) f e).
  { pose proof (t_shipments _ _ _ Ht) as Hall. rewrite list.Forall_forall in Hall.
    destruct (Hall f Hf) as (_ & _ & _ & Ho). by apply Ho. }
  destruct (takes_sale c) as [k|] eqn:Es.
  { assert (k = key) as -> by (destruct c; cbn in *; congruence).
    destruct (buy_titles c key env s p s' l Es H) as (_ & _ & Hi & _).
    destruct c; try done; destruct e; try done; destruct Hcourse as [Hl _]; unfold sale_locked in Hl; congruence. }
  destruct c; try done; try (by destruct e). injection Hd as <-. cbn [call_promise] in H.
  apply returning_inv in H as (q & H & ->).
  destruct (reclaim_titles _ _ _ _ _ _ _ H) as (_ & Hi & Hm & _).
  destruct e; try done; destruct Hcourse as [Hl _]; unfold sale_locked, reclaim_locked in Hl;
    [congruence..| |]; rewrite Hm in Hl; by destruct Hl.
Qed.

Lemma net_call w env c : orderly w (Oc_call env c) -> net_ok w -> net_ok (nstep w (Oc_call env c)).
Proof.
  intros [Hd Hreg] [H1 H2 H3 H4 H5 H6]. cbn. case_bool_decide as Hp; [by split|].
  destruct (call_promise _ _ _) as [[[p s'] l]|] eqn:E; [|by split].
  assert (Hc : is_callback c = false).
  { destruct (is_callback c) eqn:Ec; [|done]. by apply callback_private in E. }
  split; cbn; try done.
  - change (on_behalf env c) with (on_behalf (call_env (registry_world w) env) c).
    eapply call_titles; [exact Hc|exact H4|exact H3| |exact H1|exact E].
    intros key Hk. eapply undisturbed; [exact H1|exact E|exact Hk|]. intros f e. by apply Hd.
  - intros t Ht. destruct (known_tla c _ _ _ _ t (call_promise_exec _ _ _ _ _ _ E) Ht); auto.
  - exact (extension_stays c _ _ _ tt s' l (call_promise_exec _ _ _ _ _ _ E) H4).
  - exact (call_keys c _ _ p s' l _ _ _ Hc H1 H6 E).
Qed.

Lemma net_execute w i x r :
  orderly w (Oc_execute i x r) -> net_ok w -> net_ok (nstep w (Oc_execute i x r)).
Proof.
  intros Ho [H1 H2 H3 H4 H5 H6]. cbn. destruct (n_shipments w !! i) as [f|] eqn:Ef; [|by split].
  case_bool_decide as Ha; [|by split].
  destruct (carry_out x r f (n_wallets w)) as [[a S'] put] eqn:E.
  destruct (resume (sh_callback f) a) as [c|] eqn:Ec; [|by split].
  pose proof (titles_perm _ _ _ _ (pick_shipment _ _ _ Ef) H1) as Ht0.
  pose proof (keys_perm _ _ _ _ (pick_shipment _ _ _ Ef) H6) as Hk.
  pose proof (Forall_inv (y_keyed _ _ _ Hk)) as Hkeyed.
  destruct (execute_titles _ _ _ _ x r _ _ _ _ Ht0 H2 H5 Ha Hkeyed (Ho f Ef Ha) E (mk_is_Some _ _ Ec))
    as (Ht & Hg & Hi).
  split; cbn; try done.
  - eapply titles_perm; [symmetry; by apply (put_shipment _ _ f)|exact Ht].
  - eapply keys_perm; [symmetry; by apply (put_shipment _ _ f)|]. by apply keys_answered.
Qed.

Lemma net_resume w i env : net_ok w -> net_ok (nstep w (Oc_resume i env)).
Proof.
  intros [H1 H2 H3 H4 H5 H6]. cbn. destruct (n_shipments w !! i) as [f|] eqn:Ef; [|by split].
  destruct (sh_answer f) as [r|] eqn:Ea; [|by split].
  destruct (resume (sh_callback f) r) as [c|] eqn:Ec; [|by split].
  pose proof (titles_perm _ _ _ _ (pick_shipment _ _ _ Ef) H1) as Ht.
  destruct (callback_runs (registry_world w) env (sh_flight f) r c (n_reg w) Ec
    (needed_record _ _ _ _ _ _ Ht Ec)) as (p & s' & l & E). rewrite E.
  pose proof (call_promise_exec _ _ _ _ _ _ E) as Ex.
  split; cbn; try done.
  - by eapply resume_titles.
  - intros t Hk. destruct (known_tla c _ _ _ _ t Ex Hk) as [?|Hr]; [by apply H3|].
    by destruct c; try done; apply resume_callback in Ec.
  - exact (extension_stays c _ _ _ tt s' l Ex H4).
  - eapply resume_keys; [exact Ht| |exact Ec|exact E].
    by eapply keys_perm; [apply pick_shipment|].
Qed.

Lemma recovered_who v G key : who (recovered v G) key = who G key.
Proof.
  unfold who, recovered. destruct v as [v|]; [|done].
  rewrite lookup_alter. case_decide; [subst|done]. by destruct (G !! key).
Qed.

Lemma titles_who s G G' fs :
  (forall key, who G' key = who G key) -> titles_ok s G fs -> titles_ok s G' fs.
Proof.
  intros Hw [H1 H2 H3 H4]. split; [|done..|].
  - eapply list.Forall_impl; [exact H1|]. intros f (Hc & Hs & Ha & Ho). split_and!; try done.
    intros key e He. rewrite Hw. by apply Ho.
  - intros key. unfold name_ok. rewrite Hw. apply H4.
Qed.

Lemma net_move w m : net_ok w -> net_ok (nstep w (Oc_wallets m)).
Proof.
  intros [H1 H2 H3 H4 H5 H6]. destruct (move_law m (n_wallets w) H5) as (Hi & Hk & Hp).
  split; cbn; try done.
  - eapply titles_who; [|exact H1]. intros key. apply recovered_who.
  - intros v. specialize (H2 v). specialize (Hp v). unfold recovered.
    destruct (decide (recovering m (n_wallets w) = Some v)) as [E|Hne].
    + rewrite E, lookup_alter_eq. destruct (n_grants w !! v) as [g|]; cbn.
      * split_and!; [|tauto|done]. apply Hp. tauto.
      * destruct (key_of (move m (n_wallets w)) v) eqn:Ek; [|done].
        destruct (proj2 Hp) as [? ?]; [by eexists|congruence].
    + rewrite (Hk v Hne). destruct (recovering m (n_wallets w)) as [u|]; [|exact H2].
      rewrite lookup_alter_ne by congruence. exact H2.
Qed.

Lemma net_step w h : orderly w h -> net_ok w -> net_ok (nstep w h).
Proof.
  destruct h; intros Ho Hw; [by apply net_call|by apply net_execute|by apply net_resume|
    by apply net_move|by destruct Hw].
Qed.

Lemma nrun_ok tr w : net_ok w -> always orderly tr w -> net_ok (nrun tr w).
Proof. apply nrun_invariant. intros. by apply net_step. Qed.

(** *** Where a run starts, and whether one is orderly *)
Definition first_day (s : TlaRegistry) (balance : Z) (S : Estate) : Net := mkNet s balance [] S ∅ ∅.

Lemma fresh_net_ok s balance S :
  sub_accounts s = ∅ -> signer_pending s = ∅ -> parked_names s = ∅ ->
  (forall t, is_Some (tlas s !! t) -> managed t = true) -> hos_extension s = extension ->
  in_order S -> (forall v, key_of S v = None) -> net_ok (first_day s balance S).
Proof.
  intros H1 H2 H3 Ht Hx Hi Hk. split; cbn; try done.
  - split; [constructor|apply NoDup_nil_2|apply NoDup_nil_2|]. intros key. unfold name_ok, standing, who.
    by rewrite H1, H2, H3, !lookup_empty.
  - split; [constructor..|]. intros key k. by rewrite H2.
Qed.

Definition calm (c : Call) (f : Shipment) : bool :=
  match sh_errand f with
  | Some (key, e) => negb (bool_decide (disturbs c = Some key)) || negb (collides c e)
  | None => true
  end.
Definition answers_truly (f : Shipment) (x : Circumstance) (r : Reply) (S : Estate) : bool :=
  match sh_order f with
  | Some (Ord_transfer _ w k None) => match (transfer x w k None S).1 with Ok false => false | _ => true end
  | Some (Ord_install t _ _) => managed t || negb (worked r)
  | _ => true
  end.
Definition orderly_b (w : Net) (h : Occurrence) : bool :=
  match h with
  | Oc_call env c =>
      forallb (calm c) (n_shipments w) && from_option managed true (registers c)
  | Oc_execute i x r =>
      from_option (fun f => negb (bool_decide (sh_answer f = None)) || answers_truly f x r (n_wallets w)) true
        (n_shipments w !! i)
  | _ => true
  end.
Fixpoint always_b (tr : list Occurrence) (w : Net) : bool :=
  match tr with
  | [] => true
  | h :: tr => orderly_b w h && always_b tr (nstep w h)
  end.

Lemma orderly_b_sound w h : orderly_b w h = true -> orderly w h.
Proof.
  destruct h as [env c|i x r|i env|m|amount]; cbn; try done.
  - intros [Hf Hm]%andb_prop. split.
    + intros key f e Hd Hin He. rewrite forallb_forall in Hf. apply list_elem_of_In in Hin.
      specialize (Hf f Hin). unfold calm in Hf. rewrite He, bool_decide_true in Hf by done. cbn in Hf.
      by destruct (collides c e).
    + intros t Ht. by rewrite Ht in Hm.
  - intros H f Hf Ha. rewrite Hf in H. cbn in H. rewrite bool_decide_true in H by done. cbn in H.
    unfold answers_truly, no_false_answer in *. destruct (sh_order f) as [[y w' k [k'|]| |t w' k]|]; try done.
    + intros E. by rewrite E in H.
    + intros Hm. rewrite Hm in H. cbn in H. by destruct (worked r).
Qed.

Lemma always_b_sound tr w : always_b tr w = true -> always orderly tr w.
Proof.
  revert w. induction tr as [|h tr IH]; intros w; cbn; [done|].
  intros [Ho Ht]%andb_prop. split; [by apply orderly_b_sound|by apply IH].
Qed.

(** *** Where every key comes from *)

(** Whatever is in flight, granted or remembered was asked for, by [A]. *)
Record traced (A : string -> Holder -> PublicKey -> Prop) (w : Net) : Prop := {
  r_shipments : Forall (fun f => forall key e k, sh_errand f = Some (key, e) -> sh_key f = Some k ->
    A key (sh_for f) k) (n_shipments w);
  r_grants key g k : n_grants w !! key = Some g -> gr_key g = Some k -> A key (gr_for g) k;
  r_asks key o k : n_asks w !! key = Some (o, k) -> A key (Held o) k
}.

(** [A] covers what is asked for at a step. *)
Definition covers (A : string -> Holder -> PublicKey -> Prop) (w : Net) (h : Occurrence) : Prop :=
  (forall key, A key Parked (parked_signer_pubkey (n_reg w))) /\
  forall env c key k, h = Oc_call env c -> accepts w env c -> names_key c = Some (key, k) ->
    A key (Held (predecessor_account_id env)) k.

(** The one name a launching call of a user is about. *)
Lemma call_errand c env s p s' l :
  is_callback c = false -> call_promise c env s = Done (p, s', l) ->
  Forall (fun f => forall key e, errand (fl_callback f) = Some (key, e) ->
    touches c = Some key \/ takes_sale c = Some key \/ takes_reclaim c = Some key \/ retries c = Some key)
    (flight_of p).
Proof.
  intros Hc H.
  assert (Hl : forall key e, launches s p key e -> Forall (fun f => forall key' e',
    errand (fl_callback f) = Some (key', e') -> key' = key) (flight_of p)).
  { intros key e (f & -> & He & _). apply Forall_singleton. congruence. }
  destruct (touches c) as [key|] eqn:E1.
  { destruct (rental_launches c env s p s' l key Hc E1 H) as (e & Hp & _).
    eapply list.Forall_impl; [by eapply Hl|]. intros f Hf k e' He. left. f_equal. by rewrite (Hf k e' He). }
  destruct (takes_sale c) as [key|] eqn:E2.
  { destruct (buy_titles c key env s p s' l E2 H) as (_ & _ & _ & _ & [Hp|Hp]);
      (eapply list.Forall_impl; [by eapply Hl|]); intros f Hf k e' He; right; left; by rewrite (Hf k e' He). }
  destruct (takes_reclaim c) as [key|] eqn:E3.
  { destruct c; try done; cbn [call_promise] in H; apply returning_inv in H as (q & H & ->). injection E3 as <-.
    destruct (reclaim_titles _ _ _ _ _ _ _ H) as (_ & _ & _ & _ & [Hp|[Hp _]]);
      (eapply list.Forall_impl; [by eapply Hl|]); intros f Hf k e' He; right; right; left;
      by rewrite (Hf k e' He). }
  destruct (retries c) as [key|] eqn:E4.
  { destruct c; try done; cbn [call_promise] in H; apply returning_inv in H as (q & H & ->). injection E4 as <-.
    destruct (retry_titles _ _ _ _ _ _ _ H) as (_ & _ & f & k & -> & Hcb & _).
    apply Forall_singleton. rewrite Hcb. cbn. intros k' e' [= <- <-]. by right; right; right. }
  eapply list.Forall_impl; [by apply (quiet_launch c env s p s' l)|].
  intros f [He _] k e' He'. congruence.
Qed.

Lemma named_by_caller c key k s N :
  touches c = Some key \/ takes_sale c = Some key -> is_callback c = false ->
  asks_for s N c = Some k -> names_key c = Some (key, k).
Proof. intros [Hc|Hc] Hcb Hk; destruct c; try done; cbn in *; congruence. Qed.

Lemma traced_call A w env c :
  net_ok w -> covers A w (Oc_call env c) -> traced A w -> traced A (nstep w (Oc_call env c)).
Proof.
  intros [H1 _ _ _ _ H6] [HP HA] [R1 R2 R3]. cbn. case_bool_decide as Hpr; [by split|].
  destruct (call_promise _ _ _) as [[[p s'] l]|] eqn:E; [|by split].
  assert (Hacc : accepts w env c) by (split; [done|by eexists]).
  assert (Hc : is_callback c = false).
  { destruct (is_callback c) eqn:Ec; [|done]. by apply callback_private in E. }
  split; cbn; [|done|].
  - apply Forall_app. split; [|done]. unfold ship. apply list.Forall_fmap.
    eapply list.Forall_impl; [by eapply (call_errand c)|]. intros f Hf key e k He Hk. cbn in Hk |- *.
    destruct (Hf key e He) as [Ht|[Hs|[Hr|Hr]]].
    + replace (on_behalf env c) with (Held (predecessor_account_id env)) by (by destruct c).
      by apply (HA env c key k), (named_by_caller c key k _ _ (or_introl Ht) Hc Hk).
    + replace (on_behalf env c) with (Held (predecessor_account_id env)) by (by destruct c).
      by apply (HA env c key k), (named_by_caller c key k _ _ (or_intror Hs) Hc Hk).
    + destruct c; try done. cbn in Hk |- *. injection Hk as <-. apply HP.
    + destruct c; try done. injection Hr as <-. cbn [call_promise] in E.
      apply returning_inv in E as (q & E & ->). destruct (retry_titles _ _ _ _ _ _ _ E) as (Hpd & Ho & _).
      unfold standing in Hpd. cbn in Hpd. apply bool_decide_eq_true in Hpd as [k' Hpd].
      destruct (y_pending _ _ _ H6 _ _ Hpd) as (o & HN & Ho').
      assert (o = predecessor_account_id env) as -> by (cbn in Ho; congruence).
      cbn in Hk |- *. rewrite HN in Hk. injection Hk as <-. by apply R3.
  - intros key o k Hk. destruct c; cbn in Hk; try (by apply R3);
      apply lookup_insert_Some in Hk as [[<- [= <- <-]]|[_ Hk]]; try (by apply R3); by eapply HA.
Qed.

Lemma traced_execute A w i x r :
  orderly w (Oc_execute i x r) -> net_ok w -> traced A w -> traced A (nstep w (Oc_execute i x r)).
Proof.
  intros Ho [H1 H2 _ _ H5 _] [R1 R2 R3]. cbn.
  destruct (n_shipments w !! i) as [f|] eqn:Ef; [|by split].
  case_bool_decide as Ha; [|by split].
  destruct (carry_out x r f (n_wallets w)) as [[a S'] put] eqn:E.
  destruct (resume (sh_callback f) a) as [c|]; [|by split].
  assert (Hf : f ∈ n_shipments w) by (by eapply list_elem_of_lookup_2).
  pose proof (t_shipments _ _ _ H1) as Hs. rewrite list.Forall_forall in Hs, R1.
  destruct (Hs f Hf) as (Hcargo & Hsv & _). split; cbn; [|..|done].
  - apply list.Forall_forall. intros g Hg.
    apply (elem_of_Permutation_proper g _ _ (put_shipment _ _ f (answered f a) Ef)) in Hg.
    apply elem_of_cons in Hg as [->|Hg]; [exact (R1 f Hf)|]. apply R1.
    apply (elem_of_Permutation_proper g _ _ (pick_shipment _ _ _ Ef)). by right.
  - destruct (carry_out_law _ x r f _ a S' put H5 Hcargo Hsv (Ho f Ef Ha) E) as [_ Hput].
    destruct put as [[v k]|]; [|done]. destruct Hput as (_ & _ & e & He & _).
    intros key g k' Hg Hk. cbn in Hg. apply lookup_insert_Some in Hg as [[<- <-]|[_ Hg]]; [|by eapply R2].
    by eapply (R1 f Hf).
Qed.

Lemma traced_resume A w i env :
  net_ok w -> covers A w (Oc_resume i env) -> traced A w -> traced A (nstep w (Oc_resume i env)).
Proof.
  intros [H1 _ _ _ _ _] [HP _] [R1 R2 R3]. cbn.
  destruct (n_shipments w !! i) as [f|] eqn:Ef; [|by split].
  destruct (sh_answer f) as [r|] eqn:Ea; [|by split].
  destruct (resume (sh_callback f) r) as [c|] eqn:Ec; [|by split].
  pose proof (titles_perm _ _ _ _ (pick_shipment _ _ _ Ef) H1) as Ht.
  rewrite (pick_shipment _ _ _ Ef) in R1. apply list.Forall_cons in R1 as [Rf R1].
  destruct (call_promise _ _ _) as [[[p s'] l]|] eqn:E; [|by split].
  split; cbn; try done. apply Forall_app. split; [|done]. unfold ship. apply list.Forall_fmap.
  destruct (decide (flight_of p = [])) as [->|Hp]; [by constructor|].
  destruct (resume_ships _ _ _ _ _ _ _ _ _ _ _ Ht Ec E Hp) as (key & e & He & Eg).
  eapply list.Forall_impl; [by eapply gate_ships|]. intros f' (e' & He' & _) key' e1 k He1 Hk.
  unfold sh_errand, sh_callback in He1. cbn in He1, Hk |- *. rewrite He' in He1. injection He1 as <- <-.
  destruct (sh_for f) eqn:Ew; cbn in Hk; [|injection Hk as <-; apply HP]. by eapply Rf.
Qed.

Lemma traced_step A w h :
  orderly w h /\ covers A w h -> net_ok w /\ traced A w -> net_ok (nstep w h) /\ traced A (nstep w h).
Proof.
  intros [Ho HA] [Hw Ht]. split; [by apply net_step|].
  destruct h; [by apply traced_call|by apply traced_execute|by apply traced_resume| |by destruct Ht].
  destruct Ht as [R1 R2 R3]. split; cbn; [done| |done].
  intros key g k Hg Hk. unfold recovered in Hg. destruct (recovering _ _) as [v|]; [|by eapply R2].
  rewrite lookup_alter in Hg. case_decide; [|by eapply R2]. subst.
  apply fmap_Some in Hg as (g' & Hg & ->). cbn in *. by eapply R2.
Qed.

Lemma asked_covers tr w : always (covers (asked tr w)) tr w.
Proof.
  apply always_prefix. intros tr1 h tr2 ->. split.
  - intros key. by exists tr1, (h :: tr2).
  - intros env c key k -> Ha Hk. by exists tr1, env, c, tr2.
Qed.

Lemma first_day_traced A s balance S : traced A (first_day s balance S).
Proof. split; [constructor| |]; by intros. Qed.

Lemma nrun_traced tr s balance S :
  net_ok (first_day s balance S) -> always orderly tr (first_day s balance S) ->
  net_ok (nrun tr (first_day s balance S)) /\
  traced (asked tr (first_day s balance S)) (nrun tr (first_day s balance S)).
Proof.
  intros Hw Htr. set (A := asked tr (first_day s balance S)).
  apply (nrun_invariant (fun w h => orderly w h /\ covers A w h) (fun w => net_ok w /\ traced A w)).
  - intros w h. apply traced_step.
  - split; [done|apply first_day_traced].
  - apply always_and; [done|apply asked_covers].
Qed.

(** ** Title and key *)

(** Nothing is in flight that settles [key]. *)
Definition quiet (w : Net) (key : string) : Prop := key ∉ settling_names (n_shipments w).

(** After the history [tr] from [w] the wallet [key] obeys the key [k] that [h] asked
    for, or the one a recovery has replaced [k] with since. *)
Definition obeys (tr : list Occurrence) (w : Net) (key : string) (h : Holder) : Prop :=
  let w' := nrun tr w in
  exists g k, n_grants w' !! key = Some g /\ gr_for g = h /\ gr_key g = Some k /\ asked tr w key h k /\
    is_Some (key_of (n_wallets w') key) /\
    (gr_recovered g = false -> key_of (n_wallets w') key = as_key k).

Lemma who_obeys tr w key h :
  grants_ok (n_grants (nrun tr w)) (n_wallets (nrun tr w)) -> traced (asked tr w) (nrun tr w) ->
  who (n_grants (nrun tr w)) key = Some h -> obeys tr w key h.
Proof.
  intros HG [_ R2 _] Hw. specialize (HG key). unfold who in Hw. apply fmap_Some in Hw as (g & Eg & ->).
  rewrite Eg in HG. destruct HG as (Hk & [k Ek] & Hrec). exists g, k. rewrite Ek in Hrec.
  split_and!; try done. by apply (R2 key g k).
Qed.

(** Along every orderly history: a name with a record and no pending signer about
    which nothing is in flight has a wallet that obeys the key which the owner on
    record named; a parked one obeys the registry's key; a free one has none. *)
Theorem title_and_key_agree tr s0 balance S0 :
  let w := first_day s0 balance S0 in let w' := nrun tr w in let s := n_reg w' in
  net_ok w -> always orderly tr w ->
  (forall key sub, sub_accounts s !! key = Some sub -> signer_pending s !! key = None ->
     quiet w' key -> obeys tr w key (Held (se_owner sub))) /\
  (forall key, sub_accounts s !! key = None -> is_Some (parked_names s !! key) -> obeys tr w key Parked) /\
  (forall key, sub_accounts s !! key = None -> parked_names s !! key = None ->
     key_of (n_wallets w') key = None).
Proof.
  intros w w' s Hw Htr. destruct (nrun_traced tr s0 balance S0 Hw Htr) as [[H1 H2 _ _ _ _] H3].
  fold w w' in H1, H2, H3. fold s in H1.
  assert (Hname := fun key => proj2 (t_names _ _ _ H1 key)). unfold standing in Hname. cbn in Hname.
  split_and!.
  - intros key sub Hs Hp Hq. apply who_obeys; [done..|]. specialize (Hname key). rewrite Hs, Hp in Hname.
    by apply Hname.
  - intros key Hs Hp. apply who_obeys; [done..|]. specialize (Hname key).
    rewrite Hs in Hname. cbn in Hname. by rewrite bool_decide_true in Hname.
  - intros key Hs Hp. specialize (Hname key). rewrite Hs, Hp in Hname. cbn in Hname. specialize (H2 key).
    unfold who in Hname. by destruct (n_grants w' !! key).
Qed.

(** For whom a settlement puts a key into the wallet. *)
Definition serves (e : Errand) (h : Holder) : Prop :=
  match e with
  | Er_sale b | Er_mint b | Er_re_rent b => h = Held b
  | Er_reclaim => h = Parked
  | _ => False
  end.

Lemma settling_holder st h (L M : Prop) f e :
  errand_ok st h L M f e -> e <> Er_retry -> st_pending st = false -> h <> None ->
  (exists o, st_owner st = Some o /\ h = Some (Held o)) \/
  (st_parked st = true /\ h = Some Parked) \/
  (done_with f = true /\ serves e (sh_for f) /\ h = Some (sh_for f)).
Proof.
  intros Hc Hr Hp Hh. destruct e; try done; cbn in Hc; rewrite ?Hp in Hc.
  - left. by destruct Hc as (_ & _ & _ & o & ? & ?); exists o.
  - destruct Hc as (_ & _ & -> & o & Ho & Hh'). destruct (done_with f); [by right; right|left; by exists o].
  - destruct Hc as (_ & _ & -> & _ & Hh'). destruct (done_with f); [by right; right|done].
  - right. left. tauto.
  - destruct Hc as (_ & Hpk & -> & _ & Hh'). right. destruct (done_with f); [by right|by left].
  - destruct Hc as (_ & _ & o & Ho & Hh'). left. exists o. by destruct Hh'.
  - destruct Hc as (_ & -> & _ & o & Ho & Hh'). destruct (done_with f); [by right; right|].
    left. exists o. by destruct Hh'.
Qed.

(** C5: From a first day on which no name is rented or parked and no wallet has a
    key, with the wallets as any contracts that keep the laws of the interface, and
    whatever is in flight, a wallet whose signer is not pending obeys the key which
    the owner on record named in an accepted rental or purchase of the name, or,
    while the name is parked, one that was the registry's parked key, or the key
    named by the buyer or renter, or parked by the registry, whose settlement is in
    flight and has just been carried out (a recovery may have replaced any of them):
    never the seller's after a sale nor a third party's. Excluded are what the
    guards leave open: a purchase while a rental or reclaim of the name is in
    flight, a reclaim while a rental is, an admin's clearing of a lock or mark while
    the name is being settled, an admin's registration of a TLA that runs no
    tla-manager, a forced transfer of a re-rental or reclaim that answers false, and
    an installation, retried at an account that runs no tla-manager, which that
    account answers with success. *)
Theorem no_stranger_holds_a_wallet tr s0 balance S0 key :
  let w := first_day s0 balance S0 in let w' := nrun tr w in let s := n_reg w' in
  net_ok w -> always orderly tr w ->
  is_Some (key_of (n_wallets w') key) -> signer_pending s !! key = None ->
  (exists sub, sub_accounts s !! key = Some sub /\ obeys tr w key (Held (se_owner sub))) \/
  (is_Some (parked_names s !! key) /\ obeys tr w key Parked) \/
  (exists f e h, f ∈ n_shipments w' /\ sh_errand f = Some (key, e) /\ done_with f = true /\
     serves e h /\ obeys tr w key h).
Proof.
  intros w w' s Hw Htr Hk Hp. destruct (nrun_traced tr s0 balance S0 Hw Htr) as [[H1 H2 _ _ _ _] H3].
  fold w w' in H1, H2, H3. fold s in H1.
  assert (Hpf : st_pending (standing s key) = false) by (unfold standing; cbn; by rewrite Hp).
  assert (Hheld : who (n_grants w') key <> None).
  { intros E. specialize (H2 key). unfold who in E. destruct (n_grants w' !! key); [done|].
    rewrite H2 in Hk. by destruct Hk. }
  assert (Howner : forall o, st_owner (standing s key) = Some o -> who (n_grants w') key = Some (Held o) ->
    exists sub, sub_accounts s !! key = Some sub /\ obeys tr w key (Held (se_owner sub))).
  { intros o Ho Hh. unfold standing in Ho. cbn in Ho. apply fmap_Some in Ho as (sub & Es & ->).
    exists sub. split; [done|]. by apply who_obeys. }
  assert (Hparked : st_parked (standing s key) = true -> who (n_grants w') key = Some Parked ->
    is_Some (parked_names s !! key) /\ obeys tr w key Parked).
  { intros Hpk Hh. split; [by apply bool_decide_eq_true in Hpk|by apply who_obeys]. }
  destruct (decide (key ∈ settling_names (n_shipments w'))) as [Hb|Hb].
  - apply settling_shipment in Hb as (f & e & Hf & _ & He & Hr).
    pose proof (errand_in_course _ _ _ _ _ _ H1 Hf He) as Hc.
    destruct (settling_holder _ _ _ _ _ _ Hc Hr Hpf Hheld) as [(o & Ho & Hh)|[[Hpk Hh]|(Hd & Hs & Hh)]].
    + left. by eapply Howner.
    + right. left. by apply Hparked.
    + right. right. exists f, e, (sh_for f). split_and!; [done..|]. by apply who_obeys.
  - destruct (t_names _ _ _ H1 key) as [_ Hn]. destruct (st_owner (standing s key)) as [o|] eqn:Ho.
    + left. apply (Howner o); [done|]. by apply Hn.
    + right. left. by destruct (st_parked (standing s key)); [apply Hparked|].
Qed.
End SystemKeys.
