(* ===== verification/RegistryErrors.v ===== *)
(** * tla-registry: quotes and refusals

    What the views promise a caller, and when the call is refused: the price
    [get_rent_price] quotes is the one a rental asks for, and the error a
    rental reports is that of the first check that fails, in order. The pages
    of [list_tlas] enumerate every TLA once. *)
From S2P Require Export RegistryNames.

Section Errors.
Context `{HS : !Sdk}.

(** ** The checks of a rental, in order *)
Fixpoint first_error (checks : list (bool * ContractError)) : option ContractError :=
  match checks with
  | [] => None
  | (ok, e) :: checks => if ok then first_error checks else Some e
  end.

Lemma first_error_app c1 c2 :
  first_error (c1 ++ c2) = match first_error c1 with Some e => Some e | None => first_error c2 end.
Proof. induction c1 as [|[[] e] c1 IH]; cbn; [done|done|done]. Qed.

Lemma first_error_Some checks e :
  first_error checks = Some e <->
  exists c1 c2, checks = c1 ++ (false, e) :: c2 /\ Forall (fun c => c.1 = true) c1.
Proof.
  induction checks as [|[[] e'] checks IH]; cbn.
  - split; [done|]. by intros ([|? ?] & ? & ? & _).
  - rewrite IH. split.
    + intros (c1 & c2 & -> & Hc). exists ((true, e') :: c1), c2. split; [done|]. by constructor.
    + intros ([|c c1] & c2 & E & Hc); [done|]. injection E as <- ->. inversion Hc. eauto.
  - split; [intros [= ->]; by exists [], checks|].
    intros ([|c c1] & c2 & E & Hc); [by injection E as <-|]. injection E as <- ->. by inversion Hc.
Qed.

Definition is_licensee (tla : TlaEntry) (who : AccountId) : bool :=
  bool_decide (te_licensee tla = Some who).

(** The checks on the TLA, for the one who has to be its licensee. *)
Definition tla_checks (tla : TlaEntry) (who : AccountId) (now : Z) : list (bool * ContractError) :=
  let business := bool_decide (te_tla_type tla = TlaType_Business) in
  [(is_accepting_rentals now tla, TlaNotAcceptingRentals);
   (negb business || bool_decide (is_Some (te_licensee tla)), BusinessTlaMissingLicensee);
   (negb business || is_licensee tla who, OnlyLicensee)].

Definition capacity_check (s : TlaRegistry) (t : AccountId) (tla : TlaEntry) : bool * ContractError :=
  (negb (bool_decide (te_tla_type tla = TlaType_Business)) ||
     (business_count s t <? effective_business_cap s t), MaxBusinessSubsReached).

Definition rental_checks (t : AccountId) (n : string) (w : AccountId) (env : Env) (s : TlaRegistry)
    : list (bool * ContractError) :=
  let key := sub_account_key t n in
  [(negb (paused s), Paused);
   match name_error n with Some reason => (false, InvalidName reason) | None => (true, Paused) end;
   (is_name_available s t n, SubAccountNameTaken);
   (negb (bool_decide (w = key)), MainWalletEqualsSubAccount)] ++
  match tlas s !! t, get_rent_price s t n with
  | Some tla, Done quote =>
      tla_checks tla (predecessor_account_id env) (block_timestamp env) ++
      [(rv_total_yocto quote <=? attached_deposit env, InsufficientPayment);
       capacity_check s t tla;
       (negb (is_name_re_rentable s t n) || bool_decide (is_Some (account_parse key)),
        InvalidSubAccountId)]
  | _, _ => [(false, TlaNotFound)]
  end.

(** [rental_terms] runs the checks on the TLA. *)
Lemma rental_terms_checks t n who env s tla :
  tlas s !! t = Some tla ->
  rental_terms t n who env s =
    match first_error (tla_checks tla who (block_timestamp env)) with
    | Some e => Fail (Failed e)
    | None => Done ((calculate_rent tla t n (fee_config s),
                     bool_decide (te_tla_type tla = TlaType_Business)), s, [])
    end.
Proof.
  intros Ht. unfold rental_terms, tla_checks, is_licensee. nexec. rewrite Ht. nexec.
  destruct (is_accepting_rentals _ tla); nexec; [|done].
  destruct (bool_decide (te_tla_type tla = TlaType_Business)); nexec; [|done].
  destruct (te_licensee tla) as [li|]; nexec; [|done].
  rewrite (bool_decide_ext (who = li) (Some li = Some who)) by naive_solver.
  by case_bool_decide.
Qed.

Lemma bump_checks t tla env s m u :
  tlas s !! t = Some tla ->
  let s1 := s <| mothers := m |> <| mother_use_count := u |> in
  (if bool_decide (te_tla_type tla = TlaType_Business) then business_count_check_and_bump t else mret tt) env s1 =
    if (capacity_check s t tla).1
    then Done (tt, if bool_decide (te_tla_type tla = TlaType_Business)
                   then s1 <| business_sub_count ::= <[t := saturating_add U32_MAX (business_count s1 t) 1]> |>
                   else s1, [])
    else Fail (Failed MaxBusinessSubsReached).
Proof.
  intros Ht s1. unfold capacity_check. case_bool_decide; cbn [negb orb fst]; [|done].
  unfold business_count_check_and_bump. nexec.
  change (business_count s1 t) with (business_count s t).
  change (effective_business_cap s1 t) with (effective_business_cap s t).
  rewrite Z.ltb_antisym. by destruct (_ <=? _).
Qed.

Lemma mother_default_runs user env s :
  exists m u l, ensure_mother_default user env s =
    Done (tt, s <| mothers := m |> <| mother_use_count := u |>, l).
Proof.
  unfold ensure_mother_default, increment_mother_use. nexec.
  case_bool_decide; nexec; [|destruct (is_managed _ user); nexec].
  - exists (mothers s), (mother_use_count s), []. by destruct s.
  - exists (<[user := user]> (mothers s)),
      (<[user := saturating_add U32_MAX (mother_uses s user) 1]> (mother_use_count s)).
    eexists. reflexivity.
  - exists (<[user := user]> (mothers s)), (mother_use_count s). eexists. by destruct s.
Qed.

(** *** Running a method against its checks *)
Definition refuses {A} (env : Env) (s : TlaRegistry) (checks : list (bool * ContractError))
    (m : RegM A) : Prop :=
  match first_error checks with
  | Some e => m env s = Fail (Failed e)
  | None => exists a s' l, m env s = Done (a, s', l)
  end.

(** [m] is the check of [b]. *)
Lemma refuses_check {A B} env s (b : bool) e cs (m : RegM A) (k : A -> RegM B) a s1 l1 :
  m env s = (if b then Done (a, s1, l1) else Fail (Failed e)) ->
  (b = true -> refuses env s1 cs (k a)) -> refuses env s ((b, e) :: cs) (m ≫= k).
Proof.
  unfold refuses. cbn. unfold mbind, NearM_bind. intros -> Hk. destruct b; [|done].
  specialize (Hk eq_refl). destruct (first_error cs); [by rewrite Hk|].
  destruct Hk as (x & s' & l & ->). eauto.
Qed.

Lemma refuses_checks {A B} env s cs1 cs2 (m : RegM A) (k : A -> RegM B) a s1 l1 :
  m env s = match first_error cs1 with Some e => Fail (Failed e) | None => Done (a, s1, l1) end ->
  refuses env s1 cs2 (k a) -> refuses env s (cs1 ++ cs2) (m ≫= k).
Proof.
  unfold refuses. rewrite first_error_app. unfold mbind, NearM_bind. intros -> Hk.
  destruct (first_error cs1); [done|]. destruct (first_error cs2); [by rewrite Hk|].
  destruct Hk as (x & s' & l & ->). eauto.
Qed.

Lemma refuses_step {A B} env s cs (m : RegM A) (k : A -> RegM B) a s1 l1 :
  m env s = Done (a, s1, l1) -> refuses env s1 cs (k a) -> refuses env s cs (m ≫= k).
Proof. intros Hm. by apply (refuses_checks env s [] cs m k a s1 l1). Qed.

Lemma refuses_done {A} env s (a : A) : refuses env s [] (mret a).
Proof. unfold refuses. cbn. eauto. Qed.

Lemma refuses_ok_or {A B} env s (o : option A) e cs (k : A -> RegM B) :
  (forall a, o = Some a -> refuses env s cs (k a)) ->
  refuses env s ((bool_decide (is_Some o), e) :: cs) (ok_or o e ≫= k).
Proof.
  intros Hk. destruct o as [a|]; [|done].
  exact (refuses_check env s true e cs _ k a s [] eq_refl (fun _ => Hk a eq_refl)).
Qed.

Lemma validate_name_check n env s :
  validate_name n env s =
    (if (match name_error n with Some reason => (false, InvalidName reason) | None => (true, Paused) end).1
     then Done (tt, s, [])
     else Fail (Failed (match name_error n with Some reason => (false, InvalidName reason) | None => (true, Paused) end).2)).
Proof. unfold validate_name. by destruct (name_error n). Qed.

Lemma not_paused_check env s :
  assert_not_paused env s = if negb (paused s) then Done (tt, s, []) else Fail (Failed Paused).
Proof. unfold assert_not_paused. nexec. by destruct (paused s). Qed.

Lemma payment_authority_check env s :
  assert_payment_authority env s =
    if bool_decide (predecessor_account_id env ∈ payment_authorities s)
    then Done (predecessor_account_id env, s, []) else Fail (Failed OnlyPaymentAuthority).
Proof. unfold assert_payment_authority. nexec. by case_bool_decide. Qed.

Lemma bool_decide_eq_None {A} (o : option A) :
  negb (bool_decide (is_Some o)) = bool_decide (o = None :> option A).
Proof. by destruct o. Qed.

(** A rent is a [u128]. *)
Lemma calculate_rent_max tla t n cfg :
  sub_fee_per_account cfg <= U128_MAX -> calculate_rent tla t n cfg <= U128_MAX.
Proof.
  intros H. unfold calculate_rent, sub_account_rent, saturating_mul. destruct (te_tla_type tla); [done|].
  destruct (te_premium_category tla); cbn [multiplier]; unfold_max;
    apply Z.div_le_upper_bound; lia.
Qed.

(** C14: rent_sub_account refuses with exactly the error of the first of its checks
    that fails, in the order of the code (pause, form of the name, name already
    taken, main wallet equal to the name, TLA known and accepting rentals, licensee
    of a business TLA, deposit, capacity of a business TLA, and for a parked name
    that its key is an account id), and succeeds when none fails; the price it asks
    for is the one get_rent_price quotes. *)
Theorem rental_refused_exactly t n k w env s :
  sub_fee_per_account (fee_config s) <= U128_MAX ->
  match first_error (rental_checks t n w env s) with
  | Some e => rent_sub_account t n k w env s = Fail (Failed e)
  | None => exists p s' l, rent_sub_account t n k w env s = Done (p, s', l)
  end.
Proof.
  intros Hfee. change (refuses env s (rental_checks t n w env s) (rent_sub_account t n k w)).
  unfold rental_checks, rent_sub_account, get_rent_price, is_name_available, is_name_re_rentable.
  cbn [app]. eapply refuses_check; [apply not_paused_check|intros _].
  rewrite (surjective_pairing (match name_error n with Some _ => _ | None => _ end)).
  eapply refuses_check; [apply validate_name_check|intros _].
  eapply refuses_step; [reflexivity|].
  eapply refuses_check; [reflexivity|intros _].
  eapply refuses_check; [reflexivity|intros _].
  do 2 (eapply refuses_step; [reflexivity|]).
  destruct (tlas s !! t) as [tla|] eqn:Et.
  2: { unfold refuses, rental_terms. nexec. by rewrite Et. }
  eapply refuses_checks; [by apply rental_terms_checks|].
  cbv beta iota. do 2 (eapply refuses_step; [reflexivity|]).
  eapply refuses_check.
  { unfold ensure, rv_total_yocto. rewrite Z.leb_antisym.
    destruct (bool_decide (is_Some (parked_names s !! sub_account_key t n))); [|reflexivity].
    pose proof (calculate_rent_max tla t n (fee_config s) Hfee) as Hr.
    by rewrite saturating_add_exact, Z.add_0_r by lia. }
  intros _. destruct (mother_default_runs (predecessor_account_id env) env s) as (m & u & l & E).
  eapply refuses_step; [exact E|]. rewrite (surjective_pairing (capacity_check s t tla)).
  eapply refuses_check; [by apply bump_checks|intros _].
  do 2 (eapply refuses_step; [reflexivity|]).
  unfold parse_sub_account.
  destruct (bool_decide (is_Some (parked_names s !! sub_account_key t n))); cbn [negb orb].
  - apply refuses_ok_or. intros a _. do 2 (eapply refuses_step; [reflexivity|]).
    destruct (ft_balance_fanout _ a); apply refuses_done.
  - exact (refuses_done _ _ _).
Qed.

(** ** The operator-paid rental *)
Definition paid_rental_checks (t : AccountId) (n : string) (k : PublicKey) (w : AccountId) (env : Env)
    (s : TlaRegistry) : list (bool * ContractError) :=
  let key := sub_account_key t n in
  [(negb (paused s), Paused);
   (bool_decide (predecessor_account_id env ∈ payment_authorities s), OnlyPaymentAuthority);
   match name_error n with Some reason => (false, InvalidName reason) | None => (true, Paused) end;
   (is_ed25519 k, NotEd25519);
   (is_name_available s t n && negb (is_name_re_rentable s t n), SubAccountNameTaken);
   (negb (bool_decide (w = key)), MainWalletEqualsSubAccount)] ++
  match tlas s !! t with
  | Some tla =>
      tla_checks tla w (block_timestamp env) ++
      [(account_creation_deposit (fee_config s) <=? attached_deposit env, InsufficientPayment);
       capacity_check s t tla]
  | None => [(false, TlaNotFound)]
  end.

(** The operator's rental makes the same checks for the licensee it rents for,
    takes no rent, and refuses a name that is parked. *)
Theorem paid_rental_refused_exactly t n k w env s :
  match first_error (paid_rental_checks t n k w env s) with
  | Some e => rent_sub_account_paid t n k w env s = Fail (Failed e)
  | None => exists p s' l, rent_sub_account_paid t n k w env s = Done (p, s', l)
  end.
Proof.
  change (refuses env s (paid_rental_checks t n k w env s) (rent_sub_account_paid t n k w)).
  unfold paid_rental_checks, rent_sub_account_paid, is_name_available, is_name_re_rentable.
  cbn [app]. eapply refuses_check; [apply not_paused_check|intros _].
  eapply refuses_check; [apply payment_authority_check|intros _].
  rewrite (surjective_pairing (match name_error n with Some _ => _ | None => _ end)).
  eapply refuses_check; [apply validate_name_check|intros _].
  eapply refuses_check; [reflexivity|intros _].
  do 2 (eapply refuses_step; [reflexivity|]).
  rewrite bool_decide_eq_None.
  eapply refuses_check; [reflexivity|intros _].
  eapply refuses_check; [reflexivity|intros _].
  destruct (tlas s !! t) as [tla|] eqn:Et.
  2: { unfold refuses, rental_terms. nexec. by rewrite Et. }
  eapply refuses_checks; [by apply rental_terms_checks|].
  cbv beta iota. do 2 (eapply refuses_step; [reflexivity|]).
  eapply refuses_check; [unfold ensure; by rewrite Z.leb_antisym|intros _].
  destruct (mother_default_runs (predecessor_account_id env) env s) as (m & u & l & E).
  eapply refuses_step; [exact E|]. rewrite (surjective_pairing (capacity_check s t tla)).
  eapply refuses_check; [by apply bump_checks|intros _].
  do 2 (eapply refuses_step; [reflexivity|]). apply refuses_done.
Qed.

(** ** The pages of [list_tlas] *)
Definition storage_order (order : list AccountId) (s : TlaRegistry) : Prop :=
  NoDup order /\ forall id, id ∈ order <-> is_Some (tlas s !! id).

Lemma tlas_iter_ids order s :
  storage_order order s -> fst <$> tlas_iter order s = order.
Proof.
  intros [_ Ho]. assert (Hall : Forall (fun id => is_Some (tlas s !! id)) order)
    by (apply list.Forall_forall; intros id; apply Ho).
  clear Ho. induction Hall as [|id order [e He] _ IH]; [done|].
  unfold tlas_iter in *. cbn. rewrite He. cbn. by rewrite IH.
Qed.

(** Consecutive pages of any sizes put together are the longer page; the first
    page of at least as many entries as there are TLAs holds each exactly once.
    An index is taken modulo 2^32: past it the enumeration starts again. *)
Theorem list_tlas_pages order now s from n1 n2 :
  storage_order order s -> 0 <= from -> 0 <= n1 -> 0 <= n2 -> from + n1 + n2 < 2 ^ 32 ->
  list_tlas order now s from n1 ++ list_tlas order now s (from + n1) n2 =
    list_tlas order now s from (n1 + n2) /\
  (Z.of_nat (size (tlas s)) <= n1 -> tv_tla_id <$> list_tlas order now s 0 n1 = order) /\
  list_tlas order now s (from + 2 ^ 32) n1 = list_tlas order now s from n1.
Proof.
  intros Ho Hf H1 H2 Hmax. unfold list_tlas. rewrite !cast_u32_small by (unfold_max; lia). split_and!.
  - rewrite <- fmap_app. f_equal. rewrite !Z2Nat.inj_add by lia.
    by rewrite <- drop_drop, take_take_drop.
  - intros Hsize. rewrite <- list_fmap_compose.
    assert (E : length (tlas_iter order s) = size (tlas s)).
    { rewrite <- (length_fmap fst), tlas_iter_ids by done. destruct Ho as [Hn Ho].
      rewrite <- (size_dom (D := gset AccountId)).
      assert (Ed : dom (tlas s) = (list_to_set order : gset AccountId)).
      { apply set_eq. intros id. by rewrite elem_of_dom, elem_of_list_to_set, Ho. }
      by rewrite Ed, size_list_to_set. }
    change (drop (Z.to_nat 0) (tlas_iter order s)) with (tlas_iter order s).
    rewrite take_ge by (rewrite E; lia). etrans; [|by apply (tlas_iter_ids order s)].
    apply list_fmap_ext. by intros ? [].
  - assert (E : cast_u32 (from + 2 ^ 32) = from); [|by rewrite E].
    unfold cast_u32. rewrite <- (Z.mul_1_l (2 ^ 32)) at 1. rewrite Z.mod_add by done.
    apply Z.mod_small. lia.
Qed.
End Errors.

(** ** Witnesses *)

(** One yocto short of the quote. *)
Lemma rental_refused_exactly_witness :
  get_rent_price demo_registry "web.near" "dave" =
    Done (mkRentPriceView 7500000000000000000000000 10000000000000000000000
            7510000000000000000000000) /\
  rent_sub_account "web.near" "dave" (demo_key 9) "dave.near"
    (registry_call "dave.near" 7509999999999999999999999 2) demo_registry
    = Fail (Failed InsufficientPayment).
Proof.
  split; [vm_eq|].
  assert (E : first_error (rental_checks "web.near" "dave" "dave.near"
    (registry_call "dave.near" 7509999999999999999999999 2) demo_registry) = Some InsufficientPayment)
    by vm_eq.
  pose proof (rental_refused_exactly "web.near" "dave" (demo_key 9) "dave.near"
    (registry_call "dave.near" 7509999999999999999999999 2) demo_registry) as H.
  rewrite E in H. apply H. by apply Z.leb_le.
Defined.

Lemma list_tlas_pages_witness :
  tv_tla_id <$> list_tlas ["web.near"%string] 0 demo_registry 0 5 = ["web.near"%string].
Proof.
  refine (proj1 (proj2 (list_tlas_pages ["web.near"%string] 0 demo_registry 0 5 0 _ _ _ _ _)) _);
    [|done|done|done|done|by apply Z.leb_le].
  split; [apply NoDup_singleton|]. intros id. rewrite list_elem_of_singleton. cbn.
  split; [intros ->; by eexists|]. intros [x Hx]. by apply lookup_singleton_Some in Hx as [-> _].
Defined.
