(* ===== verification/RegistryRefusals.v ===== *)
(** * tla-registry: refusals of the market and of a reclaim

    When a listing, an accepted offer, a purchase or a reclaim is refused, and
    with which error: that of the first check that fails, in the order of the
    code. The checks are data, so what a refusal rules out can be read off. *)
From S2P Require Export RegistryErrors.

Section Refusals.
Context `{HS : !Sdk}.

Definition name_check (n : string) : bool * ContractError :=
  match name_error n with Some reason => (false, InvalidName reason) | None => (true, Paused) end.

(** ** What can be sold *)

(** The checks of [assert_sellable]. *)
Definition sellable_checks (t key : string) (env : Env) (s : TlaRegistry) : list (bool * ContractError) :=
  match account_parse key with
  | None => [(false, InvalidSubAccountId)]
  | Some account =>
      [(negb (0 <? mother_uses s account), SubAccountIsMother);
       (bool_decide (signer_pending s !! key = None), SubAccountNotSellable)] ++
      match sub_accounts s !! key with
      | None => [(false, SubAccountNotFound)]
      | Some sub =>
          [(bool_decide (se_tla_id sub = t), SubAccountTlaMismatch);
           (bool_decide (se_retraction_at sub = None), RetractionPending)] ++
          match tlas s !! t with
          | None => [(false, TlaNotFound)]
          | Some tla =>
              [(negb (bool_decide (te_tla_type tla = TlaType_Business)), BusinessSubNotResellable);
               (bool_decide (te_status tla = TlaStatus_Active), SubAccountNotSellable);
               (bool_decide (effective_sub_lifecycle (block_timestamp env) sub tla
                               (retraction_notice_ns (fee_config s)) (grace_period_ns s)
                             = Lifecycle_Active), SubAccountNotSellable)]
          end
      end
  end.

(** Passing a failing tail. *)
Lemma refuses_fail {A} env s e cs (m : RegM A) : m env s = Fail (Failed e) -> refuses env s ((false, e) :: cs) m.
Proof. done. Qed.

Ltac pass := eapply refuses_step; [reflexivity|].
Ltac check := eapply refuses_check; [reflexivity|intros ?].

(** The checks run, and the caller goes on with the owner. *)
Lemma sellable_refuses {A} t key env s cs (k : AccountId -> RegM A) :
  (forall account sub, account_parse key = Some account -> sub_accounts s !! key = Some sub ->
     refuses env s cs (k (se_owner sub))) ->
  refuses env s (sellable_checks t key env s ++ cs) (assert_sellable key t ≫= k).
Proof.
  intros Hk. set (r := match account_parse key ≫= (fun _ => sub_accounts s !! key) with
                       | Some sub => se_owner sub | None => EmptyString end).
  assert (Hrun : assert_sellable key t env s =
    match first_error (sellable_checks t key env s) with
    | Some e => Fail (Failed e) | None => Done (r, s, []) end).
  { unfold sellable_checks, assert_sellable, parse_sub_account, r. nexec.
    destruct (account_parse key) as [account|]; nexec; [|done].
    destruct (0 <? mother_uses s account); nexec; [done|].
    case_bool_decide; nexec; [|done].
    destruct (sub_accounts s !! key) as [sub|]; nexec; [|done].
    case_bool_decide; nexec; [|done]. case_bool_decide; nexec; [|done].
    destruct (tlas s !! t) as [tla|]; nexec; [|done].
    case_bool_decide; nexec; [done|]. case_bool_decide; nexec; [|done].
    by case_bool_decide; nexec. }
  destruct (first_error (sellable_checks t key env s)) as [e|] eqn:E.
  - unfold refuses. rewrite first_error_app, E. unfold mbind, NearM_bind. by rewrite Hrun.
  - eapply refuses_checks; [by rewrite Hrun, E|]. unfold r. unfold sellable_checks in E.
    destruct (account_parse key) as [account|] eqn:Ea; [|done]. cbn.
    destruct (sub_accounts s !! key) as [sub|] eqn:Es; [by eapply Hk|].
    rewrite first_error_app in E. by destruct (first_error [_; _]).
Qed.

(** ** Listings and offers *)
Definition listing_checks (t : AccountId) (n : string) (price : Z) (k : PublicKey) (env : Env)
    (s : TlaRegistry) : list (bool * ContractError) :=
  let key := sub_account_key t n in
  [(attached_deposit env =? 1, RequiresOneYocto);
   (negb (paused s), Paused);
   name_check n;
   (negb (price =? 0), InvalidPrice);
   (is_ed25519 k, NotEd25519);
   (sale_idle s key, SaleInProgress)] ++
  sellable_checks t key env s ++
  [(bool_decide (Some (predecessor_account_id env) = se_owner <$> sub_accounts s !! key), OnlyOwner)].

Lemma refuses_assoc {A B C} env s cs (m : RegM A) (k : A -> RegM B) (f : B -> RegM C) :
  refuses env s cs (m ≫= (fun a => k a ≫= f)) -> refuses env s cs ((m ≫= k) ≫= f).
Proof.
  unfold refuses. unfold mbind, NearM_bind. destruct (m env s) as [[[a s1] l1]|x]; [|done].
  destruct (k a env s1) as [[[b s2] l2]|x]; [|done]. destruct (f b env s2) as [[[c s3] l3]|x]; [|done].
  destruct (first_error cs); [done|]. intros _. eauto.
Qed.

Ltac assoc :=
  repeat lazymatch goal with |- refuses _ _ _ (mbind _ (mbind _ _)) => apply refuses_assoc end.
Ltac deep tac := assoc; tac.

Lemma listable_refuses {A} t n price k env s (f : AccountId * AccountId -> RegM A) :
  (forall x, exists a s' l, f x env s = Done (a, s', l)) ->
  refuses env s (listing_checks t n price k env s) (assert_listable t n price k ≫= f).
Proof.
  intros Hf. unfold listing_checks, assert_listable, assert_one_yocto, assert_sale_idle. cbn [app].
  deep pass. deep check. deep ltac:(eapply refuses_check; [apply not_paused_check|intros _]).
  deep ltac:(rewrite (surjective_pairing (name_check n)); eapply refuses_check; [apply validate_name_check|intros _]).
  deep check. deep check. deep pass. deep check. assoc.
  apply sellable_refuses. intros account sub Ha Hs. rewrite Hs. deep pass.
  rewrite (bool_decide_ext (Some (predecessor_account_id env) = se_owner <$> Some sub)
    (predecessor_account_id env = se_owner sub)) by (cbn; split; congruence).
  deep check. unfold parse_sub_account. rewrite Ha. deep pass. deep pass.
  destruct (Hf (account, se_owner sub)) as (a & s' & l & E). unfold refuses. cbn. eauto.
Qed.

(** Listing a name, and accepting an offer for it, are refused alike. *)
Theorem listing_refused_exactly t n price k buyer env s :
  match first_error (listing_checks t n price k env s) with
  | Some e => list_sub_account t n price k env s = Fail (Failed e) /\
      accept_offer t n buyer price k env s = Fail (Failed e)
  | None => (exists p s' l, list_sub_account t n price k env s = Done (p, s', l)) /\
      (exists p s' l, accept_offer t n buyer price k env s = Done (p, s', l))
  end.
Proof.
  assert (H1 : refuses env s (listing_checks t n price k env s) (list_sub_account t n price k)).
  { apply listable_refuses. intros [account owner]. do 3 eexists. reflexivity. }
  assert (H2 : refuses env s (listing_checks t n price k env s) (accept_offer t n buyer price k)).
  { apply listable_refuses. intros [account owner]. do 3 eexists. reflexivity. }
  unfold refuses in *. by destruct (first_error _).
Qed.

(** ** Purchases *)

(** What a purchase costs: an offer the buyer was made goes before the listing. *)
Definition price_of (s : TlaRegistry) (key : string) (buyer : AccountId) : option Z :=
  match accepted_offers s !! key with
  | Some o => if bool_decide (ao_buyer o = buyer) then Some (ao_price o) else li_price <$> listings s !! key
  | None => li_price <$> listings s !! key
  end.

Definition purchase_checks (t : AccountId) (n : string) (k : PublicKey) (env : Env) (s : TlaRegistry)
    : list (bool * ContractError) :=
  let key := sub_account_key t n in
  [(negb (paused s), Paused);
   name_check n;
   (is_ed25519 k, NotEd25519);
   (sale_idle s key, SaleInProgress)] ++
  sellable_checks t key env s ++
  match price_of s key (predecessor_account_id env) with
  | Some price => [(price <=? attached_deposit env, PriceNotMet)]
  | None => [(false, NotListed)]
  end.

Lemma sale_lock_runs key buyer deposit env s :
  match price_of s key buyer with
  | Some price =>
      if price <=? deposit
      then exists r s', resolve_and_lock_sale key buyer deposit env s = Done (r, s', [])
      else resolve_and_lock_sale key buyer deposit env s = Fail (Failed PriceNotMet)
  | None => resolve_and_lock_sale key buyer deposit env s = Fail (Failed NotListed)
  end.
Proof.
  unfold price_of, resolve_and_lock_sale, resolve_and_lock_listing.
  assert (Hleb : forall p, (deposit <? p) = negb (p <=? deposit)) by (intros p; apply Z.ltb_antisym).
  nexec. destruct (accepted_offers s !! key) as [o|]; [case_bool_decide|]; nexec.
  - rewrite Hleb. destruct (ao_price o <=? deposit); nexec; eauto.
  - destruct (listings s !! key) as [l|]; nexec; [|done]. rewrite Hleb.
    destruct (li_price l <=? deposit); nexec; eauto.
  - destruct (listings s !! key) as [l|]; nexec; [|done]. rewrite Hleb.
    destruct (li_price l <=? deposit); nexec; eauto.
Qed.

(** C15: buy_sub_account refuses with exactly the error of the first of its checks
    that fails (pause, name, key, settling lock, then what makes the name sellable:
    syntax, mother uses, pending signer, record, TLA, retraction, kind, status,
    lease; then the price of the buyer's own offer or else of the listing) and
    succeeds when none fails. *)
Theorem purchase_refused_exactly t n k env s :
  match first_error (purchase_checks t n k env s) with
  | Some e => buy_sub_account t n k env s = Fail (Failed e)
  | None => exists p s' l, buy_sub_account t n k env s = Done (p, s', l)
  end.
Proof.
  change (refuses env s (purchase_checks t n k env s) (buy_sub_account t n k)).
  unfold purchase_checks, buy_sub_account, assert_sale_idle. cbn [app].
  eapply refuses_check; [apply not_paused_check|intros _].
  rewrite (surjective_pairing (name_check n)). eapply refuses_check; [apply validate_name_check|intros _].
  check. assoc. pass. check. apply sellable_refuses. intros account sub Ha _. pass. pass.
  pose proof (sale_lock_runs (sub_account_key t n) (predecessor_account_id env) (attached_deposit env) env s) as Hl.
  destruct (price_of s _ _) as [price|].
  2: { unfold refuses. cbn. unfold mbind, NearM_bind. by rewrite Hl. }
  destruct (price <=? attached_deposit env).
  2: { unfold refuses. cbn. unfold mbind, NearM_bind. by rewrite Hl. }
  destruct Hl as (r & s' & Hl).
  eapply refuses_check; [exact Hl|intros _]. destruct r as [price' owner_key].
  unfold parse_sub_account. rewrite Ha. do 3 pass. destruct (ft_balance_fanout _ _); apply refuses_done.
Qed.

(** ** Reclaims *)

(** The checks of [resolve_reclaimable]. A name its owner alone anchors is free to
    go. *)
Definition reclaimable_checks (t key : string) (env : Env) (s : TlaRegistry) : list (bool * ContractError) :=
  match account_parse key, sub_accounts s !! key with
  | None, _ => [(false, InvalidSubAccountId)]
  | _, None => [(false, SubAccountNotFound)]
  | Some account, Some sub =>
      let own := if bool_decide (mothers s !! se_owner sub = Some account) then 1 else 0 in
      [(bool_decide (se_tla_id sub = t), SubAccountTlaMismatch);
       (mother_uses s account <=? own, SubAccountIsMother)] ++
      match tlas s !! t with
      | None => [(false, TlaNotFound)]
      | Some tla =>
          [(bool_decide (effective_sub_lifecycle (block_timestamp env) sub tla
                           (retraction_notice_ns (fee_config s)) (grace_period_ns s)
                         = Lifecycle_Reclaimable), SubAccountNotReclaimable)]
      end
  end.

Definition reclaim_checks (t : AccountId) (n : string) (env : Env) (s : TlaRegistry)
    : list (bool * ContractError) :=
  let key := sub_account_key t n in
  [(negb (paused s), Paused);
   name_check n;
   (sale_idle s key, SaleInProgress);
   (bool_decide (reclaim_pending s !! key = None), ReclaimInProgress)] ++
  reclaimable_checks t key env s.

Lemma saturating_sub_pos a b : 0 <= b -> (0 <? saturating_sub a b) = negb (a <=? b).
Proof.
  intros Hb. unfold saturating_sub. destruct (a <=? b) eqn:E; cbn; [apply Z.ltb_ge|apply Z.ltb_lt];
    guards; lia.
Qed.

Lemma reclaimable_run t key env s :
  match first_error (reclaimable_checks t key env s) with
  | Some e => resolve_reclaimable t key env s = Fail (Failed e)
  | None => exists r, resolve_reclaimable t key env s = Done r
  end.
Proof.
  unfold reclaimable_checks, resolve_reclaimable. cbv zeta.
  destruct (account_parse key) as [account|]; [|done].
  destruct (sub_accounts s !! key) as [sub|]; [|done]. cbn [app first_error].
  case_bool_decide; cbn [negb]; [|done].
  assert (E : (0 <? (if bool_decide (mothers s !! se_owner sub = Some account)
                     then saturating_sub (mother_uses s account) 1 else mother_uses s account)) =
    negb (mother_uses s account <=? (if bool_decide (mothers s !! se_owner sub = Some account) then 1 else 0))).
  { case_bool_decide; [by apply saturating_sub_pos|]. by rewrite Z.ltb_antisym. }
  rewrite E. destruct (mother_uses s account <=? _); cbn [negb]; [|done].
  destruct (tlas s !! t) as [tla|]; [|done]. cbn [first_error].
  destruct (bool_decide (effective_sub_lifecycle _ _ _ _ _ = _)); cbn; [by eexists|done].
Qed.

(** A call without a deposit is refused exactly by these checks; with one, it
    panics. *)
Theorem reclaim_refused_exactly t n env s :
  if attached_deposit env =? 0 then
    match first_error (reclaim_checks t n env s) with
    | Some e => reclaim_finalize t n env s = Fail (Failed e)
    | None => exists p s' l, reclaim_finalize t n env s = Done (p, s', l)
    end
  else exists msg, reclaim_finalize t n env s = Fail (Panicked msg).
Proof.
  destruct (attached_deposit env =? 0) eqn:Ed.
  2: { unfold reclaim_finalize, not_payable, require. unfold mbind, NearM_bind. rewrite Ed. by eexists. }
  change (refuses env s (reclaim_checks t n env s) (reclaim_finalize t n)).
  unfold reclaim_checks, reclaim_finalize, assert_sale_idle. cbn [app].
  eapply refuses_step; [unfold not_payable, require; by rewrite Ed|].
  eapply refuses_check; [apply not_paused_check|intros _].
  rewrite (surjective_pairing (name_check n)). eapply refuses_check; [apply validate_name_check|intros _].
  assoc. pass. check. pass. check.
  pose proof (reclaimable_run t (sub_account_key t n) env s) as Hr.
  destruct (first_error (reclaimable_checks t (sub_account_key t n) env s)) as [e|] eqn:E.
  - unfold refuses. rewrite E. unfold mbind, NearM_bind, lift. by rewrite Hr.
  - destruct Hr as [[account destination] Hr]. unfold refuses. rewrite E.
    unfold mbind at 1, NearM_bind at 1, lift. rewrite Hr. nexec.
    destruct (ft_balance_fanout _ _); nexec; [by do 3 eexists|].
    destruct (bool_decide (is_Some (signer_pending s !! _))); nexec; by do 3 eexists.
Qed.
End Refusals.
