(* ===== verification/RegistryWidths.v ===== *)
(** * tla-registry: every stored integer fits its Rust type

    The model keeps integers in [Z] and writes out the saturating and wrapping
    operations of the sources. This file shows the widths are those of the
    Rust declarations: amounts stay [u128], times and the name counter [u64],
    per-TLA counters, use counts and capacities [u32], the commission [u16]. *)
From S2P Require Export RegistryCounts.
From S2P Require Export RegistrySolvency.

Definition is_u16 (x : Z) : Prop := 0 <= x <= U16_MAX.

Section Widths.
Context `{HS : !Sdk}.
Notation run := (run exec).

(** ** The declared widths *)
Definition config_fits (c : FeeConfig) : Prop :=
  is_u128 (tla_allocation_fee c) /\ is_u128 (rent_tier_5 c) /\ is_u128 (rent_tier_8 c) /\
  is_u128 (rent_tier_10 c) /\ is_u128 (rent_tier_12plus c) /\ is_u128 (sub_fee_per_account c) /\
  is_u128 (account_creation_deposit c) /\ is_u32 (business_max_subs c) /\
  is_u64 (retraction_notice_ns c) /\ is_u16 (resale_commission_bps c).

Definition entry_fits (e : SubAccountEntry) : Prop :=
  is_u64 (se_rented_at e) /\ is_u64 (se_expires_at e) /\ from_option is_u64 True (se_retraction_at e).
Definition tla_fits (e : TlaEntry) : Prop := is_u64 (te_activated_at e) /\ is_u64 (te_expires_at e).

Record widths (s : TlaRegistry) : Prop := {
  w_config : config_fits (fee_config s);
  w_revenue : is_u128 (total_revenue s);
  w_pending : is_u128 (total_pending_refunds s) /\ map_Forall (fun _ => is_u128) (pending_refunds s);
  w_count : is_u64 (sub_account_count s);
  w_business : forall t, is_u32 (business_count s t);
  w_uses : map_Forall (fun _ => is_u32) (mother_use_count s);
  w_caps : map_Forall (fun _ => is_u32) (business_sub_cap_override s);
  w_entries : map_Forall (fun _ => entry_fits) (sub_accounts s);
  w_tlas : map_Forall (fun _ => tla_fits) (tlas s);
  w_parked : map_Forall (fun _ p => is_u64 (pk_parked_at p)) (parked_names s);
  w_prices : map_Forall (fun _ l => is_u128 (li_price l)) (listings s) /\
             map_Forall (fun _ o => is_u128 (ao_price o)) (accepted_offers s);
  w_grace : is_u64 (grace_period_ns s)
}.

(** What the types of a call's arguments and of its environment guarantee. *)
Definition env_fits (env : Env) : Prop := is_u64 (block_timestamp env) /\ is_u128 (attached_deposit env).
Definition call_fits (c : Call) : Prop :=
  match c with
  | Call_update_fee_config cfg => config_fits cfg
  | Call_set_business_sub_cap _ (Some cap) => is_u32 cap
  | Call_withdraw x _ | Call_on_claim_refund_settled _ x => is_u128 x
  | Call_list_sub_account _ _ x _ | Call_accept_offer _ _ _ x _ => is_u128 x
  | Call_on_listing_verified _ _ x _ _ _ | Call_on_offer_verified _ _ _ x _ _ _ => is_u128 x
  | Call_on_sub_account_sold _ _ _ price deposit _ => is_u128 price /\ is_u128 deposit
  | Call_on_sub_account_sold_paid _ _ _ _ price _ => is_u128 price
  | Call_on_buy_balances_checked p _ | Call_on_buy_paid_balances_checked p _ _ =>
      is_u128 (pb_price p) /\ is_u128 (pb_deposit p)
  | Call_on_re_rent_balances_checked p _ => is_u128 (pr_rent p) /\ is_u128 (pr_attached p)
  | Call_on_sub_account_created _ _ _ _ rent attached _
  | Call_on_sub_account_created_paid _ _ _ _ rent attached _
  | Call_on_sub_account_re_rented _ _ _ rent attached => is_u128 rent /\ is_u128 attached
  | _ => True
  end.

Lemma sat_fits MAX a b : 0 <= a -> 0 <= b -> 0 <= MAX -> 0 <= saturating_add MAX a b <= MAX.
Proof. unfold saturating_add. lia. Qed.

(** *** Amounts owed *)
Definition pending_fits (s : TlaRegistry) : Prop :=
  is_u128 (total_pending_refunds s) /\ map_Forall (fun _ => is_u128) (pending_refunds s).

Lemma add_pending_fits account amount :
  0 <= amount -> keeps pending_fits (add_pending_refund account amount).
Proof.
  intros Ha env s a s' l H [Ht Hp]. unfold add_pending_refund in H. nrun H. split; cbn.
  - apply sat_fits; [apply Ht|done|unfold_max; lia].
  - apply map_Forall_insert_2; [|done].
    apply sat_fits; [|done|unfold_max; lia]. destruct (pending_refunds s !! account) as [x|] eqn:E; [|done].
    apply (Hp _ _ E).
Qed.

Lemma refund_excess_fits payer attached charged : keeps pending_fits (refund_excess payer attached charged).
Proof.
  unfold refund_excess. case_match; [|apply keeps_ret]. apply add_pending_fits. unfold saturating_sub. lia.
Qed.
#[local] Hint Resolve refund_excess_fits : keeps.

Lemma pending_at_fits s a : pending_fits s -> is_u128 (default 0 (pending_refunds s !! a)).
Proof. intros [_ H]. destruct (_ !! a) as [x|] eqn:E; [apply (H _ _ E)|by unfold_max]. Qed.

Lemma claim_fits : keeps pending_fits claim_refund.
Proof.
  intros env s p s' l H Hs. pose proof (pending_at_fits s (predecessor_account_id env) Hs) as Ha.
  unfold claim_refund in H. nrun H. destruct Hs as [Ht Hp]. split; cbn; [|by apply map_Forall_delete].
  unfold saturating_sub. unfold_max. lia.
Qed.

Lemma exec_pending_fits c : call_fits c -> keeps pending_fits (exec c).
Proof.
  intros Hc. destruct c; cbn [exec call_fits] in *;
    try (apply keeps_bind; [exact claim_fits|intros; apply keeps_ret]); unfold_all; keeps_tac;
    first [ apply add_pending_fits; first [apply Hc|by eapply split_resale_nonneg]
          | cbn; intros [Ht Hp]; repeat case_match; done ].
Qed.

(** *** Configuration and capacities *)
Definition settings_fit (s : TlaRegistry) : Prop :=
  config_fits (fee_config s) /\ map_Forall (fun _ => is_u32) (business_sub_cap_override s) /\
  map_Forall (fun _ => is_u32) (mother_use_count s) /\ is_u64 (grace_period_ns s).

Lemma uses_fit s a : settings_fit s -> is_u32 (mother_uses s a).
Proof.
  intros (_ & _ & H & _). unfold mother_uses. destruct (_ !! a) as [x|] eqn:E; [|by unfold_max].
  apply (H _ _ E).
Qed.

Lemma insert_uses_fit s a x : settings_fit s -> is_u32 x ->
  map_Forall (fun _ => is_u32) (<[a := x]> (mother_use_count s)).
Proof. intros (_ & _ & H & _) Hx. by apply map_Forall_insert_2. Qed.

Lemma use_added_fits s a : settings_fit s -> is_u32 (saturating_add U32_MAX (mother_uses s a) 1).
Proof. intros H. apply sat_fits; [by apply uses_fit|done|by unfold_max]. Qed.

Lemma use_removed_fits s a : settings_fit s -> is_u32 (saturating_sub (mother_uses s a) 1).
Proof. intros H. pose proof (uses_fit s a H). unfold saturating_sub. unfold_max. lia. Qed.

#[local] Hint Resolve insert_uses_fit use_added_fits use_removed_fits : core.

Lemma exec_settings_fit c : call_fits c -> keeps settings_fit (exec c).
Proof.
  intros Hc. destruct c; cbn [exec call_fits] in *; unfold_all; keeps_tac;
    first
      [ apply add_pending_refund_keeps; intros; done
      | intros Hs; pose proof Hs as (H1 & H2 & H3 & H4); repeat case_match; try done;
        (split; [done|split; [|split; [|done]]]); cbn;
        first [done|by auto|by apply map_Forall_delete|by apply map_Forall_insert_2] ].
Qed.

(** *** Counters *)
Definition counters_fit (s : TlaRegistry) : Prop :=
  is_u64 (sub_account_count s) /\ forall t, is_u32 (business_count s t).

Lemma booked_counters e s s' : booked e s s' -> counters_fit s -> counters_fit s'.
Proof.
  unfold booked. intros Hb [Hc Hn].
  assert (Hless : forall t, is_u32 (less_one (business_count s t))).
  { intros t. specialize (Hn t). unfold less_one, saturating_sub, is_u32 in *.
    destruct (Z.eqb_spec (business_count s t) 0); lia. }
  assert (Hmore : forall t, is_u32 (saturating_add U32_MAX (business_count s t) 1)).
  { intros t. apply sat_fits; [apply Hn|done|by unfold_max]. }
  destruct e; cbn in Hb; destruct_and?.
  all: match goal with E : sub_account_count ?x = _ |- counters_fit ?x => split; [rewrite E|intros ?] end.
  all: try match goal with
    | E : forall t, business_count ?y t = _ |- is_u32 (business_count ?y _) => by rewrite E
    | E : same_but _ _ _ _ |- is_u32 (business_count _ ?x) => rewrite (E x); by destruct (_ && _)
    end.
  all: try done.
  - apply sat_fits; [apply Hc|done|by unfold_max].
  - unfold saturating_sub. unfold_max. lia.
Qed.

(** *** Times *)
Lemma max_fits a b : is_u64 a -> is_u64 b -> is_u64 (Z.max a b).
Proof. unfold_max. lia. Qed.

Lemma year_fits now : is_u64 now -> is_u64 (saturating_add U64_MAX now ONE_YEAR_NS).
Proof. intros H. apply sat_fits; [apply H|done|by unfold_max]. Qed.

Lemma name_step_fits env s key c e e' :
  is_u64 (block_timestamp env) -> NameStep env s key c e e' ->
  from_option entry_fits True e -> from_option entry_fits True e'.
Proof.
  intros Hnow H He. destruct H; cbn in *; try done;
    try (split; [done|split; [by apply year_fits|done]]);
    destruct He as (Hr & Hx & Hd); (split; [done|split; [|try done]]); cbn; try done.
  by apply year_fits, max_fits.
Qed.

Lemma exec_entries_fit c env s s' l :
  env_fits env -> exec c env s = Done (tt, s', l) ->
  map_Forall (fun _ => entry_fits) (sub_accounts s) -> map_Forall (fun _ => entry_fits) (sub_accounts s').
Proof.
  intros [Hnow _] H Hs key e' He'.
  pose proof (exec_name_step c env s s' l key H) as Hstep.
  pose proof (name_step_fits _ _ _ _ _ _ Hnow Hstep) as Hf. rewrite He' in Hf. apply Hf.
  destruct (sub_accounts s !! key) as [e|] eqn:E; [|done]. by apply (Hs key).
Qed.

Lemma exec_tlas_fit c env s s' l :
  env_fits env -> exec c env s = Done (tt, s', l) ->
  map_Forall (fun _ => tla_fits) (tlas s) -> map_Forall (fun _ => tla_fits) (tlas s').
Proof.
  intros [Hnow _] H Hs. destruct (writes_tla c) eqn:Ec.
  2: { by rewrite (tlas_keep c _ Ec env s tt s' l H eq_refl). }
  assert (Hk : exists k x, tlas s' = <[k := x]> (tlas s) /\ tla_fits x).
  { destruct c; try done; cbn [exec] in H;
      unfold register_tla, suspend_tla, unsuspend_tla, activate_open_tla, activate_tla, renew_tla in H;
      nrun H; guards;
      repeat match goal with
      | P : add_pending_refund _ _ _ _ = _ |- _ => apply add_pending_refund_tlas in P; cbn in P; rewrite ?P
      | P : tlas s !! _ = Some _ |- _ => apply Hs in P as [? ?]
      end; do 2 eexists; (split; [reflexivity|]); split; cbn; first [done|by apply year_fits|by apply year_fits, max_fits]. }
  destruct Hk as (k & x & -> & Hx). by apply map_Forall_insert_2.
Qed.

Definition parked_fit (s : TlaRegistry) : Prop :=
  map_Forall (fun _ p => is_u64 (pk_parked_at p)) (parked_names s).

Lemma reclaim_parks t n d env s s' l :
  on_reclaim_finalized t n d env s = Done (tt, s', l) ->
  parked_names s' = parked_names s \/
  parked_names s' = <[sub_account_key t n := mkParkedEntry t (block_timestamp env)]> (parked_names s).
Proof.
  unfold on_reclaim_finalized, decrement_mother_use. intros H. nrun H; auto; right;
    match goal with E : business_count_decrement_if_business _ _ _ = _ |- _ =>
      apply business_decrement_counts in E as [[? ->] _] end; cbn; repeat case_match; done.
Qed.

Lemma exec_parked_fit c env s s' l :
  env_fits env -> exec c env s = Done (tt, s', l) -> parked_fit s -> parked_fit s'.
Proof.
  intros [Hnow _] H Hs.
  assert (Hd : (exists t n d, c = Call_on_reclaim_finalized t n d) \/
               match c with Call_on_reclaim_finalized _ _ _ => False | _ => True end)
    by (destruct c; eauto).
  destruct Hd as [(t & n & d & ->)|Hd].
  - cbn in H. destruct (reclaim_parks _ _ _ _ _ _ _ H) as [E|E]; unfold parked_fit; rewrite E; [done|].
    by apply map_Forall_insert_2.
  - assert (Hk : keeps parked_fit (exec c)); [|exact (Hk env s tt s' l H Hs)].
    clear H Hs. destruct c; try done; cbn [exec]; unfold_all; keeps_tac;
      first [ apply add_pending_refund_keeps; intros; done
            | unfold parked_fit; cbn; intros; repeat case_match; first [done|by apply map_Forall_delete] ].
Qed.

(** *** Revenue *)
Definition earns (c : Call) : bool :=
  match c with
  | Call_activate_tla _ | Call_renew_tla _ | Call_renew_sub_account _ _
  | Call_on_sub_account_created _ _ _ _ _ _ _ | Call_on_sub_account_re_rented _ _ _ _ _
  | Call_on_sub_account_sold _ _ _ _ _ _ => true
  | _ => false
  end.

Lemma revenue_keeps c :
  earns c = false -> call_fits c -> keeps (fun s => is_u128 (total_revenue s)) (exec c).
Proof.
  intros Hc Hf. destruct c; try done; cbn [exec call_fits] in *; unfold_all; keeps_tac;
    first [ apply add_pending_refund_keeps; intros; done
          | cbn; intros; repeat case_match; first [done|unfold saturating_sub; unfold_max; lia] ].
Qed.

Lemma pending_revenue account amount env s a s' l :
  add_pending_refund account amount env s = Done (a, s', l) -> total_revenue s' = total_revenue s.
Proof. unfold add_pending_refund. intros H. by nrun H. Qed.

Lemma fits_fees cfg : config_fits cfg -> fees_ok cfg.
Proof. unfold config_fits, fees_ok. unfold_max. unfold is_u16. lia. Qed.

Lemma commission_nonneg price bps c p :
  split_resale price bps = (c, p) -> is_u128 price -> 0 <= bps -> 0 <= c.
Proof.
  intros [= <- <-] [Hp _] Hb. unfold saturating_mul. apply Z.min_glb; [|done].
  apply Z.div_pos; [|done]. unfold_max. lia.
Qed.

Lemma earned_fits c env s s' l :
  call_fits c -> exec c env s = Done (tt, s', l) -> config_fits (fee_config s) ->
  is_u128 (total_revenue s) -> is_u128 (total_revenue s').
Proof.
  intros Hc H Hcfg Hr. destruct (earns c) eqn:Ec; [|exact (revenue_keeps c Ec Hc env s tt s' l H Hr)].
  assert (Hx : exists x, 0 <= x /\
    (total_revenue s' = saturating_add U128_MAX (total_revenue s) x \/ total_revenue s' = total_revenue s)).
  { pose proof (fits_fees _ Hcfg) as Hfees.
    pose proof (fun len => base_rent_nonneg (fee_config s) len Hfees) as Hbase.
    destruct c; try done; cbn [exec call_fits] in *;
      unfold activate_tla, renew_tla, renew_sub_account, on_sub_account_created, record_rental,
        count_sub_account, on_sub_account_re_rented, on_sub_account_sold, settle_failed_mint,
        abort_sale, clear_settling in H; nrun H;
      repeat match goal with
      | P : add_pending_refund _ _ _ _ = _ |- _ => apply pending_revenue in P; cbn in P; rewrite ?P
      | P : business_count_decrement_if_business _ _ _ = _ |- _ =>
          apply business_decrement_counts in P as [[? ->] _]
      end;
      first [ exists 0; split; [done|by right]
            | eexists; split; [|by left];
              first [ apply Hbase | by apply calculate_rent_nonneg | apply Hc
                    | apply sat_fits; [apply Hfees|apply Hbase|by unfold_max]
                    | by eapply commission_nonneg; [eassumption|apply Hc|apply Hfees] ] ]. }
  destruct Hx as (x & Hx & [-> | ->]); [|done].
  apply sat_fits; [apply Hr|done|by unfold_max].
Qed.

(** ** The invariant *)
Lemma exec_widths c env s s' l :
  env_fits env -> call_fits c -> exec c env s = Done (tt, s', l) -> widths s -> widths s'.
Proof.
  intros He Hc H [].
  destruct (exec_settings_fit c Hc env s tt s' l H) as (? & ? & ? & ?); [by split_and!|].
  destruct (exec_pending_fits c Hc env s tt s' l H) as [? ?]; [done|].
  destruct (booked_counters _ _ _ (exec_books _ _ _ _ _ H)) as [? ?]; [done|].
  split; try done.
  - by eapply earned_fits.
  - by eapply exec_entries_fit.
  - by eapply exec_tlas_fit.
  - by eapply exec_parked_fit.
  - refine (prices_keeps is_u128 c _ env s tt s' l H _); [|done]. by destruct c.
Qed.

(** C32: After every history of calls whose arguments have their declared types
    every integer the registry stores is within its declared Rust width: amounts
    u128, times and the name counter u64, per-TLA counters, use counts and
    capacities u32, the commission u16. *)
Theorem stored_integers_fit tr s :
  widths s -> Forall (fun x => env_fits x.1 /\ call_fits x.2) tr -> widths (run tr s).
Proof.
  intros Hs Htr. apply (run_invariant_cond exec (fun x => env_fits x.1 /\ call_fits x.2) widths);
    [|done|done].
  intros [env c] s' [He Hc] Hw. unfold step_state. cbn [fst snd].
  destruct (exec c env s') as [[[[] s''] l]|] eqn:E; [by eapply exec_widths|done].
Qed.

Lemma new_widths env admin ext signer parked grace s :
  is_u64 grace -> new env admin ext signer parked grace = Done s -> widths s.
Proof.
  intros Hg H. unfold new in H. repeat case_match; try done. injection H as <-.
  split; cbn; try apply map_Forall_empty; try done.
Qed.
End Widths.

(** ** Witnesses *)
Lemma stored_integers_fit_witness :
  exists s, new (registry_call "dao.near" 0 0) "dao.near" "ext.hos" "signer.hos" (demo_key 99)
      MIN_GRACE_PERIOD_NS = Done s /\
    widths (run exec
      [(registry_call "dao.near" 0 1, Call_register_tla "web.near" TlaType_Open PremiumCategory_Standard None);
       (registry_call "dao.near" 0 2, Call_activate_open_tla "web.near");
       (registry_call "dave.near" (100 * ONE_NEAR) 3,
          Call_rent_sub_account "web.near" "dave" (demo_key 9) "dave.near")] s).
Proof.
  eexists. split; [reflexivity|]. apply stored_integers_fit.
  - apply (new_widths (registry_call "dao.near" 0 0) "dao.near" "ext.hos" "signer.hos" (demo_key 99)
      MIN_GRACE_PERIOD_NS); [by split; apply Z.leb_le|reflexivity].
  - repeat constructor; cbn; by apply Z.leb_le.
Defined.
