(* ===== verification/RegistryScenarios.v ===== *)
(** * tla-registry: histories worth knowing

    Concrete histories the contract accepts, each evaluated in full: what its
    guards leave possible. *)
From S2P Require Export RegistryNames.

(** A name anchored as a mother while its mint is in flight keeps its use count
    after the mint failed and its record is gone. *)
Definition in_flight : TlaRegistry := demo_registry_with {[demo_name := demo_sub]} ∅ ∅ 0 0.

Lemma mother_count_outlives_failed_mint :
  let s := run exec
    [(registry_call "bob.near" 1 1, Call_set_mother demo_name);
     (registry_callback 2 [], Call_on_sub_account_created "web.near" "bob" "bob.near" (demo_key 7)
                                100 (ONE_NEAR + 100) (Ok MintOutcome_CreationFailed))] in_flight in
  sub_accounts s !! demo_name = None /\ mother_uses s demo_name = 1.
Proof. cbv zeta. split; vm_eq. Qed.

(** The seller can anchor the name while its sale settles; the buyer then owns
    a name that the use count keeps from being listed. *)
Lemma seller_can_anchor_a_name_being_sold :
  let s := run exec
    [(registry_call "bob.near" 1 1, Call_set_mother demo_name);
     (registry_callback 2 [], Call_on_sub_account_sold "web.near" "bob" "carol.near" (10 ^ 24)
                                (10 ^ 24) (Ok true))] demo_settling in
  title s demo_name = Some ("carol.near", "carol.near") /\ mother_uses s demo_name = 1 /\
  exec (Call_list_sub_account "web.near" "bob" 5 (demo_key 8)) (registry_call "carol.near" 1 3) s
    = Fail (Failed SubAccountIsMother).
Proof. cbv zeta. split; [vm_eq|]. split; vm_eq. Qed.

(** [renew_sub_account] does not compare the TLA it is given with the TLA of
    the record: ["bob.web.near"] of ["web.near"] renews as ["bob.web"] of
    ["near"], at the rate of ["near"]. *)
Definition two_tlas : TlaRegistry :=
  demo_registry <| tlas ::= <["near" := mkTlaEntry TlaType_Business TlaStatus_Active (Some "corp.near")
                                          PremiumCategory_Standard 0 (10 ^ 18)]> |>.

Lemma renewal_at_another_tla_rate :
  is_done (exec (Call_renew_sub_account "web.near" "bob")
             (registry_call "bob.near" (ONE_NEAR / 2) 5) two_tlas) = false /\
  is_done (exec (Call_renew_sub_account "near" "bob.web")
             (registry_call "bob.near" (ONE_NEAR / 2) 5) two_tlas) = true.
Proof. split; vm_eq. Qed.

(** The creation deposit a settled rental charges is the one of the
    configuration at the callback, not the amount the mint was funded with. *)
Definition raised_deposit : FeeConfig :=
  mkFeeConfig (1000 * ONE_NEAR) (50 * ONE_NEAR) (20 * ONE_NEAR) (10 * ONE_NEAR) (5 * ONE_NEAR)
    (ONE_NEAR / 2) ONE_NEAR 1000 (7 * 24 * 60 * 60 * 1000000000) 0.

Lemma deposit_charged_at_callback_rate :
  let created := (registry_callback 3 [], Call_on_sub_account_created "web.near" "bob" "bob.near"
                    (demo_key 7) 0 ONE_NEAR (Ok MintOutcome_Active)) in
  get_pending_refund (run exec [created] in_flight) "bob.near" = ONE_NEAR - ONE_NEAR / 100 /\
  get_pending_refund (run exec [(registry_call "dao.near" 0 2, Call_update_fee_config raised_deposit);
                                created] in_flight) "bob.near" = 0.
Proof. cbv zeta. split; vm_eq. Qed.

(** A listing made while a re-rent is in flight outlives its failure: the name
    is free again, and still listed under the old terms. *)
Lemma listing_outlives_failed_re_rent :
  let s := run exec
    [(registry_call "bob.near" 1 1, Call_list_sub_account "web.near" "bob" 5 (demo_key 7));
     (registry_callback 2 [], Call_on_listing_verified "web.near" "bob" 5 (demo_key 7) "bob.near"
        (Ok (ed25519_base58 (demo_key 7))));
     (registry_callback 3 [PromiseResult_Failed],
      Call_on_sub_account_re_rented "web.near" "bob" "bob.near" 100 100)] in_flight in
  sub_accounts s !! demo_name = None /\ listings s !! demo_name = Some (mkListing 5 false (demo_key 7)).
Proof. cbv zeta. split; vm_eq. Qed.

(** A reclaim whose swap did not happen (hos-extension answers [false]) still
    parks the name. *)
Lemma reclaim_parks_without_a_swap :
  let s := run exec
    [(registry_callback (10 ^ 18) [PromiseResult_Successful (as_bytes_str "false")],
      Call_on_reclaim_finalized "web.near" "bob" "bob.near")] in_flight in
  sub_accounts s !! demo_name = None /\
  parked_names s !! demo_name = Some (mkParkedEntry "web.near" (10 ^ 18)).
Proof. cbv zeta. split; vm_eq. Qed.

(** [retry_signer_install] takes the TLA from the caller and checks only the key it
    makes with the name: a pending ["bob.web.near"] can be retried as ["bob.web"] of
    ["near"], an account that need not run tla-manager, whose success clears the
    pending mark. *)
Definition pending_install : TlaRegistry :=
  in_flight <| signer_pending := {[demo_name := demo_key 7]} |>.

Lemma retry_at_another_account :
  (exists p l, retry_signer_install "near" "bob.web" (registry_call "bob.near" 0 2) pending_install =
     Done (PThen (ext_call "near" (Msg_retry_install demo_name (demo_key 7)) 0 RENTAL_GAS_FOR_RETRY_INSTALL)
             (Cb_on_retry_signer_settled demo_name) p, pending_install, l)) /\
  signer_pending (run exec
    [(registry_callback 3 [PromiseResult_Successful []], Call_on_retry_signer_settled demo_name)]
    pending_install) !! demo_name = None.
Proof. split; [|vm_eq]. do 2 eexists. reflexivity. Qed.
