(* ===== verification/System.v ===== *)
(** * The contracts together

    The promise chains that cross contracts, run to their end: each handler is
    taken from its own contract's model and gets the result the previous call
    delivers. A sale moves the title in the registry and the key in
    active-signer together or not at all; a mint hands the new wallet to the
    renter's key; a rental is paid for exactly when the wallet was funded; a
    recovery moves the wallet's key and the recovery policy together. *)
From S2P Require Import ActiveSigner.
From S2P Require Import MpcRecovery.
From S2P Require Import RecoveryWorld.
From S2P Require Import HosExtension.
From S2P Require Import TlaManager.
From S2P Require Import RegistryNames.

Section System.
Context `{HS : !Sdk} `{HW : !DefuseWallet}.

(** ** The forced swap: hos-extension, active-signer, hos-extension

    The environments of the three receipts are arguments. The extension's own
    state is not changed by either of its handlers. *)
Definition forced_swap (x : HosExtension.HosExtension) (g : ActiveSigner.ActiveSigner)
    (env_x env_g env_cb : Env) (wallet : AccountId) (key : PublicKey) (expected : option PublicKey)
    : CallResult bool * ActiveSigner.ActiveSigner :=
  match HosExtension.force_transfer wallet key expected env_x x with
  | Done (PThen (PBatch _ [PA_function_call (Msg_swap_owner w raw eraw) _ _])
            (HosExtension.Cb_after_force_swap w') _, _, _) =>
      let swap := ActiveSigner.swap_owner w raw eraw env_g g in
      (delivered (HosExtension.after_force_swap w' (delivered swap) env_cb x), state_after g swap)
  | _ => (Err PromiseError_Failed, g)
  end.

(** [wallet] has a new owner key and is otherwise reset, as a swap leaves it. *)
Definition key_moved (g g' : ActiveSigner.ActiveSigner) (wallet : AccountId)
    (key : PublicKey) (expected : option PublicKey) : Prop :=
  exists raw k' e, ed25519_base58 key = Some raw /\ ed_from_str raw = Some k' /\
    signers g !! wallet = Some e /\
    (forall ek eraw, expected = Some ek -> ed25519_base58 ek = Some eraw ->
       ed_from_str eraw = Some (ActiveSigner.public_key e)) /\
    signers g' = <[wallet := mkSignerEntry k' (mpc_public_key e) (nonces_new (timeout_secs g))
                              (nonces_new (timeout_secs g)) (last_signed_at e)
                              FreezeState_Unfrozen]> (signers g).

Lemma swap_owner_inv w raw eraw env g b g' l :
  ActiveSigner.swap_owner w raw eraw env g = Done (b, g', l) ->
  if b then
    exists k' e, ed_from_str raw = Some k' /\ signers g !! w = Some e /\
      (forall er, eraw = Some er -> ed_from_str er = Some (ActiveSigner.public_key e)) /\
      signers g' = <[w := mkSignerEntry k' (mpc_public_key e) (nonces_new (timeout_secs g))
                            (nonces_new (timeout_secs g)) (last_signed_at e)
                            FreezeState_Unfrozen]> (signers g)
  else g' = g.
Proof.
  unfold ActiveSigner.swap_owner. intros H. nrun H; guards; try done;
    do 2 eexists; split_and!; try done; intros ? [= ->]; congruence.
Qed.

Lemma after_force_swap_runs w swapped env x :
  predecessor_account_id env = current_account_id env ->
  exists l, HosExtension.after_force_swap w swapped env x =
    Done (match swapped with Ok true => true | _ => false end, x, l).
Proof.
  intros Hp. unfold HosExtension.after_force_swap. nexec. rewrite bool_decide_true by done.
  destruct swapped as [[]|]; cbn; eauto.
Qed.

Lemma forced_swap_outcome x g env_x env_g env_cb w key expected r g' :
  predecessor_account_id env_cb = current_account_id env_cb ->
  forced_swap x g env_x env_g env_cb w key expected = (r, g') ->
  (r = Ok true /\ key_moved g g' w key expected) \/ (r <> Ok true /\ g' = g).
Proof.
  intros Hp. unfold forced_swap.
  destruct (HosExtension.force_transfer w key expected env_x x) as [[[p x'] l]|f] eqn:E.
  2: { intros [= <- <-]. by right. }
  unfold HosExtension.force_transfer in E. nrun E; guards; cbn.
  all: match goal with |- context [ActiveSigner.swap_owner ?w ?a ?b ?e ?g] =>
         destruct (ActiveSigner.swap_owner w a b e g) as [[[b0 g0] l0]|f] eqn:Es; cbn end.
  all: match goal with |- context [HosExtension.after_force_swap ?w ?d ?e ?y] =>
         destruct (after_force_swap_runs w d e y Hp) as [lc ->] end.
  all: cbn; try (by right); apply swap_owner_inv in Es; destruct b0; subst; try (by right).
  all: left; split; [done|]; destruct Es as (k' & e & H1 & H2 & H3 & H4).
  all: do 3 eexists; split_and!; try done.
  - intros ek eraw [= ->] ?. apply H3. congruence.
Qed.

(** ** A sale *)

(** C2: When the promise chain of a purchase (hos-extension's force_transfer,
    active-signer's swap_owner, after_force_swap, the registry's
    on_sub_account_sold) is run to its end, either the record goes to the buyer and
    the wallet's key becomes the buyer's, or neither moves, the locks are open and
    the buyer is owed the whole deposit; the settlement callback never fails. *)
Theorem sale_moves_title_and_key_together x g env_x env_g env_cb st env s sub :
  predecessor_account_id env_cb = current_account_id env_cb ->
  predecessor_account_id env = current_account_id env ->
  let key := sub_account_key (pb_tla_id st) (pb_name st) in
  0 <= pb_price st <= pb_deposit st -> room_for s (pb_deposit st) ->
  0 <= resale_commission_bps (fee_config s) -> sub_accounts s !! key = Some sub ->
  let '(swapped, g') := forced_swap x g env_x env_g env_cb (pb_sub_account st)
                          (pb_new_owner_key st) (Some (pb_owner_key st)) in
  exists s' l,
    on_sub_account_sold (pb_tla_id st) (pb_name st) (pb_buyer st) (pb_price st) (pb_deposit st)
      swapped env s = Done (tt, s', l) /\
    sale_outcome key (pb_buyer st) (pb_price st) (pb_deposit st) swapped s s' /\
    ((handed_over key sub (pb_buyer st) (pb_buyer st) s s' /\
      key_moved g g' (pb_sub_account st) (pb_new_owner_key st) (Some (pb_owner_key st))) \/
     (sale_undone key s s' /\ g' = g)).
Proof.
  intros Hcb Hp key Hpr Hroom Hb Hsub.
  destruct (forced_swap _ _ _ _ _ _ _ _) as [swapped g'] eqn:E.
  destruct (on_sub_account_sold_runs (pb_tla_id st) (pb_name st) (pb_buyer st) (pb_price st)
    (pb_deposit st) swapped env s Hp Hpr Hroom Hb) as (s' & l & Hrun & Hout).
  exists s', l. split; [exact Hrun|]. split; [exact Hout|].
  fold key in Hout. unfold sale_outcome in Hout. rewrite Hsub in Hout.
  apply forced_swap_outcome in E as [[-> Hk]|[Hn ->]]; [left|right|done].
  - by destruct Hout as (_ & _ & ? & _).
  - split; [|done]. by destruct swapped as [[]|]; destruct Hout as (_ & _ & ? & _).
Qed.

(** ** A recovery

    [finalize_recovery] (mpc-recovery), [swap_owner] (active-signer),
    [on_finalized] (mpc-recovery). *)
Definition finalized_recovery (m : MpcRecovery.MpcRecovery) (g : ActiveSigner.ActiveSigner)
    (env_r env_g env_cb : Env) (account : AccountId) (nonce : Z) (block_hash : list Z)
    : MpcRecovery.MpcRecovery * ActiveSigner.ActiveSigner :=
  match MpcRecovery.finalize_recovery account nonce block_hash env_r m with
  | Done (PThen (PBatch _ [PA_function_call (Msg_swap_owner w raw eraw) _ _])
            (MpcRecovery.Cb_on_finalized account' rnd) _, m1, _) =>
      let swap := ActiveSigner.swap_owner w raw eraw env_g g in
      (state_after m1 (MpcRecovery.on_finalized account' rnd (delivered swap) env_cb m1),
       state_after g swap)
  | r => (state_after m r, g)
  end.

(** C13: When an approved wallet recovery is finalised and its promise chain
    (mpc-recovery's finalize_recovery, active-signer's swap_owner, on_finalized) is
    run to its end, the outcome is decided by the wallet's entry: frozen under the
    bound key, the wallet gets the new key unfrozen and the policy is bound to it;
    frozen under another key, the recovery is voided; not frozen or unknown, the
    recovery is approved again. No other account or wallet changes. *)
Theorem recovery_moves_key_and_policy_together `{!SdkLaws} m g env_r env_g env_cb a nonce bh
    signer_id bound ak tl n k r raw braw k' b' :
  recovery_inv m ->
  accounts m !! a =
    Some (mkAccount (mkPolicy (Target_Wallet signer_id bound) ak tl) n (Phase_Approved k r)) ->
  attached_deposit env_r = 0 -> attached_deposit env_g = 0 ->
  predecessor_account_id env_cb = current_account_id env_cb ->
  predecessor_account_id env_g = recovery_authority g ->
  recovery_authority g <> marketplace_authority g ->
  ed25519_base58 k = Some raw -> ed_from_str raw = Some k' ->
  ed25519_base58 bound = Some braw -> ed_from_str braw = Some b' ->
  let '(m', g') := finalized_recovery m g env_r env_g env_cb a nonce bh in
  let account b p := mkAccount (mkPolicy (Target_Wallet signer_id b) ak tl) n p in
  match signers g !! a with
  | Some e =>
      if bool_decide (frozen e = FreezeState_Unfrozen) then
        accounts m' = <[a := account bound (Phase_Approved k r)]> (accounts m) /\ g' = g
      else if bool_decide (ActiveSigner.public_key e = b') then
        accounts m' = <[a := account k Phase_Idle]> (accounts m) /\
        signers g' = <[a := mkSignerEntry k' (mpc_public_key e) (nonces_new (timeout_secs g))
                              (nonces_new (timeout_secs g)) (last_signed_at e)
                              FreezeState_Unfrozen]> (signers g)
      else accounts m' = <[a := account bound Phase_Idle]> (accounts m) /\ g' = g
  | None => accounts m' = <[a := account bound (Phase_Approved k r)]> (accounts m) /\ g' = g
  end.
Proof.
  intros Hinv Ha Hd Hdg Hcb Hp Hne Hraw Hk Hbraw Hb.
  destruct (finalize_wallet_outcome m a signer_id bound ak tl n k r env_r nonce bh Hinv Ha Hd)
    as (raw0 & braw0 & m1 & E1 & E2 & Hfin & Hsettle).
  rewrite Hraw in E1. rewrite Hbraw in E2. simplify_eq.
  pose proof (recovery_swap_runs a raw0 braw0 env_g g k' b' Hdg Hp Hne Hk Hb) as Hswap.
  unfold finalized_recovery. rewrite Hfin. cbn.
  assert (Hset : forall result, exists ev m2, MpcRecovery.on_finalized a r result env_cb m1 =
    Done (tt, m2, ev) /\ accounts m2 = <[a := match result with
       | Ok true => mkAccount (mkPolicy (Target_Wallet signer_id k) ak tl) n Phase_Idle
       | Ok false => mkAccount (mkPolicy (Target_Wallet signer_id bound) ak tl) n Phase_Idle
       | Err _ => mkAccount (mkPolicy (Target_Wallet signer_id bound) ak tl) n (Phase_Approved k r)
       end]> (accounts m)).
  { intros result. destruct (Hsettle env_cb result Hcb) as (m2 & ev & ? & ?). eauto. }
  destruct (signers g !! a) as [e|]; [|destruct Hswap as [f ->]; cbn; by edestruct Hset as (? & ? & -> & ?)].
  repeat case_bool_decide; destruct_and?; destruct Hswap as (? & Hswap);
    try destruct Hswap as (? & Hswap & Hg); rewrite Hswap; cbn;
    edestruct Hset as (? & ? & -> & ?); by split_and?.
Qed.

(** ** A mint *)

(** The install that tla-manager asks of active-signer once the wallet exists. *)
Definition requested_install (m : TlaManager.TlaManager) (g : ActiveSigner.ActiveSigner)
    (env_cb env_g : Env) (account : AccountId) (owner mpc_key : PublicKey)
    : option (Res Empty_set (unit * ActiveSigner.ActiveSigner *
                            list (Effect ActiveSigner.Event (Promise Msg ActiveSigner.Callback)))) :=
  match TlaManager.install_call account owner mpc_key env_cb m with
  | Done (PBatch _ [PA_function_call (Msg_install_signer w raw mk) _ _], _, _) =>
      Some (ActiveSigner.install_signer w raw mk env_g g)
  | _ => None
  end.

(** A mint run to its end, the install on active-signer included. *)
Definition mint (m : TlaManager.TlaManager) (g : ActiveSigner.ActiveSigner) (env env_cb env_g : Env)
    (name : string) (owner : PublicKey) (account : AccountId) (derived : CallResult PublicKey)
    (created : CallResult unit) : option (MintOutcome * Z * Z) * ActiveSigner.ActiveSigner :=
  match usable_key derived, is_ok created with
  | Some mk, true =>
      match requested_install m g env_cb env_g account owner mk with
      | Some r => (mint_chain env env_cb m name owner derived created (delivered r), state_after g r)
      | None => (None, g)
      end
  | _, _ => (mint_chain env env_cb m name owner derived created (Err PromiseError_Failed), g)
  end.

Lemma direct_mint_account m env name owner account `{!SdkLaws} :
  mint_request_ok env m name owner account ->
  account = name +:+ "." +:+ current_account_id env /\
  is_direct_subaccount account (current_account_id env) = true.
Proof.
  intros (_ & Hn & Hd & _ & _ & Ha). apply account_parse_id in Ha as ->.
  split; [done|]. by apply direct_subaccount_of.
Qed.

(** C22: With the tla-manager a minter of active-signer, a mint whose MPC key was
    derived and whose account was created ends with the whole funding in the new
    account and, where active-signer has no entry yet, with an unfrozen entry
    holding the renter's key and the wallet's MPC key and no other wallet changed;
    otherwise it reports the signer as pending and changes nothing there. *)
Theorem mint_hands_wallet_to_renter `{!SdkLaws} m g env env_cb env_g name owner account mk raw k' :
  mint_request_ok env m name owner account ->
  predecessor_account_id env_cb = current_account_id env_cb ->
  predecessor_account_id env_g = current_account_id env -> attached_deposit env_g = 0 ->
  current_account_id env ∈ minters g -> is_ed25519 mk = true ->
  ed25519_base58 owner = Some raw -> ed_from_str raw = Some k' ->
  let '(outcome, g') := mint m g env env_cb env_g name owner account (Ok mk) (Ok tt) in
  match signers g !! account with
  | None =>
      outcome = Some (MintOutcome_Active, attached_deposit env, 0) /\
      signers g' !! account = Some (mkSignerEntry k' mk (nonces_new (timeout_secs g))
                                      (nonces_new (timeout_secs g)) 0 FreezeState_Unfrozen) /\
      forall w, w <> account -> signers g' !! w = signers g !! w
  | Some _ => outcome = Some (MintOutcome_SignerPending, attached_deposit env, 0) /\ g' = g
  end.
Proof.
  intros Hok Hcb Hg Hd Hm Hk Hraw Hk'. pose proof (direct_mint_account _ _ _ _ _ Hok) as [_ Hdir].
  assert (Hi : requested_install m g env_cb env_g account owner mk =
    Some (ActiveSigner.install_signer account raw mk env_g g)).
  { unfold requested_install, TlaManager.install_call, ed25519_base58_or_panic. nexec.
    by rewrite Hraw. }
  unfold mint. cbn [usable_key is_ok]. rewrite Hk, Hi.
  pose proof (fun i => mint_chain_runs env env_cb m name owner account (Ok mk) (Ok tt) i Hok Hcb) as Hchain.
  cbn [usable_key is_ok] in Hchain. rewrite Hk in Hchain. rewrite Hchain.
  assert (Hins : ActiveSigner.install_signer account raw mk env_g g =
    if bool_decide (signers g !! account = None) then
      Done (tt, g <| signers ::= <[account := mkSignerEntry k' mk (nonces_new (timeout_secs g))
                      (nonces_new (timeout_secs g)) 0 FreezeState_Unfrozen]> |>,
            [Emit (ActiveSigner.Event_SignerInstalled account)])
    else Fail (Panicked SIGNER_EXISTS)).
  { unfold ActiveSigner.install_signer. nexec. rewrite Hd. cbn. rewrite Hg, Hdir.
    rewrite bool_decide_true by done. cbn. case_bool_decide; cbn; [|done]. by rewrite Hk, Hk'. }
  rewrite Hins. destruct (signers g !! account) as [e|] eqn:Es; cbn.
  - done.
  - split_and!; [done|by rewrite lookup_insert_eq|]. intros w Hw. by rewrite lookup_insert_ne.
Qed.

(** ** A rental *)

(** C23: Whatever the MPC signer, the account batch and the install answer, the
    funding of a mint ends either in the new account or back with the registry, the
    registry's callback accepts the reported outcome, and its books grow by what was
    attached minus what landed: the renter pays exactly when the wallet was funded. *)
Theorem rental_is_funded `{!SdkLaws} m env_m env_mcb name owner account derived created installed
    env s sub payer rent attached :
  mint_request_ok env_m m name owner account ->
  predecessor_account_id env_mcb = current_account_id env_mcb ->
  attached_deposit env_m = account_creation_deposit (fee_config s) ->
  predecessor_account_id env = current_account_id env ->
  0 <= rent -> 0 <= account_creation_deposit (fee_config s) ->
  rent + account_creation_deposit (fee_config s) <= attached -> room_for s attached ->
  sub_accounts s !! sub_account_key (current_account_id env_m) name = Some sub ->
  sub_account_key (current_account_id env_m) name = account /\
  exists outcome landed returned s' l,
    mint_chain env_m env_mcb m name owner derived created installed = Some (outcome, landed, returned) /\
    landed + returned = attached_deposit env_m /\
    on_sub_account_created (current_account_id env_m) name payer owner rent attached (Ok outcome)
      env s = Done (tt, s', l) /\
    mint_settled account payer owner rent attached (Ok outcome) s s' /\
    liabilities s' = liabilities s + attached - landed /\
    (landed = 0 <-> sub_accounts s' !! account = None \/ account_creation_deposit (fee_config s) = 0).
Proof.
  intros Hok Hcb Hf Hp Hr Hd Ha Hroom Hsub.
  pose proof (direct_mint_account _ _ _ _ _ Hok) as [Eacc _].
  assert (Ekey : sub_account_key (current_account_id env_m) name = account) by (by rewrite Eacc).
  split; [exact Ekey|].
  pose proof (mint_chain_runs env_m env_mcb m name owner account derived created installed Hok Hcb) as Hc.
  assert (Hset : forall o landed returned,
    mint_chain env_m env_mcb m name owner derived created installed = Some (o, landed, returned) ->
    landed + returned = attached_deposit env_m ->
    landed = match o with MintOutcome_CreationFailed => 0 | _ => attached_deposit env_m end ->
    exists outcome landed returned s' l,
    mint_chain env_m env_mcb m name owner derived created installed = Some (outcome, landed, returned) /\
    landed + returned = attached_deposit env_m /\
    on_sub_account_created (current_account_id env_m) name payer owner rent attached (Ok outcome)
      env s = Done (tt, s', l) /\
    mint_settled account payer owner rent attached (Ok outcome) s s' /\
    liabilities s' = liabilities s + attached - landed /\
    (landed = 0 <-> sub_accounts s' !! account = None \/ account_creation_deposit (fee_config s) = 0)).
  { intros o landed returned E1 E2 E3. exists o, landed, returned.
    destruct (on_sub_account_created_runs (current_account_id env_m) name payer owner rent attached (Ok o) env s sub
      Hp Hr Hd Ha Hroom Hsub) as (s' & l & Hrun & Hs).
    rewrite Ekey in Hs. exists s', l. split_and!; try done.
    - destruct o; destruct Hs as ((_ & _ & Hl & _) & _); lia.
    - rewrite <- Ekey in *. destruct o; destruct Hs as (_ & -> & _);
        rewrite ?Hsub, ?lookup_delete_eq; naive_solver lia. }
  rewrite Hc in Hset. rewrite Hc.
  destruct (usable_key derived), (is_ok created), (is_ok installed); eapply Hset; (done || lia).
Qed.

(** ** A swap that cannot happen

    hos-extension turns every failed swap into the value [false] of a call that
    succeeds. A sale reads that value; a re-rent and a reclaim only ask whether
    the call succeeded. *)
Lemma failed_swap_delivers_false x g env_x env_g env_cb w key raw e :
  attached_deposit env_x = 0 -> predecessor_account_id env_x = HosExtension.registry x ->
  HosExtension.paused x = false -> ed25519_base58 key = Some raw ->
  predecessor_account_id env_cb = current_account_id env_cb ->
  predecessor_account_id env_g = marketplace_authority g ->
  signers g !! w = Some e -> frozen e <> FreezeState_Unfrozen ->
  forced_swap x g env_x env_g env_cb w key None = (Ok false, g).
Proof.
  intros Hd Hr Hp Hk Hcb Hm Hs Hf. unfold forced_swap, HosExtension.force_transfer. nexec.
  rewrite Hd. cbn. rewrite Hr, bool_decide_true by done. cbn. rewrite Hp. cbn. rewrite Hk. cbn.
  assert (exists f, ActiveSigner.swap_owner w raw None env_g g = Fail f) as [f E].
  { destruct (ActiveSigner.swap_owner w raw None env_g g) as [[[b g'] l]|f] eqn:E; [|eauto].
    exfalso. unfold ActiveSigner.swap_owner in E. nrun E; guards; try done; congruence. }
  rewrite E. cbn. destruct (after_force_swap_runs w (Err PromiseError_Failed) env_cb x Hcb) as [l ->].
  done.
Qed.
End System.

(** ** Witnesses *)
Definition demo_signers (f : FreezeState) : ActiveSigner.ActiveSigner :=
  mkActiveSigner {["dao.near"]} {["web.near"]} "ext.hos" "rec.hos" "v1.signer" 3600
    {["bob.web.near" := demo_wallet_entry 7 f]}.
Definition demo_purchase : PendingBuy :=
  mkPendingBuy "web.near" "bob" "carol.near" (demo_key 8) (10 ^ 24) (2 * 10 ^ 24) (demo_key 7)
    "bob.web.near".
Definition demo_swap_env : Env := demo_env "ext.hos" "signer.hos" 0 10.

Lemma sale_moves_title_and_key_together_witness :
  let '(swapped, g') := forced_swap demo_extension (demo_signers FreezeState_Unfrozen)
    (extension_call "registry.hos" 0) demo_swap_env (extension_call "ext.hos" 0)
    "bob.web.near" (demo_key 8) (Some (demo_key 7)) in
  exists s' l, on_sub_account_sold "web.near" "bob" "carol.near" (10 ^ 24) (2 * 10 ^ 24) swapped
      (registry_callback 2 []) demo_settling = Done (tt, s', l) /\
    sale_outcome demo_name "carol.near" (10 ^ 24) (2 * 10 ^ 24) swapped demo_settling s'.
Proof.
  pose proof (sale_moves_title_and_key_together demo_extension (demo_signers FreezeState_Unfrozen)
    (extension_call "registry.hos" 0) demo_swap_env (extension_call "ext.hos" 0) demo_purchase
    (registry_callback 2 []) demo_settling demo_sub eq_refl eq_refl) as H.
  cbn [demo_purchase pb_sub_account pb_new_owner_key pb_owner_key pb_tla_id pb_name pb_buyer
       pb_price pb_deposit] in H.
  destruct (forced_swap _ _ _ _ _ _ _ _) as [swapped g'].
  destruct H as (s' & l & E & Ho & _).
  - split; by apply Z.leb_le.
  - split; [apply demo_empty_ledger|]. split; by apply Z.leb_le.
  - by apply Z.leb_le.
  - vm_eq.
  - exists s', l. split; [exact E|exact Ho].
Defined.

Definition demo_funding : Z := ONE_NEAR / 100.
Definition demo_manager : TlaManager.TlaManager :=
  TlaManager.mkTlaManager "registry.hos" "signer.hos" "v1.signer" demo_funding.
Definition demo_mint_env (deposit : Z) : Env := demo_env "registry.hos" "web.near" deposit 10.
Definition demo_manager_cb : Env := demo_env "web.near" "web.near" 0 11.

Lemma demo_mint_ok deposit :
  (demo_funding <=? deposit) = true ->
  mint_request_ok (demo_mint_env deposit) demo_manager "alice" (demo_key 5) "alice.web.near".
Proof.
  intros Hd. unfold mint_request_ok. split; [reflexivity|]. split; [discriminate|].
  split; [apply (bool_decide_eq_false (byte_lit "." ∈ as_bytes_str "alice")); vm_eq|].
  split; [reflexivity|]. split; [by apply Z.leb_le|reflexivity].
Qed.

Lemma mint_hands_wallet_to_renter_witness :
  let '(outcome, g') := mint demo_manager (demo_signers FreezeState_Unfrozen)
    (demo_mint_env demo_funding) demo_manager_cb (demo_env "web.near" "signer.hos" 0 12)
    "alice" (demo_key 5) "alice.web.near" (Ok (demo_key 71)) (Ok tt) in
  outcome = Some (MintOutcome_Active, demo_funding, 0).
Proof.
  pose proof (mint_hands_wallet_to_renter demo_manager (demo_signers FreezeState_Unfrozen)
    (demo_mint_env demo_funding) demo_manager_cb (demo_env "web.near" "signer.hos" 0 12)
    "alice" (demo_key 5) "alice.web.near" (demo_key 71) (demo_raw 5) (demo_raw 5)
    (demo_mint_ok demo_funding eq_refl) eq_refl eq_refl eq_refl) as H.
  destruct (mint _ _ _ _ _ _ _ _ _ _) as [outcome g'].
  assert (E : signers (demo_signers FreezeState_Unfrozen) !! "alice.web.near" = None) by vm_eq.
  rewrite E in H. apply H.
  - apply (bool_decide_eq_true ("web.near" ∈ minters (demo_signers FreezeState_Unfrozen))). vm_eq.
  - reflexivity.
  - vm_eq.
  - vm_eq.
Defined.

Lemma rental_is_funded_witness :
  exists outcome landed returned s' l,
    mint_chain (demo_mint_env demo_funding) demo_manager_cb demo_manager "alice" (demo_key 5)
      (Ok (demo_key 71)) (Err PromiseError_Failed) (Ok tt) = Some (outcome, landed, returned) /\
    landed + returned = demo_funding /\
    on_sub_account_created "web.near" "alice" "alice.near" (demo_key 5) 100 (demo_funding + 150)
      (Ok outcome) (registry_callback 2 [])
      (demo_registry_with {["alice.web.near" := demo_sub]} ∅ ∅ 0 0) = Done (tt, s', l).
Proof.
  destruct (rental_is_funded demo_manager (demo_mint_env demo_funding) demo_manager_cb "alice" (demo_key 5)
    "alice.web.near" (Ok (demo_key 71)) (Err PromiseError_Failed) (Ok tt) (registry_callback 2 [])
    (demo_registry_with {["alice.web.near" := demo_sub]} ∅ ∅ 0 0) demo_sub "alice.near" 100
    (demo_funding + 150) (demo_mint_ok demo_funding eq_refl) eq_refl)
    as (_ & o & la & re & s' & l & H1 & H2 & H3 & _).
  - reflexivity.
  - reflexivity.
  - by apply Z.leb_le.
  - by apply Z.leb_le.
  - by apply Z.leb_le.
  - split; [apply demo_empty_ledger|]. split; by apply Z.leb_le.
  - vm_eq.
  - exists o, la, re, s', l. split; [exact H1|]. split; [exact H2|exact H3].
Defined.

Definition demo_frozen_signers : ActiveSigner.ActiveSigner :=
  mkActiveSigner {["dao.near"]} ∅ "ext.hos" "rec.hos" "v1.signer" 3600
    {["bob.alice.near" := demo_wallet_entry 7 FreezeState_RecoveryFrozen]}.

Lemma recovery_moves_key_and_policy_together_witness :
  let '(m', g') := finalized_recovery demo_approved demo_frozen_signers (demo_at "anyone.near" 4000)
    (demo_env "rec.hos" "signer.hos" 0 10) (demo_at "rec.hos" 4001) "bob.alice.near" 1 demo_hash in
  accounts m' = <["bob.alice.near" :=
    mkAccount (mkPolicy (Target_Wallet "signer.hos" (demo_key 8)) (demo_key 20) 3600) 1 Phase_Idle]>
    (accounts demo_approved).
Proof.
  pose proof (recovery_moves_key_and_policy_together demo_approved demo_frozen_signers
    (demo_at "anyone.near" 4000) (demo_env "rec.hos" "signer.hos" 0 10) (demo_at "rec.hos" 4001)
    "bob.alice.near" 1 demo_hash "signer.hos" (demo_key 7) (demo_key 20) 3600 1 (demo_key 8) 0
    (demo_raw 8) (demo_raw 7) (demo_raw 8) (demo_raw 7) demo_approved_inv) as H.
  destruct (finalized_recovery _ _ _ _ _ _ _ _) as [m' g'].
  assert (E : signers demo_frozen_signers !! "bob.alice.near" =
    Some (demo_wallet_entry 7 FreezeState_RecoveryFrozen)) by vm_eq.
  rewrite E in H. destruct H as [H _]; [vm_eq|reflexivity|reflexivity|reflexivity|reflexivity| | | | | |].
  - discriminate.
  - vm_eq.
  - vm_eq.
  - vm_eq.
  - vm_eq.
  - exact H.
Defined.
