(* ===== verification/GasBudgets.v ===== *)
(** * Gas

    Every cross-contract call and every callback reserves a fixed amount of gas
    when it is scheduled, out of the gas of the receipt that schedules it. A
    reservation too small fails the receipt whatever else holds: it could
    schedule nothing. This file adds up the reservations of all five contracts:
    each receipt is given what it reserves in turn, and 5 Tgas more for itself.
    What a receipt burns while it runs is not modelled; nor is the share of
    unspent gas the runtime adds to a reservation. *)
From S2P Require Import ActiveSigner.
From S2P Require Import MpcRecovery.
From S2P Require Import RecoveryWorld.
From S2P Require Import HosExtension.
From S2P Require Import TlaManager.
From S2P Require Import RegistryWorld.

(** ** What is scheduled *)

(** What each receipt keeps, and what a transaction can be given. *)
Definition OWN_GAS : Z := 5 * Tgas.
Definition MAX_PREPAID_GAS : Z := 300 * Tgas.

(** What a method of the five contracts reserves for what it schedules. The MPC
    signer and the tokens are other people's code. *)
Definition msg_need (m : Msg) : Z :=
  match m with
  | Msg_force_transfer _ _ _ => GAS_FOR_SWAP_OWNER + GAS_FOR_SWAP_CB
  | Msg_sweep_ft _ _ _ _ _ => GAS_FOR_BALANCE_QUERY + GAS_FOR_BALANCE_CB
  | Msg_create_sub_account _ _ => DERIVE_KEY_GAS + ON_KEY_DERIVED_GAS
  | Msg_retry_install _ _ => DERIVE_KEY_GAS + ON_RETRY_KEY_DERIVED_GAS
  | Msg_authority_sign_tx _ _ _ _ _ => ActiveSigner.SIGN_GAS + ON_SIGNED_GAS
  | _ => 0
  end.

Section gas.
Context {Cb Ev : Type}.
Notation P := (Promise Msg Cb).

Definition action_fed (a : PromiseAction Msg) : Prop :=
  match a with PA_function_call m _ gas => msg_need m + OWN_GAS <= gas | _ => True end.

(** Every call and every callback of a promise gets what it needs. *)
Fixpoint fed (need : Cb -> Z) (p : P) : Prop :=
  match p with
  | PBatch _ l => Forall action_fed l
  | PAnd p q => fed need p /\ fed need q
  | PThen p cb gas => fed need p /\ need cb + OWN_GAS <= gas
  end.

(** The promises a method leaves behind: those it drops and the one it returns. *)
Definition dropped (l : list (Effect Ev P)) : list P :=
  omap (fun e => match e with Send p => Some p | Emit _ => None end) l.
Definition scheduled (p : option P) (l : list (Effect Ev P)) : list P := option_list p ++ dropped l.
Definition reserved (ps : list P) : Z := foldr (fun p acc => promise_gas p + acc) 0 ps.

(** The method reserves at most [budget], and feeds what it schedules. *)
Definition within (need : Cb -> Z) (budget : Z) (p : option P) (l : list (Effect Ev P)) : Prop :=
  Forall (fed need) (scheduled p l) /\ reserved (scheduled p l) <= budget.

Lemma within_none need budget l : dropped l = [] -> 0 <= budget -> within need budget None l.
Proof. unfold within, scheduled. cbn. by intros ->. Qed.

Lemma within_one need budget p l :
  dropped l = [] -> fed need p -> promise_gas p <= budget -> within need budget (Some p) l.
Proof.
  unfold within, scheduled. cbn. intros -> Hp Hb. split; [by repeat constructor|]. cbn. lia.
Qed.
End gas.

(** *** Methods that drop no promise *)
Section silent.
Context {St Ev Cb Er : Type}.
Notation M := (NearM St Ev (Promise Msg Cb) Er).

Definition silent {A} (m : M A) : Prop :=
  forall env s a s' l, m env s = Done (a, s', l) -> dropped l = [].

Lemma silent_bind {A B} (m : M A) (k : A -> M B) :
  silent m -> (forall a, silent (k a)) -> silent (m ≫= k).
Proof.
  intros Hm Hk env s b s' l H. apply bind_inv in H as (a & s1 & l1 & l2 & E1 & E2 & ->).
  unfold dropped. rewrite omap_app. apply Hm in E1. apply Hk in E2. unfold dropped in *. by rewrite E1, E2.
Qed.

Lemma silent_quiet {A} (m : M A) :
  (forall env s a s' l, m env s = Done (a, s', l) -> l = []) -> silent m.
Proof. intros H env s a s' l E. by rewrite (H _ _ _ _ _ E). Qed.

Lemma silent_ret {A} (a : A) : silent (mret a : M A).
Proof. apply silent_quiet. intros * ?%ret_inv. by simplify_eq. Qed.
Lemma silent_require b msg : silent (require b msg : M unit).
Proof. apply silent_quiet. intros * [_ ?]%require_inv. by simplify_eq. Qed.
Lemma silent_ensure b e : silent (ensure b e : M unit).
Proof. apply silent_quiet. intros * [_ ?]%ensure_inv. by simplify_eq. Qed.
Lemma silent_ok_or {A} (o : option A) e : silent (ok_or o e : M A).
Proof. apply silent_quiet. intros * (x & _ & ?)%ok_or_inv. by simplify_eq. Qed.
Lemma silent_unwrap {A} (o : option A) msg : silent (unwrap_or_panic o msg : M A).
Proof. apply silent_quiet. intros * (x & _ & ?)%unwrap_inv. by simplify_eq. Qed.
Lemma silent_gets {A} (f : St -> A) : silent (gets f : M A).
Proof. apply silent_quiet. by intros * [= <- <- <-]. Qed.
Lemma silent_asks {A} (f : Env -> A) : silent (asks f : M A).
Proof. apply silent_quiet. by intros * [= <- <- <-]. Qed.
Lemma silent_modify f : silent (modify f : M unit).
Proof. apply silent_quiet. by intros * [= <- <- <-]. Qed.
Lemma silent_emit e : silent (emit e : M unit).
Proof. by intros * ? ? ? ? ? [= <- <- <-]. Qed.
Lemma silent_throw {A} e : silent (throw e : M A).
Proof. done. Qed.
Lemma silent_panic {A} msg : silent (panic_str msg : M A).
Proof. done. Qed.
Lemma silent_lift {A} (f : Env -> St -> Res Er A) : silent (lift f : M A).
Proof. apply silent_quiet. intros * (x & _ & ?)%lift_inv. by simplify_eq. Qed.
Lemma silent_inspect {A} (f : Env -> St -> A) : silent (inspect f : M A).
Proof. apply silent_quiet. by intros * [= <- <- <-]. Qed.
Lemma silent_private name : silent (private_method name : M unit).
Proof. apply silent_quiet. intros * [_ ?]%private_inv. by simplify_eq. Qed.
Lemma silent_not_payable name : silent (not_payable name : M unit).
Proof. apply silent_quiet. intros * [_ ?]%not_payable_inv. by simplify_eq. Qed.
Lemma silent_promise_success : silent (is_promise_success : M bool).
Proof. apply silent_quiet. intros * [(x & _ & ?)|[_ ?]]%promise_success_inv; by simplify_eq. Qed.
End silent.

Create HintDb silent.
#[export] Hint Resolve silent_ret silent_require silent_ensure silent_ok_or silent_unwrap silent_gets
  silent_asks silent_modify silent_emit silent_throw silent_panic silent_lift silent_inspect silent_private
  silent_not_payable silent_promise_success : silent.

Ltac silent_step :=
  lazymatch goal with
  | |- silent (mbind _ _) => apply silent_bind; [|intros ?]
  | |- silent (if ?b then _ else _) => destruct b
  | |- silent (match ?x with _ => _ end) => destruct x
  | |- silent (let _ := _ in _) => cbv zeta
  | |- silent ((fun _ => _) _) => cbv beta
  | |- silent _ => first [ solve [auto with silent nocore] | progress autounfold with near_unfold ]
  end.
Ltac silent_tac := repeat silent_step.

Ltac gas_eq := apply Z.leb_le; vm_eq.

Section GasBudgets.
Context `{HS : !Sdk}.

(** ** tla-registry *)
Definition registry_need (cb : RegistryState.Callback) : Z :=
  match cb with
  | Cb_on_buy_balances_checked _ _ | Cb_on_buy_paid_balances_checked _ _ _ =>
      GAS_FOR_FORCE_TRANSFER + GAS_FOR_SOLD_CALLBACK
  | Cb_on_re_rent_balances_checked _ _ => GAS_FOR_RERENT_FORCE + GAS_FOR_CALLBACK
  | Cb_on_balances_checked _ _ _ _ => GAS_FOR_HOS_FORCE_TRANSFER + GAS_FOR_FINALIZE_CB
  | _ => 0
  end.

Lemma silent_add_pending_refund account amount : silent (add_pending_refund account amount).
Proof. unfold add_pending_refund. silent_tac. Qed.
#[local] Hint Resolve silent_add_pending_refund : silent.

Lemma registry_silent c : silent (RegistryAdmin.exec c).
Proof. destruct c; cbn [RegistryAdmin.exec]; unfold_all; silent_tac. Qed.

(** The balance queries of the asset gate. *)
Lemma fanout_gas allowlist a p :
  ft_balance_fanout allowlist a = Some p ->
  fed registry_need p /\ promise_gas p = Z.of_nat (length allowlist) * GAS_PER_FT_BALANCE.
Proof.
  destruct allowlist as [|ft fts]; [done|]. cbn [ft_balance_fanout]. intros [= <-].
  assert (H : forall q, fed registry_need q ->
    let chain := foldl (fun chain ft => PAnd chain (ft_balance_query ft a)) q fts in
    fed registry_need chain /\ promise_gas chain = promise_gas q + Z.of_nat (length fts) * GAS_PER_FT_BALANCE).
  { induction fts as [|ft' fts IH]; intros q Hq; cbn [foldl length].
    - split; [done|]. lia.
    - destruct (IH (PAnd q (ft_balance_query ft' a))) as [H1 H2]; [split; [done|by repeat constructor]|].
      split; [exact H1|]. rewrite H2. cbn [promise_gas ft_balance_query]. cbn. lia. }
  destruct (H (ft_balance_query ft a)) as [H1 H2]; [by repeat constructor|]. split; [exact H1|].
  rewrite H2. cbn. lia.
Qed.

(** What a user's call of the registry reserves at most: the balances of 16 tokens
    and the callback that reads them. *)
Definition REGISTRY_USER_GAS : Z := MAX_ALLOWLIST_SIZE * GAS_PER_FT_BALANCE + GAS_FOR_BUY_BALANCES_CB.

Definition few_tokens (s : TlaRegistry) : Prop := Z.of_nat (length (allowlist_of s)) <= MAX_ALLOWLIST_SIZE.

(** [m] keeps the list short, and its value satisfies [Q]. *)
Definition yields {A} (Q : A -> Prop) (m : RegM A) : Prop :=
  forall env s a s' l, few_tokens s -> m env s = Done (a, s', l) -> Q a.

Lemma yields_bind {A B} (Q : B -> Prop) (m : RegM A) (k : A -> RegM B) :
  keeps few_tokens m -> (forall a, yields Q (k a)) -> yields Q (m ≫= k).
Proof.
  intros Hm Hk env s b s' l Hs H. apply bind_inv in H as (a & s1 & l1 & l2 & E1 & E2 & ->).
  eapply Hk; [|exact E2]. by eapply Hm.
Qed.
Lemma yields_gets {A B} (Q : B -> Prop) (f : TlaRegistry -> A) (k : A -> RegM B) :
  (forall s, few_tokens s -> yields Q (k (f s))) -> yields Q (gets f ≫= k).
Proof.
  intros Hk env s b s' l Hs H. apply bind_inv in H as (a & s1 & l1 & l2 & E1 & E2 & ->).
  apply gets_inv in E1. simplify_eq. by eapply Hk.
Qed.
Lemma yields_ret {A} (Q : A -> Prop) a : Q a -> yields Q (mret a : RegM A).
Proof. intros Ha env s b s' l _ H. apply ret_inv in H. by simplify_eq. Qed.
Lemma yields_fail {A} (Q : A -> Prop) (m : RegM A) : (forall env s, exists f, m env s = Fail f) -> yields Q m.
Proof. intros Hm env s a s' l _ H. destruct (Hm env s) as [f E]. congruence. Qed.

Ltac yields_step :=
  lazymatch goal with
  | |- yields _ (mbind _ (gets _)) => apply yields_gets; intros ? ?
  | |- yields _ (mbind _ _) =>
      apply yields_bind; [solve [keeps_tac; first [done | apply add_pending_refund_keeps; intros; done]]|intros ?]
  | |- yields _ (mret _) => apply yields_ret
  | |- yields _ (throw _) => by apply yields_fail; eauto
  | |- yields _ (panic_str _) => by apply yields_fail; eauto
  | |- yields _ (if ?b then _ else _) => destruct b
  | |- yields _ (match ?x with _ => _ end) => destruct x eqn:?
  | |- yields _ (let _ := _ in _) => cbv zeta
  | |- yields _ ((fun _ => _) _) => cbv beta
  | |- yields _ _ => progress autounfold with near_unfold
  end.
Ltac yields_tac := repeat yields_step.

Definition pays (budget : Z) (p : RegPromise) : Prop := fed registry_need p /\ promise_gas p <= budget.
Definition pays_pov (budget : Z) (p : PromiseOrValue Msg RegistryState.Callback unit) : Prop :=
  match p with POV_Promise p => pays budget p | POV_Value _ => True end.

Lemma pays_fanout allowlist a p cb gas budget s :
  few_tokens s -> allowlist_of s = allowlist -> ft_balance_fanout allowlist a = Some p ->
  registry_need cb + OWN_GAS <= gas -> MAX_ALLOWLIST_SIZE * GAS_PER_FT_BALANCE + gas <= budget ->
  pays budget (PThen p cb gas).
Proof.
  unfold few_tokens. intros Hs <- Hp Hcb Hb. destruct (fanout_gas _ _ _ Hp) as [Hf Hg].
  split; [by split|]. cbn [promise_gas]. rewrite Hg.
  assert (0 <= GAS_PER_FT_BALANCE) by (by apply Z.leb_le). nia.
Qed.

Ltac pays_tac :=
  first
  [ done
  | match goal with Hs : few_tokens ?s, Hp : ft_balance_fanout (allowlist_of ?s) _ = Some _ |- _ =>
      eapply (pays_fanout _ _ _ _ _ _ s Hs eq_refl Hp); gas_eq end
  | split; [cbn; repeat first [exact I | split | apply Forall_nil | apply list.Forall_cons]; gas_eq|gas_eq] ].

Lemma yields_returning {A B} (Q : B -> Prop) (g : A -> B) (m : RegM A) :
  yields (fun a => Q (g a)) m -> yields Q (returning g m).
Proof. intros Hm env s b s' l Hs H. apply returning_inv in H as (a & H & ->). by eapply Hm. Qed.

Lemma park_wallet_pays w t n d : yields (pays (GAS_FOR_HOS_FORCE_TRANSFER + GAS_FOR_FINALIZE_CB)) (park_wallet w t n d).
Proof. unfold park_wallet. yields_tac; pays_tac. Qed.

Lemma parked_pays w t n d :
  yields (fun r => from_option (pays (GAS_FOR_HOS_FORCE_TRANSFER + GAS_FOR_FINALIZE_CB)) True (promise_of r))
    (p ← park_wallet w t n d; mret (POV_Promise p) : RegM (PromiseOrValue Msg RegistryState.Callback unit)).
Proof.
  intros env s a s' l Hs H. apply bind_inv in H as (p & s1 & l1 & l2 & E & H & ->).
  apply ret_inv in H. simplify_eq. by eapply park_wallet_pays.
Qed.

Definition registry_budget (c : RegistryAdmin.Call) : Z :=
  match c with
  | Call_on_buy_balances_checked _ _ | Call_on_buy_paid_balances_checked _ _ _ =>
      GAS_FOR_FORCE_TRANSFER + GAS_FOR_SOLD_CALLBACK
  | Call_on_re_rent_balances_checked _ _ => GAS_FOR_RERENT_FORCE + GAS_FOR_CALLBACK
  | Call_on_balances_checked _ _ _ _ => GAS_FOR_HOS_FORCE_TRANSFER + GAS_FOR_FINALIZE_CB
  | _ => if is_callback c then 0 else REGISTRY_USER_GAS
  end.

Lemma registry_pays c : yields (from_option (pays (registry_budget c)) True) (RegistryWorld.call_promise c).
Proof.
  destruct c; cbn [RegistryWorld.call_promise]; apply yields_returning; try (by intros env s a s' l _ _);
    unfold_all; repeat first [by apply parked_pays | yields_step]; cbn [promise_of from_option]; pays_tac.
Qed.
End GasBudgets.

(** ** Every contract

    [gas_ok]: a call reserves at most its budget, and feeds what it schedules. *)
Definition gas_ok {St Ev Cb Er Call} (run : Call -> NearM St Ev (Promise Msg Cb) Er (option (Promise Msg Cb)))
    (need : Cb -> Z) (budget : Call -> Z) (I : St -> Prop) : Prop :=
  forall c env s p s' l, I s -> run c env s = Done (p, s', l) -> within need (budget c) p l.

Section contracts.
Context `{HS : !Sdk} `{HD : !DefuseWallet}.

Lemma registry_budget_pos c : 0 <= registry_budget c.
Proof. destruct c; gas_eq. Qed.

Lemma registry_gas : gas_ok RegistryWorld.call_promise registry_need registry_budget few_tokens.
Proof.
  intros c env s p s' l Hs H. pose proof (registry_pays c env s p s' l Hs H) as Hp.
  pose proof (registry_silent c env s tt s' l (RegistryWorld.call_promise_exec _ _ _ _ _ _ H)) as Hd.
  destruct p as [p|]; [by apply within_one; [|apply Hp..]|]. apply within_none; [done|]. apply registry_budget_pos.
Qed.

(** *** active-signer *)
Definition signer_promise (c : ActiveSigner.Call)
    : NearM ActiveSigner ActiveSigner.Event (Promise Msg ActiveSigner.Callback) Empty_set
        (option (Promise Msg ActiveSigner.Callback)) :=
  match c with
  | ActiveSigner.Call_submit_signed_tx w msg proof n bh =>
      returning Some (ActiveSigner.submit_signed_tx w msg proof n bh)
  | ActiveSigner.Call_submit_signed_message w msg proof =>
      returning Some (ActiveSigner.submit_signed_message w msg proof)
  | ActiveSigner.Call_authority_sign_tx w rc acts n bh =>
      returning Some (ActiveSigner.authority_sign_tx w rc acts n bh)
  | _ => returning (fun _ => None) (ActiveSigner.exec c)
  end.
Definition signer_need (cb : ActiveSigner.Callback) : Z := 0.
Definition signer_budget (c : ActiveSigner.Call) : Z :=
  match c with
  | ActiveSigner.Call_submit_signed_tx _ _ _ _ _ | ActiveSigner.Call_submit_signed_message _ _ _
  | ActiveSigner.Call_authority_sign_tx _ _ _ _ _ => ActiveSigner.SIGN_GAS + ON_SIGNED_GAS
  | _ => 0
  end.

Ltac gas_tac H :=
  nrun H; unfold within; cbn;
  (split; [repeat first [exact I | split | apply Forall_nil | apply list.Forall_cons]; gas_eq|gas_eq]).

Lemma signer_gas : gas_ok signer_promise signer_need signer_budget (fun _ => True).
Proof.
  intros c env s p s' l _ H. destruct c; cbn [signer_promise] in H; apply returning_inv in H as (x & H & ->);
    cbn [ActiveSigner.exec] in H;
    unfold ActiveSigner.add_minter, ActiveSigner.remove_minter, ActiveSigner.add_admin, ActiveSigner.remove_admin,
      ActiveSigner.install_signer, ActiveSigner.submit_signed_tx, ActiveSigner.submit_signed_message,
      ActiveSigner.authority_sign_tx, ActiveSigner.on_signed, ActiveSigner.swap_owner, ActiveSigner.self_freeze,
      ActiveSigner.freeze, ActiveSigner.unfreeze, ActiveSigner.authorize, ActiveSigner.sign_payload in H; gas_tac H.
Qed.

(** *** mpc-recovery *)
Definition recovery_need (cb : MpcRecovery.Callback) : Z := 0.
Definition recovery_budget (c : MpcRecovery.Call) : Z :=
  match c with
  | Call_submit_verdict _ _ _ | Call_abort_recovery _ => FREEZE_GAS + MpcRecovery.CALLBACK_GAS
  | Call_finalize_recovery _ _ _ => MpcRecovery.SIGN_GAS + MpcRecovery.CALLBACK_GAS
  | _ => 0
  end.

Lemma recovery_gas : gas_ok RecoveryWorld.call_promise recovery_need recovery_budget (fun _ => True).
Proof.
  intros c env s p s' l _ H. destruct c; cbn [RecoveryWorld.call_promise] in H;
    apply returning_inv in H as (x & H & ->); cbn [MpcRecovery.exec] in H;
    unfold install_policy, request_recovery, submit_verdict, on_frozen, finalize_recovery, abort_recovery,
      on_finalized, on_aborted, MpcRecovery.on_signed, claim_native_finalized, on_wallet_transferred in H;
    gas_tac H.
Qed.

(** *** hos-extension *)
Definition extension_promise (c : HosExtension.Call)
    : NearM HosExtension.HosExtension HosExtension.Event (Promise Msg HosExtension.Callback) HosExtension.ContractError
        (option (Promise Msg HosExtension.Callback)) :=
  match c with
  | HosExtension.Call_skim x to => returning Some (HosExtension.skim x to)
  | HosExtension.Call_force_transfer w k e => returning Some (HosExtension.force_transfer w k e)
  | HosExtension.Call_sweep_ft w f d n h => returning Some (HosExtension.sweep_ft w f d n h)
  | HosExtension.Call_after_balance_for_sweep w f d n h r =>
      returning promise_of (HosExtension.after_balance_for_sweep w f d n h r)
  | HosExtension.Call_after_storage_for_sweep w f d b n h =>
      returning promise_of (HosExtension.after_storage_for_sweep w f d b n h)
  | _ => returning (fun _ => None) (HosExtension.exec c)
  end.
Definition extension_need (cb : HosExtension.Callback) : Z :=
  match cb with
  | HosExtension.Cb_after_force_swap _ => GAS_FOR_RESET
  | HosExtension.Cb_after_balance_for_sweep _ _ _ _ _ => GAS_FOR_STORAGE_DEPOSIT + GAS_FOR_STORAGE_CB
  | HosExtension.Cb_after_storage_for_sweep _ _ _ _ _ _ => GAS_FOR_AUTHORITY_SIGN + GAS_FOR_SETTLE_CB
  | HosExtension.Cb_after_sweep_settled _ _ _ _ => 0
  end.
Definition extension_budget (c : HosExtension.Call) : Z :=
  match c with
  | HosExtension.Call_force_transfer _ _ _ => GAS_FOR_SWAP_OWNER + GAS_FOR_SWAP_CB
  | HosExtension.Call_sweep_ft _ _ _ _ _ => GAS_FOR_BALANCE_QUERY + GAS_FOR_BALANCE_CB
  | HosExtension.Call_after_force_swap _ _ => GAS_FOR_RESET
  | HosExtension.Call_after_balance_for_sweep _ _ _ _ _ _ => GAS_FOR_STORAGE_DEPOSIT + GAS_FOR_STORAGE_CB
  | HosExtension.Call_after_storage_for_sweep _ _ _ _ _ _ => GAS_FOR_AUTHORITY_SIGN + GAS_FOR_SETTLE_CB
  | _ => 0
  end.

Lemma extension_gas : gas_ok extension_promise extension_need extension_budget (fun _ => True).
Proof.
  intros c env s p s' l _ H. destruct c; cbn [extension_promise] in H;
    apply returning_inv in H as (x & H & ->); cbn [HosExtension.exec] in H;
    unfold HosExtension.pause, HosExtension.unpause, HosExtension.add_admin, HosExtension.remove_admin,
      HosExtension.skim, HosExtension.force_transfer, HosExtension.after_force_swap, HosExtension.sweep_ft,
      HosExtension.after_balance_for_sweep, HosExtension.after_storage_for_sweep,
      HosExtension.after_sweep_settled in H; gas_tac H.
Qed.

(** *** tla-manager *)
Inductive ManagerCall :=
| Call_create_sub_account (name : string) (owner : PublicKey)
| Call_on_key_derived (account : AccountId) (owner : PublicKey) (funding : Z) (derived : CallResult PublicKey)
| Call_on_wallet_created (account : AccountId) (owner mpc_key : PublicKey) (funding : Z) (r : CallResult unit)
| Call_on_signer_settled (account : AccountId) (r : CallResult unit)
| Call_on_creation_failed
| Call_retry_install (account : AccountId) (owner : PublicKey)
| Call_on_retry_key_derived (account : AccountId) (owner : PublicKey) (derived : CallResult PublicKey).

Definition manager_promise (c : ManagerCall)
    : NearM TlaManager.TlaManager TlaManager.Event (Promise Msg TlaManager.Callback) Empty_set
        (option (Promise Msg TlaManager.Callback)) :=
  match c with
  | Call_create_sub_account n k => returning Some (TlaManager.create_sub_account n k)
  | Call_on_key_derived a k f d => returning promise_of (TlaManager.on_key_derived a k f d)
  | Call_on_wallet_created a k mk f r => returning promise_of (TlaManager.on_wallet_created a k mk f r)
  | Call_on_signer_settled a r => returning (fun _ => None) (TlaManager.on_signer_settled a r)
  | Call_on_creation_failed => returning (fun _ => None) TlaManager.on_creation_failed
  | Call_retry_install a k => returning Some (TlaManager.retry_install a k)
  | Call_on_retry_key_derived a k d => returning Some (TlaManager.on_retry_key_derived a k d)
  end.
Definition manager_need (cb : TlaManager.Callback) : Z :=
  match cb with
  | TlaManager.Cb_on_key_derived _ _ _ => ON_CREATED_GAS
  | TlaManager.Cb_on_wallet_created _ _ _ _ => INSTALL_SIGNER_GAS + TlaManager.CALLBACK_GAS
  | TlaManager.Cb_on_retry_key_derived _ _ => INSTALL_SIGNER_GAS
  | _ => 0
  end.
Definition manager_budget (c : ManagerCall) : Z :=
  match c with
  | Call_create_sub_account _ _ => DERIVE_KEY_GAS + ON_KEY_DERIVED_GAS
  | Call_on_key_derived _ _ _ _ => ON_CREATED_GAS
  | Call_on_wallet_created _ _ _ _ _ => INSTALL_SIGNER_GAS + TlaManager.CALLBACK_GAS
  | Call_retry_install _ _ => DERIVE_KEY_GAS + ON_RETRY_KEY_DERIVED_GAS
  | Call_on_retry_key_derived _ _ _ => INSTALL_SIGNER_GAS
  | _ => 0
  end.

Lemma manager_gas : gas_ok manager_promise manager_need manager_budget (fun _ => True).
Proof.
  intros c env s p s' l _ H. destruct c; cbn [manager_promise] in H;
    apply returning_inv in H as (x & H & ->);
    unfold TlaManager.create_sub_account, TlaManager.on_key_derived, TlaManager.on_wallet_created,
      TlaManager.on_signer_settled, TlaManager.on_creation_failed, TlaManager.retry_install,
      TlaManager.on_retry_key_derived in H; gas_tac H.
Qed.

(** *** The calls and callbacks as they arrive *)

(** The method a message calls. *)
Definition signer_method (m : Msg) : option ActiveSigner.Call :=
  match m with
  | Msg_install_signer w k mk => Some (ActiveSigner.Call_install_signer w k mk)
  | Msg_swap_owner w k e => Some (ActiveSigner.Call_swap_owner w k e)
  | Msg_authority_sign_tx w r acts n bh => Some (ActiveSigner.Call_authority_sign_tx w r acts n bh)
  | Msg_freeze w e => Some (ActiveSigner.Call_freeze w e)
  | Msg_unfreeze w => Some (ActiveSigner.Call_unfreeze w)
  | _ => None
  end.
Definition extension_method (m : Msg) : option HosExtension.Call :=
  match m with
  | Msg_force_transfer w k e => Some (HosExtension.Call_force_transfer w k e)
  | Msg_sweep_ft w ft d n bh => Some (HosExtension.Call_sweep_ft w ft d n bh)
  | _ => None
  end.
Definition manager_method (m : Msg) : option ManagerCall :=
  match m with
  | Msg_create_sub_account n k => Some (Call_create_sub_account n k)
  | Msg_retry_install a k => Some (Call_retry_install a k)
  | _ => None
  end.
Definition recovery_method (m : Msg) : option MpcRecovery.Call :=
  match m with Msg_on_wallet_transferred w => Some (Call_on_wallet_transferred w) | _ => None end.

(** The method a callback calls, whatever was answered. *)
Definition signer_back (cb : ActiveSigner.Callback) (r : CallResult Value) : ActiveSigner.Call :=
  match cb with ActiveSigner.Cb_on_signed h tx => ActiveSigner.Call_on_signed h tx r end.
Definition extension_back (cb : HosExtension.Callback) (swapped : CallResult bool) (balance : CallResult Z)
    (signed : CallResult Value) : HosExtension.Call :=
  match cb with
  | HosExtension.Cb_after_force_swap w => HosExtension.Call_after_force_swap w swapped
  | HosExtension.Cb_after_balance_for_sweep w f d n bh =>
      HosExtension.Call_after_balance_for_sweep w f d n bh balance
  | HosExtension.Cb_after_storage_for_sweep w f d b n bh =>
      HosExtension.Call_after_storage_for_sweep w f d b n bh
  | HosExtension.Cb_after_sweep_settled w f d a => HosExtension.Call_after_sweep_settled w f d a signed
  end.
Definition manager_back (cb : TlaManager.Callback) (derived : CallResult PublicKey) (r : CallResult unit)
    : ManagerCall :=
  match cb with
  | TlaManager.Cb_on_key_derived a k f => Call_on_key_derived a k f derived
  | TlaManager.Cb_on_wallet_created a k mk f => Call_on_wallet_created a k mk f r
  | TlaManager.Cb_on_signer_settled a => Call_on_signer_settled a r
  | TlaManager.Cb_on_creation_failed => Call_on_creation_failed
  | TlaManager.Cb_on_retry_key_derived a k => Call_on_retry_key_derived a k derived
  end.

(** A registry some history leads to. *)
Definition in_use (s : TlaRegistry) : Prop :=
  exists env admin ext signer parked grace s0 tr,
    RegistryState.new env admin ext signer parked grace = Done s0 /\ s = Near.run RegistryAdmin.exec tr s0.

Lemma in_use_few s : in_use s -> few_tokens s.
Proof.
  intros (env & admin & ext & signer & parked & grace & s0 & tr & H & ->).
  destruct (registry_configuration_invariant _ _ _ _ _ _ _ tr H) as [(_ & _ & _ & Hn) _].
  unfold few_tokens, allowlist_of, MAX_ALLOWLIST_SIZE.
  change (length (elements ?X)) with (size X). lia.
Qed.

(** C31: Every method and callback of the five contracts, in every reachable state,
    reserves for what it schedules at most a budget it is given itself: each call
    and each callback in flight gets the gas its own reservations need and 5 Tgas
    more, whoever calls it, and a user's call stays within 300 Tgas, the balance
    queries of a full allow-list included. *)
Theorem reservations_suffice :
  (gas_ok RegistryWorld.call_promise registry_need registry_budget in_use /\
   gas_ok extension_promise extension_need extension_budget (fun _ => True) /\
   gas_ok manager_promise manager_need manager_budget (fun _ => True) /\
   gas_ok signer_promise signer_need signer_budget (fun _ => True) /\
   gas_ok RecoveryWorld.call_promise recovery_need recovery_budget (fun _ => True)) /\
  (forall m, (forall c, extension_method m = Some c -> extension_budget c = msg_need m) /\
     (forall c, manager_method m = Some c -> manager_budget c = msg_need m) /\
     (forall c, signer_method m = Some c -> signer_budget c = msg_need m) /\
     (forall c, recovery_method m = Some c -> recovery_budget c = msg_need m)) /\
  ((forall cb r c, RegistryWorld.resume cb r = Some c -> registry_budget c = registry_need cb) /\
   (forall cb a b v, extension_budget (extension_back cb a b v) = extension_need cb) /\
   (forall cb a b, manager_budget (manager_back cb a b) = manager_need cb) /\
   (forall cb v, signer_budget (signer_back cb v) = signer_need cb) /\
   (forall cb a c, RecoveryWorld.resume cb a = Some c -> recovery_budget c = recovery_need cb)) /\
  (forall c1 c2 c3 c4 c5, registry_budget c1 + OWN_GAS <= MAX_PREPAID_GAS /\
     extension_budget c2 + OWN_GAS <= MAX_PREPAID_GAS /\ manager_budget c3 + OWN_GAS <= MAX_PREPAID_GAS /\
     signer_budget c4 + OWN_GAS <= MAX_PREPAID_GAS /\ recovery_budget c5 + OWN_GAS <= MAX_PREPAID_GAS).
Proof.
  split; [|split; [|split]].
  - split_and!; [|apply extension_gas|apply manager_gas|apply signer_gas|apply recovery_gas].
    intros c env s p s' l Hs. by apply registry_gas, in_use_few.
  - intros m. split_and!; intros c Hc; by destruct m; simplify_eq/=.
  - split_and!.
    + intros cb r c Hc. destruct cb, r as [results|o|b|x]; try done; cbn in Hc;
        try (destruct results as [|? [|]]; try done; []); by injection Hc as <-.
    + by intros [].
    + by intros [].
    + by intros [].
    + intros cb a c Hc. destruct cb, a; try done; by injection Hc as <-.
  - intros c1 c2 c3 c4 c5. split_and!; [destruct c1|destruct c2|destruct c3|destruct c4|destruct c5]; gas_eq.
Qed.
End contracts.
