(* ===== verification/Deployment.v ===== *)
(** * The five contracts together

    hos-extension, the tla-managers, active-signer and mpc-recovery as the wallets
    of file [SystemWorld]: a transfer is hos-extension's [force_transfer] with
    active-signer's [swap_owner] and the extension's callback, a mint and a retried
    installation are a tla-manager's chain that ends in active-signer's
    [install_signer], and everything else that may happen to the wallets is a
    happening of file [RecoveryWorld], an administration of the extension, or the
    notice of a transfer that reaches mpc-recovery. The laws of the interface are
    proved of them, so that what file [SystemKeys] shows holds of the five
    contracts, as does what file [RecoveryWorld] shows of two of them. *)
From S2P Require Import ActiveSigner.
From S2P Require Import MpcRecovery.
From S2P Require Import RecoveryWorld.
From S2P Require Import HosExtension.
From S2P Require Import TlaManager.
From S2P Require Import System.
From S2P Require Import SystemTitles.

Section Deployment.
Context `{HS : !Sdk} `{HD : !DefuseWallet}.
(** The accounts the contracts run at; the tla-managers, whose state no method
    changes. *)
Context (reg_id ext_id rec_id sig_id : AccountId).
Context (managers : gmap AccountId TlaManager.TlaManager).
Notation env_at := RecoveryWorld.env_at.

(** hos-extension, mpc-recovery and active-signer with the calls between them, and
    the transfers mpc-recovery has not been told of yet. *)
Record Contracts := mkContracts {
  hos : HosExtension.HosExtension;
  core : RecoveryWorld.World;
  notices : list AccountId
}.

(** When the receipts of an order run, whether the extension was paused when the
    order reached it, what the MPC signer and the account creation answer. *)
Record Weather := mkWeather {
  wx_env : Env;
  wx_paused : bool;
  wx_derived : CallResult PublicKey;
  wx_created : CallResult unit
}.

Inductive Traffic :=
| Tr_core (h : RecoveryWorld.Happening)
| Tr_extension (env : Env) (c : HosExtension.Call)
| Tr_notice (i : nat) (env : Env).

(** ** The operations *)
Definition signer_of (S : Contracts) : ActiveSigner := sgn (core S).
Definition with_signer (S : Contracts) (g : ActiveSigner) : Contracts :=
  mkContracts (hos S) (RecoveryWorld.mkWorld (rec (core S)) g (RecoveryWorld.flights (core S)))
    (notices S).

Definition wallet_key (S : Contracts) (w : AccountId) : option Ed25519PublicKey :=
  ActiveSigner.public_key <$> signers (signer_of S) !! w.
Definition signer_key (k : PublicKey) : option Ed25519PublicKey := ed25519_base58 k ≫= ed_from_str.

(** A [force_transfer] the registry sent, to the answer of [after_force_swap],
    which detaches the notice to mpc-recovery when the key was swapped. *)
Definition run_transfer (x : Weather) (w : AccountId) (k : PublicKey) (expected : option PublicKey)
    (S : Contracts) : CallResult bool * Contracts :=
  let '(a, g) := forced_swap (hos S <| HosExtension.paused := wx_paused x |>) (signer_of S)
    (env_at reg_id ext_id 0 (wx_env x)) (env_at ext_id sig_id 0 (wx_env x))
    (env_at ext_id ext_id 0 (wx_env x)) w k expected in
  (a, mkContracts (hos S) (core (with_signer S g))
        ((if swap_done a then [w] else []) ++ notices S)).

(** A [create_sub_account] the registry sent to the manager of [t]. *)
Definition run_mint (x : Weather) (t : AccountId) (n : string) (k : PublicKey) (funding : Z)
    (S : Contracts) : CallResult MintOutcome * Contracts :=
  match managers !! t with
  | Some m =>
      let env := env_at reg_id t funding (wx_env x) in
      match TlaManager.create_sub_account n k env m with
      | Done _ =>
          let '(o, g) := System.mint m (signer_of S) env (env_at t t 0 (wx_env x))
            (env_at t sig_id 0 (wx_env x)) n k (sub_account_key t n) (wx_derived x) (wx_created x) in
          (match o with Some (outcome, _, _) => Ok outcome | None => Err PromiseError_Failed end,
           with_signer S g)
      | Fail _ => (Err PromiseError_Failed, S)
      end
  | None => (Err PromiseError_Failed, S)
  end.

(** A [retry_install] the registry sent to the manager of [t]. *)
Definition run_install (x : Weather) (t w : AccountId) (k : PublicKey) (S : Contracts)
    : CallResult unit * Contracts :=
  match managers !! t with
  | Some m =>
      match TlaManager.retry_install w k (env_at reg_id t 0 (wx_env x)) m with
      | Done (PThen _ (TlaManager.Cb_on_retry_key_derived a k') _, _, _) =>
          match TlaManager.on_retry_key_derived a k' (wx_derived x) (env_at t t 0 (wx_env x)) m with
          | Done (PBatch _ [PA_function_call (Msg_install_signer v raw mk) _ _], _, _) =>
              let r := ActiveSigner.install_signer v raw mk (env_at t sig_id 0 (wx_env x)) (signer_of S) in
              (delivered r, with_signer S (state_after (signer_of S) r))
          | _ => (Err PromiseError_Failed, S)
          end
      | _ => (Err PromiseError_Failed, S)
      end
  | None => (Err PromiseError_Failed, S)
  end.

(** What reaches active-signer and mpc-recovery only as part of an order, or as
    its notice: hos-extension's swaps, installations (every minter runs
    tla-manager), hos-extension's notices. *)
Definition ordered_only (h : RecoveryWorld.Happening) : bool :=
  match h with
  | RecoveryWorld.Hp_signer env (ActiveSigner.Call_swap_owner _ _ _) =>
      bool_decide (predecessor_account_id env = ext_id)
  | RecoveryWorld.Hp_signer _ (ActiveSigner.Call_install_signer _ _ _) => true
  | RecoveryWorld.Hp_recovery env (MpcRecovery.Call_on_wallet_transferred _) =>
      bool_decide (predecessor_account_id env = ext_id)
  | _ => false
  end.

Definition run_traffic (m : Traffic) (S : Contracts) : Contracts :=
  match m with
  | Tr_core h =>
      if ordered_only h then S
      else mkContracts (hos S) (RecoveryWorld.wstep rec_id sig_id (core S) h) (notices S)
  | Tr_extension env c =>
      let caller := predecessor_account_id env in
      if bool_decide (caller = reg_id) || bool_decide (caller = ext_id) then S
      else mkContracts
             (step_state HosExtension.exec (hos S)
                (env_at caller ext_id (attached_deposit env) env, c)) (core S) (notices S)
  | Tr_notice i env =>
      match notices S !! i with
      | Some w =>
          mkContracts (hos S)
            (RecoveryWorld.wstep rec_id sig_id (core S)
               (RecoveryWorld.Hp_recovery (env_at ext_id rec_id 0 env)
                  (MpcRecovery.Call_on_wallet_transferred w)))
            (delete i (notices S))
      | None => S
      end
  end.

(** The wallet whose key a finalised recovery is about to swap. *)
Definition core_target (h : RecoveryWorld.Happening) (w : RecoveryWorld.World) : option AccountId :=
  match h with
  | RecoveryWorld.Hp_arrive i _ _ =>
      f ← RecoveryWorld.flights w !! i;
      match RecoveryWorld.fl_msg f with
      | Msg_swap_owner v _ _ => Some v
      | _ => None
      end
  | _ => None
  end.

Definition recovery_target (m : Traffic) (S : Contracts) : option AccountId :=
  match m with
  | Tr_core h => core_target h (core S)
  | Tr_extension _ _ | Tr_notice _ _ => None
  end.

#[export] Instance five_contracts : Wallets := {
  Estate := Contracts;
  WalletKey := Ed25519PublicKey;
  Circumstance := Weather;
  Move := Traffic;
  extension := ext_id;
  managed t := bool_decide (is_Some (managers !! t));
  key_of := wallet_key;
  as_key := signer_key;
  transfer := run_transfer;
  SystemWorld.mint := run_mint;
  install := run_install;
  move := run_traffic;
  recovering := recovery_target
}.

(** ** The laws *)

(** The contracts know each other's accounts, which nothing changes after their
    deployment. *)
Definition wired_together (S : Contracts) : Prop :=
  HosExtension.registry (hos S) = reg_id /\ HosExtension.active_signer (hos S) = sig_id /\
  HosExtension.recovery (hos S) = rec_id /\
  wired rec_id (signer_of S) /\ marketplace_authority (signer_of S) = ext_id /\
  map_Forall (fun t m => TlaManager.registry m = reg_id /\ TlaManager.active_signer m = sig_id /\
                t <> rec_id) managers.

Lemma wiring_together S g :
  ActiveSigner.wiring g = ActiveSigner.wiring (signer_of S) ->
  wired_together S -> wired_together (with_signer S g).
Proof.
  intros Hg (H1 & H2 & H3 & H4 & H5 & H6). split_and!; try done; cbn.
  - by eapply wiring_wired.
  - unfold ActiveSigner.wiring in Hg. injection Hg as -> _ _ _. exact H5.
Qed.

Lemma swap_state g env w k e :
  state_after g (ActiveSigner.swap_owner w k e env g) =
    step_state ActiveSigner.exec g (env, ActiveSigner.Call_swap_owner w k e).
Proof.
  unfold Near.step_state. cbn [fst snd ActiveSigner.exec]. unfold mbind, NearM_bind.
  by destruct (ActiveSigner.swap_owner w k e env g) as [[[b g'] l]|f].
Qed.

Lemma install_state g env w k mk :
  state_after g (ActiveSigner.install_signer w k mk env g) =
    step_state ActiveSigner.exec g (env, ActiveSigner.Call_install_signer w k mk).
Proof. done. Qed.

(** An order is at most one swap or installation at active-signer, called by
    hos-extension or by a tla-manager. *)
Definition puts_key (c : ActiveSigner.Call) : bool :=
  match c with
  | ActiveSigner.Call_swap_owner _ _ _ | ActiveSigner.Call_install_signer _ _ _ => true
  | _ => false
  end.
Definition signer_step (g g' : ActiveSigner) (caller : AccountId) : Prop :=
  g' = g \/ exists env c, puts_key c = true /\
    g' = step_state ActiveSigner.exec g (env_at caller sig_id 0 env, c).

Lemma step_wiring g g' caller :
  signer_step g g' caller -> ActiveSigner.wiring g' = ActiveSigner.wiring g.
Proof. intros [->|(env & c & _ & ->)]; [done|apply step_state_wiring]. Qed.

Lemma forced_swap_step h g x w k e r g' :
  forced_swap h g (env_at reg_id ext_id 0 (wx_env x)) (env_at ext_id sig_id 0 (wx_env x))
    (env_at ext_id ext_id 0 (wx_env x)) w k e = (r, g') -> signer_step g g' ext_id.
Proof.
  unfold forced_swap. destruct (HosExtension.force_transfer w k e _ h) as [[[p h'] l]|f] eqn:E;
    [|intros [= _ <-]; by left].
  unfold HosExtension.force_transfer in E. nrun E; right; do 2 eexists; (split; [|apply swap_state]; done).
Qed.

Lemma swap_done_true a : swap_done a = true <-> a = Ok true.
Proof. by destruct a as [[]|]. Qed.

Lemma run_transfer_law x w k e S a S' :
  wired_together S -> run_transfer x w k e S = (a, S') ->
  wired_together S' /\
  (if swap_done a then is_Some (wallet_key S w) /\ key_set S S' w k else keys_kept S S').
Proof.
  intros HW. unfold run_transfer. destruct (forced_swap _ _ _ _ _ _ _ _) as [b g] eqn:E.
  intros [= <- <-]. split.
  - apply (wiring_together S g); [|done].
    eapply step_wiring, forced_swap_step, E.
  - apply forced_swap_outcome in E as [[-> Hk]|[Hn ->]]; [| |done].
    + destruct Hk as (raw & k' & e0 & Hraw & Hk' & He & _ & Hs). cbn [swap_done].
      assert (Hkey : signer_key k = Some k') by (unfold signer_key; by rewrite Hraw).
      split; [unfold wallet_key; rewrite He; by eexists|]. split; [cbn; rewrite Hkey; by eexists|].
      intros v. cbn. unfold wallet_key. cbn. rewrite Hs, lookup_insert, Hkey.
      case_decide; case_decide; by subst.
    + destruct (swap_done b) eqn:Eb; [by apply swap_done_true in Eb|]. by intros v.
Qed.

(** An installation puts in the key it was asked for, or nothing. *)
Definition installs (S : Contracts) (g : ActiveSigner) (w : AccountId) (k : PublicKey) (ok : bool) : Prop :=
  if ok then wallet_key S w = None /\ key_set S (with_signer S g) w k else g = signer_of S.

Lemma install_effect S v raw mk k env r g :
  ed25519_base58 k = Some raw ->
  (let run := ActiveSigner.install_signer v raw mk env (signer_of S) in
   r = delivered run /\ g = state_after (signer_of S) run) ->
  installs S g v k (is_ok r).
Proof.
  intros Hk [-> ->]. destruct (ActiveSigner.install_signer v raw mk env (signer_of S)) as [[[[] g'] l]|f] eqn:E;
    cbn; [|done]. unfold ActiveSigner.install_signer in E. nrun E; guards.
  match goal with H : ed_from_str raw = Some ?y |- _ =>
    assert (Hs : signer_key k = Some y) by (unfold signer_key; by rewrite Hk) end.
  unfold wallet_key. split; [by match goal with H : signers _ !! _ = None |- _ => rewrite H end|].
  split; [cbn; rewrite Hs; by eexists|]. intros u. cbn. unfold wallet_key. cbn.
  rewrite lookup_insert, Hs. case_decide; case_decide; by subst.
Qed.

Lemma install_call_inv a k mk env m p m' l :
  TlaManager.install_call a k mk env m = Done (p, m', l) ->
  exists raw, ed25519_base58 k = Some raw /\
    p = ext_call (TlaManager.active_signer m) (Msg_install_signer a raw mk) 0 INSTALL_SIGNER_GAS.
Proof. unfold TlaManager.install_call, ed25519_base58_or_panic. intros H. nrun H. by eexists. Qed.

Lemma requested_install_inv m g env_cb env_g account owner mk r :
  requested_install m g env_cb env_g account owner mk = Some r ->
  exists raw, ed25519_base58 owner = Some raw /\ r = ActiveSigner.install_signer account raw mk env_g g.
Proof.
  unfold requested_install. destruct (TlaManager.install_call _ _ _ _ _) as [[[p m'] l]|f] eqn:E; [|done].
  apply install_call_inv in E as (raw & Hraw & ->). cbn. intros [= <-]. by exists raw.
Qed.

Lemma run_mint_outcome `{!SdkLaws} x t n k d S o S' :
  run_mint x t n k d S = (o, S') ->
  exists g, S' = with_signer S g /\ signer_step (signer_of S) g t /\
    installs S g (sub_account_key t n) k (worked (Reply_minted o)).
Proof.
  assert (Hsame : S = with_signer S (signer_of S)) by (by destruct S as [h [r g f] ns]).
  unfold run_mint. destruct (managers !! t) as [m|] eqn:Em.
  2: { intros [= <- <-]. exists (signer_of S). split_and!; [done|by left|done]. }
  destruct (TlaManager.create_sub_account n k _ m) as [[[p m'] l]|f] eqn:Ec.
  2: { intros [= <- <-]. exists (signer_of S). split_and!; [done|by left|done]. }
  apply create_sub_account_spec in Ec as (account & Hok & Hacc & _).
  cbn [current_account_id RecoveryWorld.env_at] in Hacc.
  assert (Ekey : sub_account_key t n = account) by done. rewrite Ekey.
  pose proof (fun i => mint_chain_runs (env_at reg_id t d (wx_env x)) (env_at t t 0 (wx_env x)) m n k account (wx_derived x) (wx_created x)
    i Hok eq_refl) as Hchain.
  unfold System.mint. destruct (usable_key (wx_derived x)) as [mk|] eqn:Eu; cbn in Hchain.
  2: { rewrite Hchain. intros [= <- <-]. exists (signer_of S). split_and!; [done|by left|done]. }
  destruct (is_ok (wx_created x)) eqn:Ecr.
  2: { rewrite Hchain. intros [= <- <-]. exists (signer_of S). split_and!; [done|by left|done]. }
  destruct (requested_install m _ _ _ account k mk) as [r|] eqn:Er.
  2: { intros [= <- <-]. exists (signer_of S). split_and!; [done|by left|done]. }
  apply requested_install_inv in Er as (raw & Hraw & ->). rewrite Hchain. intros [= <- <-].
  eexists. split; [reflexivity|]. split.
  - right. do 2 eexists. split; [|apply install_state]; done.
  - pose proof (install_effect S account raw mk k (env_at t sig_id 0 (wx_env x)) _ _ Hraw (conj eq_refl eq_refl)) as Hi.
    destruct (is_ok (delivered _)) eqn:Eok in Hi |- *; cbn; rewrite ?Eok; exact Hi.
Qed.
Lemma retry_calls_inv w k env m p m' l :
  TlaManager.retry_install w k env m = Done (p, m', l) ->
  exists q gas, p = PThen q (TlaManager.Cb_on_retry_key_derived w k) gas.
Proof. unfold TlaManager.retry_install. intros H. nrun H. by do 2 eexists. Qed.

Lemma retried_install_inv w k derived env m p m' l :
  TlaManager.on_retry_key_derived w k derived env m = Done (p, m', l) ->
  exists raw mk, ed25519_base58 k = Some raw /\
    p = ext_call (TlaManager.active_signer m) (Msg_install_signer w raw mk) 0 INSTALL_SIGNER_GAS.
Proof.
  unfold TlaManager.on_retry_key_derived, TlaManager.install_call, ed25519_base58_or_panic.
  intros H. nrun H. by do 2 eexists.
Qed.

Lemma run_install_outcome x t w k S a S' :
  run_install x t w k S = (a, S') ->
  exists g, S' = with_signer S g /\ signer_step (signer_of S) g t /\
    installs S g w k (is_ok a).
Proof.
  assert (Hsame : S = with_signer S (signer_of S)) by (by destruct S as [h [r g f] ns]).
  assert (Hfail : (Err PromiseError_Failed, S) = (a, S') ->
    exists g, S' = with_signer S g /\ signer_step (signer_of S) g t /\ installs S g w k (is_ok a)).
  { intros [= <- <-]. exists (signer_of S). split_and!; [done|by left|done]. }
  unfold run_install. destruct (managers !! t) as [m|]; [|exact Hfail].
  destruct (TlaManager.retry_install w k _ m) as [[[p m1] l]|f] eqn:Er; [|exact Hfail].
  apply retry_calls_inv in Er as (q & gas & ->).
  destruct (TlaManager.on_retry_key_derived w k _ _ _) as [[[p m2] l2]|f] eqn:Ed; [|exact Hfail].
  apply retried_install_inv in Ed as (raw & mk & Hraw & ->). cbn. intros [= <- <-]. eexists.
  split; [reflexivity|]. split; [right; do 2 eexists; split; [|apply install_state]; done|].
  exact (install_effect S w raw mk k (env_at t sig_id 0 (wx_env x)) _ _ Hraw (conj eq_refl eq_refl)).
Qed.

Lemma installed_law S g w k ok t :
  wired_together S -> signer_step (signer_of S) g t -> installs S g w k ok ->
  wired_together (with_signer S g) /\
  (if ok then wallet_key S w = None /\ key_set S (with_signer S g) w k
   else keys_kept S (with_signer S g)).
Proof.
  intros HW Hs Hi. split; [apply wiring_together; [by eapply step_wiring|done]|].
  destruct ok; cbn in Hi; [done|]. subst g. by intros v.
Qed.

(** *** What else happens to the wallets *)
Definition keys_moved_at (g g' : ActiveSigner) (w : option AccountId) : Prop :=
  (forall v, w <> Some v -> ActiveSigner.public_key <$> signers g' !! v = ActiveSigner.public_key <$> signers g !! v) /\
  (forall v, is_Some (signers g !! v) <-> is_Some (signers g' !! v)).

Lemma keys_stay g w : keys_moved_at g g w.
Proof. by split. Qed.

(** The wallet a call of active-signer may give another key. *)
Definition swaps_key (c : ActiveSigner.Call) : option AccountId :=
  match c with ActiveSigner.Call_swap_owner w _ _ => Some w | _ => None end.
Definition installs_key (c : ActiveSigner.Call) : bool :=
  match c with ActiveSigner.Call_install_signer _ _ _ => true | _ => false end.

Lemma signer_keys g env c :
  installs_key c = false -> keys_moved_at g (step_state ActiveSigner.exec g (env, c)) (swaps_key c).
Proof.
  intros Hc. split; intros v; pose proof (step_state_wallet_step g env c v) as Hs;
    unfold wallet_view in Hs; destruct (signers (step_state _ g (env, c)) !! v) as [e'|],
      (signers g !! v) as [e|]; cbn in *; inversion Hs; subst; cbn in *; try done; try congruence.
  all: by intros; rewrite is_Some_alt.
Qed.

(** Nobody but hos-extension and mpc-recovery changes the key of a wallet that has
    one. *)
Lemma stranger_keys g env c :
  wired rec_id g -> marketplace_authority g = ext_id -> predecessor_account_id env <> rec_id ->
  installs_key c = false -> (is_Some (swaps_key c) -> predecessor_account_id env <> ext_id) ->
  keys_moved_at g (step_state ActiveSigner.exec g (env, c)) None.
Proof.
  intros [Hr _] Hm Hne Hc Hs. destruct (signer_keys g env c Hc) as [H1 H2]. split; [|exact H2].
  intros v _. destruct (swaps_key c) as [w|] eqn:Ew; [|by apply H1]. destruct c; cbn in Ew; simplify_eq.
  specialize (Hs ltac:(by eexists)). unfold Near.step_state. cbn [fst snd ActiveSigner.exec].
  destruct (_ ≫= _) as [[[[] g'] l]|f] eqn:E; [|done].
  exfalso. unfold ActiveSigner.swap_owner in E. nrun E; guards; subst; congruence.
Qed.
(** What a call of mpc-recovery does to the keys when active-signer executes it. *)
Lemma answer_keys f env g a g' :
  signer_answer rec_id sig_id f env g = (a, g') ->
  ActiveSigner.wiring g' = ActiveSigner.wiring g /\
  keys_moved_at g g' (match RecoveryWorld.fl_msg f with Msg_swap_owner w _ _ => Some w | _ => None end).
Proof.
  set (e := env_at rec_id sig_id (RecoveryWorld.fl_deposit f) env).
  assert (Hstep : forall c, installs_key c = false -> g' = step_state ActiveSigner.exec g (e, c) ->
    ActiveSigner.wiring g' = ActiveSigner.wiring g /\ keys_moved_at g g' (swaps_key c)).
  { intros c Hc ->. split; [apply step_state_wiring|by apply signer_keys]. }
  unfold signer_answer. fold e. destruct (RecoveryWorld.fl_msg f) as [|w k ex| | |w ex|w| | | | | | | | |] eqn:Em; intros [= <- <-]; try by split.
  - by apply (Hstep (ActiveSigner.Call_swap_owner w k ex)); [|apply swap_state].
  - by apply (Hstep (ActiveSigner.Call_freeze w ex)).
  - by apply (Hstep (ActiveSigner.Call_unfreeze w)).
Qed.

Lemma core_keys w h :
  wired rec_id (sgn w) -> marketplace_authority (sgn w) = ext_id -> ordered_only h = false ->
  let w' := RecoveryWorld.wstep rec_id sig_id w h in
  ActiveSigner.wiring (sgn w') = ActiveSigner.wiring (sgn w) /\
  keys_moved_at (sgn w) (sgn w') (core_target h w).
Proof.
  intros Hw Hm Ho. assert (Hsame : ActiveSigner.wiring (sgn w) = ActiveSigner.wiring (sgn w) /\
    keys_moved_at (sgn w) (sgn w) (core_target h w)) by (split; [done|apply keys_stay]).
  destruct h as [env c|env c|i env a|i env]; cbn [RecoveryWorld.wstep].
  - case_bool_decide; [done|]. by destruct (RecoveryWorld.call_promise _ _ _) as [[[]]|].
  - case_bool_decide; [done|]. cbn. split; [apply step_state_wiring|].
    apply stranger_keys; try done.
    + by destruct c.
    + destruct c; cbn in *; try by intros []. intros _. by apply bool_decide_eq_false in Ho.
  - cbn [core_target] in *. destruct (RecoveryWorld.flights w !! i) as [f|]; [|done].
    case_bool_decide; [|done]. cbn [mbind option_bind] in *. case_bool_decide.
    + destruct (signer_answer rec_id sig_id f env (sgn w)) as [b g'] eqn:E.
      destruct (RecoveryWorld.resume _ _); [|done]. by eapply answer_keys.
    + by destruct (RecoveryWorld.resume _ _).
  - destruct (RecoveryWorld.flights w !! i) as [f|]; [|done].
    destruct (_ ≫= _) as [c|]; [|done]. by destruct (MpcRecovery.exec _ _ _) as [[[]]|].
Qed.

Lemma extension_wiring x e c :
  let x' := step_state HosExtension.exec x (e, c) in
  HosExtension.registry x' = HosExtension.registry x /\
  HosExtension.active_signer x' = HosExtension.active_signer x /\
  HosExtension.recovery x' = HosExtension.recovery x.
Proof.
  cbn. unfold Near.step_state. cbn [fst snd].
  destruct (HosExtension.exec c e x) as [[[[] x'] l]|f] eqn:E; [|done].
  destruct c; cbn [HosExtension.exec] in E;
    unfold HosExtension.pause, HosExtension.unpause, HosExtension.add_admin, HosExtension.remove_admin,
      HosExtension.skim, HosExtension.force_transfer, HosExtension.after_force_swap,
      HosExtension.sweep_ft, HosExtension.after_balance_for_sweep,
      HosExtension.after_storage_for_sweep, HosExtension.after_sweep_settled in E; by nrun E.
Qed.
(** The keys of the core move only where a recovery completes; the rest of the
    wiring is out of reach. *)
Lemma core_law S h S' :
  wired_together S -> ordered_only h = false ->
  hos S' = hos S -> core S' = RecoveryWorld.wstep rec_id sig_id (core S) h ->
  wired_together S' /\
  (forall v, core_target h (core S) <> Some v -> wallet_key S' v = wallet_key S v) /\
  (forall v, is_Some (wallet_key S v) <-> is_Some (wallet_key S' v)).
Proof.
  intros (H1 & H2 & H3 & H4 & H5 & H6) Ho Hh Hc.
  destruct (core_keys (core S) h H4 H5 Ho) as [Hw [Hk Hp]].
  unfold wired_together, wallet_key, signer_of. rewrite Hh, Hc. split_and!; try done.
  - by eapply wiring_wired.
  - unfold signer_of, ActiveSigner.wiring in *. congruence.
  - intros v. by rewrite !fmap_is_Some.
Qed.

Lemma hp_recovery_keys w env c :
  sgn (RecoveryWorld.wstep rec_id sig_id w (RecoveryWorld.Hp_recovery env c)) = sgn w.
Proof.
  cbn. case_bool_decide; [done|]. by destruct (RecoveryWorld.call_promise _ _ _) as [[[]]|].
Qed.

Lemma move_keeps m S :
  wired_together S -> wired_together (run_traffic m S) /\
  (forall v, recovery_target m S <> Some v -> wallet_key (run_traffic m S) v = wallet_key S v) /\
  (forall v, is_Some (wallet_key S v) <-> is_Some (wallet_key (run_traffic m S) v)).
Proof.
  intros HW. assert (Hsgn : forall S', sgn (core S') = sgn (core S) ->
    HosExtension.registry (hos S') = HosExtension.registry (hos S) ->
    HosExtension.active_signer (hos S') = HosExtension.active_signer (hos S) ->
    HosExtension.recovery (hos S') = HosExtension.recovery (hos S) ->
    wired_together S' /\ (forall v, recovery_target m S <> Some v -> wallet_key S' v = wallet_key S v) /\
    (forall v, is_Some (wallet_key S v) <-> is_Some (wallet_key S' v))).
  { intros S' E E1 E2 E3. unfold wired_together, wallet_key, signer_of in *.
    rewrite E, E1, E2, E3. by split; [|split]. }
  destruct m as [h|env c|i env]; cbn [run_traffic].
  - destruct (ordered_only h) eqn:Ho; [by apply Hsgn|]. by apply (core_law S h).
  - case_match; [by apply Hsgn|]. apply Hsgn; [done|..]; apply extension_wiring.
  - destruct (notices S !! i) as [w|]; [|by apply Hsgn]. apply Hsgn; try done. apply hp_recovery_keys.
Qed.

Lemma run_mint_law `{!SdkLaws} x t n k d S o S' :
  wired_together S -> managed t = true -> run_mint x t n k d S = (o, S') ->
  wired_together S' /\
  (if worked (Reply_minted o)
   then wallet_key S (sub_account_key t n) = None /\ key_set S S' (sub_account_key t n) k
   else keys_kept S S').
Proof. intros HW _ (g & -> & Hs & Hi)%run_mint_outcome. by eapply installed_law. Qed.

Lemma run_install_law x t w k S a S' :
  wired_together S -> managed t = true -> run_install x t w k S = (a, S') ->
  wired_together S' /\
  (if is_ok a then wallet_key S w = None /\ key_set S S' w k else keys_kept S S').
Proof. intros HW _ (g & -> & Hs & Hi)%run_install_outcome. by eapply installed_law. Qed.

#[export] Instance five_contracts_laws `{!SdkLaws} : WalletsLaws := {
  in_order := wired_together;
  transfer_law := run_transfer_law;
  mint_law := run_mint_law;
  install_law := run_install_law;
  move_law := move_keeps
}.
End Deployment.
