(* ===== verification/DeploymentRuns.v ===== *)
(** * What the runs of the five contracts are

    A run of the registry with the wallets of file [Deployment] is at once a run of
    the registry's world (file [RegistryWorld]) and, on its recovery side, one of
    mpc-recovery and active-signer's (file [RecoveryWorld]): what was shown of
    those holds here. Composed, they show that a wallet whose recovery is approved
    is out of the registry's reach. *)
From S2P Require Import ActiveSigner.
From S2P Require Import MpcRecovery.
From S2P Require Import RecoveryWorld.
From S2P Require Import HosExtension.
From S2P Require Import TlaManager.
From S2P Require Import System.
From S2P Require Import SystemKeys.
From S2P Require Import Deployment.

Section DeploymentRuns.
Context `{HS : !Sdk} `{HD : !DefuseWallet} `{HL : !SdkLaws}.
Context (reg_id ext_id rec_id sig_id : AccountId).
Context (managers : gmap AccountId TlaManager.TlaManager).

#[local] Instance wallets : Wallets := five_contracts reg_id ext_id rec_id sig_id managers.
Notation core_of w := (core (n_wallets w)).

(** What an order did to the wallets is at most one step of active-signer's. *)
Definition one_order (S S' : Contracts) : Prop :=
  exists g caller, core S' = RecoveryWorld.mkWorld (rec (core S)) g (RecoveryWorld.flights (core S)) /\
    signer_step sig_id (signer_of S) g caller /\ (caller = ext_id \/ is_Some (managers !! caller)).

Lemma no_order S : one_order S S.
Proof. exists (signer_of S), ext_id. split_and!; [by destruct S as [h [r g f] n]|by left|by left]. Qed.

Lemma transfer_is_one_order x w k e S a S' :
  transfer x w k e S = (a, S') -> one_order S S'.
Proof.
  cbn. unfold run_transfer. destruct (forced_swap _ _ _ _ _ _ _ _) as [b g] eqn:E. intros [= <- <-].
  exists g, ext_id. split_and!; [done|by eapply forced_swap_step|by left].
Qed.

Lemma mint_is_one_order x t n k d S o S' :
  managed t = true -> SystemWorld.mint x t n k d S = (o, S') -> one_order S S'.
Proof.
  intros Hm (g & -> & Hs & _)%(run_mint_outcome reg_id ext_id rec_id sig_id managers). apply bool_decide_eq_true in Hm.
  exists g, t. split_and!; [done|done|by right].
Qed.

Lemma install_is_one_order x t w k S a S' :
  managed t = true -> install x t w k S = (a, S') -> one_order S S'.
Proof.
  intros Hm (g & -> & Hs & _)%(run_install_outcome reg_id ext_id rec_id sig_id managers). apply bool_decide_eq_true in Hm.
  exists g, t. split_and!; [done|done|by right].
Qed.

Lemma carried_is_one_order x r f S a S' put :
  carry_out x r f S = (a, S', put) -> one_order S S'.
Proof.
  unfold carry_out. destruct (sh_order f) as [[rc w k e|t n k d|t w k]|].
  - case_bool_decide; [|intros [= _ <- _]; apply no_order].
    destruct (transfer x w k e S) as [b S1] eqn:E. intros [= _ <- _]. by eapply transfer_is_one_order.
  - destruct (managed t) eqn:Hm; [|intros [= _ <- _]; apply no_order].
    destruct (SystemWorld.mint x t n k d S) as [b S1] eqn:E. intros [= _ <- _]. by eapply mint_is_one_order.
  - destruct (managed t) eqn:Hm; [|intros [= _ <- _]; apply no_order].
    destruct (install x t w k S) as [b S1] eqn:E. intros [= _ <- _]. by eapply install_is_one_order.
  - intros [= _ <- _]. apply no_order.
Qed.

(** [w'] is the recovery world after some history from [w]. *)
Definition core_run (w w' : RecoveryWorld.World) : Prop :=
  exists tr, w' = RecoveryWorld.wrun rec_id sig_id tr w.

#[local] Instance core_run_preorder : PreOrder core_run.
Proof.
  split; [intros w; by exists []|]. intros w1 w2 w3 [tr1 ->] [tr2 ->]. exists (tr1 ++ tr2).
  unfold RecoveryWorld.wrun. by rewrite foldl_app.
Qed.

(** mpc-recovery is neither hos-extension nor a manager. *)
Definition apart : Prop := ext_id <> rec_id /\ managers !! rec_id = None.

Lemma order_runs S S' : apart -> one_order S S' -> core_run (core S) (core S').
Proof.
  intros [He Hm] (g & caller & -> & [->|(env & c & _ & ->)] & Hc).
  - destruct S as [h [r g f] n]. reflexivity.
  - exists [RecoveryWorld.Hp_signer (RecoveryWorld.env_at caller sig_id 0 env) c]. cbn.
    rewrite bool_decide_false; [done|]. cbn. destruct Hc as [->|[m Hc]]; [done|]. intros ->. congruence.
Qed.

Lemma traffic_runs m S : core_run (core S) (core (run_traffic reg_id ext_id rec_id sig_id m S)).
Proof.
  destruct m as [h|env c|i env]; cbn [run_traffic].
  - destruct (ordered_only ext_id h); [reflexivity|]. by exists [h].
  - by case_match.
  - destruct (notices S !! i) as [w|]; [|reflexivity].
    by exists [RecoveryWorld.Hp_recovery (RecoveryWorld.env_at ext_id rec_id 0 env)
                (MpcRecovery.Call_on_wallet_transferred w)].
Qed.

Lemma nstep_core w h : apart -> core_run (core_of w) (core_of (nstep w h)).
Proof.
  intros Ha. destruct h as [env c|i x r|i env|m|amount]; cbn [nstep].
  - case_bool_decide; [done|]. by destruct (call_promise _ _ _) as [[[]]|].
  - destruct (n_shipments w !! i) as [f|]; [|done]. case_bool_decide; [|done].
    destruct (carry_out x r f (n_wallets w)) as [[a S'] put] eqn:E. destruct (resume _ _); [|done].
    apply order_runs; [done|]. by eapply carried_is_one_order.
  - destruct (n_shipments w !! i) as [f|]; [|done]. destruct (sh_answer f) as [r|]; [|done].
    destruct (resume _ r); [|done]. by destruct (call_promise _ _ _) as [[[]]|].
  - apply traffic_runs.
  - done.
Qed.

Lemma nrun_core tr w : apart -> core_run (core_of w) (core_of (nrun tr w)).
Proof.
  intros Ha. revert w. induction tr as [|h tr IH]; intros w; [done|].
  etransitivity; [by apply (nstep_core w h)|]. apply IH.
Qed.

(** A run of the registry with the other four contracts is, on the registry's side,
    the run of its own world with the replies that arrived, and on the recovery's
    side a run of mpc-recovery's and active-signer's. *)
Theorem five_contracts_refine_their_worlds tr w :
  apart ->
  registry_world (nrun tr w) = wrun (registry_history tr w) (registry_world w) /\
  exists hs, core_of (nrun tr w) = RecoveryWorld.wrun rec_id sig_id hs (core_of w).
Proof. intros Ha. split; [apply nrun_registry|by apply nrun_core]. Qed.

(** ** A recovery against the registry *)

(** A frozen wallet is out of an order's reach. *)
Lemma frozen_stays g caller c env a k f :
  wired rec_id g -> caller <> rec_id -> puts_key c = true ->
  wallet_view g a = Some (k, f) -> f <> FreezeState_Unfrozen ->
  wallet_view (step_state ActiveSigner.exec g (RecoveryWorld.env_at caller sig_id 0 env, c)) a = Some (k, f).
Proof.
  intros [Hr _] Hc Hp Hv Hf.
  pose proof (step_state_wallet_step g (RecoveryWorld.env_at caller sig_id 0 env) c a) as Hs.
  rewrite Hv in Hs. inversion Hs; subst; cbn in *; congruence.
Qed.

Lemma frozen_order S S' a k f :
  apart -> wired rec_id (signer_of S) -> one_order S S' ->
  wallet_view (signer_of S) a = Some (k, f) -> f <> FreezeState_Unfrozen ->
  wallet_view (signer_of S') a = Some (k, f).
Proof.
  intros [He Hm] Hw (g & caller & E & Hs & Hc) Hv Hf. unfold signer_of. rewrite E. cbn.
  destruct Hs as [->|(env & c & Hp & ->)]; [done|]. apply frozen_stays; try done.
  destruct Hc as [->|[m Hc]]; [done|]. intros ->. congruence.
Qed.

(** C12: In every run of the five contracts a wallet whose recovery is approved is
    frozen under the key its policy is bound to and out of the registry's reach: no
    forced transfer of it is answered true, and no promise of the registry that is
    executed, whatever it orders, changes the wallet's key or freeze state. *)
Theorem approved_recovery_outlasts_the_registry tr w a acc bound k r :
  apart -> at_rest rec_id (core_of w) -> let w' := nrun tr w in
  accounts (rec (core_of w')) !! a = Some acc -> target (policy acc) = Target_Wallet sig_id bound ->
  phase acc = Phase_Approved k r ->
  locked (signer_of (n_wallets w')) a bound /\
  (forall x key e b S', transfer x a key e (n_wallets w') = (b, S') -> b <> Ok true) /\
  forall i x reply,
    wallet_view (signer_of (n_wallets (nstep w' (Oc_execute i x reply)))) a =
      wallet_view (signer_of (n_wallets w')) a.
Proof.
  intros Hap Hrest w' Ha Ht Hp. destruct (nrun_core tr w Hap) as [hs Hhs]. fold w' in Hhs.
  pose proof (wrun_coupled rec_id sig_id hs _ (rest_coupled rec_id sig_id _ Hrest)) as [_ Hl _ _ Hw].
  rewrite <- Hhs in Hl, Hw. assert (Hlock : locked (signer_of (n_wallets w')) a bound).
  { apply Hl. left. rewrite (hold_lookup _ _ _ Ha). unfold hold_of. by rewrite Hp, Ht. }
  pose proof Hlock as (e0 & raw & He & Hf & _).
  pose proof (wallet_view_lookup _ _ _ He) as Hv. split; [done|]. split.
  - intros x key e b S' E ->.
    pose proof (frozen_order _ _ _ _ _ Hap Hw (transfer_is_one_order _ _ _ _ _ _ _ E) Hv Hf) as Hv'.
    cbn in E. unfold run_transfer in E. destruct (forced_swap _ _ _ _ _ _ _ _) as [b g] eqn:Es.
    injection E as -> <-. apply forced_swap_outcome in Es; [|done]. destruct Es as [[_ Hk]|[Hn _]]; [|done].
    destruct Hk as (raw' & k' & e' & _ & _ & _ & _ & Hs). unfold wallet_view in Hv'. cbn in Hv'.
    rewrite Hs, lookup_insert_eq in Hv'. cbn in Hv'. by simplify_eq.
  - intros i x reply. cbn [nstep]. destruct (n_shipments w' !! i) as [f|]; [|done].
    case_bool_decide; [|done].
    destruct (carry_out x reply f (n_wallets w')) as [[b S'] put] eqn:E. destruct (resume _ _); [|done].
    cbn. rewrite Hv. eapply frozen_order; [done|done|by eapply carried_is_one_order|done|done].
Qed.

(** ** From deployment on *)

(** The contracts as their initialisers leave them, wired to each other. *)
Record deployed (s : TlaRegistry) (S : Contracts) : Prop := {
  d_registry : exists env admin parked grace,
    RegistryState.new env admin ext_id sig_id parked grace = Done s;
  d_extension : exists admin, hos S = HosExtension.new admin reg_id sig_id rec_id;
  d_signer : exists admin mpc timeout, ActiveSigner.new admin ext_id rec_id mpc timeout = Done (signer_of S);
  d_recovery : exists owner mpc watchers threshold,
    MpcRecovery.new owner mpc ext_id watchers threshold = Done (rec (core S));
  d_managers : map_Forall (fun _ m => exists mpc funding, m = TlaManager.new reg_id sig_id mpc funding) managers;
  d_apart : apart
}.

Lemma new_signer_inv admin ma ra mpc timeout g :
  ActiveSigner.new admin ma ra mpc timeout = Done g ->
  signers g = ∅ /\ marketplace_authority g = ma /\ recovery_authority g = ra.
Proof. unfold ActiveSigner.new. destruct (_ && _); [|done]. by intros [= <-]. Qed.

Lemma new_registry_inv env admin ext sig parked grace s :
  RegistryState.new env admin ext sig parked grace = Done s ->
  sub_accounts s = ∅ /\ signer_pending s = ∅ /\ parked_names s = ∅ /\ tlas s = ∅ /\ hos_extension s = ext.
Proof. unfold RegistryState.new. intros H. repeat case_match; by simplify_eq/=. Qed.

Lemma deployed_wired s S : deployed s S -> wired_together reg_id ext_id rec_id sig_id managers S.
Proof.
  intros [_ (a & Hx) (a' & mpc & t & Hg) _ Hm [Hne Hrec]].
  apply new_signer_inv in Hg as (_ & Hma & Hra). unfold wired_together. rewrite Hx.
  split_and!; try done; [split; congruence|]. intros t' m Hin. destruct (Hm t' m Hin) as (x & f & ->).
  split_and!; [done|done|]. intros ->. congruence.
Qed.

Lemma deployed_net_ok s balance S : deployed s S -> net_ok (first_day s balance S).
Proof.
  intros H. pose proof (deployed_wired s S H) as HW. destruct H as [(e & a & k & g & Hs) _ Hg _ _ _].
  apply new_registry_inv in Hs as (H1 & H2 & H3 & H4 & H5).
  destruct Hg as (a' & mpc & t & Hg). apply new_signer_inv in Hg as (Hg & _ & _).
  apply fresh_net_ok; try done.
  - intros t' Ht. rewrite H4 in Ht. by destruct Ht.
  - intros v. cbn. unfold wallet_key. by rewrite Hg.
Qed.

(** C1: From the deployment of the five contracts on, with every promise in flight
    and calls, receipts, replies and recoveries interleaving in any order: a rented
    name with no pending signer about which no rental, sale or reclaim is in flight
    has a wallet that obeys the very key which the owner on record named in an
    accepted rental or purchase of that name in this history, or the one a recovery
    has replaced it with; a parked name's wallet obeys a key that was the registry's
    parked key; a name neither rented nor parked has no wallet key. Excluded are
    what the guards leave open: a purchase while a rental or reclaim of the name is
    in flight, a reclaim while a rental is, an admin's clearing of a lock or mark
    while the name is being settled, an admin's registration of a TLA that runs no
    tla-manager, a forced transfer of a re-rental or reclaim that answers false, and
    an installation, retried at an account that runs no tla-manager, which that
    account answers with success. *)
Theorem title_and_key_agree_from_deployment tr s0 balance S0 :
  deployed s0 S0 -> let w0 := first_day s0 balance S0 in always orderly tr w0 ->
  let w := nrun tr w0 in let s := n_reg w in
  (forall key sub, sub_accounts s !! key = Some sub -> signer_pending s !! key = None ->
     quiet w key -> obeys tr w0 key (Held (se_owner sub))) /\
  (forall key, sub_accounts s !! key = None -> is_Some (parked_names s !! key) -> obeys tr w0 key Parked) /\
  (forall key, sub_accounts s !! key = None -> parked_names s !! key = None ->
     wallet_key (n_wallets w) key = None).
Proof. intros Hd w0 Htr. exact (title_and_key_agree tr _ _ _ (deployed_net_ok _ balance _ Hd) Htr). Qed.
End DeploymentRuns.

(** ** Witnesses *)
Definition demo_managers : gmap AccountId TlaManager.TlaManager := {["web.near" := demo_manager]}.
#[local] Instance demo_wallets : Wallets :=
  five_contracts "registry.hos" "ext.hos" "rec.hos" "signer.hos" demo_managers.
#[local] Instance demo_wallets_laws : WalletsLaws :=
  five_contracts_laws "registry.hos" "ext.hos" "rec.hos" "signer.hos" demo_managers.

(** The five contracts on their first day, and the steps that open a TLA. *)
Definition demo_new_registry : TlaRegistry :=
  mkTlaRegistry ∅ ∅ {["dao.near"]} default_fee_config 0 0 false CONTRACT_VERSION
    ∅ 0 ∅ ∅ ∅ ∅ ∅ ∅ ∅ ∅ ∅ ∅ ∅ "ext.hos" "signer.hos" (demo_key 99) MIN_GRACE_PERIOD_NS.
Definition demo_contracts : Contracts :=
  mkContracts (HosExtension.new "dao.near" "registry.hos" "signer.hos" "rec.hos")
    (RecoveryWorld.mkWorld
       (mkMpcRecovery "dao.near" "v1.signer" "ext.hos" [demo_key 20] 1 ∅ ∅)
       (mkActiveSigner {["dao.near"]} ∅ "ext.hos" "rec.hos" "v1.signer" 3600 ∅) []) [].
Definition demo_net : Net := first_day demo_new_registry (100 * ONE_NEAR) demo_contracts.

Lemma demo_deployed :
  deployed "registry.hos" "ext.hos" "rec.hos" "signer.hos" demo_managers demo_new_registry demo_contracts.
Proof.
  split.
  - exists (registry_call "dao.near" 0 0), "dao.near", (demo_key 99), MIN_GRACE_PERIOD_NS. vm_eq.
  - by eexists.
  - exists "dao.near", "v1.signer", 3600. vm_eq.
  - exists "dao.near", "v1.signer", [demo_key 20], 1. vm_eq.
  - apply map_Forall_singleton. by exists "v1.signer", demo_funding.
  - split; [discriminate|vm_eq].
Qed.

Definition demo_weather : Weather :=
  mkWeather (demo_at "signer.hos" 10) false (Ok (demo_key 70)) (Ok tt).
Definition any_reply : Reply := Reply_results [].
Definition zero_balance : Reply := Reply_results [PromiseResult_Successful (as_bytes_str (str_of_bytes [34; 48; 34]))].

Definition demo_opening : list Occurrence :=
  [Oc_wallets (Tr_core (RecoveryWorld.Hp_signer (demo_at "dao.near" 0) (ActiveSigner.Call_add_minter "web.near")));
   Oc_call (registry_call "dao.near" 0 1) (Call_register_tla "web.near" TlaType_Open PremiumCategory_Standard None);
   Oc_call (registry_call "dao.near" 0 1) (Call_activate_open_tla "web.near");
   Oc_call (registry_call "dao.near" 0 1) (Call_add_ft_allowlist "usdt.near")].
Definition demo_rental : list Occurrence :=
  [Oc_call (registry_call "dave.near" (100 * ONE_NEAR) 2)
     (Call_rent_sub_account "web.near" "dave" (demo_key 5) "dave.near");
   Oc_execute 0 demo_weather any_reply;
   Oc_resume 0 (registry_callback 4 [])].
Definition demo_listing_of_dave : list Occurrence :=
  [Oc_call (registry_call "dave.near" 1 5)
     (Call_list_sub_account "web.near" "dave" ONE_NEAR (demo_key 5));
   Oc_execute 0 demo_weather (Reply_signer (Ok (ed25519_base58 (demo_key 5))));
   Oc_resume 0 (registry_callback 7 [])].
(** carol buys it: the gate, the transfer, the settlement. *)
Definition demo_purchase_of_carol : list Occurrence :=
  [Oc_call (registry_call "carol.near" (2 * ONE_NEAR) 8) (Call_buy_sub_account "web.near" "dave" (demo_key 8));
   Oc_execute 0 demo_weather zero_balance;
   Oc_resume 0 (registry_callback 10 []);
   Oc_execute 0 demo_weather any_reply;
   Oc_resume 0 (registry_callback 12 [])].
Definition demo_trade : list Occurrence :=
  demo_opening ++ demo_rental ++ demo_listing_of_dave ++ demo_purchase_of_carol.
Definition dave : string := "dave.web.near".


Lemma demo_trade_orderly : always orderly demo_trade demo_net.
Proof. apply always_b_sound. vm_eq. Qed.

Lemma title_and_key_agree_from_deployment_witness :
  obeys demo_trade demo_net dave (Held "carol.near") /\
  key_of (n_wallets (nrun demo_trade demo_net)) dave = Some (demo_raw 8).
Proof.
  split; [|vm_eq].
  apply (proj1 (title_and_key_agree_from_deployment "registry.hos" "ext.hos" "rec.hos" "signer.hos" demo_managers
    demo_trade demo_new_registry (100 * ONE_NEAR) demo_contracts demo_deployed demo_trade_orderly) dave
    (mkSubAccountEntry "carol.near" "web.near" "carol.near" 2 31536000000000002 None)).
  - vm_eq.
  - vm_eq.
  - unfold quiet. match goal with |- _ ∉ ?names => assert (E : names = []) by vm_eq; rewrite E end.
    apply not_elem_of_nil.
Defined.

(** The transfer has been made, the registry has not heard of it. *)
Lemma no_stranger_holds_a_wallet_witness :
  let tr := take 14 demo_trade in let w := nrun tr demo_net in
  (exists sub, sub_accounts (n_reg w) !! dave = Some sub /\ obeys tr demo_net dave (Held (se_owner sub))) \/
  (is_Some (parked_names (n_reg w) !! dave) /\ obeys tr demo_net dave Parked) \/
  (exists f e h, f ∈ n_shipments w /\ sh_errand f = Some (dave, e) /\ done_with f = true /\ serves e h /\
     obeys tr demo_net dave h).
Proof.
  apply (no_stranger_holds_a_wallet (take 14 demo_trade) demo_new_registry (100 * ONE_NEAR) demo_contracts dave
    (deployed_net_ok _ _ _ _ _ _ _ _ demo_deployed)).
  - apply always_b_sound. vm_eq.
  - assert (E : key_of (n_wallets (nrun (take 14 demo_trade) demo_net)) dave = Some (demo_raw 8)) by vm_eq.
    match goal with |- is_Some ?x => replace x with (Some (demo_raw 8)) by (symmetry; exact E) end.
    by eexists.
  - vm_eq.
Defined.

Lemma demo_apart : apart "ext.hos" "rec.hos" demo_managers.
Proof. split; [discriminate|vm_eq]. Qed.

Lemma five_contracts_refine_their_worlds_witness :
  exists hs, core (n_wallets (nrun demo_trade demo_net)) =
    RecoveryWorld.wrun "rec.hos" "signer.hos" hs (core demo_contracts).
Proof.
  exact (proj2 (five_contracts_refine_their_worlds "registry.hos" "ext.hos" "rec.hos" "signer.hos" demo_managers
    demo_trade demo_net demo_apart)).
Defined.

Definition demo_recovery_net : Net :=
  mkNet demo_registry 0 [] (mkContracts demo_extension demo_recovery_world []) ∅ ∅.
Definition demo_recovery_run : list Occurrence := (fun h => Oc_wallets (Tr_core h)) <$> demo_approval.

Lemma approved_recovery_outlasts_the_registry_witness :
  (transfer demo_weather "bob.alice.near" (demo_key 9) (Some (demo_key 7))
     (n_wallets (nrun demo_recovery_run demo_recovery_net))).1 <> Ok true.
Proof.
  destruct (approved_recovery_outlasts_the_registry "registry.hos" "ext.hos" "rec.hos" "signer.hos" demo_managers
    demo_recovery_run demo_recovery_net "bob.alice.near" demo_approved_entry (demo_key 7) (demo_key 8) 0
    demo_apart demo_at_rest) as (_ & H & _); [vm_eq|reflexivity|reflexivity|].
  eapply H. apply surjective_pairing.
Defined.

(** A re-rental expects no key in the wallet it transfers. A name listed with the
    parked key and sold while its re-rental is in flight loses the buyer's key to
    the seller's. *)
Definition demo_parked_net : Net :=
  mkNet (demo_registry_with ∅ ∅ ∅ 0 0 <| parked_names := {[dave := mkParkedEntry "web.near" 0]} |>)
    (100 * ONE_NEAR) []
    (mkContracts demo_extension
       (RecoveryWorld.mkWorld demo_recovery
          (mkActiveSigner {["dao.near"]} {["web.near"]} "ext.hos" "rec.hos" "v1.signer" 3600
             {[dave := demo_wallet_entry 99 FreezeState_Unfrozen]}) []) [])
    {[dave := mkGrant Parked (Some (demo_key 99)) false]} ∅.
Definition sold_while_re_rented : list Occurrence :=
  [Oc_call (registry_call "dave.near" (100 * ONE_NEAR) 2)
     (Call_rent_sub_account "web.near" "dave" (demo_key 5) "dave.near");
   Oc_execute 0 demo_weather zero_balance;
   Oc_resume 0 (registry_callback 4 []);
   Oc_call (registry_call "dave.near" 1 5) (Call_list_sub_account "web.near" "dave" ONE_NEAR (demo_key 99));
   Oc_execute 0 demo_weather (Reply_signer (Ok (ed25519_base58 (demo_key 99))));
   Oc_resume 0 (registry_callback 7 []);
   Oc_call (registry_call "carol.near" (2 * ONE_NEAR) 8) (Call_buy_sub_account "web.near" "dave" (demo_key 8));
   Oc_execute 0 demo_weather zero_balance;
   Oc_resume 0 (registry_callback 10 []);
   Oc_execute 0 demo_weather any_reply;
   Oc_execute 1 demo_weather any_reply;
   Oc_resume 0 (registry_callback 12 []);
   Oc_resume 0 (registry_callback 13 [])].

Lemma re_rental_overwrites_a_buyers_key :
  let w := nrun sold_while_re_rented demo_parked_net in
  n_shipments w = [] /\ se_owner <$> sub_accounts (n_reg w) !! dave = Some "carol.near"%string /\
  key_of (n_wallets w) dave = Some (demo_raw 5) /\ always_b sold_while_re_rented demo_parked_net = false.
Proof. cbv zeta. split_and!; vm_eq. Qed.

(** A retried installation goes to the account its caller names. With the name split
    elsewhere it goes to an account that runs no tla-manager, whose success the
    registry takes for an installed signer: a rented name, nothing pending, nothing
    in flight, and a wallet without a key. (The signer was pending because the
    manager was not yet a minter of active-signer.) *)
Definition retried_elsewhere : list Occurrence :=
  tail demo_opening ++ demo_rental ++
  [Oc_call (registry_call "dave.near" 0 5) (Call_retry_signer_install "near" "dave.web");
   Oc_execute 0 demo_weather (Reply_results [PromiseResult_Successful []]);
   Oc_resume 0 (registry_callback 7 [])].

Lemma retry_elsewhere_leaves_no_key :
  let w := nrun retried_elsewhere demo_net in
  n_shipments w = [] /\ se_owner <$> sub_accounts (n_reg w) !! dave = Some "dave.near"%string /\
  signer_pending (n_reg w) !! dave = None /\ key_of (n_wallets w) dave = None /\
  always_b retried_elsewhere demo_net = false /\
  always_b (take 7 retried_elsewhere) demo_net = true.
Proof. cbv zeta. split_and!; vm_eq. Qed.
