(* ===== verification/Sandbox.v ===== *)
(** * The contracts in their sandbox

    The two stand-ins of [dev-contracts] composed with the contracts that call
    them: what active-signer asks test-mpc to sign verifies under the wallet's
    key, and the sweep hos-extension drives through test-ft empties the wallet
    and clears the registry's asset gate. *)
From S2P Require Import ActiveSigner.
From S2P Require Import HosExtension.
From S2P Require Import TestFt.
From S2P Require Import TestMpc.
From S2P Require Import RegistrySale.

Section Sandbox.
Context `{HS : !Sdk} `{HW : !DefuseWallet} `{HE : !Ed25519}.

(** ** Signing a transaction *)

(** C30: What an accepted submit_signed_tx asks test-mpc to sign is the hash of the
    transaction the owner authorised, and the signature test-mpc returns verifies
    under the wallet's own MPC key. *)
Theorem submitted_tx_is_signed `{!SdkLaws} `{!Ed25519Laws} w msg proof n bh env g p g' l e m path who domain :
  submit_signed_tx w msg proof n bh env g = Done (p, g', l) ->
  signers g !! w = Some e ->
  tx_fields_ok w (tm_receiver_id msg) (mpc_public_key e) n bh (tm_actions msg) ->
  length (secret m) = 32%nat ->
  mpc_public_key e = derived_public_key m path who domain ->
  exists unsigned hex,
    decode_transaction unsigned =
      Some (mkNearTransaction w (mpc_public_key e) n (tm_receiver_id msg) bh
              (near_action <$> tm_actions msg)) /\
    p = PThen (ext_call (mpc_signer g) (Msg_sign ("hos-tla/" +:+ w) hex 1) 1 SIGN_GAS)
          (Cb_on_signed hex (Some (to_hex unsigned))) ON_SIGNED_GAS /\
    forall env_m, exists r, TestMpc.sign (Some hex) env_m m = Done (r, m, []) /\
      ed25519_verify (signature r) (sha256 unsigned) (key_data (mpc_public_key e)) = true.
Proof.
  intros Hrun He Hok Hm Hkey.
  destruct (submit_signed_tx_inv _ _ _ _ _ _ _ _ _ _ _ Hrun He Hok)
    as (_ & _ & _ & _ & _ & _ & unsigned & ns & _ & Hd & -> & _).
  exists unsigned, (to_hex (sha256 unsigned)). split_and!; [done|done|].
  intros env_m. eexists. split; [apply sign_runs; apply sha256_digest|].
  rewrite Hkey. by apply dalek_sign_verifies.
Qed.

(** ** Sweeping a token *)

(** A sweep run through test-ft (balance query, storage deposit, the signed
    ft_transfer) leaves the wallet with a zero balance and its destination with the
    whole of it, and a query of the swept wallet then clears the registry's asset
    gate. *)
Theorem sweep_empties_the_wallet x f w ft dest n bh env1 env2 env_s env_t data :
  predecessor_account_id env1 = current_account_id env1 ->
  predecessor_account_id env2 = current_account_id env2 ->
  promise_results env2 = [PromiseResult_Successful data] ->
  predecessor_account_id env_t = w -> attached_deposit env_t = ONE_YOCTO ->
  supply_ok f -> total_supply f < U128_MAX -> refuse_storage_deposit f = false ->
  dest <> w -> ft_balance_of f w <> 0 ->
  let b := ft_balance_of f w in
  after_balance_for_sweep w ft dest n bh (Ok b) env1 x =
    Done (POV_Promise (PThen (ext_call ft (Msg_storage_deposit (Some dest) (Some true))
              STORAGE_DEPOSIT_AMOUNT GAS_FOR_STORAGE_DEPOSIT)
            (Cb_after_storage_for_sweep w ft dest b n bh) GAS_FOR_STORAGE_CB), x, []) /\
  exists f1 f2,
    TestFt.storage_deposit (Some dest) (Some true) env_s f = Done (tt, f1, []) /\
    after_storage_for_sweep w ft dest b n bh env2 x =
      Done (POV_Promise (PThen (ext_call (HosExtension.active_signer x)
                (Msg_authority_sign_tx w ft
                   [TxAction_FunctionCall "ft_transfer" (json_ft_transfer dest b "hos-tla reclaim")
                      GAS_FOR_FT_TRANSFER ONE_YOCTO] n bh) ONE_YOCTO GAS_FOR_AUTHORITY_SIGN)
              (Cb_after_sweep_settled w ft dest b) GAS_FOR_SETTLE_CB), x, []) /\
    TestFt.ft_transfer dest b (Some "hos-tla reclaim") env_t f1 = Done (tt, f2, []) /\
    ft_balance_of f2 w = 0 /\ ft_balance_of f2 dest = ft_balance_of f dest + b /\
    forall env3 data3, promise_results env3 = [PromiseResult_Successful data3] ->
      Z.of_nat (length data3) <= FT_BALANCE_MAX_LEN ->
      json_u128 data3 = Some (ft_balance_of f2 w) -> ft_balances_clear env3 [ft] = BalanceGate_Clear.
Proof.
  intros Hp1 Hp2 Hr Hw Hy Hs Hmax Href Hne Hb b.
  split.
  { unfold after_balance_for_sweep. nexec. rewrite bool_decide_true by done. cbn.
    by rewrite (proj2 (Z.eqb_neq b 0) Hb). }
  set (f1 := f <| registered ::= <[dest := true]> |>).
  assert (H1 : TestFt.storage_deposit (Some dest) (Some true) env_s f = Done (tt, f1, [])).
  { unfold TestFt.storage_deposit. nexec. by rewrite Href. }
  destruct (transfer_runs dest b (Some "hos-tla reclaim"%string) env_t f1) as (f2 & H2 & Hm);
    [by apply balance_nonneg|done|done|done|unfold is_registered; cbn; by rewrite lookup_insert_eq, bool_decide_true|by rewrite Hw|].
  rewrite Hw in Hm. destruct Hm as [Hm _].
  assert (Hz : ft_balance_of f2 w = 0).
  { rewrite Hm, bool_decide_true, bool_decide_false by done. change (ft_balance_of f1 w) with b. lia. }
  exists f1, f2. split_and!; [done| |done|done| |].
  - unfold after_storage_for_sweep. nexec. rewrite bool_decide_true by done. cbn. by rewrite Hr.
  - rewrite Hm, bool_decide_false, bool_decide_true by done. change (ft_balance_of f1 dest) with (ft_balance_of f dest). lia.
  - intros env3 data3 H3 Hlen Hj. unfold ft_balances_clear, promise_results_count. rewrite H3. cbn.
    unfold block_reason, promise_result_checked. rewrite H3. cbn.
    apply Z.leb_le in Hlen. by rewrite Hlen, Hj, Hz.
Qed.
End Sandbox.

(** ** Witnesses *)
Lemma submitted_tx_is_signed_witness :
  exists unsigned hex,
    decode_transaction unsigned =
      Some (mkNearTransaction "bob.alice.near" (demo_key 7) 1 "carol.near" demo_hash [NA_Transfer 10]) /\
    forall env_m, exists r, TestMpc.sign (Some hex) env_m demo_mpc = Done (r, demo_mpc, []) /\
      ed25519_verify (signature r) (sha256 unsigned) (replicate 32 7) = true.
Proof.
  destruct (is_done_inv (submit_signed_tx "bob.alice.near" demo_tx (demo_tx_proof "KEYA") 1
              demo_hash (fst demo_submit) demo_signer_state)) as [[[p s'] l] E]; [vm_eq|].
  assert (Hk : mpc_public_key demo_entry = derived_public_key demo_mpc "p" "x.near" 1) by vm_eq.
  destruct (submitted_tx_is_signed _ _ _ _ _ _ _ _ _ _ _ demo_mpc "p" "x.near" 1 E eq_refl demo_tx_fields
    eq_refl Hk) as (unsigned & hex & H1 & _ & H2).
  exists unsigned, hex. split; [exact H1|exact H2].
Defined.

Lemma sweep_empties_the_wallet_witness :
  exists f1 f2,
    TestFt.storage_deposit (Some "bob.near"%string) (Some true) (ft_call "ext.hos" STORAGE_DEPOSIT_AMOUNT) demo_ft
      = Done (tt, f1, []) /\
    TestFt.ft_transfer "bob.near" 500 (Some "hos-tla reclaim"%string) (ft_call "bob.web.near" 1) f1
      = Done (tt, f2, []) /\
    ft_balance_of f2 "bob.web.near" = 0 /\ ft_balance_of f2 "bob.near" = 500.
Proof.
  assert (E : ft_balance_of demo_ft "bob.web.near" = 500) by vm_eq.
  destruct (sweep_empties_the_wallet demo_extension demo_ft "bob.web.near" "usdt.near" "bob.near" 1 demo_hash
    (extension_call "ext.hos" 0)
    (mkEnv "ext.hos" "ext.hos" 0 0 0 0 0 [PromiseResult_Successful []])
    (ft_call "ext.hos" STORAGE_DEPOSIT_AMOUNT) (ft_call "bob.web.near" 1) [])
    as (_ & f1 & f2 & H1 & _ & H2 & H3 & H4 & _);
    [reflexivity|reflexivity|reflexivity|reflexivity|reflexivity|exact demo_ft_supply|apply Z.ltb_lt; vm_eq|
     vm_eq|discriminate|rewrite E; discriminate|].
  rewrite E in H2, H4. exists f1, f2.
  split; [exact H1|]. split; [exact H2|]. split; [exact H3|]. rewrite H4. vm_eq.
Defined.
