(* ===== verification/UnitTests.v ===== *)
(** * The sources' own unit tests, on the model

    The unit tests that stand inside the implementation files, translated and
    evaluated: the near-api-js vectors the transaction builders are tested
    against byte for byte, the NEP-413 layout, the fee tables, the watcher
    quorum, the minting handlers and the signer stand-in. Expectations are the
    authors'; the keys are the tests' own (where a test generates one, a fixed
    one), and ed25519, SHA-256 and the text of a key are those of [Demo]. *)
From S2P Require Import ActiveSigner.
From S2P Require Import RecoveryProof.
From S2P Require Import TlaManager.
From S2P Require Import TestMpc.
From S2P Require Import RegistryTypes.

(** ** What the tests assert *)
Definition string_has (part s : string) : bool := bool_decide (is_Some (String.index 0 part s)).
Definition string_ends (tail s : string) : bool :=
  bool_decide (String.substring (String.length s - String.length tail) (String.length tail) s = tail).

(** [#[should_panic(expected = "..")]] *)
Definition panics_with {Er A} (expected : string) (r : Res Er A) : bool :=
  match r with Fail (Panicked msg) => string_has expected msg | _ => false end.

(** A method that returned a promise. *)
Definition returns_promise {Er St E A} (r : Res Er (PromiseOrValue Msg Callback A * St * E)) : bool :=
  match r with Done (POV_Promise _, _, _) => true | _ => false end.

(** The keys the tests parse: "ed25519:DcA2MzgpJbrUATQLLceocVckhhAqrkingax4oJ9kZ847" and
    "secp256k1:qMoRgcoXai4mBPsdbHi1wfyxF9TdbPCF4qSDQTRP3TfescSRoUdSx6nmeQoN3aiwGzwMyGXAb1gUjBTv5AY8DXj". *)
Definition owner_key : PublicKey := mkPublicKey CurveType_ED25519
  (default [] (from_hex "bb4dc639b212e075a751685b26bdcea5920a504181ff2910e8549742127092a0")).
Definition secp_key : PublicKey := mkPublicKey CurveType_SECP256K1
  (default [] (from_hex
     "29b3e0919adc41a316aad4f41444d9bf3a9b639550f2aa735676ffff25ba3898d6881e81d2e0163348ff07b3a9a3968401572aa79c79e7edb522f41addc8e6ce")).

(** ** hos-common/src/lib.rs *)
Module CommonTests.
Definition strips_ed25519_prefix : bool :=
  match ed25519_base58 owner_key with
  | Some raw => negb (string_has ":" raw) && bool_decide ("ed25519:" +:+ raw = pk_to_string owner_key)
  | None => false
  end.
Definition rejects_non_ed25519 : bool := bool_decide (ed25519_base58 secp_key = None).
Definition all : list bool := [strips_ed25519_prefix; rejects_non_ed25519].
End CommonTests.

(** ** hos-common/src/tx.rs *)
Module TxTests.
Definition built (receiver : AccountId) (actions : list TxAction) : string :=
  to_hex (build_transaction golden_signer golden_key 42 receiver (replicate 32 0) actions).
Definition transfer_matches_near_api_js_byte_for_byte : bool :=
  bool_decide (built "bob.testnet" [TxAction_Transfer 123456789] = TRANSFER_CANONICAL).
Definition function_call_matches_near_api_js_byte_for_byte : bool :=
  bool_decide (built "registry.hostla.testnet"
    [TxAction_FunctionCall "list_sub_account" [123; 34; 120; 34; 58; 49; 125] (300 * Tgas) 1]
    = FUNCTION_CALL_CANONICAL).
Definition multi_action_matches_near_api_js_byte_for_byte : bool :=
  bool_decide (built "bob.testnet" [TxAction_Transfer 1; TxAction_FunctionCall "ping" [] (5 * Tgas) 0]
    = MULTI_CANONICAL).
Definition mpc_path_is_stable : bool :=
  bool_decide (mpc_path "alice.hos.near" = "hos-tla/alice.hos.near"%string).
Definition all : list bool :=
  [transfer_matches_near_api_js_byte_for_byte; function_call_matches_near_api_js_byte_for_byte;
   multi_action_matches_near_api_js_byte_for_byte; mpc_path_is_stable].
End TxTests.

(** ** active-signer/src/nep413.rs *)
Module Nep413Tests.
Definition payload_matches_nep413_borsh_layout : bool :=
  bool_decide (to_hex (payload "hi" (replicate 32 0) "app.example.com" None) =
    "9d010080" +:+ "020000006869" +:+
    "0000000000000000000000000000000000000000000000000000000000000000" +:+
    "0f0000006170702e6578616d706c652e636f6d" +:+ "00").
Definition payload_encodes_callback_url_option : bool :=
  let hex := to_hex (payload "hi" (replicate 32 7) "app.example.com" (Some "https://x.example"%string)) in
  string_ends "011100000068747470733a2f2f782e6578616d706c65" hex &&
  bool_decide (String.substring 0 8 hex = "9d010080"%string).
Definition all : list bool := [payload_matches_nep413_borsh_layout; payload_encodes_callback_url_option].
End Nep413Tests.

(** ** tla-registry/src/fees.rs *)
Module FeesTests.
Definition prices : list Z := [0; 1; 7; 100; 10000; ONE_NEAR; U128_MAX / 2; U128_MAX].
Definition rates : list Z := [0; 1; 250; 500; 5000; 9999; 10000; 65535].
Definition split_resale_conserves_value : bool :=
  forallb (fun price =>
    forallb (fun bps =>
      let (commission, proceeds) := split_resale price bps in
      (commission <=? price) && bool_decide (checked_add U128_MAX commission proceeds = Some price))
      rates) prices.

(** The loop [for len in 0u8..=64] with its [prev]. *)
Fixpoint non_increasing (config : FeeConfig) (prev : Z) (lens : list Z) : bool :=
  match lens with
  | [] => true
  | len :: lens =>
      let rent := base_rent len config in
      (rent <=? prev) && non_increasing config rent lens
  end.
Definition base_rent_non_increasing_and_boundaries : bool :=
  let config := default_fee_config in
  non_increasing config U128_MAX (Z.of_nat <$> seq 0 65) &&
  (base_rent 0 config =? rent_tier_5 config) && (base_rent 5 config =? rent_tier_5 config) &&
  (base_rent 6 config =? rent_tier_8 config) && (base_rent 8 config =? rent_tier_8 config) &&
  (base_rent 9 config =? rent_tier_10 config) && (base_rent 10 config =? rent_tier_10 config) &&
  (base_rent 11 config =? rent_tier_12plus config) && (base_rent 64 config =? rent_tier_12plus config).
Definition all : list bool := [split_resale_conserves_value; base_rent_non_increasing_and_boundaries].
End FeesTests.

(** ** mpc-recovery/src/proof.rs *)
Module ProofTests.
Definition keypair (b : Z) : list Z * PublicKey :=
  (replicate 32 b, mkPublicKey CurveType_ED25519 (verifying_key (replicate 32 b))).
Definition signed_by (kp : list Z * PublicKey) (msg : list Z) : PublicKey * list Z :=
  (snd kp, dalek_sign (fst kp) msg).

Definition verify_accepts_valid_and_rejects_tampered : bool :=
  let (sk, pk) := keypair 5 in
  let msg := as_bytes_str "recover" in
  let sig := dalek_sign sk msg in
  verify msg sig pk && negb (verify (as_bytes_str "other") sig pk).
Definition verify_rejects_weak_low_order_key : bool :=
  let weak := mkPublicKey CurveType_ED25519 (1 :: replicate 31 0) in
  negb (verify (as_bytes_str "anything") (replicate 64 0) weak).
Definition quorum_requires_threshold_distinct_valid_watcher_signatures : bool :=
  let w1 := keypair 11 in let w2 := keypair 12 in let w3 := keypair 13 in
  let outsider := keypair 14 in
  let watchers := [snd w1; snd w2; snd w3] in
  let msg := as_bytes_str "verdict" in
  let two := [signed_by w1 msg; signed_by w2 msg] in
  let duplicate := [signed_by w1 msg; signed_by w1 msg] in
  let outsider_sig := [signed_by w1 msg; signed_by outsider msg] in
  let forged := [signed_by w1 msg; (snd w2, dalek_sign (fst w3) msg)] in
  verify_quorum msg two watchers 2 && negb (verify_quorum msg two watchers 3) &&
  negb (verify_quorum msg duplicate watchers 2) && negb (verify_quorum msg outsider_sig watchers 2) &&
  negb (verify_quorum msg forged watchers 2).
Definition verdict_message_binds_new_owner : bool :=
  negb (bool_decide (verdict_message "rec.testnet" "victim.testnet" (snd (keypair 5)) 0 true =
                     verdict_message "rec.testnet" "victim.testnet" (snd (keypair 6)) 0 true)).
Definition request_and_verdict_messages_are_domain_separated : bool :=
  let req := request_message "rec.testnet" "victim.testnet" (snd (keypair 5)) 0 in
  let verd := verdict_message "rec.testnet" "victim.testnet" (snd (keypair 5)) 0 true in
  bool_decide (req !! 0%nat = Some DOMAIN_REQUEST) && bool_decide (verd !! 0%nat = Some DOMAIN_VERDICT) &&
  negb (bool_decide (req !! 0%nat = verd !! 0%nat)).
Definition all : list bool :=
  [verify_accepts_valid_and_rejects_tampered; verify_rejects_weak_low_order_key;
   quorum_requires_threshold_distinct_valid_watcher_signatures; verdict_message_binds_new_owner;
   request_and_verdict_messages_are_domain_separated].
End ProofTests.

(** ** mpc-recovery/src/tx.rs *)
Module RecoveryTxTests.
Definition add_key_tx_matches_near_api_js_byte_for_byte : bool :=
  bool_decide (to_hex (add_key_tx "victim.testnet" golden_key 1 (replicate 32 0) golden_new_key)
    = NEAR_API_JS_CANONICAL).
Definition to_hex_encodes_low_and_high_nibbles : bool :=
  bool_decide (to_hex [0; 15; 255; 167] = "000fffa7"%string).
Definition all : list bool :=
  [add_key_tx_matches_near_api_js_byte_for_byte; to_hex_encodes_low_and_high_nibbles].
End RecoveryTxTests.

(** ** tla-manager/src/lib.rs *)
Module ManagerTests.
Definition REGISTRY : AccountId := "tla-registry.testnet".
Definition SIGNER : AccountId := "active-signer.testnet".
Definition MPC : AccountId := "v1.signer.testnet".
Definition MANAGER : AccountId := "tla.testnet".
Definition alice : AccountId := "alice.tla.testnet".
Definition derived_key : PublicKey := golden_key.
(** [NearToken::from_millinear(100)] *)
Definition min : Z := 100 * 10 ^ 21.
Definition ctx (predecessor : AccountId) (deposit : Z) : Env := demo_env predecessor MANAGER deposit 0.
Definition deploy : TlaManager.TlaManager := TlaManager.new REGISTRY SIGNER MPC min.

Definition registry_can_mint : bool :=
  is_done (create_sub_account "alice" owner_key (ctx REGISTRY min) deploy).
Definition outsider_cannot_mint : bool :=
  panics_with "only registry" (create_sub_account "alice" owner_key (ctx "attacker.testnet" min) deploy).
Definition dotted_name_rejected : bool :=
  panics_with "invalid sub-account name"
    (create_sub_account "alice.bob" owner_key (ctx REGISTRY min) deploy).
Definition empty_name_rejected : bool :=
  panics_with "invalid sub-account name"
    (create_sub_account EmptyString owner_key (ctx REGISTRY min) deploy).
Definition underfunded_mint_rejected : bool :=
  panics_with "deposit below minimum balance"
    (create_sub_account "alice" owner_key (ctx REGISTRY (min - 1)) deploy).
Definition derive_success_creates_account : bool :=
  returns_promise (on_key_derived alice owner_key min (Ok derived_key) (ctx MANAGER 0) deploy).
Definition derive_failure_refunds_registry : bool :=
  returns_promise (on_key_derived alice owner_key min (Err PromiseError_Failed) (ctx MANAGER 0) deploy).
Definition secp256k1_derived_key_treated_as_failure : bool :=
  returns_promise (on_key_derived alice owner_key min (Ok secp_key) (ctx MANAGER 0) deploy).
Definition callback_success_installs_signer : bool :=
  is_done (on_wallet_created alice owner_key derived_key min (Ok tt) (ctx MANAGER 0) deploy).
Definition callback_failure_refunds_registry : bool :=
  returns_promise
    (on_wallet_created alice owner_key derived_key min (Err PromiseError_Failed) (ctx MANAGER 0) deploy).
Definition on_creation_failed_reports_creation_failed : bool :=
  match on_creation_failed (ctx MANAGER 0) deploy with
  | Done (MintOutcome_CreationFailed, _, _) => true
  | _ => false
  end.
Definition secp256k1_owner_key_rejected : bool :=
  panics_with "owner key must be ed25519" (create_sub_account "alice" secp_key (ctx REGISTRY min) deploy).
Definition config_roundtrips : bool := bool_decide (config deploy = (SIGNER, MPC, min)).
Definition signer_settled_ok_reports_active : bool :=
  match on_signer_settled alice (Ok tt) (ctx MANAGER 0) deploy with
  | Done (MintOutcome_Active, _, _) => true
  | _ => false
  end.
Definition signer_settled_err_reports_pending : bool :=
  match on_signer_settled alice (Err PromiseError_Failed) (ctx MANAGER 0) deploy with
  | Done (MintOutcome_SignerPending, _, _) => true
  | _ => false
  end.
Definition retry_install_accepts_registry : bool :=
  is_done (retry_install alice owner_key (ctx REGISTRY 0) deploy).
Definition retry_install_rejects_outsider : bool :=
  panics_with "only registry" (retry_install alice owner_key (ctx "attacker.testnet" 0) deploy).
Definition retry_derive_success_chains_install : bool :=
  is_done (on_retry_key_derived alice owner_key (Ok derived_key) (ctx MANAGER 0) deploy).
Definition retry_derive_failure_panics : bool :=
  panics_with "mpc key derivation failed"
    (on_retry_key_derived alice owner_key (Err PromiseError_Failed) (ctx MANAGER 0) deploy).

Definition all : list bool :=
  [registry_can_mint; outsider_cannot_mint; dotted_name_rejected; empty_name_rejected;
   underfunded_mint_rejected; derive_success_creates_account; derive_failure_refunds_registry;
   secp256k1_derived_key_treated_as_failure; callback_success_installs_signer;
   callback_failure_refunds_registry; on_creation_failed_reports_creation_failed;
   secp256k1_owner_key_rejected; config_roundtrips; signer_settled_ok_reports_active;
   signer_settled_err_reports_pending; retry_install_accepts_registry; retry_install_rejects_outsider;
   retry_derive_success_chains_install; retry_derive_failure_panics].
End ManagerTests.

(** ** test-mpc/src/lib.rs *)
Module MpcTests.
Definition mpc_ctx : Env := demo_env "caller.testnet" "mpc.testnet" 0 0.
Definition contract : TestMpc.TestMpc := TestMpc.new (replicate 32 7).
Definition derived_key_is_stable_ed25519 : bool :=
  let a := derived_public_key contract "p" "x.testnet" 1 in
  let b := derived_public_key contract "q" "y.testnet" 1 in
  bool_decide (a = b) && bool_decide (pk_as_bytes a !! 0%nat = Some 0).
Definition sign_produces_verifiable_signature : bool :=
  match TestMpc.sign (Some "00ff10"%string) mpc_ctx contract with
  | Done (out, _, _) =>
      bool_decide (scheme out = "Ed25519"%string) &&
      ed25519_verify (signature out) [0; 255; 16] (verifying_key (replicate 32 7))
  | Fail _ => false
  end.
Definition sign_rejects_bad_hex : bool :=
  panics_with "invalid hex" (TestMpc.sign (Some "zz"%string) mpc_ctx contract).
Definition all : list bool :=
  [derived_key_is_stable_ed25519; sign_produces_verifiable_signature; sign_rejects_bad_hex].
End MpcTests.

(** Every unit test that stands in an implementation file holds of the model. *)
Theorem unit_tests_pass :
  forallb id (CommonTests.all ++ TxTests.all ++ Nep413Tests.all ++ FeesTests.all ++ ProofTests.all ++
              RecoveryTxTests.all ++ ManagerTests.all ++ MpcTests.all) = true.
Proof. vm_eq. Qed.
